(* ===== verification/_CoqProject ===== *)
-Q . S2P
Prelude.v
Utils.v
Message.v
Wire.v
MessageTypes.v
Framing.v
CommandPattern.v
Parser.v
Models.v
Services.v
AppService.v
Commands.v
Server.v
ServerInvariant.v
ServerRefinement.v
ServerSpec.v
Queue.v
QueueMemory.v
Crypto.v
KeyHandles.v
Keys.v
ClientContext.v
Client.v
ClientSpec.v
System.v
SystemSpec.v
ClientRefinement.v
Sockets.v
Transport.v
TransportSpec.v
Stack.v
StackSpec.v
Tls.v
TlsSpec.v
Udp.v
Startup.v
Runtime.v
RuntimeSpec.v
ClientStack.v
ClientStackSpec.v
WireSpec.v
Gui.v
GuiSpec.v
Peer.v
PeerSpec.v
PeerStackSpec.v
PeerWireSpec.v
Deployment.v
DeploymentSim.v
DeploymentSpec.v
PeerConnection.v
Logger.v
