(* ===== verification/Prelude.v ===== *)
(** * My-messenger: a verification of the messenger's core

    My-messenger is a chat program with a server, a client and a peer-to-peer
    mode. Users type lines ("/login ann", "/pmess bob hello"), the client turns a
    line into a [Message], encrypts private text for its recipient, serialises it
    and sends it, length-prefixed, over a stream; the server keeps users,
    sessions and chats and relays messages without being able to read private
    ones; peers exchange keys directly. Paths below are relative to the
    repository; [src/] stands for its directory of sources and [include/] for its
    headers.

    ** The files and what they model

    Shared:
    - [Prelude]: this file. Machine integers, the results of C++ code
      ([outcome]: a value, an exception, or undefined behaviour), the state monad
      [M] used where the code mutates a context, with its weakest preconditions;
      lemmas on bytes, lists and strings; tactics and the hint database [cpp].
    - [Utils]: [Base64] ([include/utils/base64.hpp]) over the block functions of
      OpenSSL, which are the class [Evp] with the laws [EvpLaws] and the instance
      [rfc_evp], and the hash of byte vectors ([include/bytes_hash.hpp]), with their
      theorems.
    - [Logger]: [infrastructure/logging/logger.cpp] over log4cplus, which is the class
      [Log4cplus] with the laws [Log4cplusLaws], with its theorem.

    Messages and protocol:
    - [Message]: [models/message.hpp] and [message.cpp]: the message record, its
      constructor, [Serializer] in both wire formats. [Wire], [MessageTypes]: its
      theorems.
    - [Framing]: [protocol/framing.cpp] ([FramerMessage]) and
      [extract_complete_message] of [transport/transport.cpp].
    - [CommandPattern], [Parser]: [command_pattern_matcher.cpp],
      [command_catalog.cpp], [protocol/parser.cpp].
    - [Commands]: the command classes of [application/commands/impl/], one
      constructor of [ICommandHandler] per class, with [fromParsedCommand],
      [toMessage] and [fromMessage]; [CommandFactory] and the registries.

    Server:
    - [Models], [Services]: [User], [Chat]; [UserService], [ChatService],
      [SessionManager].
    - [AppService]: [ServerContext] and [ServerApplicationService]. The transport
      is the class [IServer] of operations, as in the code.
    - [Server]: [execeuteOnServer] of every command, the message handlers, the
      command bus, the dispatcher, [MessagingServer]; [server_step] runs one
      callback of the transport.
    - [ServerInvariant], [ServerRefinement], [ServerSpec]: its theorems.

    Client:
    - [Queue]: [LockFreeQueue] (sequential, and as atomic actions of a producer
      and a consumer) and [MessageQueue]. [QueueMemory]: the same queue with the
      memory orders of its atomics, on a memory in which a thread may read an old
      value: views of what each thread has seen, messages that carry the view of
      a release store, and slots that are plain memory.
    - [Crypto]: HKDF, AES-GCM, the key classes, [EncryptionService]. OpenSSL is
      the class [OpenSSL] of functions; what the code relies on is stated by the
      classes [OpenSSLLaws] and [OpenSSLKeyLaws], and [plain_ssl] is an instance
      of all of them. [Keys]: keys as users exchange them. [KeyHandles]: the
      constructors, assignments and destructors of the key classes, with the calls
      that change the references of a key.
    - [ClientContext], [Client]: the context, [executeOnClient] of every command,
      the handlers, the dispatcher, [MessagingClient]. The transport is the class
      [IClient]. [ClientSpec], [ClientRefinement]: theorems.

    The system:
    - [System]: a server, its clients and the messages between them as one
      transition system. [SystemSpec]: theorems.

    Transport:
    - [Sockets]: [transport/raw_socket.cpp], with the system calls made in order,
      and [Fd] of [transport/interface.hpp].
    - [Transport]: [TCPTransport], [NetBuffer], [ClientConnection]. A socket is a list of the results its
      next system calls will give, and a log of the bytes written.
      [TransportSpec]: theorems. [PeerConnection]: the class of that name, with its
      theorem.
    - [Stack]: [Server] of [transport/server.cpp] as the transport of the
      [MessagingServer], with [ConnectionManager], [ServerHandler], the TLS
      table and the registrations of [EventLoop]; [stack_step] handles one event
      of [EventLoop::run_once]. [StackSpec]: theorems.
    - [Tls]: [TLSTransport]; the wrappers of [transport/tls.cpp], and which [SSL]
      objects and descriptors exist while the server and the client of [Stack] and
      [ClientStack] run and are destroyed: the same handlers, with the calls that
      make, use and free them in place of the data. [TlsSpec]: theorems, and the
      simulation of [Stack].
    - [Udp]: [UDPTransport], with its theorems.
    - [Startup]: the constructors and destructors of [EventLoop], [Server] and
      [Client], [UDPAcceptor], and the variant [ITransport], with their theorems.
    - [Runtime]: starting, running and stopping [Server], a whole round of
      [EventLoop::run_once], and the two threads of [start_server]
      ([application/runtime/runtime.cpp]), whose turns are interleaved by a
      schedule. [RuntimeSpec]: theorems.
    - [ClientStack]: [Client] of [transport/client.cpp] as the transport of the
      [MessagingClient], with [ClientHandler] and its event loop. No constructor
      gives [Client] a framer, so its calls go through a null pointer; whether such
      a call of a function that uses no member runs is the parameter [NullCalls].
      [ClientStackSpec], [WireSpec]: theorems.
    - [Deployment]: the server of [Stack], the clients of [ClientStack] and the byte
      streams between them, on a network that does what the transports rely on: writes
      are taken whole, and an event finds one whole frame and no byte of the next.
      [DeploymentSim]: its relation to [System]; [DeploymentSpec]: theorems.

    Windows:
    - [Gui]: the behaviour of the windows of [ui/], [MessageBridge], and
      [start_gui_client] with its network thread. Qt is the class [Qt], with [QString]
      as an abstract type. [GuiSpec]: theorems.

    Peers:
    - [Peer]: [PeerNode] and its event handlers, [PeerContext], [send_from_peer]
      and [recv_on_peer] of every command, the handlers, the dispatcher,
      [MessagingPeer]; [peer_step] is one thing that happens to a running peer.
      [PeerSpec], [PeerStackSpec], [PeerWireSpec]: theorems.

    ** What the theorems show

    - Wire format ([Wire]): what [serialize] writes, [deserialize] reads back, in
      both formats and with anything behind it; [deserialize] is defined on every
      input; every field of a message it or a constructor makes is in the range of
      its C++ type, and the setters keep it so, except for the 256th metadata entry
      ([message_well_typed]); what it accepts is the encoding of its result up to the
      fields that are not written; where the encoding loses information (128 metadata
      entries, entries of 64 KiB).
    - Framing: the three methods of the framer take a stream of frames that reaches
      them in any chunks apart again ([frames_reassembled]; what the transports below
      it lose is another matter, see Connections); the 32-bit overflow of the size test.
    - Commands and parser: an input line means what the catalog says; a command
      object survives the way over the wire.
    - Server: sessions are a bijection ([SessionManager_bijection]); in every reachable
      state the tables agree with each other ([server_invariant]); an event ends in success, in an exception of
      [deserialize] or in one of the listed ways ([server_step_outcome]); the
      effect and the messages of login, group messages, cipher messages and a
      disconnection; nothing is sent to anyone but the addressees, and one message
      to each at most ([server_addresses]).
    - The system: from an empty server, two users log in, and a line one of them
      types appears on the screen of the other, whatever key exchange it needs
      ([messenger_end_to_end], [private_message_delivered]); on a network as
      [Deployment] has it, and where calls through the null framer of the clients run,
      every run of the deployed system, with sockets, buffers and frames, is a run of
      it, and every run of it is one of the deployed system
      ([deployment_refines_system], [system_deployable]), so that the users see the
      same over the sockets ([deployed_end_to_end]).
    - Server on its sockets: the same invariant together with that of the
      transport's tables, for every sequence of events ([stack_invariant]) and for
      the whole process from [start] on ([server_process_invariant]);
      undefined behaviour only through the overflow of the size test; an event
      with the bytes of a message is the application's step for that message;
      SIGINT ends both threads, under every schedule that lets them run, unless an
      event ends the network thread before with an exception or is undefined, which
      only the overflow of the size test is ([shutdown_terminates]); how [start] can
      fail.
    - Client on its socket: it refines the client over a transport that only
      records, as long as writes are taken whole and frames do not span events, and
      what is lost when they do ([client_stack_refines]); a line typed at the client is a step of the
      server's application, and what the server sends is handled by the client's
      ([line_reaches_application], [answers_reach_client]); the loop over received
      messages terminates; the event loop ends when the connection does, but
      not during the handshake ([client_loop_ends]); how [connect] can fail.
    - Resources: descriptors owned by one [Fd] are closed once, and twice when two own
      it ([Fd_closes_once]); the references of keys are counted right, except by copy
      assignment ([key_references]); no [SSL] object is used after it was freed and a
      running server keeps exactly those of its connections ([ssl_lifetimes],
      [client_ssl_lifetimes]), the handlers of [Tls] and [Stack] agreeing event by
      event ([stack_refines_tls]), while the end of a session is not told to the
      client; what is held when a constructor throws, and the unset descriptor that a
      client which never connected reads when it is destroyed ([setup_resources]).
    - Windows: every line the user enters goes to the client and every answer is shown,
      in order ([gui_session]).
    - Client: the queue of two threads refines a bounded FIFO queue, and with the
      memory orders in the code it has no data race and gives what was put in, once
      and in order ([queue_memory_safe]), which fails when one of them is weakened;
      [encrypt_for] and [decrypt_for] are inverse for two users that have each
      other's keys, and a wrong counter is rejected; messages waiting for a key
      are sent, in order, once it arrives; received messages, files, commands.
    - Connections: what is queued on one side is taken out on the other; three
      ways in which bytes are lost or damaged; which datagrams [UDPTransport]
      accepts; [TLSTransport] behaves as [TCPTransport] below 2^31 bytes
      ([tls_transport_agrees]), and a message passes any [ITransport].
    - Peers: the exchange of keys, from the line typed at one peer through the events
      of both event loops, leaves two peers that can encrypt in both directions
      ([peers_exchange_keys]); [stop] disconnects everyone when the addresses differ, and
      does not when two peers share an address; the tables of a node agree in every
      state ([peer_node_invariant]); a frame that arrives on a connection is given to
      the application message by message, and what was read behind it is lost
      ([peer_event_delivers]).

    ** What is assumed

    The laws of OpenSSL ([OpenSSLLaws], [OpenSSLKeyLaws], [EvpLaws]) and of log4cplus;
    key agreement is assumed for pairs with both private keys, and encryption for sizes
    that fit an [int]. That calls through the null [framer] of a client run is not
    assumed of the program: where a theorem needs it, it is a hypothesis
    ([framer_works]), and without it the calls are [Undef]. That writes are taken whole
    and that an event finds one whole frame are hypotheses of the theorems about
    delivery, by the events they speak of; what happens otherwise is proved in
    [TransportSpec], [ClientStackSpec] and [PeerStackSpec]. The theorems about
    invariants and undefined behaviour make no such assumptions.

    ** Integers, bounds, fuel

    Integers are [Z], with the wrap-around of [uint8_t], [uint16_t], [uint32_t]
    and [size_t], and the narrowing of sizes to [int] in calls of OpenSSL, written where the code's types have it; a byte is [Byte.byte].
    Access outside a buffer and a dereferenced null or empty optional are
    [Undef]. Fuel occurs where a loop is not structural: draining a receive
    buffer (its length plus one: each round removes the four bytes of a prefix),
    cutting a file into chunks (its length), sending the pending messages of a
    user (the size of the ring, which holds one less), decimal digits (ten for
    an [int]), the messages in the buffer of a client (its length plus one); the
    theorems about these loops show that the fuel is enough. Loops that run until
    an event ends them are given the list of what the system reports.

    ** What is not modelled

    Console output; layout and style of the windows and the code Qt
    generates for them; the system calls themselves, whose results are inputs of
    the model; OpenSSL, a parameter; the
    interleaving of threads outside the queue, [start_server] and the signals of
    the windows, so that other data races are not found; [PeerUDPAcceptor::accept],
    which has no body; [ServerBuilder], which nothing uses; which messages are logged.
    The iteration order of unordered containers is a parameter ([IterOrder], [order]) and the
    time stamp an argument ([now]), of each event in [Runtime] and of a whole run
    elsewhere. *)
From Stdlib Require Export ZArith Lia.
From Stdlib Require Strings.Byte.
From stdpp Require Export base tactics gmap strings list fin_maps sets numbers.

#[global] Open Scope Z_scope.

Abbreviation byte := Byte.byte.

(** ** Machine integers *)

Definition u8 (z : Z) : Z := z mod 2 ^ 8.
Definition u16 (z : Z) : Z := z mod 2 ^ 16.
Definition u32 (z : Z) : Z := z mod 2 ^ 32.

(** The conversion to [int]: modulo 2^32, between -2^31 and 2^31 - 1. *)
Definition i32 (z : Z) : Z := (z + 2 ^ 31) mod 2 ^ 32 - 2 ^ 31.

Lemma i32_small z : 0 <= z < 2 ^ 31 -> i32 z = z.
Proof. intros H. unfold i32. rewrite Z.mod_small; lia. Qed.
Definition u64 (z : Z) : Z := z mod 2 ^ 64.

(** ** Bytes ([uint8_t]) and byte vectors *)

Definition b2z (b : byte) : Z := Z.of_N (Byte.to_N b).

Definition z2b (z : Z) : byte :=
  match Byte.of_N (Z.to_N (u8 z)) with
  | Some b => b
  | None => Byte.x00
  end.

#[global] Instance byte_eq_dec : EqDecision byte := Byte.byte_eq_dec.

#[global] Program Instance byte_countable : Countable byte :=
  inj_countable Byte.to_N Byte.of_N _.
Next Obligation. intros x; apply Byte.of_to_N. Qed.

Abbreviation bytes := (list byte).

Definition bstr (b : bytes) : string := String.string_of_list_byte b.
Definition sbytes (s : string) : bytes := String.list_byte_of_string s.

Definition zsize {A} (l : list A) : Z := Z.of_nat (length l).

(** [empty()]. *)
Definition is_empty {A} (l : list A) : bool := match l with [] => true | _ => false end.

(** ** Outcomes *)

Inductive exn :=
| runtime_error (what : string)
| overflow_error (what : string)
| invalid_argument (what : string)
| out_of_range (what : string)
| length_error (what : string)
| bad_function_call
| bad_variant_access.

Inductive outcome (A : Type) :=
| Ok (a : A)
| Throw (e : exn)
| Undef.
Arguments Ok {A} a.
Arguments Throw {A} e.
Arguments Undef {A}.

#[global] Instance outcome_ret : MRet outcome := fun A a => Ok a.
#[global] Instance outcome_bind : MBind outcome := fun A B k c =>
  match c with
  | Ok a => k a
  | Throw e => Throw e
  | Undef => Undef
  end.

Definition M (S A : Type) : Type := S -> outcome A * S.

#[global] Instance M_ret {S} : MRet (M S) := fun A a s => (Ok a, s).
#[global] Instance M_bind {S} : MBind (M S) := fun A B k c s =>
  match c s with
  | (Ok a, s') => k a s'
  | (Throw e, s') => (Throw e, s')
  | (Undef, s') => (Undef, s')
  end.

Definition lift {S A} (c : outcome A) : M S A := fun s => (c, s).
Definition get {S} : M S S := fun s => (Ok s, s).
Definition gets {S A} (f : S -> A) : M S A := fun s => (Ok (f s), s).
Definition modify {S} (f : S -> S) : M S unit := fun s => (Ok tt, f s).

(** [v[i]] on a vector: undefined behaviour out of range. *)
Definition at_ (l : bytes) (i : Z) : outcome byte :=
  if i <? 0 then Undef
  else match l !! Z.to_nat i with
       | Some b => Ok b
       | None => Undef
       end.

(** The iterator range [[begin + i, begin + j)]. *)
Definition range (l : bytes) (i j : Z) : outcome bytes :=
  if (0 <=? i) && (i <=? j) && (j <=? zsize l)
  then Ok (take (Z.to_nat (j - i)) (drop (Z.to_nat i) l))
  else Undef.

(** ** Lemmas shared by the components *)

Create HintDb cpp.
Create Rewrite HintDb cpp.

(** *** Bytes *)

Lemma b2z_range b : 0 <= b2z b < 256.
Proof.
  unfold b2z; pose proof (Byte.to_N_bounded b); lia.
Qed.

Lemma b2z_z2b z : b2z (z2b z) = u8 z.
Proof.
  unfold b2z, z2b.
  assert (Hr : 0 <= u8 z < 256) by (apply Z.mod_pos_bound; lia).
  destruct (Byte.of_N (Z.to_N (u8 z))) as [b|] eqn:E.
  - apply Byte.to_of_N in E; rewrite E; lia.
  - apply Byte.of_N_None_iff in E; lia.
Qed.

Lemma z2b_b2z b : z2b (b2z b) = b.
Proof.
  unfold z2b, b2z, u8. rewrite Z.mod_small by (apply (b2z_range b)).
  by rewrite N2Z.id, Byte.of_to_N.
Qed.

Lemma b2z_inj a b : b2z a = b2z b -> a = b.
Proof. intros H; rewrite <- (z2b_b2z a), <- (z2b_b2z b), H; done. Qed.

Lemma z2b_u8 z : z2b (u8 z) = z2b z.
Proof. apply b2z_inj; rewrite !b2z_z2b; unfold u8; apply Zmod_mod. Qed.

Lemma bstr_sbytes s : bstr (sbytes s) = s.
Proof. apply String.string_of_list_byte_of_string. Qed.

Lemma sbytes_bstr b : sbytes (bstr b) = b.
Proof. apply String.list_byte_of_string_of_list_byte. Qed.

Lemma sbytes_app a b : sbytes (a +:+ b) = sbytes a ++ sbytes b.
Proof. induction a as [|c a IH]; [done | exact (f_equal (cons (Ascii.byte_of_ascii c)) IH)]. Qed.

#[global] Instance bstr_inj : Inj (=) (=) bstr.
Proof. intros a b H; rewrite <- (sbytes_bstr a), <- (sbytes_bstr b), H; done. Qed.

(** *** Sizes *)

Lemma zsize_nil {A} : zsize (@nil A) = 0.
Proof. done. Qed.

Lemma zsize_cons {A} (x : A) l : zsize (x :: l) = 1 + zsize l.
Proof. unfold zsize; cbn [length]; lia. Qed.

Lemma zsize_app {A} (l k : list A) : zsize (l ++ k) = zsize l + zsize k.
Proof. unfold zsize; rewrite length_app; lia. Qed.

Lemma zsize_nonneg {A} (l : list A) : 0 <= zsize l.
Proof. unfold zsize; lia. Qed.

Lemma zsize_zero {A} (l : list A) : zsize l = 0 <-> l = [].
Proof. unfold zsize; destruct l; cbn; split; (done || lia). Qed.

#[export] Hint Rewrite @zsize_nil @zsize_cons @zsize_app sbytes_app sbytes_bstr : cpp.
#[export] Hint Resolve zsize_nonneg b2z_range : cpp.

(** Arithmetic with the sizes of lists: normalise, then [lia]. *)
Ltac sizes :=
  autorewrite with cpp in *;
  repeat match goal with
         | |- context [@zsize ?A ?l] =>
             lazymatch goal with
             | _ : 0 <= zsize l |- _ => fail
             | _ => pose proof (@zsize_nonneg A l)
             end
         | _ : context [@zsize ?A ?l] |- _ =>
             lazymatch goal with
             | _ : 0 <= zsize l |- _ => fail
             | _ => pose proof (@zsize_nonneg A l)
             end
         end;
  lia.

(** Turn the boolean guards of a hypothesis into propositions. *)
Ltac bools :=
  repeat match goal with
         | H : _ && _ = true |- _ => apply andb_true_iff in H as [? ?]
         | H : _ || _ = false |- _ => apply orb_false_iff in H as [? ?]
         | H : negb _ = true |- _ => apply negb_true_iff in H
         | H : negb _ = false |- _ => apply negb_false_iff in H
         | H : (_ <? _) = true |- _ => apply Z.ltb_lt in H
         | H : (_ <? _) = false |- _ => apply Z.ltb_ge in H
         | H : (_ <=? _) = true |- _ => apply Z.leb_le in H
         | H : (_ <=? _) = false |- _ => apply Z.leb_gt in H
         | H : (_ =? _) = true |- _ => apply Z.eqb_eq in H
         | H : (_ =? _) = false |- _ => apply Z.eqb_neq in H
         | H : bool_decide _ = true |- _ => apply bool_decide_eq_true in H
         end.

(** *** Bits: a shifted high part and a low part do not overlap. *)

Lemma lor_shiftl_add h l k :
  0 <= k -> 0 <= l < 2 ^ k -> Z.lor (Z.shiftl h k) l = h * 2 ^ k + l.
Proof.
  intros Hk Hl.
  rewrite <- Z.shiftl_mul_pow2 by lia.
  rewrite <- Z.lxor_lor, <- Z.add_nocarry_lxor; auto.
  all: apply Z.bits_inj'; intros n Hn; rewrite Z.land_spec, Z.bits_0.
  all: destruct (Z.lt_ge_cases n k) as [Hlt|Hge].
  all: try (rewrite Z.shiftl_spec_low by lia; done).
  all: rewrite <- (Z.mod_small l (2 ^ k)) by lia;
    rewrite Z.mod_pow2_bits_high by lia; by rewrite andb_false_r.
Qed.

(** *** Outcomes *)

Lemma obind_Ok {A B} (c : outcome A) (k : A -> outcome B) y :
  (c ≫= k) = Ok y <-> exists x, c = Ok x /\ k x = Ok y.
Proof. destruct c; cbn; naive_solver. Qed.

(** No undefined behaviour. *)
Definition defined {A} (c : outcome A) : Prop := c <> Undef.

Lemma defined_Ok {A} (a : A) : defined (Ok a).
Proof. done. Qed.

Lemma defined_Throw {A} e : defined (@Throw A e).
Proof. done. Qed.

Lemma defined_bind {A B} (c : outcome A) (k : A -> outcome B) :
  defined c -> (forall a, c = Ok a -> defined (k a)) -> defined (c ≫= k).
Proof. unfold defined; destruct c; cbn; naive_solver. Qed.

#[export] Hint Resolve defined_Ok defined_Throw defined_bind : cpp.

(** *** Vector accesses *)

Lemma at_defined l i : 0 <= i < zsize l -> exists b, at_ l i = Ok b.
Proof.
  intros Hi; unfold at_, zsize in *.
  destruct (Z.ltb_spec i 0); [lia|].
  destruct (lookup_lt_is_Some_2 l (Z.to_nat i)) as [b ->]; [lia | eauto].
Qed.

Lemma at_app (p : bytes) b q i : i = zsize p -> at_ (p ++ b :: q) i = Ok b.
Proof.
  intros ->; unfold at_, zsize.
  destruct (Z.ltb_spec (Z.of_nat (length p)) 0); [lia|].
  by rewrite Nat2Z.id, list_lookup_middle.
Qed.

Lemma range_app (p x q : bytes) i j :
  i = zsize p -> j = zsize p + zsize x -> range (p ++ x ++ q) i j = Ok x.
Proof.
  intros -> ->; unfold range, zsize. rewrite !length_app.
  repeat match goal with |- context [?a <=? ?b] => destruct (Z.leb_spec a b); [|lia] end.
  cbn. f_equal. rewrite Nat2Z.id, drop_app_length.
  replace (Z.to_nat _) with (length x) by lia. apply take_app_length.
Qed.

Lemma range_at (l p x q : bytes) i j :
  l = p ++ x ++ q -> i = zsize p -> j = zsize p + zsize x -> range l i j = Ok x.
Proof. intros ->. apply range_app. Qed.

Lemma range_defined l i j :
  0 <= i -> i <= j -> j <= zsize l -> exists x, range l i j = Ok x.
Proof.
  intros; unfold range.
  repeat match goal with |- context [?a <=? ?b] => destruct (Z.leb_spec a b); [|lia] end.
  cbn; eauto.
Qed.

Lemma range_out l i j : zsize l < j -> range l i j = Undef.
Proof.
  intros; unfold range. destruct (Z.leb_spec j (zsize l)); [lia|]. by rewrite andb_false_r.
Qed.

Lemma range_Ok l i j x :
  range l i j = Ok x ->
  0 <= i /\ i <= j /\ j <= zsize l /\ zsize x = j - i /\
  l = take (Z.to_nat i) l ++ x ++ drop (Z.to_nat j) l.
Proof.
  unfold range.
  repeat match goal with |- context [?a <=? ?b] => destruct (Z.leb_spec a b); [|done] end.
  cbn; intros [= <-]; unfold zsize in *.
  rewrite length_take, length_drop. split_and!; try lia.
  replace (drop (Z.to_nat j) l)
    with (drop (Z.to_nat (j - i)) (drop (Z.to_nat i) l))
    by (rewrite drop_drop; f_equal; lia).
  by rewrite take_drop, take_drop.
Qed.

(** *** Maps *)

Lemma dom_alter {V} (f : V -> V) (k : Z) (m : gmap Z V) : dom (alter f k m) = dom m.
Proof.
  apply set_eq. intros i. rewrite !elem_of_dom. destruct (decide (i = k)) as [->|].
  - rewrite lookup_alter_eq. apply fmap_is_Some.
  - by rewrite lookup_alter_ne.
Qed.

(** *** Running the state monad *)

Lemma run_get {S A} (k : S -> M S A) s : (get ≫= k) s = k s s.
Proof. done. Qed.

Lemma run_modify {S A} (f : S -> S) (k : unit -> M S A) s : (modify f ≫= k) s = k tt (f s).
Proof. done. Qed.

Lemma run_lift {S A B} (a : A) (k : A -> M S B) s : (lift (Ok a) ≫= k) s = k a s.
Proof. done. Qed.

Lemma run_bind {S A B} (m : M S A) (k : A -> M S B) s a s' : m s = (Ok a, s') -> (m ≫= k) s = k a s'.
Proof. unfold mbind, M_bind. by intros ->. Qed.

(** A transitive relation between the states before and after each part holds
    between those before and after the whole. *)
Lemma keeps_bind {S A B} (R : S -> S -> Prop) `{!Transitive R} (m : M S A) (k : A -> M S B) :
  (forall s, R s (m s).2) -> (forall a s, R s (k a s).2) -> forall s, R s ((m ≫= k) s).2.
Proof.
  intros Hm Hk s. specialize (Hm s). unfold mbind, M_bind.
  destruct (m s) as [[a| |] s'] eqn:E; cbn in *; try done. etrans; [done|apply Hk].
Qed.

(** *** Weakest preconditions for the state monad *)

(** After running [m] from [s], [Q] holds of its outcome and of the new state. *)
Definition wp {S A} (m : M S A) (Q : outcome A -> S -> Prop) (s : S) : Prop :=
  Q (m s).1 (m s).2.

Section Wp.
  Context {S : Type}.

Lemma wp_ret {A} (a : A) (Q : outcome A -> S -> Prop) s : Q (Ok a) s -> wp (mret a) Q s.
Proof. done. Qed.

Lemma wp_bind {A B} (m : M S A) (k : A -> M S B) Q s :
  wp m (fun r s' => match r with
                    | Ok a => wp (k a) Q s'
                    | Throw e => Q (Throw e) s'
                    | Undef => Q Undef s'
                    end) s -> wp (m ≫= k) Q s.
Proof. unfold wp, mbind, M_bind. by destruct (m s) as [[] ?]. Qed.

Lemma wp_get (Q : outcome S -> S -> Prop) s : Q (Ok s) s -> wp get Q s.
Proof. done. Qed.

Lemma wp_modify (f : S -> S) (Q : outcome unit -> S -> Prop) s : Q (Ok tt) (f s) -> wp (modify f) Q s.
Proof. done. Qed.

Lemma wp_lift {A} (c : outcome A) (Q : outcome A -> S -> Prop) s : Q c s -> wp (lift c) Q s.
Proof. done. Qed.

Lemma wp_mono {A} (m : M S A) (P Q : outcome A -> S -> Prop) s :
  wp m P s -> (forall r s', P r s' -> Q r s') -> wp m Q s.
Proof. unfold wp; auto. Qed.

Lemma wp_run {A} (m : M S A) Q s r s' : m s = (r, s') -> wp m Q s -> Q r s'.
Proof. unfold wp. by intros ->. Qed.

End Wp.

(** Run a program of the state monad symbolically. *)
Ltac wp_step :=
  lazymatch goal with
  | |- wp (_ ≫= _) _ _ => apply wp_bind
  | |- wp (mret _) _ _ => apply wp_ret
  | |- wp get _ _ => apply wp_get
  | |- wp (modify _) _ _ => apply wp_modify
  | |- wp (lift _) _ _ => apply wp_lift
  | |- wp (match ?x with _ => _ end) _ _ => destruct x eqn:?
  | |- wp (let '(_, _) := ?x in _) _ _ => destruct x eqn:?
  | |- match ?x with Ok _ => _ | Throw _ => _ | Undef => _ end => destruct x eqn:?
  end.

Ltac wp_go := repeat (wp_step; cbn beta iota zeta).

(** *** Operations that commute with a map of states: two instances of an operation
    do the same. *)
Definition natural {S S' A} (f : S -> S') (ml : M S A) (mt : M S' A) : Prop :=
  forall s, mt (f s) = ((ml s).1, f (ml s).2).

Lemma natural_ret {S S' A} (f : S -> S') (a : A) : natural f (mret a) (mret a).
Proof. done. Qed.

Lemma natural_lift {S S' A} (f : S -> S') (c : outcome A) : natural f (lift c) (lift c).
Proof. done. Qed.

Lemma natural_bind {S S' A B} (f : S -> S') (ml : M S A) mt (kl : A -> M S B) kt :
  natural f ml mt -> (forall a, natural f (kl a) (kt a)) -> natural f (ml ≫= kl) (mt ≫= kt).
Proof.
  intros Hm Hk s. unfold mbind, M_bind. rewrite Hm. destruct (ml s) as [[] s']; cbn; [apply Hk | done..].
Qed.

Lemma natural_get {S S' B} (f : S -> S') (kl : S -> M S B) kt :
  (forall s, natural f (kl s) (kt (f s))) -> natural f (get ≫= kl) (get ≫= kt).
Proof. intros Hk s. apply Hk. Qed.

Lemma natural_modify {S S'} (f : S -> S') (g : S -> S) (g' : S' -> S') :
  (forall s, g' (f s) = f (g s)) -> natural f (modify g) (modify g').
Proof. intros H s. unfold modify. by rewrite H. Qed.

Lemma natural_run {S S' A} (f : S -> S') (ml : M S A) mt s r s' :
  natural f ml mt -> ml s = (r, s') -> mt (f s) = (r, f s').
Proof. intros H E. by rewrite (H s), E. Qed.
