(* ===== verification/Utils.v ===== *)
(** The utilities: [Base64] of [include/utils/base64.hpp] over the block functions of
    OpenSSL, and the hash of byte vectors of [include/bytes_hash.hpp]. *)
From S2P Require Import Prelude.

(** ** [Base64] *)

(** [EVP_EncodeBlock] gives the characters it writes before a zero byte, and returns
    their number; [EVP_DecodeBlock] the bytes it writes, whose number it returns, or
    a negative number. *)
Class Evp := {
  EVP_EncodeBlock : bytes -> bytes;
  EVP_DecodeBlock : bytes -> option bytes;
}.

(** The conversion of a [size_t] to [int]. *)
Definition s32 (z : Z) : Z := (z + 2 ^ 31) mod 2 ^ 32 - 2 ^ 31.

Definition equals_sign : byte := z2b 61.

Section Base64.
  Context {evp : Evp}.

(** A vector of a negative size is refused; writing behind the end of one is
    undefined. The second argument of [EVP_EncodeBlock] is an [int]. *)
Definition Base64_encode (binary : bytes) : outcome bytes :=
  if is_empty binary then Ok []
  else
    let encoded_len := s32 (u64 (4 * ((zsize binary + 2) / 3))) in
    if encoded_len + 1 <? 0 then Throw (length_error "cannot create std::vector larger than max_size()")
    else
      let n := s32 (zsize binary) in
      if n <? 0 then Undef
      else
        let written := EVP_EncodeBlock (take (Z.to_nat n) binary) in
        if encoded_len + 1 <? zsize written + 1 then Undef
        else Ok written.

(** Whether the character [k] places before the end of a text is a padding. *)
Definition padded_at (text : bytes) (k : Z) : bool :=
  match at_ text (zsize text - k) with
  | Ok c => bool_decide (c = equals_sign)
  | _ => false
  end.

(** [resize] with a negative number asks for too much. *)
Definition Base64_decode (base64_text : bytes) : outcome bytes :=
  if is_empty base64_text then Ok []
  else
    match EVP_DecodeBlock base64_text with
    | None => Ok []
    | Some written =>
        if zsize base64_text <? zsize written then Undef
        else
          let padding := Z.b2z (padded_at base64_text 1)
                       + Z.b2z ((1 <? zsize base64_text) && padded_at base64_text 2) in
          let size := zsize written - padding in
          if size <? 0 then Throw (length_error "vector::_M_default_append")
          else Ok (take (Z.to_nat size) written)
    end.

End Base64.

(** What OpenSSL documents of the two functions: four characters for every three
    bytes begun; the last block is padded with [=], one for each byte it lacks;
    decoding gives a multiple of three bytes, with a zero byte for each padding. *)
Definition lacking (b : bytes) : nat := Z.to_nat ((- zsize b) mod 3).

Class EvpLaws (evp : Evp) : Prop := {
  encode_length b : zsize (EVP_EncodeBlock b) = 4 * ((zsize b + 2) / 3);
  encode_padding b k : b <> [] -> 1 <= k <= 2 ->
    padded_at (EVP_EncodeBlock b) k = (k <=? Z.of_nat (lacking b));
  decode_encode b : b <> [] -> EVP_DecodeBlock (EVP_EncodeBlock b) = Some (b ++ replicate (lacking b) Byte.x00);
}.

Section Roundtrip.
  Context {evp : Evp} {laws : EvpLaws evp}.

Lemma lacking_range b : 0 <= Z.of_nat (lacking b) < 3.
Proof. unfold lacking. pose proof (Z.mod_pos_bound (- zsize b) 3). lia. Qed.

Lemma encode_run b : 4 * ((zsize b + 2) / 3) < 2 ^ 31 - 1 -> b <> [] -> Base64_encode b = Ok (EVP_EncodeBlock b).
Proof.
  intros Hlen Hb. unfold Base64_encode. destruct b as [|x b]; [done|]. cbn [is_empty].
  set (l := x :: b) in *. pose proof (zsize_nonneg l).
  assert (Hdiv : zsize l <= 3 * ((zsize l + 2) / 3)) by (pose proof (Z.div_mod (zsize l + 2) 3); pose proof (Z.mod_pos_bound (zsize l + 2) 3); lia).
  assert (Hs : forall z, 0 <= z < 2 ^ 31 -> s32 z = z) by (intros z Hz; unfold s32; rewrite Z.mod_small; lia).
  unfold u64. rewrite Z.mod_small by lia. rewrite !Hs by lia.
  rewrite (proj2 (Z.ltb_ge _ _)) by lia. rewrite (proj2 (Z.ltb_ge _ _)) by lia.
  rewrite take_ge by (unfold zsize; lia). rewrite encode_length, (proj2 (Z.ltb_ge _ _)) by lia. done.
Qed.

Lemma decode_run b : b <> [] -> Base64_decode (EVP_EncodeBlock b) = Ok b.
Proof.
  intros Hb. pose proof (encode_length b) as Hl. pose proof (lacking_range b) as Hk.
  assert (1 <= zsize b) by (destruct b; [done | sizes]).
  assert (Hdm : zsize b + Z.of_nat (lacking b) = 3 * ((zsize b + 2) / 3)).
  { unfold lacking. rewrite Z2Nat.id by (apply Z.mod_pos_bound; lia).
    pose proof (Z.div_mod (zsize b + 2) 3). pose proof (Z.div_mod (- zsize b) 3).
    pose proof (Z.mod_pos_bound (zsize b + 2) 3). pose proof (Z.mod_pos_bound (- zsize b) 3). lia. }
  unfold Base64_decode. destruct (EVP_EncodeBlock b) as [|c t] eqn:Et; [rewrite zsize_nil in Hl; lia|].
  cbn [is_empty]. rewrite <- Et in *. clear Et c t. rewrite decode_encode by done.
  rewrite !encode_padding by (done || lia).
  assert (Hw : zsize (b ++ replicate (lacking b) Byte.x00) = zsize b + Z.of_nat (lacking b)).
  { rewrite zsize_app. unfold zsize at 2. rewrite length_replicate. lia. }
  rewrite Hw, (proj2 (Z.ltb_ge _ _)) by lia. rewrite (proj2 (Z.ltb_lt 1 _)) by lia. cbn [andb].
  assert (Hp : Z.b2z (1 <=? Z.of_nat (lacking b)) + Z.b2z (2 <=? Z.of_nat (lacking b)) = Z.of_nat (lacking b)).
  { destruct (Z.leb_spec 1 (Z.of_nat (lacking b))), (Z.leb_spec 2 (Z.of_nat (lacking b))); cbn; lia. }
  rewrite Hp, (proj2 (Z.ltb_ge _ _)) by lia. f_equal.
  replace (Z.to_nat _) with (length b) by (unfold zsize; lia). apply take_app_length.
Qed.

(** What [Base64::encode] makes of a vector, [Base64::decode] turns back into the
    same vector, without the zero bytes [EVP_DecodeBlock] puts in the place of the
    padding, and neither writes outside its buffer. *)
Theorem base64_roundtrip (b : bytes) :
  4 * ((zsize b + 2) / 3) < 2 ^ 31 - 1 ->
  exists text, Base64_encode b = Ok text /\ zsize text = 4 * ((zsize b + 2) / 3) /\ Base64_decode text = Ok b.
Proof.
  intros Hlen. destruct b as [|x b]; [by exists []|].
  exists (EVP_EncodeBlock (x :: b)). by rewrite encode_run, decode_run, encode_length.
Qed.

End Roundtrip.

(** *** The block functions of RFC 4648 *)

Definition alphabet : bytes :=
  sbytes "ABCDEFGHIJKLMNOPQRSTUVWXYZabcdefghijklmnopqrstuvwxyz0123456789+/".

Definition character (i : Z) : byte := nth (Z.to_nat i) alphabet Byte.x00.

Fixpoint index_of (c : byte) (l : bytes) (i : Z) : option Z :=
  match l with
  | [] => None
  | x :: l => if bool_decide (x = c) then Some i else index_of c l (i + 1)
  end.

(** The padding counts as a zero. *)
Definition sextet (c : byte) : option Z :=
  if bool_decide (c = equals_sign) then Some 0 else index_of c alphabet 0.

Definition encode_three (x y z : Z) : Z * Z * Z * Z :=
  (x / 4, (x mod 4) * 16 + y / 16, (y mod 16) * 4 + z / 64, z mod 64).

Fixpoint rfc_encode (b : bytes) : bytes :=
  match b with
  | [] => []
  | [x] =>
      let '(p, q, _, _) := encode_three (b2z x) 0 0 in [character p; character q; equals_sign; equals_sign]
  | [x; y] =>
      let '(p, q, r, _) := encode_three (b2z x) (b2z y) 0 in [character p; character q; character r; equals_sign]
  | x :: y :: z :: b =>
      let '(p, q, r, s) := encode_three (b2z x) (b2z y) (b2z z) in
      character p :: character q :: character r :: character s :: rfc_encode b
  end.

Fixpoint rfc_decode (t : bytes) : option bytes :=
  match t with
  | [] => Some []
  | p :: q :: r :: s :: t =>
      p ← sextet p; q ← sextet q; r ← sextet r; s ← sextet s;
      rest ← rfc_decode t;
      Some (z2b (p * 4 + q / 16) :: z2b ((q mod 16) * 16 + r / 4) :: z2b ((r mod 4) * 64 + s) :: rest)
  | _ => None
  end.

Definition rfc_evp : Evp := {| EVP_EncodeBlock := rfc_encode; EVP_DecodeBlock := rfc_decode |}.

Lemma sextet_character i : 0 <= i < 64 -> sextet (character i) = Some i /\ character i <> equals_sign.
Proof.
  intros Hi.
  assert (Hall : forallb (fun n => bool_decide (sextet (character (Z.of_nat n)) = Some (Z.of_nat n) /\
                                                character (Z.of_nat n) <> equals_sign)) (seq 0 64) = true)
    by (vm_compute; reflexivity).
  rewrite forallb_forall in Hall. specialize (Hall (Z.to_nat i)).
  rewrite Z2Nat.id in Hall by lia. apply (bool_decide_eq_true_1 _), Hall, in_seq. lia.
Qed.

(** Three bytes are the four groups of six bits they are cut into. *)
Lemma encode_three_spec x y z :
  0 <= x < 256 -> 0 <= y < 256 -> 0 <= z < 256 ->
  let '(p, q, r, s) := encode_three x y z in
  0 <= p < 64 /\ 0 <= q < 64 /\ 0 <= r < 64 /\ 0 <= s < 64 /\
  p * 4 + q / 16 = x /\ (q mod 16) * 16 + r / 4 = y /\ (r mod 4) * 64 + s = z.
Proof. intros Hx Hy Hz. cbn. Z.to_euclidean_division_equations. lia. Qed.

(** Induction in steps of three. *)
Lemma three_ind (P : bytes -> Prop) :
  P [] -> (forall x, P [x]) -> (forall x y, P [x; y]) ->
  (forall x y z b, P b -> P (x :: y :: z :: b)) -> forall b, P b.
Proof.
  intros H0 H1 H2 H3. fix IH 1. intros [|x [|y [|z b]]]; [done | done | done |]. apply H3, IH.
Qed.

Lemma lacking_three x y z b : lacking (x :: y :: z :: b) = lacking b.
Proof.
  unfold lacking. rewrite !zsize_cons. f_equal.
  replace (- (1 + (1 + (1 + zsize b)))) with (- zsize b + (-1) * 3) by lia. apply Z_mod_plus_full.
Qed.

Lemma padded_at_app (p t : bytes) k : 1 <= k <= zsize t -> padded_at (p ++ t) k = padded_at t k.
Proof.
  intros Hk. unfold padded_at, at_. rewrite zsize_app. pose proof (zsize_nonneg p). unfold zsize in *.
  rewrite !(proj2 (Z.ltb_ge _ 0)) by lia. rewrite lookup_app_r by lia.
  do 2 f_equal. replace (_ - _)%nat with (Z.to_nat (Z.of_nat (length t) - k)) by lia. done.
Qed.

(** A block of four characters, with those that are padding. *)
Lemma padded_block p q r s k : 1 <= k <= 2 ->
  padded_at [p; q; r; s] k = bool_decide ((if k =? 1 then s else r) = equals_sign).
Proof. intros Hk. assert (k = 1 \/ k = 2) as [->| ->] by lia; done. Qed.

Lemma not_padding i : 0 <= i < 64 -> bool_decide (character i = equals_sign) = false.
Proof. intros Hi. apply bool_decide_false, sextet_character, Hi. Qed.

Ltac three x y z :=
  let H := fresh in
  pose proof (encode_three_spec x y z) as H; cbn [encode_three] in H |- *;
  destruct H as (? & ? & ? & ? & ? & ? & ?); [apply b2z_range || lia..|].

Lemma rfc_length b : zsize (rfc_encode b) = 4 * ((zsize b + 2) / 3).
Proof.
  induction b as [| | |x y z b IH] using three_ind; [done..|].
  cbn [rfc_encode encode_three]. rewrite !zsize_cons, IH.
  replace (1 + (1 + (1 + zsize b)) + 2) with (zsize b + 2 + 1 * 3) by lia. rewrite Z.div_add by lia. lia.
Qed.

Lemma rfc_padding b k : b <> [] -> 1 <= k <= 2 -> padded_at (rfc_encode b) k = (k <=? Z.of_nat (lacking b)).
Proof.
  intros Hb Hk. induction b as [|x|x y|x y z b IH] using three_ind; [done|..]; cbn [rfc_encode].
  - cbn [encode_three]. rewrite padded_block by done. assert (k = 1 \/ k = 2) as [->| ->] by lia; done.
  - three (b2z x) (b2z y) 0. rewrite padded_block by done.
    assert (k = 1 \/ k = 2) as [->| ->] by lia; [done|]. cbn [Z.eqb Pos.eqb]. by rewrite not_padding.
  - three (b2z x) (b2z y) (b2z z). rewrite lacking_three. destruct b as [|w b].
    + rewrite padded_block by done. destruct (k =? 1); rewrite not_padding by done; symmetry; apply Z.leb_gt; change (Z.of_nat (lacking [])) with 0; lia.
    + rewrite <- IH by done.
      apply (padded_at_app [_; _; _; _]). rewrite rfc_length.
      assert (1 <= (zsize (w :: b) + 2) / 3) by (apply Z.div_le_lower_bound; sizes). lia.
Qed.

Lemma rfc_decode_block p q r s t u v x y z rest :
  0 <= p < 64 -> 0 <= q < 64 -> sextet r = Some u -> sextet s = Some v -> rfc_decode t = Some rest ->
  p * 4 + q / 16 = x -> (q mod 16) * 16 + u / 4 = y -> (u mod 4) * 64 + v = z ->
  rfc_decode (character p :: character q :: r :: s :: t) = Some (z2b x :: z2b y :: z2b z :: rest).
Proof.
  intros Hp Hq Hr Hs Ht <- <- <-. cbn [rfc_decode].
  rewrite (proj1 (sextet_character p Hp)), (proj1 (sextet_character q Hq)), Hr, Hs, Ht. done.
Qed.

Lemma rfc_roundtrip b : rfc_decode (rfc_encode b) = Some (b ++ replicate (lacking b) Byte.x00).
Proof.
  assert (He : sextet equals_sign = Some 0) by done.
  assert (Hc : forall i, 0 <= i < 64 -> sextet (character i) = Some i) by (intros i Hi; by apply sextet_character).
  induction b as [|x|x y|x y z b IH] using three_ind; [done|..]; cbn [rfc_encode].
  - three (b2z x) 0 0. rewrite (rfc_decode_block _ _ _ _ [] 0 0 (b2z x) 0 0 []) by (done || lia). by rewrite z2b_b2z.
  - three (b2z x) (b2z y) 0. rewrite (rfc_decode_block _ _ _ _ [] _ 0 (b2z x) (b2z y) 0 []) by (eauto || lia).
    by rewrite !z2b_b2z.
  - three (b2z x) (b2z y) (b2z z). rewrite lacking_three.
    rewrite (rfc_decode_block _ _ _ _ _ _ _ (b2z x) (b2z y) (b2z z) _) by eauto. by rewrite !z2b_b2z.
Qed.

#[global] Instance rfc_laws : EvpLaws rfc_evp.
Proof. split; [apply rfc_length | apply rfc_padding | intros b _; apply rfc_roundtrip]. Qed.

(** ** [std::hash<std::vector<uint8_t>>] *)

Definition hash_step (h : Z) (b : byte) : Z := u64 (Z.lxor h (b2z b) * 0x100000001b3).

Definition hash_bytes (v : bytes) : Z := foldl hash_step 0xcbf29ce484222325 v.

Definition size_t_range (z : Z) : Prop := 0 <= z < 2 ^ 64.

Lemma hash_step_range h b : size_t_range (hash_step h b).
Proof. apply Z.mod_pos_bound. lia. Qed.

Lemma hash_from_range v : forall h, size_t_range h -> size_t_range (foldl hash_step h v).
Proof. induction v as [|b v IH]; intros h Hh; cbn; [done|]. apply IH, hash_step_range. Qed.

Lemma hash_bytes_range v : size_t_range (hash_bytes v).
Proof. apply hash_from_range. unfold size_t_range. lia. Qed.

Lemma lxor_range h b : size_t_range h -> size_t_range (Z.lxor h (b2z b)).
Proof.
  intros Hh. pose proof (b2z_range b) as Hb. unfold size_t_range in *.
  assert (E : Z.lxor h (b2z b) = Z.lxor h (b2z b) mod 2 ^ 64).
  { apply Z.bits_inj'. intros n Hn. destruct (Z.lt_ge_cases n 64) as [Hlt|Hge].
    - by rewrite Z.mod_pow2_bits_low.
    - rewrite Z.mod_pow2_bits_high, Z.lxor_spec by lia.
      rewrite <- (Z.mod_small h (2 ^ 64)), <- (Z.mod_small (b2z b) (2 ^ 64)) by lia.
      by rewrite !Z.mod_pow2_bits_high by lia. }
  rewrite E. apply Z.mod_pos_bound. lia.
Qed.

(** The prime has an inverse modulo 2^64. *)
Lemma mul_prime_inj x y :
  size_t_range x -> size_t_range y -> u64 (x * 0x100000001b3) = u64 (y * 0x100000001b3) -> x = y.
Proof.
  intros Hx Hy E.
  assert (Hinv : forall z, size_t_range z -> u64 (u64 (z * 0x100000001b3) * 14886173955864302971) = z).
  { intros z Hz. unfold u64. rewrite Zmult_mod_idemp_l, <- Z.mul_assoc.
    rewrite <- Zmult_mod_idemp_r. replace ((0x100000001b3 * 14886173955864302971) mod 2 ^ 64) with 1 by done.
    rewrite Z.mul_1_r. by apply Z.mod_small. }
  rewrite <- (Hinv x Hx), <- (Hinv y Hy). by rewrite E.
Qed.

Lemma hash_step_inj h h' a b : size_t_range h -> size_t_range h' ->
  hash_step h a = hash_step h' b -> Z.lxor h (b2z a) = Z.lxor h' (b2z b).
Proof. intros Hh Hh'. apply mul_prime_inj; by apply lxor_range. Qed.

Lemma hash_from_inj v : forall h h', size_t_range h -> size_t_range h' ->
  foldl hash_step h v = foldl hash_step h' v -> h = h'.
Proof.
  induction v as [|b v IH]; intros h h' Hh Hh' E; cbn in E; [done|].
  apply IH, hash_step_inj in E; [|done|done|apply hash_step_range..].
  apply (f_equal (fun z => Z.lxor z (b2z b))) in E.
  by rewrite !Z.lxor_assoc, Z.lxor_nilpotent, !Z.lxor_0_r in E.
Qed.

(** The hash is a [size_t], and two vectors that differ in one byte have different
    hashes. *)
Theorem hash_separates (p q : bytes) (a b : byte) :
  hash_bytes (p ++ a :: q) = hash_bytes (p ++ b :: q) -> size_t_range (hash_bytes (p ++ a :: q)) /\ a = b.
Proof.
  intros E. split; [apply hash_bytes_range|]. unfold hash_bytes in E. rewrite !foldl_app in E. cbn in E.
  apply hash_from_inj, hash_step_inj in E; [| apply hash_bytes_range | apply hash_bytes_range | apply hash_step_range..].
  apply (f_equal (Z.lxor (foldl hash_step 0xcbf29ce484222325 p))) in E.
  rewrite <- !Z.lxor_assoc, !Z.lxor_nilpotent, !Z.lxor_0_l in E. by apply b2z_inj.
Qed.

(** ** The properties on concrete inputs *)

Lemma base64_roundtrip_witness :
  exists text, @Base64_encode rfc_evp (sbytes "any carnal pleas") = Ok text /\
    text = sbytes "YW55IGNhcm5hbCBwbGVhcw==" /\ @Base64_decode rfc_evp text = Ok (sbytes "any carnal pleas").
Proof.
  destruct (@base64_roundtrip rfc_evp rfc_laws (sbytes "any carnal pleas")) as (text & E & _ & D).
  - vm_compute. reflexivity.
  - exists text. split; [exact E|]. split; [|exact D]. vm_compute in E. injection E as <-. reflexivity.
Defined.

(** A text that ends in a line break: the padding is not at its end, and a zero byte
    stays, when [EVP_DecodeBlock] ignores the line break, as it is documented to. *)
Lemma base64_trailing_newline {evp : Evp} :
  EVP_DecodeBlock (sbytes "YQ==" ++ [z2b 10]) = Some (sbytes "a" ++ [Byte.x00; Byte.x00]) ->
  Base64_decode (sbytes "YQ==" ++ [z2b 10]) = Ok (sbytes "a" ++ [Byte.x00]).
Proof. intros H. unfold Base64_decode. cbn [is_empty app sbytes]. by rewrite H. Qed.
