(* ===== verification/Message.v ===== *)
(** Messages and their wire format: [include/models/message.hpp] and
    [src/models/message.cpp]. *)
From S2P Require Import Prelude.

(** ** Data *)

(** [enum class MessageType]. The enumeration has a fixed underlying type, so
    [static_cast<MessageType>(raw[0])] keeps any byte: the values that are not
    enumerators are [MessageType_other]. *)
Inductive MessageType :=
| Text
| Command
| HandShake
| CipherMessage
| Response
| FileStart
| FileChunk
| FileEnd
| MessageType_other (b : byte).

#[global] Instance MessageType_eq_dec : EqDecision MessageType.
Proof. solve_decision. Defined.

Definition MessageType_to_byte (t : MessageType) : byte :=
  match t with
  | Text => z2b 0x00
  | Command => z2b 0x01
  | HandShake => z2b 0x02
  | CipherMessage => z2b 0x03
  | Response => z2b 0x04
  | FileStart => z2b 0x05
  | FileChunk => z2b 0x06
  | FileEnd => z2b 0x07
  | MessageType_other b => b
  end.

Definition MessageType_of_byte (b : byte) : MessageType :=
  match b2z b with
  | 0x00 => Text
  | 0x01 => Command
  | 0x02 => HandShake
  | 0x03 => CipherMessage
  | 0x04 => Response
  | 0x05 => FileStart
  | 0x06 => FileChunk
  | 0x07 => FileEnd
  | _ => MessageType_other b
  end.

Definition MessageType_code (t : MessageType) : byte + byte :=
  match t with
  | MessageType_other b => inr b
  | _ => inl (MessageType_to_byte t)
  end.

Definition MessageType_decode (s : byte + byte) : option MessageType :=
  match s with
  | inl b => Some (MessageType_of_byte b)
  | inr b => Some (MessageType_other b)
  end.

Lemma MessageType_decode_code t : MessageType_decode (MessageType_code t) = Some t.
Proof. by destruct t. Qed.

#[global] Instance MessageType_countable : Countable MessageType :=
  inj_countable MessageType_code MessageType_decode MessageType_decode_code.

(** [enum class CommandType]. *)
Inductive CommandType :=
| SEND
| LOGIN
| MAKE_ROOM
| JOIN
| GET_PUBKEY
| GET_USERNAME
| GET_ID
| PRIVATE_MESSAGE
| SEND_FILE
| HELP
| CONNECT
| DISCONNECT
| EXIT
| UNKNOWN
| CommandType_other (b : byte).

#[global] Instance CommandType_eq_dec : EqDecision CommandType.
Proof. solve_decision. Defined.

Definition CommandType_to_byte (c : CommandType) : byte :=
  match c with
  | SEND => z2b 0x01
  | LOGIN => z2b 0x02
  | MAKE_ROOM => z2b 0x03
  | JOIN => z2b 0x04
  | GET_PUBKEY => z2b 0x05
  | GET_USERNAME => z2b 0x06
  | GET_ID => z2b 0x07
  | PRIVATE_MESSAGE => z2b 0x08
  | SEND_FILE => z2b 0x09
  | HELP => z2b 0x0A
  | CONNECT => z2b 0x0B
  | DISCONNECT => z2b 0x0C
  | EXIT => z2b 0xFE
  | UNKNOWN => z2b 0xFF
  | CommandType_other b => b
  end.

Definition CommandType_of_byte (b : byte) : CommandType :=
  match b2z b with
  | 0x01 => SEND
  | 0x02 => LOGIN
  | 0x03 => MAKE_ROOM
  | 0x04 => JOIN
  | 0x05 => GET_PUBKEY
  | 0x06 => GET_USERNAME
  | 0x07 => GET_ID
  | 0x08 => PRIVATE_MESSAGE
  | 0x09 => SEND_FILE
  | 0x0A => HELP
  | 0x0B => CONNECT
  | 0x0C => DISCONNECT
  | 0xFE => EXIT
  | 0xFF => UNKNOWN
  | _ => CommandType_other b
  end.

(** [struct MessageHeader]; the integer fields are unsigned of the widths 32,
    32, 64 and 8. *)
Record MessageHeader := {
  hdr_type : MessageType;
  hdr_length : Z;
  hdr_checksum : Z;
  hdr_timestamp : Z;
  hdr_protocol_version : Z;
}.

(** [struct MessageEnvelope]. *)
Record MessageEnvelope := {
  env_sender : bytes;
  env_recipient : bytes;
  env_sequence_number : Z;
  env_flags : Z;
}.

(** [class Message]. *)
Record Message := {
  header : MessageHeader;
  metalen : Z;
  envelope : MessageEnvelope;
  metadata : list bytes;
  payload : bytes;
}.

Definition kProtocolVersion : Z := 1.
Definition kExtendedFormatFlag : Z := 0x80.

Definition MessageEnvelope_default : MessageEnvelope :=
  {| env_sender := []; env_recipient := []; env_sequence_number := 0; env_flags := 0 |}.

Definition MessageHeader_default : MessageHeader :=
  {| hdr_type := Text; hdr_length := 0; hdr_checksum := 0; hdr_timestamp := 0;
     hdr_protocol_version := 1 |}.

(** [Message() = default]. *)
Definition Message_default : Message :=
  {| header := MessageHeader_default; metalen := 0;
     envelope := MessageEnvelope_default; metadata := []; payload := [] |}.

Definition with_length (h : MessageHeader) (n : Z) : MessageHeader :=
  {| hdr_type := hdr_type h; hdr_length := n; hdr_checksum := hdr_checksum h;
     hdr_timestamp := hdr_timestamp h;
     hdr_protocol_version := hdr_protocol_version h |}.

(** ** [Message] *)

(** The [uint64_t] accumulator wraps; the two tests come after the sum. *)
Definition compute_serialized_size (metalen : Z) (metadata : list bytes)
    (payload : bytes) : outcome Z :=
  let total := 2 in
  let total := foldl (fun t m => u64 (u64 (t + 2) + zsize m)) total metadata in
  let total := u64 (total + 4) in
  let total := u64 (total + zsize payload) in
  if negb (metalen =? zsize metadata)
  then Throw (runtime_error "Malformed message metadata count")
  else if 2 ^ 32 - 1 <? total
  then Throw (overflow_error "Message is too large")
  else Ok (u32 total).

(** The constructor [Message(payload, metalen, metadata, type)], both
    overloads; [now] is the value of [current_timestamp_seconds()]. The
    [metalen] argument is overwritten by the constructor's body. *)
Definition Message_make (now : Z) (payload_ : bytes) (metalen_ : Z)
    (metadata_ : list bytes) (type : MessageType) : outcome Message :=
  let metalen := u8 (zsize metadata_) in
  len ← compute_serialized_size metalen metadata_ payload_;
  Ok {| header := {| hdr_type := type; hdr_length := len; hdr_checksum := 0;
                     hdr_timestamp := now;
                     hdr_protocol_version := kProtocolVersion |};
        metalen := metalen; envelope := MessageEnvelope_default;
        metadata := metadata_; payload := payload_ |}.

Definition Message_get_type (m : Message) : MessageType := hdr_type (header m).

(** [header.length = compute_serialized_size(metalen, metadata, payload)]: the
    message keeps its length when the call throws. *)
Definition update_length (m : Message) : outcome unit * Message :=
  match compute_serialized_size (metalen m) (metadata m) (payload m) with
  | Ok len =>
      (Ok tt, {| header := with_length (header m) len; metalen := metalen m;
                 envelope := envelope m; metadata := metadata m; payload := payload m |})
  | Throw e => (Throw e, m)
  | Undef => (Undef, m)
  end.

(** The methods that change a message give what they end with and the message
    as they leave it, also when they throw. *)
Definition Message_set_payload (m : Message) (new_payload : bytes) : outcome unit * Message :=
  update_length {| header := header m; metalen := metalen m; envelope := envelope m;
                   metadata := metadata m; payload := new_payload |}.

Definition Message_get_payload (m : Message) : bytes := payload m.

(** [index] is a [size_t], so a natural number. *)
Definition Message_get_meta (m : Message) (index : nat) : bytes :=
  match metadata m !! index with
  | Some v => v
  | None => []
  end.

Definition Message_meta_count (m : Message) : nat := length (metadata m).

Definition Message_insert_metadata (m : Message) (meta : bytes) : outcome unit * Message :=
  let metadata' := metadata m ++ [meta] in
  update_length {| header := header m; metalen := u8 (zsize metadata');
                   envelope := envelope m; metadata := metadata'; payload := payload m |}.

Definition Message_validate (m : Message) : bool :=
  (hdr_protocol_version (header m) =? kProtocolVersion)
  && (metalen m =? zsize (metadata m)).

Definition Message_update_checksum (m : Message) : Message :=
  {| header := {| hdr_type := hdr_type (header m); hdr_length := hdr_length (header m);
                  hdr_checksum := 0; hdr_timestamp := hdr_timestamp (header m);
                  hdr_protocol_version := hdr_protocol_version (header m) |};
     metalen := metalen m; envelope := envelope m; metadata := metadata m;
     payload := payload m |}.

(** ** Integers on the wire *)

Definition read_u32 (raw : bytes) (off : Z) : outcome Z :=
  b0 ← at_ raw off;
  b1 ← at_ raw (off + 1);
  b2 ← at_ raw (off + 2);
  b3 ← at_ raw (off + 3);
  Ok (Z.lor (Z.lor (Z.lor (u32 (Z.shiftl (b2z b0) 24)) (u32 (Z.shiftl (b2z b1) 16)))
                   (u32 (Z.shiftl (b2z b2) 8)))
            (b2z b3)).

(** The loop of [read_u64] from index [i] with [n] iterations to go. *)
Fixpoint read_u64_loop (raw : bytes) (off : Z) (n : nat) (i value : Z) : outcome Z :=
  match n with
  | O => Ok value
  | S n' =>
      b ← at_ raw (off + i);
      read_u64_loop raw off n' (i + 1) (Z.lor value (u64 (Z.shiftl (b2z b) (i * 8))))
  end.

Definition read_u64 (raw : bytes) (off : Z) : outcome Z := read_u64_loop raw off 8 0 0.

Definition write_u32 (value : Z) : bytes :=
  [z2b (Z.land (Z.shiftr value 24) 0xFF); z2b (Z.land (Z.shiftr value 16) 0xFF);
   z2b (Z.land (Z.shiftr value 8) 0xFF); z2b (Z.land value 0xFF)].

Definition write_u64 (value : Z) : bytes :=
  map (fun i => z2b (Z.land (Z.shiftr value (i * 8)) 0xFF)) (seqZ 0 8).

(** ** [Serializer] *)

(** The loop over [msg.metadata] of both formats. *)
Definition write_meta (m : bytes) : bytes :=
  let len := u16 (zsize m) in
  [z2b (Z.shiftr len 8); z2b (Z.land len 0xFF)] ++ m.

Definition write_metadata (ms : list bytes) : bytes := concat (map write_meta ms).

Definition use_extended_format (msg : Message) : bool :=
  negb (is_empty (env_sender (envelope msg)))
  || negb (is_empty (env_recipient (envelope msg)))
  || negb (env_sequence_number (envelope msg) =? 0)
  || negb (env_flags (envelope msg) =? 0)
  || negb (hdr_protocol_version (header msg) =? kProtocolVersion).

Definition Serializer_serialize (msg : Message) : bytes :=
  if negb (use_extended_format msg) then
    [MessageType_to_byte (hdr_type (header msg)); z2b (metalen msg)]
    ++ write_metadata (metadata msg)
    ++ write_u32 (u32 (zsize (payload msg)))
    ++ payload msg
  else
    [MessageType_to_byte (hdr_type (header msg));
     z2b (Z.lor kExtendedFormatFlag (Z.land (hdr_protocol_version (header msg)) 0x7F))]
    ++ write_u32 (env_flags (envelope msg))
    ++ write_u64 (hdr_timestamp (header msg))
    ++ [z2b (zsize (env_sender (envelope msg)))] ++ env_sender (envelope msg)
    ++ [z2b (zsize (env_recipient (envelope msg)))] ++ env_recipient (envelope msg)
    ++ write_u64 (env_sequence_number (envelope msg))
    ++ write_u32 (env_flags (envelope msg))
    ++ [z2b (metalen msg)]
    ++ write_metadata (metadata msg)
    ++ write_u32 (u32 (zsize (payload msg)))
    ++ payload msg.

(** The metadata loop of both formats: [n] entries from offset [off]; the
    entries and the offset after them. *)
Fixpoint read_metadata (raw : bytes) (n : nat) (off : Z) : outcome (list bytes * Z) :=
  match n with
  | O => Ok ([], off)
  | S n' =>
      if zsize raw <? off + 2
      then Throw (runtime_error "Malformed message: metadata length missing")
      else
        hi ← at_ raw off;
        lo ← at_ raw (off + 1);
        let len := u16 (Z.lor (Z.shiftl (b2z hi) 8) (b2z lo)) in
        let off := off + 2 in
        if zsize raw <? off + len
        then Throw (runtime_error "Malformed message: metadata out of bounds")
        else
          m ← range raw off (off + len);
          '(ms, off) ← read_metadata raw n' (off + len);
          Ok (m :: ms, off)
  end.

(** The payload: a 32-bit length and that many bytes. *)
Definition read_payload (raw : bytes) (off : Z) : outcome bytes :=
  if zsize raw <? off + 4
  then Throw (runtime_error "Malformed message: payload length missing")
  else
    plen ← read_u32 raw off;
    let off := off + 4 in
    if zsize raw <? off + plen
    then Throw (runtime_error "Malformed message: payload out of bounds")
    else range raw off (off + plen).

(** A byte of length and that many bytes: sender and recipient. *)
Definition read_short (raw : bytes) (off : Z) (missing bounds : string) :
    outcome (bytes * Z) :=
  if zsize raw <=? off then Throw (runtime_error missing)
  else
    len ← at_ raw off;
    let off := off + 1 in
    if zsize raw <? off + b2z len then Throw (runtime_error bounds)
    else
      v ← range raw off (off + b2z len);
      Ok (v, off + b2z len).

Definition deserialize_basic (raw : bytes) (type : MessageType) (second : byte) :
    outcome Message :=
  let metalen := b2z second in
  '(metadata, off) ← read_metadata raw (Z.to_nat metalen) 2;
  payload ← read_payload raw off;
  len ← compute_serialized_size metalen metadata payload;
  Ok {| header := {| hdr_type := type; hdr_length := len; hdr_checksum := 0;
                     hdr_timestamp := 0; hdr_protocol_version := kProtocolVersion |};
        metalen := metalen; envelope := MessageEnvelope_default;
        metadata := metadata; payload := payload |}.

Definition deserialize_extended (raw : bytes) (type : MessageType) (second : byte) :
    outcome Message :=
  let version := Z.land (b2z second) 0x7F in
  if version =? 0 then Throw (runtime_error "Unsupported protocol version")
  else
    let off := 2 in
    if zsize raw <? off + 4 then Throw (runtime_error "Malformed message: flags missing")
    else
    _ ← read_u32 raw off;
    let off := off + 4 in
    if zsize raw <? off + 8
    then Throw (runtime_error "Malformed message: timestamp missing")
    else
    timestamp ← read_u64 raw off;
    let off := off + 8 in
    '(sender, off) ← read_short raw off "Malformed message: sender length missing"
                       "Malformed message: sender out of bounds";
    '(recipient, off) ← read_short raw off "Malformed message: recipient length missing"
                       "Malformed message: recipient out of bounds";
    if zsize raw <? off + 8
    then Throw (runtime_error "Malformed message: sequence missing")
    else
    sequence_number ← read_u64 raw off;
    let off := off + 8 in
    if zsize raw <? off + 4
    then Throw (runtime_error "Malformed message: envelope flags missing")
    else
    flags ← read_u32 raw off;
    let off := off + 4 in
    if zsize raw <=? off
    then Throw (runtime_error "Malformed message: metadata count missing")
    else
    count ← at_ raw off;
    let off := off + 1 in
    '(metadata, off) ← read_metadata raw (Z.to_nat (b2z count)) off;
    payload ← read_payload raw off;
    Ok {| header := {| hdr_type := type; hdr_length := u32 (zsize raw - 2);
                       hdr_checksum := 0; hdr_timestamp := timestamp;
                       hdr_protocol_version := version |};
          metalen := b2z count;
          envelope := {| env_sender := sender; env_recipient := recipient;
                         env_sequence_number := sequence_number; env_flags := flags |};
          metadata := metadata; payload := payload |}.

Definition Serializer_deserialize (raw : bytes) : outcome Message :=
  if zsize raw <? 6 then Throw (runtime_error "Malformed message: too short")
  else
    type ← at_ raw 0;
    second ← at_ raw 1;
    if Z.land (b2z second) kExtendedFormatFlag =? 0
    then deserialize_basic raw (MessageType_of_byte type) second
    else deserialize_extended raw (MessageType_of_byte type) second.

(** ** [StaticResponses]: the replies written as literal bytes *)

Definition CHAT_NOT_FOUND : bytes :=
  map z2b [
     0x00; 0x00; 0x00; 0x00; 0x00; 0x0e; 0x43; 0x68; 0x61; 0x74; 0x20;
     0x6e; 0x6f; 0x74; 0x20; 0x66; 0x6f; 0x75; 0x6e; 0x64].

Definition USER_NOT_FOUND : bytes :=
  map z2b [
     0x00; 0x00; 0x00; 0x00; 0x00; 0x16; 0x5b; 0x45; 0x52; 0x52; 0x4f;
     0x52; 0x5d; 0x20; 0x55; 0x73; 0x65; 0x72; 0x20; 0x6e; 0x6f; 0x74;
     0x20; 0x66; 0x6f; 0x75; 0x6e; 0x64].

Definition YOU_NEED_TO_LOGIN : bytes :=
  map z2b [
     0x00; 0x00; 0x00; 0x00; 0x00; 0x24; 0x5b; 0x45; 0x72; 0x72; 0x6f;
     0x72; 0x5d; 0x3a; 0x20; 0x59; 0x6f; 0x75; 0x20; 0x6d; 0x75; 0x73;
     0x74; 0x20; 0x61; 0x75; 0x74; 0x68; 0x65; 0x6e; 0x74; 0x69; 0x63;
     0x61; 0x74; 0x65; 0x20; 0x66; 0x69; 0x72; 0x73; 0x74].

Definition WRONG_COMMAND_USAGE : bytes :=
  map z2b [
     0x00; 0x00; 0x00; 0x00; 0x00; 0x3c; 0x5b; 0x45; 0x72; 0x72; 0x6f;
     0x72; 0x5d; 0x3a; 0x20; 0x57; 0x72; 0x6f; 0x6e; 0x67; 0x20; 0x63;
     0x6f; 0x6d; 0x6d; 0x61; 0x6e; 0x64; 0x20; 0x75; 0x73; 0x61; 0x67;
     0x65; 0x2e; 0x20; 0x50; 0x6c; 0x65; 0x61; 0x73; 0x65; 0x20; 0x75;
     0x73; 0x65; 0x20; 0x2f; 0x68; 0x65; 0x6c; 0x70; 0x20; 0x74; 0x6f;
     0x20; 0x67; 0x65; 0x74; 0x20; 0x61; 0x20; 0x68; 0x65; 0x6c; 0x70].

Definition EMPTY_CHAT_NAME : bytes :=
  map z2b [
     0x00; 0x00; 0x00; 0x00; 0x00; 0x18; 0x5b; 0x45; 0x72; 0x72; 0x6f;
     0x72; 0x5d; 0x3a; 0x20; 0x45; 0x6d; 0x70; 0x74; 0x79; 0x20; 0x63;
     0x68; 0x61; 0x74; 0x20; 0x6e; 0x61; 0x6d; 0x65].

Definition CHAT_ALREADY_EXISTS : bytes :=
  map z2b [
     0x00; 0x00; 0x00; 0x00; 0x00; 0x1f; 0x5b; 0x45; 0x72; 0x72; 0x6f;
     0x72; 0x5d; 0x3a; 0x20; 0x43; 0x68; 0x61; 0x74; 0x20; 0x69; 0x73;
     0x20; 0x61; 0x6c; 0x72; 0x65; 0x61; 0x64; 0x79; 0x20; 0x65; 0x78;
     0x69; 0x73; 0x74; 0x73].

Definition YOU_ARE_ALREADY_MEMBER : bytes :=
  map z2b [
     0x00; 0x00; 0x00; 0x00; 0x00; 0x2c; 0x5b; 0x45; 0x72; 0x72; 0x6f;
     0x72; 0x5d; 0x3a; 0x20; 0x59; 0x6f; 0x75; 0x20; 0x61; 0x72; 0x65;
     0x20; 0x61; 0x6c; 0x72; 0x65; 0x61; 0x64; 0x79; 0x20; 0x6d; 0x65;
     0x6d; 0x62; 0x65; 0x72; 0x20; 0x6f; 0x66; 0x20; 0x74; 0x68; 0x69;
     0x73; 0x20; 0x63; 0x68; 0x61; 0x74].

Definition PUBLIC_KEY_HAS_NOT_SET : bytes :=
  map z2b [
     0x00; 0x00; 0x00; 0x00; 0x00; 0x24; 0x5b; 0x45; 0x72; 0x72; 0x6f;
     0x72; 0x5d; 0x3a; 0x20; 0x50; 0x75; 0x62; 0x6c; 0x69; 0x63; 0x20;
     0x6b; 0x65; 0x79; 0x20; 0x68; 0x61; 0x73; 0x20; 0x6e; 0x6f; 0x74;
     0x20; 0x62; 0x65; 0x65; 0x6e; 0x20; 0x73; 0x65; 0x74].

Definition YOU_ARE_LOGGED_IN : bytes :=
  map z2b [
     0x00; 0x00; 0x00; 0x00; 0x00; 0x22; 0x5b; 0x45; 0x72; 0x72; 0x6f;
     0x72; 0x5d; 0x3a; 0x20; 0x59; 0x6f; 0x75; 0x20; 0x61; 0x72; 0x65;
     0x20; 0x61; 0x6c; 0x72; 0x65; 0x61; 0x64; 0x79; 0x20; 0x6c; 0x6f;
     0x67; 0x67; 0x65; 0x64; 0x20; 0x69; 0x6e].

Definition YOU_ARE_NOT_MEMBER : bytes :=
  map z2b [
     0x00; 0x00; 0x00; 0x00; 0x00; 0x28; 0x5b; 0x45; 0x72; 0x72; 0x6f;
     0x72; 0x5d; 0x3a; 0x20; 0x59; 0x6f; 0x75; 0x20; 0x61; 0x72; 0x65;
     0x20; 0x6e; 0x6f; 0x74; 0x20; 0x6d; 0x65; 0x6d; 0x62; 0x65; 0x72;
     0x20; 0x6f; 0x66; 0x20; 0x74; 0x68; 0x69; 0x73; 0x20; 0x63; 0x68;
     0x61; 0x74].
