(* ===== verification/Wire.v ===== *)
(** Correctness of the wire format of [Message.v]: round trips in both
    formats, absence of undefined behaviour on arbitrary input, canonical
    encodings, rejection of truncated input, and the size field. *)
From S2P Require Import Prelude Message.

(** ** Integers *)

Lemma at_app_shift (p q : bytes) i : 0 <= i -> at_ (p ++ q) (zsize p + i) = at_ q i.
Proof.
  intros Hi; unfold at_, zsize.
  destruct (Z.ltb_spec i 0), (Z.ltb_spec (Z.of_nat (length p) + i) 0); try lia.
  rewrite lookup_app_r by lia. 
  by replace (Z.to_nat _ - length p)%nat with (Z.to_nat i) by lia.
Qed.

Lemma land_255 z : Z.land z 255 = u8 z.
Proof. change 255 with (Z.ones 8); by rewrite Z.land_ones. Qed.

Lemma byte_of_shift z k : 0 <= k -> b2z (z2b (Z.land (Z.shiftr z k) 255)) = z / 2 ^ k mod 256.
Proof.
  intros; rewrite b2z_z2b, land_255, Z.shiftr_div_pow2 by lia.
  unfold u8; by rewrite Zmod_mod.
Qed.

Lemma be32_combine a b c d :
  0 <= a < 256 -> 0 <= b < 256 -> 0 <= c < 256 -> 0 <= d < 256 ->
  Z.lor (Z.lor (Z.lor (u32 (Z.shiftl a 24)) (u32 (Z.shiftl b 16))) (u32 (Z.shiftl c 8))) d
  = a * 2 ^ 24 + b * 2 ^ 16 + c * 2 ^ 8 + d.
Proof.
  intros. unfold u32. rewrite !Z.mod_small by (rewrite Z.shiftl_mul_pow2; lia).
  rewrite <- !Z.lor_assoc, (lor_shiftl_add c d 8), (lor_shiftl_add b _ 16),
    (lor_shiftl_add a _ 24); lia.
Qed.

Lemma at_write_u32 v q :
  at_ (write_u32 v ++ q) 0 = Ok (z2b (Z.land (Z.shiftr v 24) 255)) /\
  at_ (write_u32 v ++ q) 1 = Ok (z2b (Z.land (Z.shiftr v 16) 255)) /\
  at_ (write_u32 v ++ q) 2 = Ok (z2b (Z.land (Z.shiftr v 8) 255)) /\
  at_ (write_u32 v ++ q) 3 = Ok (z2b (Z.land v 255)).
Proof. done. Qed.

Lemma read_write_u32 (p q : bytes) off v :
  off = zsize p -> read_u32 (p ++ write_u32 v ++ q) off = Ok (u32 v).
Proof.
  intros ->; unfold read_u32.
  rewrite <- (Z.add_0_r (zsize p)) at 1.
  rewrite !at_app_shift by lia.
  destruct (at_write_u32 v q) as (-> & -> & -> & ->); cbn [mbind outcome_bind].
  rewrite be32_combine by (apply b2z_range).
  rewrite <- (Z.shiftr_0_r v) at 4.
  rewrite !byte_of_shift by lia. unfold u32. f_equal.
  Z.to_euclidean_division_equations; lia.
Qed.

(** One step of the little-endian loop: [value] holds the [i] low bytes. *)
Lemma le64_step value b i :
  0 <= i < 8 -> 0 <= value < 2 ^ (i * 8) -> 0 <= b < 256 ->
  Z.lor value (u64 (Z.shiftl b (i * 8))) = b * 2 ^ (i * 8) + value /\
  0 <= b * 2 ^ (i * 8) + value < 2 ^ ((i + 1) * 8).
Proof.
  intros Hi Hv Hb.
  assert (Hp : 2 ^ ((i + 1) * 8) = 256 * 2 ^ (i * 8))
    by (replace ((i + 1) * 8) with (8 + i * 8) by lia; rewrite Z.pow_add_r; lia).
  assert (Hle : 2 ^ ((i + 1) * 8) <= 2 ^ 64) by (apply Z.pow_le_mono_r; lia).
  split; [|nia].
  unfold u64; rewrite Z.mod_small by (rewrite Z.shiftl_mul_pow2; nia).
  rewrite Z.lor_comm. apply lor_shiftl_add; lia.
Qed.

Lemma div_pow2_split v i n :
  0 <= i -> 0 <= n ->
  v / 2 ^ (i * 8) mod 2 ^ ((n + 1) * 8)
  = v / 2 ^ (i * 8) mod 256 + 256 * (v / 2 ^ ((i + 1) * 8) mod 2 ^ (n * 8)).
Proof.
  intros. replace ((i + 1) * 8) with (i * 8 + 8) by lia.
  replace ((n + 1) * 8) with (8 + n * 8) by lia.
  rewrite !Z.pow_add_r, <- Z.div_div by lia.
  change (2 ^ 8) with 256. rewrite Z.rem_mul_r by lia. lia.
Qed.

Lemma read_u64_loop_write (p q : bytes) v n : forall i value,
  0 <= i -> i + Z.of_nat n <= 8 -> 0 <= value < 2 ^ (i * 8) ->
  (forall j, i <= j < i + Z.of_nat n ->
     at_ (p ++ q) (zsize p + j) = Ok (z2b (Z.land (Z.shiftr v (j * 8)) 255))) ->
  read_u64_loop (p ++ q) (zsize p) n i value
  = Ok (value + 2 ^ (i * 8) * (v / 2 ^ (i * 8) mod 2 ^ (Z.of_nat n * 8))).
Proof.
  induction n as [|n IH]; intros i value Hi Hn Hv Hat.
  - cbn [read_u64_loop]. rewrite Z.mod_1_r. f_equal; lia.
  - cbn [read_u64_loop]. rewrite Hat by lia. cbn [mbind outcome_bind].
    pose proof (b2z_range (z2b (Z.land (Z.shiftr v (i * 8)) 255))) as Hb.
    destruct (le64_step value _ i ltac:(lia) Hv Hb) as [-> Hv'].
    rewrite IH; [|lia|lia|done|intros; apply Hat; lia].
    rewrite byte_of_shift by lia. f_equal.
    replace (Z.of_nat (S n)) with (Z.of_nat n + 1) by lia.
    rewrite (div_pow2_split v i (Z.of_nat n)) by lia.
    replace ((i + 1) * 8) with (8 + i * 8) by lia.
    rewrite Z.pow_add_r by lia. change (2 ^ 8) with 256. ring.
Qed.

Lemma at_write_u64 v q j :
  0 <= j < 8 -> at_ (write_u64 v ++ q) j = Ok (z2b (Z.land (Z.shiftr v (j * 8)) 255)).
Proof.
  intros. assert (j = 0 \/ j = 1 \/ j = 2 \/ j = 3 \/ j = 4 \/ j = 5 \/ j = 6 \/ j = 7)
    as Hj by lia.
  by destruct_or!; subst j.
Qed.

Lemma read_write_u64 (p q : bytes) off v :
  off = zsize p -> read_u64 (p ++ write_u64 v ++ q) off = Ok (u64 v).
Proof.
  intros ->; unfold read_u64.
  rewrite (read_u64_loop_write p (write_u64 v ++ q) v 8 0 0); [|lia|lia|lia|].
  - rewrite Z.mul_0_l, Z.pow_0_r, Z.div_1_r, Z.mul_1_l. done.
  - intros j Hj. rewrite at_app_shift by lia. apply at_write_u64; lia.
Qed.

Lemma zsize_write_u32 v : zsize (write_u32 v) = 4.
Proof. done. Qed.

Lemma zsize_write_u64 v : zsize (write_u64 v) = 8.
Proof. done. Qed.

#[export] Hint Rewrite zsize_write_u32 zsize_write_u64 : cpp.

(** ** Reading back what the loops wrote, and the converse *)

(** Positions: a buffer [p ++ r] read at offset [zsize p]. *)
Lemma at_inv (p r : bytes) b : at_ (p ++ r) (zsize p) = Ok b -> exists r', r = b :: r'.
Proof.
  rewrite <- (Z.add_0_r (zsize p)), at_app_shift by lia.
  destruct r as [|c r]; [done|]. cbn. intros [= ->]; eauto.
Qed.

Lemma range_inv (p r x : bytes) n :
  range (p ++ r) (zsize p) (zsize p + n) = Ok x -> exists r', r = x ++ r' /\ zsize x = n.
Proof.
  intros (_ & ? & ? & Hx & E)%range_Ok.
  unfold zsize in E; rewrite Nat2Z.id, take_app_length in E.
  apply app_inv_head in E. eexists; split; [exact E | lia].
Qed.

Lemma le16_split a b : 0 <= a < 256 -> 0 <= b < 256 ->
  u16 (Z.lor (Z.shiftl a 8) b) = a * 256 + b.
Proof. intros. rewrite lor_shiftl_add by lia. apply Z.mod_small; lia. Qed.

Lemma write_meta_bytes (m : bytes) :
  zsize m < 2 ^ 16 ->
  u16 (Z.lor (Z.shiftl (b2z (z2b (Z.shiftr (u16 (zsize m)) 8))) 8)
             (b2z (z2b (Z.land (u16 (zsize m)) 255)))) = zsize m.
Proof.
  intros Hm. rewrite le16_split by apply b2z_range.
  rewrite land_255, !b2z_z2b, Z.shiftr_div_pow2 by lia. unfold u8, u16.
  pose proof (zsize_nonneg m). Z.to_euclidean_division_equations; lia.
Qed.

Lemma zsize_write_meta m : zsize (write_meta m) = 2 + zsize m.
Proof. unfold write_meta; sizes. Qed.

Lemma write_metadata_cons m ms : write_metadata (m :: ms) = write_meta m ++ write_metadata ms.
Proof. done. Qed.

#[export] Hint Rewrite zsize_write_meta write_metadata_cons : cpp.

Definition small_meta (m : bytes) : Prop := zsize m < 2 ^ 16.

Lemma read_metadata_write ms : forall p q off,
  off = zsize p -> Forall small_meta ms ->
  read_metadata (p ++ write_metadata ms ++ q) (length ms) off
  = Ok (ms, off + zsize (write_metadata ms)).
Proof.
  induction ms as [|m ms IH]; intros p q off -> Hsm.
  - cbn. do 2 f_equal; sizes.
  - apply Forall_cons_iff in Hsm as [Hm Hsm].
    rewrite write_metadata_cons. cbn [length read_metadata].
    set (hi := z2b (Z.shiftr (u16 (zsize m)) 8)).
    set (lo := z2b (Z.land (u16 (zsize m)) 255)).
    assert (E : p ++ (write_meta m ++ write_metadata ms) ++ q
                = p ++ hi :: lo :: m ++ write_metadata ms ++ q)
      by (unfold write_meta; rewrite <- !app_assoc; done).
    rewrite E. destruct (Z.ltb_spec (zsize (p ++ hi :: lo :: m ++ write_metadata ms ++ q))
                (zsize p + 2)) as [?|_]; [sizes|].
    rewrite (at_app p hi _ (zsize p)) by done. cbn [mbind outcome_bind].
    rewrite at_app_shift by lia.
    change (at_ (hi :: lo :: m ++ write_metadata ms ++ q) 1) with (Ok lo).
    cbn [mbind outcome_bind]. unfold hi, lo; rewrite write_meta_bytes by done. fold hi lo.
    destruct (Z.ltb_spec (zsize (p ++ hi :: lo :: m ++ write_metadata ms ++ q))
                (zsize p + 2 + zsize m)) as [?|_]; [sizes|].
    change (p ++ hi :: lo :: m ++ write_metadata ms ++ q)
      with (p ++ [hi; lo] ++ m ++ write_metadata ms ++ q).
    rewrite (app_assoc p), range_app by sizes. cbn [mbind outcome_bind].
    rewrite (app_assoc _ m), (IH ((p ++ [hi; lo]) ++ m)) by (done || sizes).
    cbn [mbind outcome_bind]. do 2 f_equal. sizes.
Qed.

Lemma read_metadata_inv n : forall p r ms off',
  read_metadata (p ++ r) n (zsize p) = Ok (ms, off') ->
  exists r', r = write_metadata ms ++ r' /\ off' = zsize p + zsize (write_metadata ms)
    /\ length ms = n /\ Forall small_meta ms.
Proof.
  induction n as [|n IH]; intros p r ms off' H; cbn [read_metadata] in H.
  - injection H as <- <-. exists r. split_and!; (done || sizes).
  - case_match; [done|].
    apply obind_Ok in H as (hi & Hhi & H). apply at_inv in Hhi as [r1 ->].
    apply obind_Ok in H as (lo & Hlo & H).
    rewrite at_app_shift in Hlo by lia.
    destruct r1 as [|lo' r1]; [done|]. cbn in Hlo; injection Hlo as ->.
    rewrite le16_split in H by apply b2z_range.
    case_match; [done|].
    apply obind_Ok in H as (m & Hm & H).
    replace (p ++ hi :: lo :: r1) with ((p ++ [hi; lo]) ++ r1) in * by (by rewrite <- app_assoc).
    replace (zsize p + 2) with (zsize (p ++ [hi; lo])) in * by sizes.
    apply range_inv in Hm as (r2 & -> & Hm).
    apply obind_Ok in H as ([ms' o] & Hms & H). injection H as <- <-.
    rewrite app_assoc, <- Hm, <- zsize_app in Hms.
    apply IH in Hms as (r3 & -> & -> & <- & Hsm).
    pose proof (b2z_range hi); pose proof (b2z_range lo).
    assert (write_meta m = hi :: lo :: m) as Ew.
    { unfold write_meta, u16. rewrite Hm, Z.mod_small, Z.shiftr_div_pow2, land_255 by lia.
      cbn. f_equal; [|f_equal]; apply b2z_inj; rewrite ?b2z_z2b; unfold u8;
        Z.to_euclidean_division_equations; lia. }
    exists r3. rewrite write_metadata_cons, Ew. split_and!.
    + cbn. by rewrite <- app_assoc.
    + sizes.
    + done.
    + constructor; [|done]. unfold small_meta; lia.
Qed.

Lemma write_u32_inv a b c d :
  write_u32 (b2z a * 2 ^ 24 + b2z b * 2 ^ 16 + b2z c * 2 ^ 8 + b2z d) = [a; b; c; d].
Proof.
  pose proof (b2z_range a); pose proof (b2z_range b);
  pose proof (b2z_range c); pose proof (b2z_range d).
  unfold write_u32. rewrite !land_255, !Z.shiftr_div_pow2 by lia.
  repeat f_equal; apply b2z_inj; rewrite b2z_z2b; unfold u8;
    Z.to_euclidean_division_equations; lia.
Qed.

Lemma read_u32_inv (p r : bytes) v :
  read_u32 (p ++ r) (zsize p) = Ok v ->
  exists r', r = write_u32 v ++ r' /\ 0 <= v < 2 ^ 32.
Proof.
  unfold read_u32. rewrite <- (Z.add_0_r (zsize p)) at 1. rewrite !at_app_shift by lia.
  destruct r as [|a [|b [|c [|d r]]]]; try done.
  cbn [mbind outcome_bind at_]. intros [= <-].
  pose proof (b2z_range a); pose proof (b2z_range b);
  pose proof (b2z_range c); pose proof (b2z_range d).
  rewrite be32_combine, write_u32_inv by lia. exists r; split; [done | lia].
Qed.

Lemma read_payload_write (p x q : bytes) off :
  off = zsize p -> zsize x < 2 ^ 32 ->
  read_payload (p ++ write_u32 (u32 (zsize x)) ++ x ++ q) off = Ok x.
Proof.
  intros -> Hx. unfold read_payload.
  destruct (Z.ltb_spec (zsize (p ++ write_u32 (u32 (zsize x)) ++ x ++ q)) (zsize p + 4))
    as [?|_]; [sizes|].
  rewrite read_write_u32 by done. cbn [mbind outcome_bind].
  assert (u32 (u32 (zsize x)) = zsize x) as ->
    by (pose proof (zsize_nonneg x); unfold u32; rewrite Zmod_mod, Z.mod_small; lia).
  destruct (Z.ltb_spec (zsize (p ++ write_u32 (u32 (zsize x)) ++ x ++ q))
              (zsize p + 4 + zsize x)) as [?|_]; [sizes|].
  rewrite app_assoc. apply range_app; sizes.
Qed.

Lemma read_payload_inv (p r x : bytes) :
  read_payload (p ++ r) (zsize p) = Ok x ->
  exists r', r = write_u32 (u32 (zsize x)) ++ x ++ r' /\ zsize x < 2 ^ 32.
Proof.
  unfold read_payload. case_match; [done|].
  intros (v & Hv & H')%obind_Ok. apply read_u32_inv in Hv as (r1 & -> & Hv).
  case_match; [done|].
  replace (zsize p + 4) with (zsize (p ++ write_u32 v)) in H' by sizes.
  rewrite app_assoc in H'. apply range_inv in H' as (r2 & -> & Hx).
  exists r2. unfold u32. rewrite Hx, Z.mod_small by lia. split; [done | lia].
Qed.

(** ** The size field *)

(** The size of the basic encoding of a message. *)
Definition wire_size (ms : list bytes) (x : bytes) : Z :=
  2 + zsize (write_metadata ms) + 4 + zsize x.

Lemma u64_add_l a b : u64 (u64 a + b) = u64 (a + b).
Proof. apply Zplus_mod_idemp_l. Qed.

Lemma foldl_size ms : forall t,
  foldl (fun t m => u64 (u64 (t + 2) + zsize m)) (u64 t) ms
  = u64 (t + zsize (write_metadata ms)).
Proof.
  induction ms as [|m ms IH]; intros t; cbn [foldl].
  - f_equal. cbn; sizes.
  - rewrite u64_add_l, <- Z.add_assoc, u64_add_l, IH. f_equal. sizes.
Qed.

Lemma compute_size_eq ml ms x :
  compute_serialized_size ml ms x
  = if negb (ml =? zsize ms) then Throw (runtime_error "Malformed message metadata count")
    else if 2 ^ 32 - 1 <? u64 (wire_size ms x)
    then Throw (overflow_error "Message is too large")
    else Ok (u64 (wire_size ms x)).
Proof.
  unfold compute_serialized_size.
  change (foldl ?f 2 ms) with (foldl f (u64 2) ms). rewrite foldl_size.
  replace (u64 (u64 (u64 (2 + zsize (write_metadata ms)) + 4) + zsize x))
    with (u64 (wire_size ms x))
    by (unfold wire_size; by rewrite (u64_add_l (2 + _) 4), u64_add_l).
  case_match; [done|]. case_match; [done|].
  f_equal. apply Z.mod_small.
  assert (0 <= u64 (wire_size ms x)) by (apply Z.mod_pos_bound; lia). lia.
Qed.

Lemma compute_size_ok ms x :
  wire_size ms x < 2 ^ 32 ->
  compute_serialized_size (zsize ms) ms x = Ok (wire_size ms x).
Proof.
  intros H. rewrite compute_size_eq, Z.eqb_refl. cbn [negb].
  assert (u64 (wire_size ms x) = wire_size ms x) as ->
    by (apply Z.mod_small; unfold wire_size in *; sizes).
  case_match; [lia | done].
Qed.

(** ** Messages that survive the wire *)

Lemma MessageType_to_of_byte b : MessageType_to_byte (MessageType_of_byte b) = b.
Proof. by destruct b. Qed.

Definition type_ok (t : MessageType) : bool :=
  bool_decide (MessageType_of_byte (MessageType_to_byte t) = t).

Definition small_metas (ms : list bytes) : bool := forallb (fun x => zsize x <? 2 ^ 16) ms.

(** The basic format carries at most 127 metadata entries of at most 65535
    bytes, and less than 2^32 bytes in all. *)
Definition wire_ok (m : Message) : bool :=
  negb (use_extended_format m) && (metalen m =? zsize (metadata m))
  && (zsize (metadata m) <? 128) && small_metas (metadata m)
  && (wire_size (metadata m) (payload m) <? 2 ^ 32) && type_ok (hdr_type (header m)).

(** What the basic format keeps: everything but the timestamp and checksum. *)
Definition wire_norm (m : Message) : Message :=
  {| header := {| hdr_type := hdr_type (header m);
                  hdr_length := wire_size (metadata m) (payload m);
                  hdr_checksum := 0; hdr_timestamp := 0;
                  hdr_protocol_version := kProtocolVersion |};
     metalen := metalen m; envelope := MessageEnvelope_default;
     metadata := metadata m; payload := payload m |}.

Lemma small_metas_Forall ms : small_metas ms = true <-> Forall small_meta ms.
Proof.
  unfold small_metas. rewrite forallb_forall, Stdlib.Lists.List.Forall_forall.
  unfold small_meta. setoid_rewrite Z.ltb_lt. done.
Qed.

(** The guards of this file as propositions. *)
Ltac guards :=
  bools; repeat match goal with
         | H : small_metas _ = true |- _ => apply small_metas_Forall in H
         end.

Lemma serialize_basic m :
  use_extended_format m = false ->
  Serializer_serialize m
  = [MessageType_to_byte (hdr_type (header m)); z2b (metalen m)]
    ++ write_metadata (metadata m) ++ write_u32 (u32 (zsize (payload m))) ++ payload m.
Proof. unfold Serializer_serialize. by intros ->. Qed.

Lemma land_flag_low b : b2z b < 128 -> Z.land (b2z b) kExtendedFormatFlag = 0.
Proof.
  intros H. destruct b; try (vm_compute; done); exfalso; vm_compute in H; done.
Qed.

Lemma land_flag_inv b : Z.land (b2z b) kExtendedFormatFlag = 0 -> b2z b < 128.
Proof.
  intros H. destruct b; vm_compute in H; (vm_compute; done).
Qed.

Lemma deserialize_basic_ok t s ms x q :
  b2z s = zsize ms -> Forall small_meta ms -> zsize ms < 128 ->
  wire_size ms x < 2 ^ 32 ->
  Serializer_deserialize
    ([t; s] ++ write_metadata ms ++ write_u32 (u32 (zsize x)) ++ x ++ q)
  = Ok {| header := {| hdr_type := MessageType_of_byte t;
                       hdr_length := wire_size ms x; hdr_checksum := 0;
                       hdr_timestamp := 0; hdr_protocol_version := kProtocolVersion |};
          metalen := b2z s; envelope := MessageEnvelope_default;
          metadata := ms; payload := x |}.
Proof.
  intros Hs Hsm Hn Hw. unfold Serializer_deserialize.
  set (r := [t; s] ++ _).
  assert (6 <= zsize r) by (unfold r; sizes).
  destruct (Z.ltb_spec (zsize r) 6) as [?|_]; [lia|].
  change (at_ r 0) with (Ok t). change (at_ r 1) with (Ok s).
  cbn [mbind outcome_bind]. rewrite land_flag_low by lia. cbn [Z.eqb].
  unfold deserialize_basic. rewrite Hs.
  replace (Z.to_nat (zsize ms)) with (length ms) by (unfold zsize; lia).
  unfold r. rewrite read_metadata_write by done. cbn [mbind outcome_bind].
  rewrite app_assoc, read_payload_write by (unfold wire_size in *; sizes).
  cbn [mbind outcome_bind]. by rewrite compute_size_ok.
Qed.

Lemma wire_ok_roundtrip m q :
  wire_ok m = true -> Serializer_deserialize (Serializer_serialize m ++ q) = Ok (wire_norm m).
Proof.
  unfold wire_ok, type_ok; intros; guards.
  rewrite serialize_basic, <- !app_assoc by done.
  assert (Hs : b2z (z2b (metalen m)) = metalen m)
    by (rewrite b2z_z2b; unfold u8; apply Z.mod_small; sizes).
  rewrite deserialize_basic_ok by (done || congruence).
  unfold wire_norm. congruence.
Qed.

Lemma zsize_write_metadata_bound ms :
  Forall small_meta ms -> zsize (write_metadata ms) <= 65538 * zsize ms.
Proof.
  unfold small_meta. induction 1; [done|]. sizes.
Qed.

(** The second byte of a buffer tells the formats apart. *)
Definition basic_format (r : bytes) : bool := b2z (default Byte.x00 (r !! 1%nat)) <? 128.

Lemma deserialize_basic_inv r m :
  Serializer_deserialize r = Ok m -> basic_format r = true ->
  exists q, r = Serializer_serialize m ++ q /\ wire_ok m = true /\ wire_norm m = m.
Proof.
  unfold Serializer_deserialize, basic_format. intros H Hlow%Z.ltb_lt.
  case_match; [done|].
  apply obind_Ok in H as (t & Ht & H). apply (at_inv []) in Ht as [r1 ->].
  apply obind_Ok in H as (s & Hs & H).
  destruct r1 as [|s' r1]; [done|]. cbn in Hs, Hlow; injection Hs as ->.
  rewrite land_flag_low in H by done. cbn [Z.eqb] in H. unfold deserialize_basic in H.
  apply obind_Ok in H as ([ms off] & Hms & H).
  apply (read_metadata_inv _ [t; s]) in Hms as (r2 & -> & -> & Hlen & Hsm).
  apply obind_Ok in H as (x & Hx & H).
  rewrite <- zsize_app in Hx. change (t :: s :: ?w) with ([t; s] ++ w) in Hx.
  rewrite app_assoc in Hx. apply read_payload_inv in Hx as (r3 & -> & Hx).
  apply obind_Ok in H as (len & Hlen' & H). injection H as <-.
  pose proof (b2z_range s). pose proof (zsize_write_metadata_bound ms Hsm).
  assert (Es : b2z s = zsize ms) by (unfold zsize; lia).
  rewrite compute_size_eq, Es, Z.eqb_refl in Hlen'.
  assert (Hw : u64 (wire_size ms x) = wire_size ms x)
    by (apply Z.mod_small; unfold wire_size; sizes).
  rewrite Hw in Hlen'. cbn [negb] in Hlen'. case_match; [done|]. injection Hlen' as <-.
  bools. exists r3. split_and!.
  - unfold Serializer_serialize; cbn. by rewrite z2b_b2z, MessageType_to_of_byte, <- !app_assoc.
  - unfold wire_ok, type_ok; cbn -[small_metas wire_size Z.ltb Z.pow]. rewrite Es, Z.eqb_refl, MessageType_to_of_byte.
    rewrite (proj2 (small_metas_Forall ms) Hsm), bool_decide_eq_true_2 by done.
    destruct (Z.ltb_spec (zsize ms) 128), (Z.ltb_spec (wire_size ms x) (2 ^ 32)); (done || lia).
  - done.
Qed.

(** ** No undefined behaviour on any input *)

Lemma at_is_defined l i : 0 <= i < zsize l -> defined (at_ l i).
Proof. intros H; destruct (at_defined l i H) as [b ->]; done. Qed.

Lemma range_is_defined l i j : 0 <= i -> i <= j -> j <= zsize l -> defined (range l i j).
Proof. intros; destruct (range_defined l i j) as [x ->]; done. Qed.

Lemma u16_range z : 0 <= u16 z < 2 ^ 16.
Proof. apply Z.mod_pos_bound; lia. Qed.

Lemma read_u32_defined r off : 0 <= off -> off + 4 <= zsize r -> defined (read_u32 r off).
Proof.
  intros; unfold read_u32.
  repeat (apply defined_bind; [apply at_is_defined; lia|]; intros ? _). done.
Qed.

Lemma read_u32_range r off v : read_u32 r off = Ok v -> 0 <= v < 2 ^ 32.
Proof.
  unfold read_u32. intros (a & _ & (b & _ & (c & _ & (d & _ & H)%obind_Ok)%obind_Ok)%obind_Ok)%obind_Ok.
  injection H as <-. pose proof (b2z_range a); pose proof (b2z_range b);
  pose proof (b2z_range c); pose proof (b2z_range d). rewrite be32_combine; lia.
Qed.

Lemma read_u64_loop_defined r off n : forall i value,
  0 <= off + i -> off + i + Z.of_nat n <= zsize r -> defined (read_u64_loop r off n i value).
Proof.
  induction n as [|n IH]; intros i value H1 H2; cbn [read_u64_loop]; [done|].
  apply defined_bind; [apply at_is_defined; lia|]. intros b _. apply IH; lia.
Qed.

Lemma read_u64_defined r off : 0 <= off -> off + 8 <= zsize r -> defined (read_u64 r off).
Proof. intros; apply read_u64_loop_defined; lia. Qed.

Lemma read_metadata_defined r n : forall off, 0 <= off -> defined (read_metadata r n off).
Proof.
  induction n as [|n IH]; intros off Hoff; cbn [read_metadata]; [done|].
  case_match; [done|]; bools.
  apply defined_bind; [apply at_is_defined; lia|]; intros hi _.
  apply defined_bind; [apply at_is_defined; lia|]; intros lo _.
  case_match; [done|]; bools.
  pose proof (u16_range (Z.lor (Z.shiftl (b2z hi) 8) (b2z lo))).
  apply defined_bind; [apply range_is_defined; lia|]; intros m _.
  apply defined_bind; [apply IH; lia|]. by intros [].
Qed.

Lemma read_metadata_off r n : forall off ms off',
  read_metadata r n off = Ok (ms, off') -> off <= off'.
Proof.
  induction n as [|n IH]; intros off ms off' H; cbn [read_metadata] in H.
  - injection H as _ <-; lia.
  - case_match; [done|].
    apply obind_Ok in H as (hi & _ & H). apply obind_Ok in H as (lo & _ & H).
    case_match; [done|]. apply obind_Ok in H as (m & _ & H).
    apply obind_Ok in H as ([ms' o] & Hms & H). injection H as _ <-.
    apply IH in Hms. pose proof (u16_range (Z.lor (Z.shiftl (b2z hi) 8) (b2z lo))). lia.
Qed.

Lemma read_payload_defined r off : 0 <= off -> defined (read_payload r off).
Proof.
  intros. unfold read_payload. case_match; [done|]; bools.
  apply defined_bind; [apply read_u32_defined; lia|]. intros v Hv%read_u32_range.
  case_match; [done|]; bools. apply range_is_defined; lia.
Qed.

Lemma read_short_defined r off e1 e2 : 0 <= off -> defined (read_short r off e1 e2).
Proof.
  intros. unfold read_short. case_match; [done|]; bools.
  apply defined_bind; [apply at_is_defined; lia|]. intros n _.
  pose proof (b2z_range n). case_match; [done|]; bools.
  apply defined_bind; [apply range_is_defined; lia|]. done.
Qed.

Lemma read_short_off r off e1 e2 v off' :
  read_short r off e1 e2 = Ok (v, off') -> off <= off'.
Proof.
  unfold read_short. case_match; [done|]. intros (n & _ & H1)%obind_Ok.
  case_match; [done|]. apply obind_Ok in H1 as (w & _ & [= _ <-]).
  pose proof (b2z_range n). lia.
Qed.

Lemma deserialize_basic_defined r t s : defined (deserialize_basic r t s).
Proof.
  unfold deserialize_basic.
  apply defined_bind; [apply read_metadata_defined; lia|].
  intros [ms off] Hoff%read_metadata_off.
  apply defined_bind; [apply read_payload_defined; lia|]. intros x _.
  apply defined_bind; [|done]. rewrite compute_size_eq. by repeat case_match.
Qed.

Lemma deserialize_extended_defined r t s : defined (deserialize_extended r t s).
Proof.
  unfold deserialize_extended. repeat (case_match; [done|]); bools.
  apply defined_bind; [apply read_u32_defined; lia|]; intros _ _.
  case_match; [done|]; bools.
  apply defined_bind; [apply read_u64_defined; lia|]; intros ts _.
  apply defined_bind; [apply read_short_defined; lia|]; intros [snd o1] Ho1%read_short_off.
  apply defined_bind; [apply read_short_defined; lia|]; intros [rcv o2] Ho2%read_short_off.
  case_match; [done|]; bools.
  apply defined_bind; [apply read_u64_defined; lia|]; intros sq _.
  case_match; [done|]; bools.
  apply defined_bind; [apply read_u32_defined; lia|]; intros fl _.
  case_match; [done|]; bools.
  apply defined_bind; [apply at_is_defined; lia|]; intros cnt _.
  apply defined_bind; [apply read_metadata_defined; lia|].
  intros [ms o3] Ho3%read_metadata_off.
  apply defined_bind; [apply read_payload_defined; lia|]. done.
Qed.

Lemma deserialize_defined r : defined (Serializer_deserialize r).
Proof.
  unfold Serializer_deserialize. case_match; [done|]; bools.
  apply defined_bind; [apply at_is_defined; lia|]; intros t _.
  apply defined_bind; [apply at_is_defined; lia|]; intros s _.
  case_match; auto using deserialize_basic_defined, deserialize_extended_defined.
Qed.

(** ** The extended format *)

Lemma read_u32_at r p q off v :
  r = p ++ write_u32 v ++ q -> off = zsize p -> read_u32 r off = Ok (u32 v).
Proof. intros -> ->; by apply read_write_u32. Qed.

Lemma read_u64_at r p q off v :
  r = p ++ write_u64 v ++ q -> off = zsize p -> read_u64 r off = Ok (u64 v).
Proof. intros -> ->; by apply read_write_u64. Qed.

Lemma read_short_at r p x q off e1 e2 :
  r = p ++ [z2b (zsize x)] ++ x ++ q -> off = zsize p -> zsize x < 256 ->
  read_short r off e1 e2 = Ok (x, off + 1 + zsize x).
Proof.
  intros -> -> Hx. unfold read_short. case_match; bools; [sizes|].
  cbn [app]. rewrite at_app by done. cbn [mbind outcome_bind].
  rewrite b2z_z2b. replace (u8 (zsize x)) with (zsize x)
    by (pose proof (zsize_nonneg x); unfold u8; rewrite Z.mod_small; lia).
  case_match; bools; [sizes|].
  change (p ++ ?b :: x ++ q) with (p ++ [b] ++ x ++ q).
  rewrite app_assoc, range_app by sizes. done.
Qed.

Lemma read_metadata_at r p ms q off n :
  r = p ++ write_metadata ms ++ q -> off = zsize p -> Forall small_meta ms ->
  n = length ms -> read_metadata r n off = Ok (ms, off + zsize (write_metadata ms)).
Proof. intros -> -> ? ->; by apply read_metadata_write. Qed.

Lemma read_payload_at r p x q off :
  r = p ++ write_u32 (u32 (zsize x)) ++ x ++ q -> off = zsize p -> zsize x < 2 ^ 32 ->
  read_payload r off = Ok x.
Proof. intros -> -> ?; by apply read_payload_write. Qed.

(** What the extended format can carry. *)
Definition wire_ok_ext (m : Message) : bool :=
  use_extended_format m && (metalen m =? zsize (metadata m))
  && (zsize (metadata m) <? 256) && small_metas (metadata m)
  && (zsize (payload m) <? 2 ^ 32) && type_ok (hdr_type (header m))
  && (zsize (env_sender (envelope m)) <? 256) && (zsize (env_recipient (envelope m)) <? 256)
  && (u64 (env_sequence_number (envelope m)) =? env_sequence_number (envelope m))
  && (u32 (env_flags (envelope m)) =? env_flags (envelope m))
  && (u64 (hdr_timestamp (header m)) =? hdr_timestamp (header m))
  && (1 <=? hdr_protocol_version (header m)) && (hdr_protocol_version (header m) <? 128).

(** The extended format keeps the timestamp and the envelope; [header.length]
    becomes the size of the buffer less 2. *)
Definition wire_norm_ext (m : Message) : Message :=
  {| header := {| hdr_type := hdr_type (header m);
                  hdr_length := u32 (zsize (Serializer_serialize m) - 2);
                  hdr_checksum := 0; hdr_timestamp := hdr_timestamp (header m);
                  hdr_protocol_version := hdr_protocol_version (header m) |};
     metalen := metalen m; envelope := envelope m;
     metadata := metadata m; payload := payload m |}.

Lemma version_byte v :
  1 <= v < 128 ->
  Z.land (b2z (z2b (Z.lor kExtendedFormatFlag (Z.land v 127)))) kExtendedFormatFlag
    = kExtendedFormatFlag /\
  Z.land (b2z (z2b (Z.lor kExtendedFormatFlag (Z.land v 127)))) 127 = v.
Proof.
  intros H. unfold kExtendedFormatFlag.
  change 127 with (Z.ones 7). rewrite Z.land_ones, (Z.mod_small v) by lia.
  change 128 with (Z.shiftl 1 7). rewrite lor_shiftl_add by lia.
  rewrite b2z_z2b. unfold u8. rewrite Z.mod_small by lia. split.
  - rewrite <- lor_shiftl_add, Z.land_lor_distr_l by lia.
    rewrite (Z.land_comm v), Z.land_diag.
    assert (Z.land (Z.shiftl 1 7) v = 0) as ->; [|done].
    apply Z.bits_inj'; intros n Hn. rewrite Z.land_spec, Z.bits_0.
    destruct (Z.lt_ge_cases n 7); [by rewrite Z.shiftl_spec_low by lia|].
    rewrite <- (Z.mod_small v (2 ^ 7)), Z.mod_pow2_bits_high by lia.
    apply andb_false_r.
  - rewrite Z.land_ones by lia. Z.to_euclidean_division_equations; lia.
Qed.

(** A buffer written as the reader's position wants it: re-associate. *)
Ltac unfold_lets :=
  repeat match goal with |- context [?x] => is_var x; progress unfold x end.

Ltac reassoc := unfold_lets; rewrite <- ?app_assoc; cbn [app]; reflexivity.

Ltac step lem := erewrite lem; [|reassoc|..]; try done; [|unfold_lets; sizes..]; cbn [mbind outcome_bind].

(** Discharge a length guard that the buffer passes. *)
Ltac guard_passes := case_match; bools; [exfalso; sizes|].

Lemma deserialize_extended_ok t s v fl ts (sd rc : bytes) sq cnt ms x :
  Z.land (b2z s) 127 = v -> v <> 0 ->
  zsize sd < 256 -> zsize rc < 256 -> cnt = zsize ms -> zsize ms < 256 ->
  Forall small_meta ms -> zsize x < 2 ^ 32 ->
  let r := [t; s] ++ write_u32 fl ++ write_u64 ts ++ [z2b (zsize sd)] ++ sd
           ++ [z2b (zsize rc)] ++ rc ++ write_u64 sq ++ write_u32 fl ++ [z2b cnt]
           ++ write_metadata ms ++ write_u32 (u32 (zsize x)) ++ x in
  deserialize_extended r (MessageType_of_byte t) s
  = Ok {| header := {| hdr_type := MessageType_of_byte t; hdr_length := u32 (zsize r - 2);
                       hdr_checksum := 0; hdr_timestamp := u64 ts; hdr_protocol_version := v |};
          metalen := cnt;
          envelope := {| env_sender := sd; env_recipient := rc;
                         env_sequence_number := u64 sq; env_flags := u32 fl |};
          metadata := ms; payload := x |}.
Proof.
  intros Hv Hv0 Hsd Hrc -> Hms Hsm Hx r.
  set (p2 := [t; s] ++ write_u32 fl).
  set (p3 := p2 ++ write_u64 ts).
  set (p4 := p3 ++ [z2b (zsize sd)] ++ sd).
  set (p5 := p4 ++ [z2b (zsize rc)] ++ rc).
  set (p6 := p5 ++ write_u64 sq).
  set (p7 := p6 ++ write_u32 fl).
  assert (Hr : zsize r = 33 + zsize sd + zsize rc + zsize (write_metadata ms) + zsize x)
    by (unfold r; sizes).
  unfold deserialize_extended. rewrite Hv, (proj2 (Z.eqb_neq v 0) Hv0).
  guard_passes. step (read_u32_at r [t; s]).
  guard_passes. step (read_u64_at r p2).
  step (read_short_at r p3 sd). step (read_short_at r p4 rc).
  guard_passes. step (read_u64_at r p5).
  guard_passes. step (read_u32_at r p6).
  guard_passes.
  assert (Hat : at_ r (zsize p7) = Ok (z2b (zsize ms))).
  { transitivity (at_ (p7 ++ z2b (zsize ms) :: write_metadata ms
                       ++ write_u32 (u32 (zsize x)) ++ x) (zsize p7));
      [f_equal; reassoc | by apply at_app]. }
  replace (_ + 4) with (zsize p7) by (unfold_lets; sizes).
  rewrite Hat. cbn [mbind outcome_bind].
  assert (Hb : b2z (z2b (zsize ms)) = zsize ms)
    by (rewrite b2z_z2b; unfold u8; apply Z.mod_small; sizes).
  rewrite Hb. replace (Z.to_nat (zsize ms)) with (length ms) by (unfold zsize; lia).
  step (read_metadata_at r (p7 ++ [z2b (zsize ms)]) ms).
  rewrite (read_payload_at r (p7 ++ [z2b (zsize ms)] ++ write_metadata ms) x []); 
    [done | rewrite app_nil_r; reassoc | unfold_lets; sizes | done].
Qed.

(** ** Properties *)

Lemma wire_ok_ext_roundtrip (m : Message) :
  wire_ok_ext m = true ->
  Serializer_deserialize (Serializer_serialize m) = Ok (wire_norm_ext m).
Proof.
  unfold wire_ok_ext, type_ok; intros; guards.
  destruct (version_byte (hdr_protocol_version (header m))) as [Hflag Hv]; [lia|].
  unfold wire_norm_ext, Serializer_serialize.
  assert (use_extended_format m = true) as -> by done. cbn [negb].
  unfold Serializer_deserialize.
  case_match; bools; [exfalso; sizes|].
  change (at_ ([?a; ?b] ++ ?c) 0) with (Ok a). change (at_ ([?a; ?b] ++ ?c) 1) with (Ok b).
  cbn [mbind outcome_bind]. rewrite Hflag. cbn [Z.eqb kExtendedFormatFlag].
  rewrite (deserialize_extended_ok _ _ (hdr_protocol_version (header m))) by (done || lia).
  do 2 f_equal; [f_equal; congruence | destruct (envelope m); cbn in *; congruence].
Qed.

(** C19: a message survives the wire. In the basic format, for at most 127 metadata
    entries of at most 65535 bytes and less than 2^32 bytes in all, [deserialize] of
    its encoding, even followed by further bytes, returns the message with its
    timestamp and checksum reset and its length recomputed. In the extended format it
    keeps its envelope and its timestamp: sender and recipient of at most 255 bytes,
    at most 255 metadata entries, a protocol version in 1..127 and integer fields in
    the range of their types. *)
Theorem deserialize_serialize (m : Message) (q : bytes) :
  (wire_ok m = true -> Serializer_deserialize (Serializer_serialize m ++ q) = Ok (wire_norm m)) /\
  (wire_ok_ext m = true -> Serializer_deserialize (Serializer_serialize m) = Ok (wire_norm_ext m)).
Proof. split; [apply wire_ok_roundtrip | apply wire_ok_ext_roundtrip]. Qed.

Definition sample_message : Message :=
  {| header := {| hdr_type := Command; hdr_length := 19; hdr_checksum := 7;
                  hdr_timestamp := 1700000000; hdr_protocol_version := 1 |};
     metalen := 2; envelope := MessageEnvelope_default;
     metadata := [[z2b 2]; sbytes "alice"]; payload := sbytes "hey" |}.

Definition sample_extended : Message :=
  {| header := {| hdr_type := CipherMessage; hdr_length := 0; hdr_checksum := 0;
                  hdr_timestamp := 1700000000; hdr_protocol_version := 3 |};
     metalen := 1;
     envelope := {| env_sender := sbytes "alice"; env_recipient := sbytes "bob";
                    env_sequence_number := 258; env_flags := 5 |};
     metadata := [sbytes "k"]; payload := sbytes "secret" |}.

Lemma deserialize_serialize_witness :
  Serializer_deserialize (Serializer_serialize sample_message ++ sbytes "rest") = Ok (wire_norm sample_message) /\
  Serializer_deserialize (Serializer_serialize sample_extended) = Ok (wire_norm_ext sample_extended).
Proof.
  destruct (deserialize_serialize sample_message (sbytes "rest")) as [H1 _].
  destruct (deserialize_serialize sample_extended []) as [_ H2].
  split; [apply H1 | apply H2]; vm_compute; reflexivity.
Defined.

(** C20: [deserialize] is memory safe: on every buffer it returns a message or
    throws; no index or iterator range is ever outside the buffer. *)
Theorem deserialize_no_undefined_behaviour (r : bytes) : Serializer_deserialize r <> Undef.
Proof. apply deserialize_defined. Qed.

(** C39: encodings are canonical: a buffer in the basic format that [deserialize]
    accepts starts with the encoding of the very message it returns. *)
Theorem deserialize_canonical (r : bytes) (m : Message) :
  Serializer_deserialize r = Ok m -> basic_format r = true ->
  Serializer_serialize m `prefix_of` r.
Proof.
  intros H1 H2. destruct (deserialize_basic_inv r m H1 H2) as (q & -> & _).
  by exists q.
Qed.

Lemma deserialize_canonical_witness :
  Serializer_serialize (wire_norm sample_message)
    `prefix_of` (Serializer_serialize sample_message ++ sbytes "rest").
Proof.
  apply (deserialize_canonical (Serializer_serialize sample_message ++ sbytes "rest"));
    vm_compute; reflexivity.
Defined.

(** Truncation is detected: every proper prefix of the basic encoding of a
    message makes [deserialize] throw. *)
Theorem deserialize_truncated (m : Message) (n : nat) :
  wire_ok m = true -> (n < length (Serializer_serialize m))%nat ->
  exists e, Serializer_deserialize (take n (Serializer_serialize m)) = Throw e.
Proof.
  intros Hok Hn.
  destruct (Serializer_deserialize (take n (Serializer_serialize m))) as [m'|e|] eqn:E;
    [exfalso | eauto | by apply deserialize_defined in E].
  assert (Hb : basic_format (take n (Serializer_serialize m)) = true).
  { pose proof Hok as Hok'. unfold wire_ok in Hok'. guards.
    unfold basic_format. apply Z.ltb_lt. rewrite lookup_take, serialize_basic by done.
    case_decide; [|done]. cbn. rewrite b2z_z2b; unfold u8; rewrite Z.mod_small; sizes. }
  destruct (deserialize_basic_inv _ _ E Hb) as (q & Eq & Hok' & Hn').
  pose proof (wire_ok_roundtrip m [] Hok) as R1.
  pose proof (wire_ok_roundtrip m' (q ++ drop n (Serializer_serialize m)) Hok') as R2.
  rewrite app_assoc, <- Eq, take_drop in R2. rewrite app_nil_r, R2, Hn' in R1.
  injection R1 as ->. apply (f_equal length) in Eq.
  rewrite length_app, length_take in Eq.
  assert (Serializer_serialize (wire_norm m) = Serializer_serialize m) as E2.
  { unfold wire_ok in Hok. guards. by rewrite (serialize_basic m). }
  rewrite E2 in Eq. lia.
Qed.

Lemma deserialize_truncated_witness :
  exists e, Serializer_deserialize (take 17 (Serializer_serialize sample_message)) = Throw e.
Proof.
  apply (deserialize_truncated sample_message 17); [vm_compute; reflexivity | vm_compute; lia].
Defined.

(** ** Building messages *)

Lemma Message_make_eq now x ml ms t :
  Message_make now x ml ms t
  = if 255 <? zsize ms then Throw (runtime_error "Malformed message metadata count")
    else if 2 ^ 32 - 1 <? u64 (wire_size ms x)
    then Throw (overflow_error "Message is too large")
    else Ok {| header := {| hdr_type := t; hdr_length := u64 (wire_size ms x);
                            hdr_checksum := 0; hdr_timestamp := now;
                            hdr_protocol_version := kProtocolVersion |};
               metalen := zsize ms; envelope := MessageEnvelope_default;
               metadata := ms; payload := x |}.
Proof.
  unfold Message_make. rewrite compute_size_eq. pose proof (zsize_nonneg ms).
  destruct (Z.ltb_spec 255 (zsize ms)) as [Hl|Hl].
  - destruct (Z.eqb_spec (u8 (zsize ms)) (zsize ms)) as [E|]; [|done].
    unfold u8 in E. pose proof (Z.mod_pos_bound (zsize ms) (2 ^ 8)). lia.
  - assert (u8 (zsize ms) = zsize ms) as -> by (apply Z.mod_small; lia).
    rewrite Z.eqb_refl. cbn [negb]. by case_match.
Qed.

Lemma Message_make_small now x ml ms t :
  zsize ms <= 255 -> wire_size ms x < 2 ^ 32 ->
  Message_make now x ml ms t
  = Ok {| header := {| hdr_type := t; hdr_length := wire_size ms x;
                       hdr_checksum := 0; hdr_timestamp := now;
                       hdr_protocol_version := kProtocolVersion |};
          metalen := zsize ms; envelope := MessageEnvelope_default;
          metadata := ms; payload := x |}.
Proof.
  intros H1 H2. rewrite Message_make_eq.
  assert (u64 (wire_size ms x) = wire_size ms x) as ->
    by (apply Z.mod_small; unfold wire_size in *; sizes).
  repeat (case_match; bools; [lia|]). done.
Qed.

Lemma serialize_made now x ms t n :
  Serializer_serialize
    {| header := {| hdr_type := t; hdr_length := n; hdr_checksum := 0;
                    hdr_timestamp := now; hdr_protocol_version := kProtocolVersion |};
       metalen := zsize ms; envelope := MessageEnvelope_default;
       metadata := ms; payload := x |}
  = [MessageType_to_byte t; z2b (zsize ms)] ++ write_metadata ms
    ++ write_u32 (u32 (zsize x)) ++ x.
Proof. done. Qed.

(** The constructor's contract: a message it returns carries the payload,
    metadata and type it was given, passes [validate], and its [header.length]
    is the number of bytes [serialize] writes for it (vectors being shorter
    than 2^64 bytes). *)
Theorem Message_make_contract (now ml : Z) (x : bytes) (ms : list bytes) (t : MessageType)
    (m : Message) :
  wire_size ms x < 2 ^ 64 -> Message_make now x ml ms t = Ok m ->
  Message_get_payload m = x /\ metadata m = ms /\ Message_get_type m = t /\
  Message_validate m = true /\ hdr_length (header m) = zsize (Serializer_serialize m).
Proof.
  intros Hw. rewrite Message_make_eq. repeat (case_match; [done|]). intros [= <-].
  rewrite serialize_made. unfold Message_validate; cbn -[zsize]. rewrite Z.eqb_refl.
  split_and!; try done. unfold u64. rewrite Z.mod_small by (unfold wire_size in *; sizes).
  unfold wire_size. sizes.
Qed.

Lemma Message_make_contract_witness :
  exists m, Message_make 5 (sbytes "hey") 0 [[z2b 2]; sbytes "alice"] Command = Ok m /\
    hdr_length (header m) = 19.
Proof.
  eexists; split; [reflexivity|].
  eapply (Message_make_contract 5 0 (sbytes "hey") [[z2b 2]; sbytes "alice"] Command);
    [vm_compute; reflexivity | reflexivity].
Defined.

(** A message with exactly 128 metadata entries is accepted by the
    constructor, but its encoding is always rejected: its count byte has the
    high bit that marks the extended format. *)
Theorem metadata_count_128_rejected (now ml : Z) (x : bytes) (ms : list bytes)
    (t : MessageType) (m : Message) :
  zsize ms = 128 -> Message_make now x ml ms t = Ok m ->
  Serializer_deserialize (Serializer_serialize m)
  = Throw (runtime_error "Unsupported protocol version").
Proof.
  intros Hms. rewrite Message_make_eq. repeat (case_match; [done|]). intros [= <-].
  rewrite serialize_made. unfold Serializer_deserialize. rewrite Hms.
  case_match; bools; [exfalso; sizes|]. done.
Qed.

Lemma metadata_count_128_rejected_witness :
  zsize (repeat ([] : bytes) 128) = 128 /\
  exists m, Message_make 0 [] 0 (repeat [] 128) Text = Ok m /\
  Serializer_deserialize (Serializer_serialize m)
  = Throw (runtime_error "Unsupported protocol version").
Proof.
  split; [reflexivity|]. eexists; split; [vm_compute; reflexivity|].
  apply (metadata_count_128_rejected 0 0 [] (repeat [] 128) Text); reflexivity.
Defined.

(** A metadata entry of more than 65535 bytes never survives the wire: its
    length is truncated to 16 bits, so whatever [deserialize] returns, the
    metadata differ from those that were sent. *)
Theorem long_metadata_lost (m m' : Message) (e : bytes) :
  use_extended_format m = false -> metalen m = zsize (metadata m) ->
  zsize (metadata m) < 128 -> e ∈ metadata m -> 2 ^ 16 <= zsize e ->
  Serializer_deserialize (Serializer_serialize m) = Ok m' -> metadata m' <> metadata m.
Proof.
  intros Hb Hml Hlt He Hbig Hd Heq.
  destruct (deserialize_basic_inv _ _ Hd) as (q & _ & Hok & _).
  { unfold basic_format. rewrite serialize_basic by done. cbn. apply Z.ltb_lt.
    rewrite b2z_z2b, Hml; unfold u8; rewrite Z.mod_small; sizes. }
  unfold wire_ok in Hok. guards. rewrite Heq in *.
  rewrite Stdlib.Lists.List.Forall_forall in *. unfold small_meta in *.
  apply list_elem_of_In in He. match goal with H : forall x, _ |- _ => specialize (H e He) end.
  lia.
Qed.

Definition long_entry_message : Message :=
  {| header := MessageHeader_default; metalen := 1; envelope := MessageEnvelope_default;
     metadata := [repeat (z2b 0) (Z.to_nat 65536)]; payload := [] |}.

Lemma long_metadata_lost_witness :
  exists m', Serializer_deserialize (Serializer_serialize long_entry_message) = Ok m' /\
    metadata m' <> metadata long_entry_message.
Proof.
  eexists; split; [vm_compute; reflexivity|].
  apply (long_metadata_lost long_entry_message _ (repeat (z2b 0) (Z.to_nat 65536))).
  - reflexivity.
  - vm_compute; reflexivity.
  - vm_compute; reflexivity.
  - apply list_elem_of_singleton; reflexivity.
  - vm_compute; discriminate.
  - vm_compute; reflexivity.
Defined.

Lemma static_text now s r :
  zsize (sbytes s) < 1000 ->
  r = [z2b 0; z2b 0] ++ write_u32 (u32 (zsize (sbytes s))) ++ sbytes s ->
  exists m, Message_make now (sbytes s) 0 [] Text = Ok m /\ Serializer_serialize m = r.
Proof.
  intros Hs ->. rewrite Message_make_small; [eexists; split; reflexivity | done |].
  unfold wire_size. cbn [write_metadata concat map]. sizes.
Qed.

(** The replies the server keeps as literal bytes are the encodings of text
    messages: each one is what [serialize] writes for the [Text] message with
    the reply as payload and no metadata. *)
Theorem static_responses_are_text_messages (now : Z) :
  Forall (fun '(r, s) => exists m, Message_make now (sbytes s) 0 [] Text = Ok m
                                   /\ Serializer_serialize m = r)
    [(CHAT_NOT_FOUND, "Chat not found"%string);
     (USER_NOT_FOUND, "[ERROR] User not found"%string);
     (YOU_NEED_TO_LOGIN, "[Error]: You must authenticate first"%string);
     (WRONG_COMMAND_USAGE,
       "[Error]: Wrong command usage. Please use /help to get a help"%string);
     (EMPTY_CHAT_NAME, "[Error]: Empty chat name"%string);
     (CHAT_ALREADY_EXISTS, "[Error]: Chat is already exists"%string);
     (YOU_ARE_ALREADY_MEMBER, "[Error]: You are already member of this chat"%string);
     (PUBLIC_KEY_HAS_NOT_SET, "[Error]: Public key has not been set"%string);
     (YOU_ARE_LOGGED_IN, "[Error]: You are already logged in"%string);
     (YOU_ARE_NOT_MEMBER, "[Error]: You are not member of this chat"%string)].
Proof.
  repeat (constructor; [apply static_text; vm_compute; reflexivity|]).
  constructor.
Qed.
