(* ===== verification/MessageTypes.v ===== *)
(** The integer fields of a message stay within the widths of their C++ types, and the
    count of its metadata is that of the list, whatever made the message. *)
From S2P Require Import Prelude Message Wire.

(** The integer fields hold values of their types. *)
Record widths (m : Message) : Prop := {
  typed_length : 0 <= hdr_length (header m) < 2 ^ 32;
  typed_checksum : 0 <= hdr_checksum (header m) < 2 ^ 32;
  typed_timestamp : 0 <= hdr_timestamp (header m) < 2 ^ 64;
  typed_version : 0 <= hdr_protocol_version (header m) < 2 ^ 8;
  typed_metalen : 0 <= metalen m < 2 ^ 8;
  typed_sequence : 0 <= env_sequence_number (envelope m) < 2 ^ 64;
  typed_flags : 0 <= env_flags (envelope m) < 2 ^ 32;
}.

(** The count byte is the count. *)
Definition counted (m : Message) : Prop := metalen m = zsize (metadata m).

Definition typed (m : Message) : Prop := widths m /\ counted m.

Lemma compute_size_typed ml ms x len :
  compute_serialized_size ml ms x = Ok len -> 0 <= len < 2 ^ 32 /\ ml = zsize ms.
Proof.
  rewrite compute_size_eq. destruct (Z.eqb_spec ml (zsize ms)) as [->|]; [|done]. cbn [negb].
  destruct (Z.ltb_spec (2 ^ 32 - 1) (u64 (wire_size ms x))); [done|]. intros [= <-].
  assert (0 <= u64 (wire_size ms x)) by (apply Z.mod_pos_bound; lia). split; [lia | done].
Qed.

Lemma u8_range z : 0 <= u8 z < 2 ^ 8.
Proof. apply Z.mod_pos_bound; lia. Qed.

Lemma u64_bits z : 0 <= u64 z < 2 ^ 64.
Proof. apply Z.mod_pos_bound; lia. Qed.

Lemma lor_range a b n : 0 <= n -> 0 <= a < 2 ^ n -> 0 <= b < 2 ^ n -> 0 <= Z.lor a b < 2 ^ n.
Proof.
  intros Hn Ha Hb. assert (0 <= Z.lor a b) by (apply Z.lor_nonneg; lia). split; [done|].
  destruct Ha as [Ha0 Ha], Hb as [Hb0 Hb]. rewrite Z.bounded_iff_bits_nonneg in Ha, Hb |- * by lia.
  intros l Hl. by rewrite Z.lor_spec, Ha, Hb.
Qed.

Lemma read_u64_range r off n : forall i value v,
  0 <= value < 2 ^ 64 -> read_u64_loop r off n i value = Ok v -> 0 <= v < 2 ^ 64.
Proof.
  induction n as [|n IH]; intros i value v Hv; cbn [read_u64_loop]; [by intros [= <-]|].
  intros (b & _ & H)%obind_Ok. apply IH in H; [done|]. apply lor_range; [lia | done | apply u64_bits].
Qed.

Lemma read_metadata_count r n : forall off ms off',
  read_metadata r n off = Ok (ms, off') -> length ms = n.
Proof.
  induction n as [|n IH]; intros off ms off'; cbn [read_metadata]; [by intros [= <- _]|].
  case_match; [done|]. intros (hi & _ & (lo & _ & K1)%obind_Ok)%obind_Ok. case_match; [done|].
  apply obind_Ok in K1 as (x & _ & ([ms' o] & Hms & [= <- _])%obind_Ok). cbn. f_equal. by eapply IH.
Qed.

Lemma count_typed r b off ms off' :
  read_metadata r (Z.to_nat (b2z b)) off = Ok (ms, off') -> b2z b = zsize ms.
Proof. intros H%read_metadata_count. pose proof (b2z_range b). unfold zsize. lia. Qed.

Lemma deserialize_basic_typed r t s m : deserialize_basic r t s = Ok m -> typed m.
Proof.
  unfold deserialize_basic. intros ([ms off] & Hms & (x & _ & (len & Hlen & [= <-])%obind_Ok)%obind_Ok)%obind_Ok.
  destruct (compute_size_typed _ _ _ _ Hlen) as [Hl _]. pose proof (b2z_range s).
  split; [constructor; cbn; unfold kProtocolVersion; lia | by eapply count_typed].
Qed.

Lemma deserialize_extended_typed r t s m : deserialize_extended r t s = Ok m -> typed m.
Proof.
  unfold deserialize_extended. case_match; [done|]. case_match; [done|]. intros (f0 & _ & K1)%obind_Ok.
  case_match; [done|]. apply obind_Ok in K1 as (ts & Hts & ([sd o1] & _ & ([rc o2] & _ & K2)%obind_Ok)%obind_Ok).
  case_match; [done|]. apply obind_Ok in K2 as (sq & Hsq & K3). case_match; [done|].
  apply obind_Ok in K3 as (fl & Hfl & K4). case_match; [done|].
  apply obind_Ok in K4 as (cnt & _ & ([ms o3] & Hms & (x & _ & [= <-])%obind_Ok)%obind_Ok).
  pose proof (b2z_range cnt). pose proof (b2z_range s).
  apply read_u64_range in Hts; [|lia]. apply read_u64_range in Hsq; [|lia]. apply read_u32_range in Hfl.
  split; [constructor; cbn; try lia|].
  - apply Z.mod_pos_bound; lia.
  - assert (Hz : Z.land (b2z s) 127 = b2z s mod 2 ^ 7) by (rewrite <- Z.land_ones by lia; done).
    rewrite Hz. pose proof (Z.mod_pos_bound (b2z s) (2 ^ 7)). lia.
  - by eapply count_typed.
Qed.

(** What [update_length] leaves: the widths always, the length when it returns. *)
Lemma update_length_widths m :
  widths m -> widths (update_length m).2 /\ metalen (update_length m).2 = metalen m /\
    metadata (update_length m).2 = metadata m /\ payload (update_length m).2 = payload m.
Proof.
  intros Hw. unfold update_length. destruct (compute_serialized_size _ _ _) as [len| |] eqn:E; try done.
  apply compute_size_typed in E as [Hl _]. destruct Hw. split; [by constructor | done].
Qed.

Lemma update_length_result m :
  (update_length m).1 = Ok tt \/ exists e, (update_length m).1 = Throw e.
Proof.
  unfold update_length. destruct (compute_serialized_size _ _ _) as [| |] eqn:E; eauto.
  unfold compute_serialized_size in E. repeat case_match; done.
Qed.

Lemma update_length_uncounted m :
  ~ counted m -> update_length m = (Throw (runtime_error "Malformed message metadata count"), m).
Proof.
  intros Hc. unfold update_length. rewrite compute_size_eq. unfold counted in Hc.
  by destruct (Z.eqb_spec (metalen m) (zsize (metadata m))).
Qed.

Lemma insert_metadata_typed m e :
  typed m -> let '(res, m') := Message_insert_metadata m e in
    widths m' /\ metadata m' = metadata m ++ [e] /\
    (counted m' <-> zsize (metadata m) < 255) /\
    (res = Ok tt \/ exists ex, res = Throw ex) /\
    (zsize (metadata m) = 255 ->
       res = Throw (runtime_error "Malformed message metadata count") /\
       metalen m' = 0 /\ Message_validate m' = false).
Proof.
  intros [Hw Hc]. unfold Message_insert_metadata. cbv zeta.
  set (m1 := {| header := _; metalen := _ |}).
  assert (Hw1 : widths m1) by (pose proof (u8_range (zsize (metadata m ++ [e]))); destruct Hw; by constructor).
  assert (Hn : zsize (metadata m ++ [e]) = zsize (metadata m) + 1) by sizes.
  assert (Hb : 0 <= zsize (metadata m) < 256) by (destruct Hw as [_ _ _ _ H _ _]; unfold counted in Hc; lia).
  assert (Hc1 : counted m1 <-> zsize (metadata m) < 255).
  { unfold counted, m1, u8. cbn. rewrite Hn. destruct (decide (zsize (metadata m) = 255)) as [->|]; [by vm_compute|].
    rewrite Z.mod_small by lia. lia. }
  pose proof (update_length_result m1) as Hr. destruct (update_length_widths m1 Hw1) as (Hw2 & Hl & Hm & _).
  destruct (update_length m1) as [res m2] eqn:E. cbn in *. split_and!; [done | by rewrite Hm | | done |].
  - rewrite <- Hc1. unfold counted. by rewrite Hl, Hm.
  - intros H255. rewrite update_length_uncounted in E by (rewrite Hc1; lia). injection E as <- <-.
    split_and!; [done | unfold m1; cbn; by rewrite Hn, H255 |].
    unfold Message_validate, m1. cbn. rewrite Hn, H255. apply andb_false_r.
Qed.

(** ** Properties *)

(** C21: messages are well typed, and what an exception leaves behind. A message
    read from any bytes, and one built by the constructor at a time that fits its
    field, has every integer field within the width of its C++ type and as many
    metadata entries as the count byte says. Of such a message, [set_payload] and
    [update_checksum] make another one, also when [set_payload] throws.
    [insert_metadata] appends the entry whether it returns or throws; the fields
    keep their widths, and the count byte is right exactly when there were fewer
    than 255 entries: with 255 it throws and leaves an object of 256 entries whose
    count byte is 0, which [validate] rejects. *)
Theorem message_well_typed (r : bytes) (m : Message) :
  (Serializer_deserialize r = Ok m -> typed m) /\
  (forall now x ml ms t, 0 <= now < 2 ^ 64 -> Message_make now x ml ms t = Ok m -> typed m) /\
  (typed m ->
     (forall x, typed (Message_set_payload m x).2 /\ payload (Message_set_payload m x).2 = x) /\
     typed (Message_update_checksum m) /\
     forall e, let '(res, m') := Message_insert_metadata m e in
       widths m' /\ metadata m' = metadata m ++ [e] /\
       (counted m' <-> zsize (metadata m) < 255) /\
       (res = Ok tt \/ exists ex, res = Throw ex) /\
       (zsize (metadata m) = 255 ->
          res = Throw (runtime_error "Malformed message metadata count") /\
          metalen m' = 0 /\ Message_validate m' = false)).
Proof.
  split_and!.
  - unfold Serializer_deserialize. case_match; [done|]. intros (t & _ & (s & _ & K1)%obind_Ok)%obind_Ok.
    case_match; [by eapply deserialize_basic_typed | by eapply deserialize_extended_typed].
  - intros now x ml ms t Hnow. unfold Message_make. intros (len & Hlen & [= <-])%obind_Ok.
    apply compute_size_typed in Hlen as [Hl Hc]. pose proof (u8_range (zsize ms)).
    split; [|done]. constructor; cbn; unfold kProtocolVersion; lia.
  - intros [Hw Hc]. split_and!.
    + intros x. unfold Message_set_payload.
      edestruct update_length_widths as (Hw' & Hl & Hm & Hp); [|by rewrite Hp; split; [split; [exact Hw'|]; unfold counted; rewrite Hl, Hm|]].
      by destruct Hw.
    + destruct Hw. split; [by constructor | exact Hc].
    + intros e. by apply insert_metadata_typed.
Qed.

(** A message with an envelope, and one with 255 metadata entries. *)
Definition demo_envelope : bytes :=
  map z2b ([1; 130; 0; 0; 0; 0; 1; 0; 0; 0; 0; 0; 0; 0; 1; 65; 0; 255; 0; 0; 0; 0; 0; 0; 0]
           ++ [0; 0; 0; 7; 1; 0; 1; 66; 0; 0; 0; 0]).

Definition demo_full : Message :=
  {| header := MessageHeader_default; metalen := 255; envelope := MessageEnvelope_default;
     metadata := replicate 255 []; payload := [] |}.

Lemma message_well_typed_witness :
  (exists m, Serializer_deserialize demo_envelope = Ok m /\ typed m /\ env_flags (envelope m) = 7) /\
  let '(res, m') := Message_insert_metadata demo_full [] in
  res = Throw (runtime_error "Malformed message metadata count") /\ metalen m' = 0.
Proof.
  split.
  - eexists. split; [vm_compute; reflexivity|]. split; [|vm_compute; reflexivity].
    apply (proj1 (message_well_typed demo_envelope _)). vm_compute. reflexivity.
  - assert (Ht : typed demo_full) by (split; [constructor; cbn; lia | reflexivity]).
    pose proof (proj2 (proj2 (proj2 (proj2 (message_well_typed [] demo_full)) Ht)) []) as H.
    destruct (Message_insert_metadata demo_full []) as [res m'].
    destruct H as (_ & _ & _ & _ & H). destruct (H eq_refl) as (H1 & H2 & _). by split.
Defined.
