(* ===== verification/Framing.v ===== *)
(** Length-prefixed framing: [src/protocol/framing.cpp], the bounds-checked
    variant [extract_complete_message] of [src/transport/transport.cpp], and
    what the methods of the framer are worth together. *)
From S2P Require Import Prelude Message Wire.

(** ** [FramerMessage] *)

(** [memcpy(&len, buffer.data(), 4); ntohl(len)]: the first four bytes, most
    significant first; reading past the buffer is undefined. *)
Definition ntohl_prefix (buffer : bytes) : outcome Z :=
  a ← at_ buffer 0;
  b ← at_ buffer 1;
  c ← at_ buffer 2;
  d ← at_ buffer 3;
  Ok (b2z a * 2 ^ 24 + b2z b * 2 ^ 16 + b2z c * 2 ^ 8 + b2z d).

(** [4 + ntohl(len)] is computed in [uint32_t] and wraps around. *)
Definition has_message_in_buffer (buffer : bytes) : outcome bool :=
  if zsize buffer <? 4 then Ok false
  else
    len ← ntohl_prefix buffer;
    Ok (u32 (4 + len) <=? zsize buffer).

(** The message and the buffer after the [erase]; there is no bounds check. *)
Definition extract_message (buffer : bytes) : outcome (bytes * bytes) :=
  len ← ntohl_prefix buffer;
  msg ← range buffer 4 (4 + len);
  rest ← range buffer (4 + len) (zsize buffer);
  Ok (msg, rest).

Definition htonl_bytes (v : Z) : bytes := write_u32 v.

(** The buffer after both [insert]s. *)
Definition form_message (data buffer : bytes) : bytes :=
  buffer ++ htonl_bytes (u32 (zsize data)) ++ data.

(** [extract_complete_message]: [sizeof(uint32_t) + len] is 64-bit here. *)
Definition extract_complete_message (buffer : bytes) : outcome (option bytes * bytes) :=
  if zsize buffer <? 4 then Ok (None, buffer)
  else
    len ← ntohl_prefix buffer;
    if zsize buffer <? 4 + len then Ok (None, buffer)
    else
      message ← range buffer 4 (4 + len);
      rest ← range buffer (4 + len) (zsize buffer);
      Ok (Some message, rest).

(** The way the framer's methods are meant to be used,
    [while (framer->has_message_in_buffer(buf)) handle(framer->extract_message(buf))]:
    the messages taken out, in order, and the buffer that is left. Each
    iteration removes at least the four bytes of a header, so a fuel of the
    buffer's length is never used up. The loops of the program, with what they
    call for each message, are [handle_messages] (client), [ServerHandler_on_readable]
    (server) and [drain_messages] (peer). *)
Fixpoint drain_frames (fuel : nat) (buffer : bytes) : outcome (list bytes * bytes) :=
  match fuel with
  | O => Ok ([], buffer)
  | S fuel' =>
      has ← has_message_in_buffer buffer;
      if has : bool then
        '(msg, buffer') ← extract_message buffer;
        '(msgs, rest) ← drain_frames fuel' buffer';
        Ok (msg :: msgs, rest)
      else Ok ([], buffer)
  end.

Definition drain (buffer : bytes) : outcome (list bytes * bytes) :=
  drain_frames (S (length buffer)) buffer.

(** ** Lemmas *)

(** A frame the receiver can take: its total size fits 32 bits. *)
Definition frame_ok (d : bytes) : bool := zsize d <? 2 ^ 32 - 4.

Definition frame (d : bytes) : bytes := form_message d [].

Lemma frame_eq d : frame d = write_u32 (u32 (zsize d)) ++ d.
Proof. done. Qed.

Lemma zsize_frame d : zsize (frame d) = 4 + zsize d.
Proof. rewrite frame_eq. sizes. Qed.

#[export] Hint Rewrite zsize_frame : cpp.

Lemma ntohl_prefix_write v q : 0 <= v < 2 ^ 32 -> ntohl_prefix (write_u32 v ++ q) = Ok v.
Proof.
  intros Hv. unfold ntohl_prefix.
  destruct (at_write_u32 v q) as (-> & -> & -> & ->). cbn [mbind outcome_bind].
  rewrite <- (Z.shiftr_0_r v) at 4. rewrite !byte_of_shift by lia. f_equal.
  Z.to_euclidean_division_equations; lia.
Qed.

Lemma ntohl_prefix_inv b v :
  ntohl_prefix b = Ok v -> exists q, b = write_u32 v ++ q /\ 0 <= v < 2 ^ 32.
Proof.
  unfold ntohl_prefix. destruct b as [|a [|b [|c [|d q]]]]; try done.
  cbn [mbind outcome_bind at_]. intros [= <-].
  pose proof (b2z_range a); pose proof (b2z_range b);
  pose proof (b2z_range c); pose proof (b2z_range d).
  exists q. rewrite write_u32_inv. split; [done | lia].
Qed.

Lemma ntohl_prefix_defined b : 4 <= zsize b -> exists v, ntohl_prefix b = Ok v.
Proof.
  intros H. destruct b as [|a [|b [|c [|d q]]]]; try (exfalso; sizes).
  eexists; reflexivity.
Qed.

Lemma u32_zsize (d : bytes) : zsize d < 2 ^ 32 -> u32 (zsize d) = zsize d.
Proof. intros; pose proof (zsize_nonneg d); apply Z.mod_small; lia. Qed.

Lemma extract_frame d q :
  zsize d < 2 ^ 32 -> extract_message (frame d ++ q) = Ok (d, q).
Proof.
  intros Hd. pose proof (zsize_nonneg d). unfold extract_message.
  rewrite frame_eq, u32_zsize, <- app_assoc, ntohl_prefix_write by lia.
  cbn [mbind outcome_bind].
  rewrite (range_app (write_u32 (zsize d)) d q 4) by sizes. cbn [mbind outcome_bind].
  assert (range (write_u32 (zsize d) ++ d ++ q) (4 + zsize d)
            (zsize (write_u32 (zsize d) ++ d ++ q)) = Ok q) as ->; [|done].
  rewrite app_assoc, <- (app_nil_r q) at 1. apply range_app; sizes.
Qed.

Lemma has_frame d q : frame_ok d = true -> has_message_in_buffer (frame d ++ q) = Ok true.
Proof.
  unfold frame_ok, has_message_in_buffer; intros; bools. pose proof (zsize_nonneg d).
  case_match; bools; [sizes|].
  rewrite frame_eq, u32_zsize, <- app_assoc, ntohl_prefix_write by lia.
  cbn [mbind outcome_bind]. f_equal. apply Z.leb_le.
  unfold u32. rewrite Z.mod_small by lia. sizes.
Qed.

(** An incomplete frame is not taken. *)
Lemma has_frame_partial d q : frame_ok d = true -> zsize q < zsize (frame d) ->
  q `prefix_of` frame d -> has_message_in_buffer q = Ok false.
Proof.
  unfold frame_ok, has_message_in_buffer; intros; bools. pose proof (zsize_nonneg d).
  case_match; bools; [done|].
  destruct (ntohl_prefix_defined q) as [v Hv]; [lia|]. rewrite Hv. cbn [mbind outcome_bind].
  apply ntohl_prefix_inv in Hv as (q' & -> & Hv).
  destruct H1 as [k Hk]. rewrite frame_eq, u32_zsize, <- app_assoc in Hk by lia.
  assert (v = zsize d) as ->.
  { assert (Ok v = Ok (zsize d)) as [=]; [|done].
    rewrite <- (ntohl_prefix_write v (q' ++ k)), <- (ntohl_prefix_write (zsize d) d), Hk by lia.
    done. }
  f_equal. apply Z.leb_gt. unfold u32. rewrite Z.mod_small by lia. sizes.
Qed.

Definition frames (ms : list bytes) : bytes := concat (map frame ms).

Lemma frames_cons d ms : frames (d :: ms) = frame d ++ frames ms.
Proof. done. Qed.

(** A receiver's buffer between two messages, or inside one. *)
Definition partial (q : bytes) (ms : list bytes) : Prop :=
  q = [] \/ exists d ms', ms = d :: ms' /\ q `prefix_of` frame d /\ zsize q < zsize (frame d).

Lemma partial_has_no_message q ms :
  Forall (fun d => frame_ok d = true) ms -> partial q ms -> has_message_in_buffer q = Ok false.
Proof.
  intros Hok [->|(d & ms' & -> & Hp & Hlt)]; [done|].
  apply Forall_cons_iff in Hok as [Hd _]. by apply (has_frame_partial d).
Qed.

Lemma drain_frames_concat ms q : forall fuel,
  Forall (fun d => frame_ok d = true) ms -> has_message_in_buffer q = Ok false ->
  (length ms < fuel)%nat -> drain_frames fuel (frames ms ++ q) = Ok (ms, q).
Proof.
  induction ms as [|d ms IH]; intros [|fuel] Hok Hq Hf; cbn [length] in Hf; try lia.
  - cbn. by rewrite Hq.
  - apply Forall_cons_iff in Hok as [Hd Hok].
    rewrite frames_cons, <- app_assoc. cbn [drain_frames].
    rewrite has_frame by done. cbn [mbind outcome_bind].
    rewrite extract_frame by (unfold frame_ok in Hd; bools; lia). cbn [mbind outcome_bind].
    by rewrite IH by (done || lia).
Qed.

Lemma length_frames ms q : (length ms <= length (frames ms ++ q))%nat.
Proof.
  induction ms as [|d ms IH]; [cbn; lia|].
  rewrite frames_cons, <- app_assoc, length_app, frame_eq, length_app. cbn [length write_u32]. lia.
Qed.

Lemma drain_concat ms q :
  Forall (fun d => frame_ok d = true) ms -> has_message_in_buffer q = Ok false ->
  drain (frames ms ++ q) = Ok (ms, q).
Proof.
  intros. apply drain_frames_concat; try done. pose proof (length_frames ms q). lia.
Qed.

(** Cutting a stream of frames anywhere. *)
Lemma split_frames ms : forall s k, s ++ k = frames ms ->
  exists ms1 ms2 q, ms = ms1 ++ ms2 /\ s = frames ms1 ++ q /\ q ++ k = frames ms2 /\ partial q ms2.
Proof.
  induction ms as [|d ms IH]; intros s k E.
  - apply app_eq_nil in E as [-> ->]. exists [], [], []. by split_and!; [..|left].
  - rewrite frames_cons in E.
    destruct (Z.lt_ge_cases (zsize s) (zsize (frame d))) as [Hlt|Hge].
    + exists [], (d :: ms), s. split_and!; try done. right. exists d, ms. split_and!; try done.
      apply (f_equal (take (length s))) in E. rewrite take_app_length in E.
      unfold zsize in Hlt. rewrite take_app_le in E by lia.
      rewrite E. apply prefix_take.
    + assert (exists s', s = frame d ++ s') as [s' ->].
      { exists (drop (length (frame d)) s). unfold zsize in Hge.
        apply (f_equal (take (length (frame d)))) in E.
        rewrite take_app_length, take_app_le in E by lia.
        rewrite <- E at 1. by rewrite take_drop. }
      rewrite <- app_assoc in E. apply app_inv_head in E.
      destruct (IH s' k E) as (ms1 & ms2 & q & -> & -> & Hk & Hq).
      exists (d :: ms1), ms2, q. split_and!; try done.
      by rewrite frames_cons, app_assoc.
Qed.

(** A buffer to which [chunks] are appended one after the other, and which is
    drained after each of them: everything taken out, in order, and what is left. *)
Fixpoint feed (chunks : list bytes) (buffer : bytes) : outcome (list bytes * bytes) :=
  match chunks with
  | [] => Ok ([], buffer)
  | c :: chunks' =>
      '(ms1, b1) ← drain (buffer ++ c);
      '(ms2, b2) ← feed chunks' b1;
      Ok (ms1 ++ ms2, b2)
  end.

Lemma feed_spec chunks : forall b ms,
  Forall (fun d => frame_ok d = true) ms -> partial b ms ->
  b ++ concat chunks = frames ms -> feed chunks b = Ok (ms, []).
Proof.
  induction chunks as [|c chunks IH]; intros b ms Hok Hb E; cbn [feed concat] in *.
  - rewrite app_nil_r in E. subst b.
    destruct Hb as [E|(d & ms' & -> & _ & Hlt)].
    + destruct ms; [done|]. rewrite frames_cons in E. exfalso.
      apply app_eq_nil in E as [E _]. by rewrite frame_eq in E.
    + exfalso. rewrite frames_cons in Hlt. sizes.
  - rewrite app_assoc in E. apply split_frames in E as (ms1 & ms2 & q & -> & Ebc & Eq & Hq).
    apply Forall_app in Hok as [Hok1 Hok2].
    rewrite Ebc, drain_concat by eauto using partial_has_no_message.
    cbn [mbind outcome_bind]. by rewrite (IH q ms2).
Qed.

(** ** Properties *)

(** C22: the three methods of [FramerMessage] fit together. Messages, each
    shorter than 2^32 - 4 bytes, are framed by [form_message] one after the other,
    and the bytes are cut anywhere into chunks. A buffer to which the chunks are
    appended in turn, and from which messages are extracted after each as long as
    [has_message_in_buffer] says so, gives exactly those messages, in order, and is
    empty at the end. This is about the framer and a buffer; which bytes the
    transports put into such a buffer is stated of the transports. *)
Theorem frames_reassembled (ms chunks : list bytes) :
  forallb frame_ok ms = true -> concat chunks = frames ms ->
  feed chunks [] = Ok (ms, []).
Proof.
  intros Hok E. apply feed_spec; [|by left|done].
  rewrite forallb_forall in Hok. by apply Stdlib.Lists.List.Forall_forall.
Qed.

Lemma frames_reassembled_witness :
  feed [take 3 (frames [sbytes "hi"; sbytes "all"]);
        drop 3 (frames [sbytes "hi"; sbytes "all"])] []
  = Ok ([sbytes "hi"; sbytes "all"], []).
Proof. apply frames_reassembled; vm_compute; reflexivity. Defined.

(** C40: the 32-bit size test wraps around: for every header announcing at least
    2^32 - 4 bytes (which any peer can send in four bytes), a buffer shorter
    than the announced message passes [has_message_in_buffer], and
    [extract_message] then reads outside the buffer. *)
Theorem framing_header_overflow (len : Z) (q : bytes) :
  2 ^ 32 - 4 <= len < 2 ^ 32 -> zsize q < len ->
  has_message_in_buffer (write_u32 len ++ q) = Ok true /\
  extract_message (write_u32 len ++ q) = Undef.
Proof.
  intros Hlen Hq. unfold has_message_in_buffer, extract_message.
  rewrite ntohl_prefix_write by lia. cbn [mbind outcome_bind]. split.
  - case_match; bools; [exfalso; sizes|]. f_equal. apply Z.leb_le. unfold u32.
    replace (4 + len) with ((4 + len - 2 ^ 32) + 1 * 2 ^ 32) by lia.
    rewrite Z_mod_plus_full, Z.mod_small by lia. sizes.
  - rewrite (range_out _ 4) by sizes. done.
Qed.

Lemma framing_header_overflow_witness :
  has_message_in_buffer (map z2b [255; 255; 255; 255]) = Ok true /\
  extract_message (map z2b [255; 255; 255; 255]) = Undef.
Proof. apply (framing_header_overflow (2 ^ 32 - 1) []); vm_compute; intuition discriminate. Defined.

(** The bounds-checked variant used by the transports never leaves the
    buffer, and agrees with the unchecked pair on every buffer whose header
    announces less than 2^32 - 4 bytes. *)
Theorem extract_complete_message_refines (buffer : bytes) :
  extract_complete_message buffer <> Undef /\
  (forall len, ntohl_prefix buffer = Ok len -> len < 2 ^ 32 - 4 ->
   extract_complete_message buffer
   = (has ← has_message_in_buffer buffer;
      if has : bool then '(m, rest) ← extract_message buffer; Ok (Some m, rest)
      else Ok (None, buffer))).
Proof.
  unfold extract_complete_message, has_message_in_buffer, extract_message.
  destruct (Z.ltb_spec (zsize buffer) 4) as [H4|H4]; [by split|].
  destruct (ntohl_prefix_defined buffer H4) as [v Hv]. rewrite Hv. cbn [mbind outcome_bind].
  apply ntohl_prefix_inv in Hv as (q & -> & Hv). split.
  - case_match; [done|]; bools.
    destruct (range_defined (write_u32 v ++ q) 4 (4 + v)) as [m ->]; try lia.
    destruct (range_defined (write_u32 v ++ q) (4 + v) (zsize (write_u32 v ++ q)))
      as [r ->]; try lia. done.
  - intros len [= <-] Hlt. unfold u32. rewrite (Z.mod_small (4 + v)) by lia.
    destruct (Z.ltb_spec (zsize (write_u32 v ++ q)) (4 + v)), 
      (Z.leb_spec (4 + v) (zsize (write_u32 v ++ q))); try lia; [done|].
    destruct (range (write_u32 v ++ q) 4 (4 + v)); try done. cbn [mbind outcome_bind].
    by destruct (range (write_u32 v ++ q) (4 + v) _).
Qed.
