(* ===== verification/CommandPattern.v ===== *)
(** The command language of the client: templates, their compilation and
    matching ([include/application/commands/command_pattern.hpp],
    [command_pattern_matcher.cpp], [command_catalog.cpp]). *)
From Stdlib Require Import Ascii.
From S2P Require Import Prelude.

(** ** Data *)

Inductive PatternTokenKind := Literal | Capture | TailCapture.

#[global] Instance PatternTokenKind_eq_dec : EqDecision PatternTokenKind.
Proof. solve_decision. Defined.

Record PatternToken := {
  tok_kind : PatternTokenKind;
  tok_value : string;
}.

Record CommandPattern := {
  pat_command_name : string;
  pat_template_text : string;
  pat_tokens : list PatternToken;
}.

Record CommandMatch := {
  matched : bool;
  match_command_name : string;
  captures : list string;
}.

(** [CommandMatch{.matched = false}]. *)
Definition no_match : CommandMatch :=
  {| matched := false; match_command_name := ""; captures := [] |}.

(** ** Strings *)

(** [s += c]. *)
Definition push_char (s : string) (c : Ascii.ascii) : string := s +:+ String c EmptyString.

Definition string_empty (s : string) : bool :=
  match s with EmptyString => true | _ => false end.

Definition ends_with (s suf : string) : bool :=
  (String.length suf <=? String.length s)%nat
  && String.eqb (String.substring (String.length s - String.length suf) (String.length suf) s) suf.

(** [s.substr(pos, count)] for [pos <= s.size()]; a [count] past the end
    (also one that wrapped around) takes the rest. *)
Definition substr (s : string) (pos : nat) (count : Z) : string :=
  String.substring pos (Z.to_nat (Z.min count (Z.of_nat (String.length s)))) s.

(** ** [CommandPatternMatcher] *)

Fixpoint split_tokens_loop (text cur : string) (string_tokens : list string) : list string :=
  match text with
  | EmptyString => string_tokens ++ [cur]
  | String c text' =>
      if Ascii.eqb c " "%char then
        split_tokens_loop text' ""
          (if string_empty cur then string_tokens else string_tokens ++ [cur])
      else split_tokens_loop text' (push_char cur c) string_tokens
  end.

Definition split_tokens (text : string) : list string := split_tokens_loop text "" [].

Definition compile_token (t : string) : PatternToken :=
  if ends_with t "...}" then
    {| tok_kind := TailCapture;
       tok_value := substr t 1 (u64 (Z.of_nat (String.length t) - 4)) |}
  else if String.prefix "{" t then
    {| tok_kind := Capture;
       tok_value := substr t 1 (u64 (Z.of_nat (String.length t) - 2)) |}
  else {| tok_kind := Literal; tok_value := t |}.

Definition compile_pattern (command_name template_text : string) : CommandPattern :=
  {| pat_command_name := command_name; pat_template_text := template_text;
     pat_tokens := map compile_token (split_tokens template_text) |}.

(** [tail]: the remaining tokens joined by single spaces. *)
Definition join_tail (input : list string) : string :=
  foldl (fun tail t => (if string_empty tail then tail else push_char tail " "%char) +:+ t)
    "" input.

(** The loop over the pattern's tokens; [input] holds the input tokens from
    index [ii] on. [None] is an early [return CommandMatch{.matched = false}]. *)
Fixpoint try_match_loop (tokens : list PatternToken) (input : list string)
    (caps : list string) : option (list string * list string) :=
  match tokens with
  | [] => Some (caps, input)
  | token :: tokens' =>
      match tok_kind token with
      | Literal =>
          match input with
          | [] => None
          | i :: input' =>
              if String.eqb i (tok_value token) then try_match_loop tokens' input' caps
              else None
          end
      | Capture =>
          match input with
          | [] => None
          | i :: input' => try_match_loop tokens' input' (caps ++ [i])
          end
      | TailCapture =>
          match tokens' with
          | _ :: _ => None
          | [] => Some (caps ++ [join_tail input], [])
          end
      end
  end.

Definition try_match (pattern : CommandPattern) (input_tokens : list string) : CommandMatch :=
  match try_match_loop (pat_tokens pattern) input_tokens [] with
  | None => no_match
  | Some (caps, []) =>
      {| matched := true; match_command_name := pat_command_name pattern; captures := caps |}
  | Some (caps, _ :: _) =>
      {| matched := false; match_command_name := ""; captures := caps |}
  end.

(** The matcher's state is the vector [patterns_]. *)
Definition add_pattern (patterns_ : list CommandPattern) (command_name template_text : string) :
    list CommandPattern :=
  patterns_ ++ [compile_pattern command_name template_text].

Fixpoint match_patterns (patterns_ : list CommandPattern) (tokens : list string) : CommandMatch :=
  match patterns_ with
  | [] => no_match
  | p :: ps =>
      let m := try_match p tokens in
      if matched m then m else match_patterns ps tokens
  end.

Definition CommandPatternMatcher_match (patterns_ : list CommandPattern) (input : string) :
    CommandMatch :=
  match_patterns patterns_ (split_tokens input).

(** ** [default_command_catalog] *)

Definition catalog_entry (name template_text : string) : CommandPattern :=
  {| pat_command_name := name; pat_template_text := template_text; pat_tokens := [] |}.

Definition default_command_catalog : list CommandPattern :=
  [catalog_entry "login" "/login {username}";
   catalog_entry "room" "/room {name}";
   catalog_entry "join" "/join {name}";
   catalog_entry "send" "/send {chat} {message...}";
   catalog_entry "pmess" "/pmess {recipient} {message...}";
   catalog_entry "getpub" "/getpub {username}";
   catalog_entry "sendfile" "/sendfile {recipient} {filename}";
   catalog_entry "connect" "/connect {ip} {port} {dh} {identity} {sig}";
   catalog_entry "disconnect" "/disconnect {username}";
   catalog_entry "exit" "/exit";
   catalog_entry "help" "/help"].

(** [Parser::Parser()]: one [add_pattern] per catalog entry. *)
Definition Parser_patterns : list CommandPattern :=
  foldl (fun ps p => add_pattern ps (pat_command_name p) (pat_template_text p)) []
    default_command_catalog.
