(* ===== verification/Parser.v ===== *)
(** From input lines to messages and back: [include/protocol/parser.hpp] and
    [src/protocol/parser.cpp]. *)
From Stdlib Require Import Ascii.
From S2P Require Import Prelude Message Wire CommandPattern.

Record ParsedCommand := {
  pc_name : string;
  pc_args : list bytes;
}.

Definition ParsedCommand_default : ParsedCommand := {| pc_name := ""; pc_args := [] |}.

(** [command_types_map().find(name)]. *)
Definition command_types_map (name : string) : option CommandType :=
  if String.eqb name "login" then Some LOGIN
  else if String.eqb name "room" then Some MAKE_ROOM
  else if String.eqb name "join" then Some JOIN
  else if String.eqb name "send" then Some SEND
  else if String.eqb name "pmess" then Some PRIVATE_MESSAGE
  else if String.eqb name "getpub" then Some GET_PUBKEY
  else if String.eqb name "sendfile" then Some SEND_FILE
  else if String.eqb name "connect" then Some CONNECT
  else if String.eqb name "disconnect" then Some DISCONNECT
  else if String.eqb name "exit" then Some EXIT
  else None.

(** [command_names_map().find(type)]. *)
Definition command_names_map (c : CommandType) : option string :=
  match c with
  | LOGIN => Some "login"%string
  | MAKE_ROOM => Some "room"%string
  | JOIN => Some "join"%string
  | SEND => Some "send"%string
  | PRIVATE_MESSAGE => Some "pmess"%string
  | GET_PUBKEY => Some "getpub"%string
  | SEND_FILE => Some "sendfile"%string
  | CONNECT => Some "connect"%string
  | DISCONNECT => Some "disconnect"%string
  | EXIT => Some "exit"%string
  | _ => None
  end.

(** The message a parser builds before it fills in metadata and payload. *)
Definition stamped (now : Z) (t : MessageType) : Message :=
  {| header := {| hdr_type := t; hdr_length := 0; hdr_checksum := 0; hdr_timestamp := now;
                  hdr_protocol_version := 1 |};
     metalen := 0; envelope := MessageEnvelope_default; metadata := []; payload := [] |}.

(** A method of a local message: the message is gone when the method throws. *)
Definition changed (r : outcome unit * Message) : outcome Message := _ ← r.1; Ok r.2.

Fixpoint insert_all (msg : Message) (args : list bytes) : outcome Message :=
  match args with
  | [] => Ok msg
  | a :: args' => msg' ← changed (Message_insert_metadata msg a); insert_all msg' args'
  end.

Definition make_command_from_struct (now : Z) (cmd_struct : ParsedCommand) : outcome Message :=
  let msg := stamped now Command in
  let command_type := default UNKNOWN (command_types_map (pc_name cmd_struct)) in
  msg ← changed (Message_insert_metadata msg [CommandType_to_byte command_type]);
  msg ← insert_all msg (pc_args cmd_struct);
  changed (Message_set_payload msg (default [] (list.last (pc_args cmd_struct)))).

(** [std::isspace] in the "C" locale, for [operator>>]. *)
Definition is_space (c : Ascii.ascii) : bool :=
  let n := Ascii.nat_of_ascii c in ((n =? 32) || ((9 <=? n) && (n <=? 13)))%nat.

(** All tokens that successive [ss >> token] extract. *)
Fixpoint stream_tokens_loop (text cur : string) : list string :=
  match text with
  | EmptyString => if string_empty cur then [] else [cur]
  | String c text' =>
      if is_space c then
        if string_empty cur then stream_tokens_loop text' ""
        else cur :: stream_tokens_loop text' ""
      else stream_tokens_loop text' (push_char cur c)
  end.

Definition stream_tokens (text : string) : list string := stream_tokens_loop text "".

Definition parse_line (line : string) : ParsedCommand :=
  if string_empty line then ParsedCommand_default
  else
    let m := CommandPatternMatcher_match Parser_patterns line in
    if matched m then
      {| pc_name := match_command_name m; pc_args := map sbytes (captures m) |}
    else
      match stream_tokens line with
      | [] => ParsedCommand_default
      | first_segment :: tokens =>
          {| pc_name :=
               if String.prefix "/" first_segment || String.prefix "$" first_segment
               then substr first_segment 1 (Z.of_nat (String.length first_segment))
               else first_segment;
             pc_args := map sbytes tokens |}
      end.

Definition parse (now : Z) (message : string) : outcome Message :=
  if string_empty message then Ok Message_default
  else if String.prefix "/" message then make_command_from_struct now (parse_line message)
  else changed (Message_set_payload (stamped now Text) (sbytes message)).

Definition make_struct_from_command (msg : Message) : ParsedCommand :=
  match Message_get_meta msg 0 with
  | [] => {| pc_name := "unknown"; pc_args := [] |}
  | b :: _ =>
      {| pc_name := default "unknown"%string (command_names_map (CommandType_of_byte b));
         pc_args := map (Message_get_meta msg) (seq 1 (Message_meta_count msg - 1)) |}
  end.

(** ** Splitting lines *)

(** A token a user can type: not empty, without spaces. *)
Fixpoint no_space (s : string) : bool :=
  match s with
  | EmptyString => true
  | String c s' => negb (Ascii.eqb c " "%char) && no_space s'
  end.

Definition token_ok (s : string) : bool := negb (string_empty s) && no_space s.

(** Tokens separated by single spaces. *)
Definition unwords (ts : list string) : string := String.concat " " ts.

Lemma append_assoc (a b c : string) : (a +:+ b) +:+ c = a +:+ (b +:+ c).
Proof. induction a as [|x a IH]; [done | exact (f_equal (String x) IH)]. Qed.

Lemma append_nil_r (a : string) : a +:+ "" = a.
Proof. induction a as [|x a IH]; [done | exact (f_equal (String x) IH)]. Qed.

Lemma push_char_app s c t : push_char s c +:+ t = s +:+ String c t.
Proof. unfold push_char. by rewrite append_assoc. Qed.

Lemma string_empty_app a b : string_empty (a +:+ b) = string_empty a && string_empty b.
Proof. by destruct a. Qed.

Lemma split_loop_token t rest : forall cur acc,
  no_space t = true ->
  split_tokens_loop (t +:+ rest) cur acc = split_tokens_loop rest (cur +:+ t) acc.
Proof.
  induction t as [|c t IH]; intros cur acc H.
  - by rewrite append_nil_r.
  - cbn in H; bools. change (String c t +:+ rest) with (String c (t +:+ rest)).
    cbn [split_tokens_loop]. case_match; [congruence|]. rewrite IH by done. f_equal. apply push_char_app.
Qed.

Lemma split_loop_unwords t ts : forall acc,
  Forall (fun s => token_ok s = true) (t :: ts) ->
  split_tokens_loop (unwords (t :: ts)) "" acc = acc ++ t :: ts.
Proof.
  revert t. induction ts as [|u ts IH]; intros t acc [Ht Hts]%Forall_cons_iff;
    unfold token_ok in Ht; bools; unfold unwords.
  - cbn [String.concat]. rewrite <- (append_nil_r t) at 1. by rewrite split_loop_token.
  - change (String.concat " " (t :: u :: ts)) with (t +:+ (" " +:+ unwords (u :: ts))).
    rewrite split_loop_token by done.
    change (split_tokens_loop (unwords (u :: ts)) ""
      (if string_empty t then acc else acc ++ [t]) = acc ++ t :: u :: ts).
    replace (string_empty t) with false. rewrite IH by done. by rewrite <- app_assoc.
Qed.

Lemma split_unwords t ts :
  Forall (fun s => token_ok s = true) (t :: ts) -> split_tokens (unwords (t :: ts)) = t :: ts.
Proof. apply split_loop_unwords. Qed.

Lemma join_tail_loop ts : forall acc,
  Forall (fun s => token_ok s = true) ts -> string_empty acc = false ->
  foldl (fun tail t => (if string_empty tail then tail else push_char tail " "%char) +:+ t)
    acc ts = acc +:+ String.concat "" (map (fun t => " " +:+ t) ts).
Proof.
  induction ts as [|t ts IH]; intros acc Hts Hacc; cbn [foldl map].
  - by rewrite append_nil_r.
  - apply Forall_cons_iff in Hts as [Ht Hts]. rewrite Hacc, IH; [|done|].
    + rewrite push_char_app.
      destruct ts as [|u ts]; cbn [map String.concat]; [by rewrite !append_nil_r|].
      by rewrite !append_assoc.
    + unfold token_ok in Ht; bools. rewrite string_empty_app. unfold push_char.
      rewrite string_empty_app. by rewrite Hacc.
Qed.

Lemma join_tail_unwords t ts :
  Forall (fun s => token_ok s = true) (t :: ts) -> join_tail (t :: ts) = unwords (t :: ts).
Proof.
  intros [Ht Hts]%Forall_cons_iff. unfold join_tail. cbn [foldl string_empty].
  unfold token_ok in Ht; bools. change ("" +:+ t) with t. rewrite join_tail_loop by done.
  clear -Hts. revert t. induction ts as [|u ts IH]; intros t; cbn [map String.concat].
  - apply append_nil_r.
  - apply Forall_cons_iff in Hts as [Hu Hts].
    change (unwords (t :: u :: ts)) with (t +:+ (" " +:+ unwords (u :: ts))).
    f_equal. rewrite <- (IH Hts u).
    destruct ts as [|v ts]; cbn [map String.concat]; [by rewrite append_nil_r|].
    by rewrite append_assoc.
Qed.

(** ** What a command line means *)

(** The number of words after the name, for commands without a free text. *)
Definition command_arity (name : string) : option nat :=
  if bool_decide (name ∈ ["login"; "room"; "join"; "getpub"; "disconnect"]%string) then Some 1%nat
  else if String.eqb name "sendfile" then Some 2%nat
  else if String.eqb name "connect" then Some 5%nat
  else if String.eqb name "exit" then Some 0%nat
  else None.

(** The arguments of a command line with the words [ts] after the name: the
    words themselves, or a name and a text. *)
Definition command_args (name : string) (ts : list string) : option (list string) :=
  match command_arity name with
  | Some n => if (length ts =? n)%nat then Some ts else None
  | None =>
      if bool_decide (name ∈ ["send"; "pmess"]%string) then
        match ts with
        | who :: w :: ws => Some [who; unwords (w :: ws)]
        | _ => None
        end
      else None
  end.

Definition parser_table : list CommandPattern := Eval vm_compute in Parser_patterns.

Lemma parser_table_eq : Parser_patterns = parser_table.
Proof. vm_compute; reflexivity. Qed.

Lemma slash_token name : no_space name = true -> token_ok (String "/" name) = true.
Proof. intros H. cbn. exact H. Qed.

(** Case analysis on the command names a [command_args] accepts. *)
Lemma command_args_cases name ts args :
  command_args name ts = Some args ->
  (name ∈ ["login"; "room"; "join"; "getpub"; "disconnect"]%string
    /\ exists a, ts = [a] /\ args = [a])
  \/ (name = "sendfile"%string /\ exists a b, ts = [a; b] /\ args = [a; b])
  \/ (name = "connect"%string /\ exists a b c d e, ts = [a; b; c; d; e] /\ args = [a; b; c; d; e])
  \/ (name = "exit"%string /\ ts = [] /\ args = [])
  \/ (name ∈ ["send"; "pmess"]%string
      /\ exists who w ws, ts = who :: w :: ws /\ args = [who; unwords (w :: ws)]).
Proof.
  unfold command_args, command_arity. intros H.
  case_bool_decide as Hin; [left|right].
  { do 2 (destruct ts as [|? ts]; try discriminate). simplify_eq/=. eauto. }
  destruct (String.eqb_spec name "sendfile") as [->|_]; [left|right].
  { do 3 (destruct ts as [|? ts]; try discriminate). simplify_eq/=. eauto. }
  destruct (String.eqb_spec name "connect") as [->|_]; [left|right].
  { do 6 (destruct ts as [|? ts]; try discriminate). simplify_eq/=. eauto 10. }
  destruct (String.eqb_spec name "exit") as [->|_]; [left|right].
  { destruct ts; try discriminate. by simplify_eq/=. }
  case_bool_decide as Hin'; [|done].
  do 2 (destruct ts as [|? ts]; try discriminate). simplify_eq. eauto 10.
Qed.

Lemma parse_line_matched name ts :
  no_space name = true -> Forall (fun s => token_ok s = true) ts ->
  parse_line (unwords (String "/" name :: ts))
  = let m := match_patterns parser_table (String "/" name :: ts) in
    if matched m then {| pc_name := match_command_name m; pc_args := map sbytes (captures m) |}
    else parse_line (unwords (String "/" name :: ts)).
Proof.
  intros Hn Hts. cbv zeta. destruct (matched _) eqn:Em; [|done].
  unfold parse_line.
  assert (string_empty (unwords (String "/" name :: ts)) = false) as -> by (by destruct ts).
  unfold CommandPatternMatcher_match. rewrite split_unwords, parser_table_eq, Em; [done|].
  constructor; [by apply slash_token | done].
Qed.

Lemma parse_line_command name ts args :
  command_args name ts = Some args -> Forall (fun s => token_ok s = true) ts ->
  parse_line (unwords (String "/" name :: ts)) = {| pc_name := name; pc_args := map sbytes args |}.
Proof.
  intros Ha Hts. apply command_args_cases in Ha.
  destruct Ha as [(Hin & a & -> & ->)|[(-> & a & b & -> & ->)
    |[(-> & a & b & c & d & e & -> & ->)|[(-> & -> & ->)|(Hin & who & w & ws & -> & ->)]]]].
  all: try (set_unfold in Hin; destruct_or!; subst).
  all: rewrite parse_line_matched by done.
  all: try reflexivity.
  all: rewrite <- (join_tail_unwords w ws) by (by apply Forall_cons_iff in Hts as [_ ?]); reflexivity.
Qed.

(** *** Every line of words *)

(** A word: not empty, without white space. *)
Fixpoint no_blank (s : string) : bool :=
  match s with
  | EmptyString => true
  | String c s' => negb (is_space c) && no_blank s'
  end.

Definition word_ok (s : string) : bool := negb (string_empty s) && no_blank s.

(** The arguments of a line with the words [ts] after the name. *)
Definition line_args (name : string) (ts : list string) : list string :=
  match ts with
  | who :: ws => if bool_decide (name ∈ ["send"; "pmess"]%string) then [who; unwords ws] else ts
  | [] => []
  end.

Lemma no_blank_no_space s : no_blank s = true -> no_space s = true.
Proof.
  induction s as [|c s IH]; [done|]. cbn. intros H. bools. rewrite IH by done.
  destruct (Ascii.eqb_spec c " "%char) as [->|]; [done|]. done.
Qed.

Lemma word_token s : word_ok s = true -> token_ok s = true.
Proof. unfold word_ok, token_ok. intros H. bools. rewrite no_blank_no_space by done. by destruct (string_empty s). Qed.

Lemma stream_loop_word t rest : forall cur,
  no_blank t = true -> stream_tokens_loop (t +:+ rest) cur = stream_tokens_loop rest (cur +:+ t).
Proof.
  induction t as [|c t IH]; intros cur H.
  - by rewrite append_nil_r.
  - cbn in H; bools. change (String c t +:+ rest) with (String c (t +:+ rest)).
    cbn [stream_tokens_loop]. case_match; [congruence|]. rewrite IH by done. f_equal. apply push_char_app.
Qed.

Lemma stream_unwords ts : forall t,
  Forall (fun s => word_ok s = true) (t :: ts) -> stream_tokens (unwords (t :: ts)) = t :: ts.
Proof.
  induction ts as [|u ts IH]; intros t [Ht Hts]%Forall_cons_iff; unfold word_ok in Ht; bools;
    unfold stream_tokens, unwords.
  - cbn [String.concat]. rewrite <- (append_nil_r t) at 1. rewrite stream_loop_word by done.
    cbn. by destruct t.
  - change (String.concat " " (t :: u :: ts)) with (t +:+ (" " +:+ unwords (u :: ts))).
    rewrite stream_loop_word by done.
    change (stream_tokens_loop (" " +:+ unwords (u :: ts)) ("" +:+ t))
      with (if string_empty t then stream_tokens_loop (unwords (u :: ts)) ""
            else t :: stream_tokens_loop (unwords (u :: ts)) "").
    replace (string_empty t) with false. f_equal. by apply IH.
Qed.

Lemma substring_all s n : (String.length s <= n)%nat -> String.substring 0 n s = s.
Proof.
  revert n. induction s as [|c s IH]; intros [|n] H; cbn in *; try done; try lia.
  f_equal. apply IH. lia.
Qed.

(** A line that no pattern matches. *)
Lemma parse_line_unmatched name ts :
  no_blank name = true -> Forall (fun s => word_ok s = true) ts ->
  matched (match_patterns parser_table (String "/" name :: ts)) = false ->
  parse_line (unwords (String "/" name :: ts)) = {| pc_name := name; pc_args := map sbytes ts |}.
Proof.
  intros Hn Hts Hm. unfold parse_line.
  assert (string_empty (unwords (String "/" name :: ts)) = false) as -> by (by destruct ts).
  unfold CommandPatternMatcher_match. rewrite split_unwords, parser_table_eq, Hm.
  - assert (Hw : Forall (fun s => word_ok s = true) (String "/" name :: ts)) by (constructor; [exact Hn | done]).
    rewrite (stream_unwords _ _ Hw). cbn [String.prefix].
    unfold substr. cbn -[String.substring].
    rewrite Z.min_id, Nat2Z.id. cbn. rewrite substring_all by lia. by destruct name.
  - constructor; [by apply slash_token, no_blank_no_space|].
    eapply Forall_impl; [apply word_token | exact Hts].
Qed.

Lemma match_patterns_none ps tokens :
  Forall (fun p => matched (try_match p tokens) = false) ps ->
  matched (match_patterns ps tokens) = false.
Proof. induction 1 as [|p ps H _ IH]; [done|]. cbn. by rewrite H. Qed.

(** Words for which no pattern of the table fits. *)
Lemma unmatched_words name ts :
  command_args name ts = None -> (name ∈ ["send"; "pmess"]%string -> ts = []) ->
  (name = "help"%string -> ts <> []) ->
  matched (match_patterns parser_table (String "/" name :: ts)) = false.
Proof.
  intros Hc Hs Hh. apply match_patterns_none. unfold parser_table.
  repeat apply Forall_cons_2; [..|apply Forall_nil_2];
    unfold try_match; cbn -[String.eqb];
    match goal with
    | |- context [String.eqb (String "/" name) ?s] =>
        destruct (String.eqb_spec (String "/" name) s) as [[= ->]|]; [|done]
    end.
  all: try (rewrite Hs by set_solver; done).
  all: try (destruct ts; [by destruct Hh | done]).
  all: do 6 (destruct ts as [|? ts]; try done).
Qed.

Lemma parse_line_words name ts :
  no_blank name = true -> forallb word_ok ts = true ->
  parse_line (unwords (String "/" name :: ts))
  = {| pc_name := name; pc_args := map sbytes (line_args name ts) |}.
Proof.
  intros Hn Hts. assert (Hf : Forall (fun s => word_ok s = true) ts)
    by (rewrite forallb_forall in Hts; by apply Stdlib.Lists.List.Forall_forall).
  assert (Ht : Forall (fun s => token_ok s = true) ts) by (eapply Forall_impl; [apply word_token | exact Hf]).
  destruct (command_args name ts) as [args|] eqn:Ha.
  { rewrite (parse_line_command _ _ _ Ha Ht). do 2 f_equal. apply command_args_cases in Ha.
    destruct Ha as [(Hin & a & -> & ->)|[(-> & a & b & -> & ->)
      |[(-> & a & b & c & d & e & -> & ->)|[(-> & -> & ->)|(Hin & who & w & ws & -> & ->)]]]]; try reflexivity;
      set_unfold in Hin; destruct_or!; subst; reflexivity. }
  destruct (decide (name ∈ ["send"; "pmess"]%string /\ ts <> [])) as [[Hin Hne]|Hs].
  { set_unfold in Hin. destruct_or!; subst; destruct ts as [|who [|w ws]]; try done;
      rewrite parse_line_matched by done; reflexivity. }
  destruct (decide (name = "help"%string /\ ts = [])) as [[-> ->]|Hh]; [reflexivity|].
  rewrite parse_line_unmatched; [|done..|].
  - f_equal. unfold line_args. destruct ts; [done|]. rewrite bool_decide_eq_false_2; [done|]. naive_solver.
  - apply unmatched_words; [done|..].
    + intros Hin. destruct ts; [done|]. naive_solver.
    + naive_solver.
Qed.

(** ** Commands as messages *)

(** Appending metadata entries to a message without payload. *)
Lemma insert_all_spec args : forall m,
  metalen m = zsize (metadata m) -> payload m = [] ->
  zsize (metadata m ++ args) < 256 -> wire_size (metadata m ++ args) [] < 2 ^ 32 ->
  exists m', insert_all m args = Ok m' /\ metadata m' = metadata m ++ args /\ payload m' = [] /\
    metalen m' = zsize (metadata m') /\ envelope m' = envelope m /\
    hdr_type (header m') = hdr_type (header m) /\
    hdr_protocol_version (header m') = hdr_protocol_version (header m).
Proof.
  induction args as [|a args IH]; intros m Hml Hp Hc Hw; cbn [insert_all].
  - exists m. rewrite app_nil_r. split_and!; done.
  - replace (metadata m ++ a :: args) with ((metadata m ++ [a]) ++ args) in * by (by rewrite <- app_assoc).
    unfold Message_insert_metadata at 1, update_length at 1. cbn [metalen metadata payload]. rewrite Hp.
    assert (wire_size (metadata m ++ [a]) [] <= wire_size ((metadata m ++ [a]) ++ args) [])
      by (unfold wire_size, write_metadata; rewrite !map_app, !concat_app; sizes).
    assert (Hu : u8 (zsize (metadata m ++ [a])) = zsize (metadata m ++ [a]))
      by (apply Z.mod_small; sizes).
    rewrite Hu, compute_size_ok by lia. unfold changed. cbn [fst snd mbind outcome_bind].
    edestruct IH as (m' & -> & Hm'); [| | | |exists m'; split; [reflexivity|exact Hm']]; done.
Qed.

Lemma command_types_names name c :
  command_types_map name = Some c -> CommandType_of_byte (CommandType_to_byte c) = c /\
    command_names_map c = Some name.
Proof.
  unfold command_types_map.
  repeat match goal with
         | |- context [String.eqb name ?s] =>
             destruct (String.eqb_spec name s) as [->|_]; [intros [= <-]; by vm_compute|]
         end.
  done.
Qed.

Lemma make_command_spec now pc c :
  command_types_map (pc_name pc) = Some c ->
  zsize (pc_args pc) < 255 ->
  wire_size ([CommandType_to_byte c] :: pc_args pc) (default [] (list.last (pc_args pc))) < 2 ^ 32 ->
  exists m, make_command_from_struct now pc = Ok m /\
    metadata m = [CommandType_to_byte c] :: pc_args pc /\
    payload m = default [] (list.last (pc_args pc)) /\ metalen m = zsize (metadata m) /\
    envelope m = MessageEnvelope_default /\ Message_get_type m = Command /\
    hdr_protocol_version (header m) = kProtocolVersion.
Proof.
  intros Hc Hn Hw. unfold make_command_from_struct. rewrite Hc. cbv zeta.
  change (default UNKNOWN (Some c)) with c.
  destruct (insert_all_spec ([CommandType_to_byte c] :: pc_args pc) (stamped now Command))
    as (m & E & Hmd & Hp & Hml & He & Ht & Hv); [done|done|cbn; sizes| |].
  { unfold wire_size in *. cbn [stamped metadata app]. sizes. }
  cbn [insert_all] in E. apply obind_Ok in E as (m1 & -> & E). cbn [mbind outcome_bind].
  rewrite E. cbn [mbind outcome_bind]. unfold changed, Message_set_payload, update_length.
  cbn [metalen metadata payload]. rewrite Hml, Hmd. cbn [stamped metadata app] in *. rewrite compute_size_ok by done.
  eexists; split; [reflexivity|]. cbn. rewrite <- Hmd. split_and!; try done. 
Qed.

Lemma make_struct_spec m b args :
  metadata m = [b] :: args ->
  make_struct_from_command m
  = {| pc_name := default "unknown"%string (command_names_map (CommandType_of_byte b));
       pc_args := args |}.
Proof.
  intros Hm. unfold make_struct_from_command, Message_meta_count, Message_get_meta.
  rewrite Hm. cbn [lookup list_lookup length]. f_equal.
  rewrite Nat.sub_succ, Nat.sub_0_r. apply list_eq; intros i.
  rewrite list_lookup_fmap. 
  destruct (decide (i < length args)%nat) as [Hi|Hi].
  - rewrite lookup_seq_lt by done. destruct (lookup_lt_is_Some_2 args i Hi) as [x Hx].
    rewrite Hx. change (Some (default [] (args !! i)) = Some x). by rewrite Hx.
  - rewrite lookup_seq_ge by lia. rewrite lookup_ge_None_2 by lia. done.
Qed.

(** *** Messages on their way *)

(** [c] returns a message with the given type, metadata and payload, which the
    basic wire format can carry. *)
Definition carries (c : outcome Message) (t : MessageType) (ms : list bytes) (x : bytes) : Prop :=
  exists m, c = Ok m /\ wire_ok m = true /\ hdr_type (header m) = t /\ metadata m = ms /\ payload m = x.

(** Metadata and payload a basic message has room for. *)
Definition fits (ms : list bytes) (x : bytes) : bool :=
  (zsize ms <? 128) && small_metas ms && (zsize x <? 2 ^ 31).

Lemma fits_wire_size ms x : fits ms x = true -> wire_size ms x < 2 ^ 32.
Proof.
  unfold fits; intros; guards. pose proof (zsize_write_metadata_bound ms ltac:(done)).
  unfold wire_size. sizes.
Qed.

Lemma wire_ok_made m :
  fits (metadata m) (payload m) = true -> metalen m = zsize (metadata m) ->
  envelope m = MessageEnvelope_default -> hdr_protocol_version (header m) = kProtocolVersion ->
  type_ok (hdr_type (header m)) = true -> wire_ok m = true.
Proof.
  intros Hf Hml He Hv Ht. pose proof (fits_wire_size _ _ Hf). unfold fits in Hf. bools.
  unfold wire_ok, use_extended_format. rewrite He, Hv, Hml, Ht.
  repeat (apply andb_true_iff; split);
    first [done | apply Z.eqb_refl | by apply Z.ltb_lt].
Qed.

Lemma Message_make_carries now x ml ms t :
  fits ms x = true -> type_ok t = true -> carries (Message_make now x ml ms t) t ms x.
Proof.
  intros Hf Ht. unfold carries. rewrite Message_make_small.
  - eexists; split; [done|]. split; [by apply wire_ok_made | done].
  - unfold fits in Hf; bools; lia.
  - by apply fits_wire_size.
Qed.

Lemma make_command_carries now pc c :
  command_types_map (pc_name pc) = Some c ->
  fits ([CommandType_to_byte c] :: pc_args pc) (default [] (list.last (pc_args pc))) = true ->
  carries (make_command_from_struct now pc) Command ([CommandType_to_byte c] :: pc_args pc)
    (default [] (list.last (pc_args pc))).
Proof.
  intros Hc Hf. pose proof (fits_wire_size _ _ Hf).
  destruct (make_command_spec now pc c Hc) as (m & E & Hmd & Hp & Hml & He & Ht & Hv);
    [unfold fits in Hf; bools; sizes | done |].
  exists m. rewrite <- Hmd, <- Hp in *. unfold Message_get_type in Ht. split_and!; try done.
  apply wire_ok_made; try done. by rewrite Ht.
Qed.

(** What is sent is what is read back. *)
Lemma carries_wire c t ms x q :
  carries c t ms x ->
  exists m m', c = Ok m /\ Serializer_deserialize (Serializer_serialize m ++ q) = Ok m' /\
    Message_get_type m' = t /\ metadata m' = ms /\ payload m' = x.
Proof.
  intros (m & -> & Hw & <- & <- & <-). exists m, (wire_norm m).
  rewrite wire_ok_roundtrip by done. done.
Qed.

(** ** Properties *)

(** C38: what a command line means, for every command name and every number of
    words: a line made of a slash, a name and words, with single spaces between
    them and no white space in them, is parsed into the command of that name with
    the words as its arguments; except that for [/send] and [/pmess], given at
    least one word, the words after the first one are joined by spaces to the
    second and last argument, the text (which is empty when there are none). The
    name does not have to be one of the catalog's. *)
Theorem parse_line_correct (name : string) (ts : list string) :
  no_blank name = true -> forallb word_ok ts = true ->
  parse_line (unwords (String "/" name :: ts))
  = {| pc_name := name; pc_args := map sbytes (line_args name ts) |}.
Proof. apply parse_line_words. Qed.

Lemma parse_line_correct_witness :
  parse_line "/pmess bob see you soon"
  = {| pc_name := "pmess"; pc_args := [sbytes "bob"; sbytes "see you soon"] |} /\
  parse_line "/send room" = {| pc_name := "send"; pc_args := [sbytes "room"; []] |} /\
  parse_line "/help me" = {| pc_name := "help"; pc_args := [sbytes "me"] |}.
Proof.
  split_and!;
    [ apply (parse_line_correct "pmess" ["bob"; "see"; "you"; "soon"])
    | apply (parse_line_correct "send" ["room"])
    | apply (parse_line_correct "help" ["me"]) ]; vm_compute; reflexivity.
Defined.

(** A command survives the trip: for every command of the command table
    with fewer than 127 arguments of less than 2^16 bytes, the message the
    client builds, serialised and read back by the server, is a [Command]
    message from which [make_struct_from_command] recovers exactly the command
    and its arguments. *)
Theorem command_roundtrip (now : Z) (pc : ParsedCommand) (q : bytes) :
  is_Some (command_types_map (pc_name pc)) ->
  zsize (pc_args pc) < 127 -> small_metas (pc_args pc) = true ->
  exists m m', make_command_from_struct now pc = Ok m /\
    Serializer_deserialize (Serializer_serialize m ++ q) = Ok m' /\
    Message_get_type m' = Command /\ make_struct_from_command m' = pc.
Proof.
  intros [c Hc] Hn Hs. destruct (command_types_names _ _ Hc) as [Hcb Hcn].
  assert (Hf : fits ([CommandType_to_byte c] :: pc_args pc)
                 (default [] (list.last (pc_args pc))) = true).
  { unfold fits. apply andb_true_iff; split; [apply andb_true_iff; split|].
    - apply Z.ltb_lt. sizes.
    - done.
    - apply Z.ltb_lt. apply small_metas_Forall in Hs.
      destruct (list.last (pc_args pc)) as [x|] eqn:E; [|done]. apply last_Some in E as [l E].
      rewrite E in Hs. apply Forall_app in Hs as [_ Hx]. inversion Hx.
      unfold small_meta in *. cbn. lia. }
  destruct (carries_wire _ _ _ _ q (make_command_carries now pc c Hc Hf))
    as (m & m' & E & Er & Ht & Hmd & _).
  exists m, m'. split_and!; try done. rewrite (make_struct_spec _ _ _ Hmd), Hcb, Hcn.
  by destruct pc.
Qed.

Lemma command_roundtrip_witness :
  let pc := {| pc_name := "send"; pc_args := [sbytes "room"; sbytes "hello all"] |} in
  exists m m', make_command_from_struct 5 pc = Ok m /\
    Serializer_deserialize (Serializer_serialize m ++ []) = Ok m' /\
    Message_get_type m' = Command /\ make_struct_from_command m' = pc.
Proof.
  apply command_roundtrip; [by eexists | vm_compute; reflexivity | vm_compute; reflexivity].
Defined.

(** [/help] is in the catalog but not in the parser's command table: the
    line is parsed, but its message carries the type [UNKNOWN], and the reader
    of the message sees the command "unknown". *)
Theorem help_becomes_unknown (now : Z) :
  parse_line "/help" = {| pc_name := "help"; pc_args := [] |} /\
  exists m, parse now "/help" = Ok m /\ Message_get_meta m 0 = [CommandType_to_byte UNKNOWN] /\
    make_struct_from_command m = {| pc_name := "unknown"; pc_args := [] |}.
Proof. split; [by vm_compute|]. eexists; split; [vm_compute; reflexivity|]. by vm_compute. Qed.
