(* ===== verification/Models.v ===== *)
(** Users and chats: [include/models/user.hpp], [include/models/chat.hpp] and
    their sources. *)
From S2P Require Import Prelude Message.

(** ** [User] *)

Inductive UserStatus := Online | Away | Offline.

Record User := {
  user_id : string;
  username : string;
  publicDHKey : bytes;
  publicIdentityKey : bytes;
  signature : bytes;
  status : UserStatus;
  chat_ids : list string;
}.

Definition User_make (id username : string) : User :=
  {| user_id := id; username := username; publicDHKey := []; publicIdentityKey := [];
     signature := []; status := Offline; chat_ids := [] |}.

Definition User_set_status (u : User) (new_status : UserStatus) : User :=
  {| user_id := user_id u; username := username u; publicDHKey := publicDHKey u;
     publicIdentityKey := publicIdentityKey u; signature := signature u;
     status := new_status; chat_ids := chat_ids u |}.

Definition User_join_chat (u : User) (chat_id : string) : User :=
  {| user_id := user_id u; username := username u; publicDHKey := publicDHKey u;
     publicIdentityKey := publicIdentityKey u; signature := signature u;
     status := status u; chat_ids := chat_ids u ++ [chat_id] |}.

Definition User_has_chat (u : User) (chat_id : string) : bool :=
  bool_decide (chat_id ∈ chat_ids u).

(** Both public key setters append to the key that is there. *)
Definition User_set_public_DH_key (u : User) (pub_bytes : bytes) : User :=
  {| user_id := user_id u; username := username u;
     publicDHKey := publicDHKey u ++ pub_bytes;
     publicIdentityKey := publicIdentityKey u; signature := signature u;
     status := status u; chat_ids := chat_ids u |}.

Definition User_set_public_Identity_key (u : User) (pub_bytes : bytes) : User :=
  {| user_id := user_id u; username := username u; publicDHKey := publicDHKey u;
     publicIdentityKey := publicIdentityKey u ++ pub_bytes; signature := signature u;
     status := status u; chat_ids := chat_ids u |}.

Definition User_set_key_signature (u : User) (b : bytes) : User :=
  {| user_id := user_id u; username := username u; publicDHKey := publicDHKey u;
     publicIdentityKey := publicIdentityKey u; signature := b;
     status := status u; chat_ids := chat_ids u |}.

Definition User_verify_signature (u : User) (data signature : string) : bool := true.

(** ** [Chat] *)

Inductive ChatType := Private | Group | Channel.

#[global] Instance ChatType_eq_dec : EqDecision ChatType.
Proof. solve_decision. Defined.

(** Iterating over a [std::unordered_set] visits every element once, in an
    order the library does not specify. *)
Class IterOrder := {
  iter : gset string -> list string;
  iter_perm : forall s, iter s ≡ₚ elements s;
}.

#[global] Instance elements_order : IterOrder := {| iter := elements; iter_perm := fun s => reflexivity _ |}.

Record Chat := {
  chat_id : string;
  chat_name : string;
  chat_type : ChatType;
  members_id : gset string;
  messages : list Message;
}.

Definition Chat_make (id name : string) (type : ChatType) : Chat :=
  {| chat_id := id; chat_name := name; chat_type := type; members_id := ∅; messages := [] |}.

Definition Chat_addMessage (c : Chat) (msg : Message) : Chat :=
  {| chat_id := chat_id c; chat_name := chat_name c; chat_type := chat_type c;
     members_id := members_id c; messages := messages c ++ [msg] |}.

Definition Chat_get_recent_message (c : Chat) (count : nat) : list Message :=
  if (length (messages c) <=? count)%nat then messages c
  else drop (length (messages c) - count) (messages c).

Definition with_members (c : Chat) (ms : gset string) : Chat :=
  {| chat_id := chat_id c; chat_name := chat_name c; chat_type := chat_type c;
     members_id := ms; messages := messages c |}.

Definition Chat_is_member (c : Chat) (user_id : string) : bool :=
  bool_decide (user_id ∈ members_id c).

Definition Chat_add_member (c : Chat) (user_id : string) : bool * Chat :=
  if bool_decide (chat_type c = Private) then (false, c)
  else if bool_decide (user_id ∈ members_id c) then (false, c)
  else (true, with_members c ({[user_id]} ∪ members_id c)).

Definition Chat_get_members `{IterOrder} (c : Chat) : list string := iter (members_id c).

Definition Chat_remove_member (c : Chat) (user_id : string) : bool * Chat :=
  if bool_decide (user_id ∈ members_id c)
  then (true, with_members c (members_id c ∖ {[user_id]}))
  else (false, c).

(** ** Lemmas *)

Lemma elem_of_get_members `{IterOrder} c u : u ∈ Chat_get_members c <-> u ∈ members_id c.
Proof. unfold Chat_get_members. by rewrite iter_perm, elem_of_elements. Qed.

Lemma Chat_is_member_spec c u : Chat_is_member c u = true <-> u ∈ members_id c.
Proof. apply bool_decide_eq_true. Qed.

Lemma get_members_NoDup `{IterOrder} c : NoDup (Chat_get_members c).
Proof. unfold Chat_get_members. rewrite iter_perm. apply NoDup_elements. Qed.

Lemma Chat_recent_suffix c n :
  exists old, messages c = old ++ Chat_get_recent_message c n /\
    length (Chat_get_recent_message c n) = Nat.min n (length (messages c)).
Proof.
  unfold Chat_get_recent_message. destruct (Nat.leb_spec (length (messages c)) n).
  - exists []. split; [done | lia].
  - exists (take (length (messages c) - n) (messages c)). rewrite take_drop, length_drop.
    split; [done | lia].
Qed.

(** ** Properties *)

(** A chat as a set of members and a log: adding a member succeeds exactly when
    the chat is not private and the user was not in it, removing succeeds
    exactly when the user was in it, each changes the membership of that user
    only, leaves the log as it is, and listing the members gives each one once;
    the recent messages are the last [n] ones of the log, in order. *)
Theorem Chat_contract `{IterOrder} (c : Chat) (u v : string) (n : nat) :
  let '(added, c1) := Chat_add_member c u in
  let '(removed, c2) := Chat_remove_member c u in
  (added = true <-> chat_type c <> Private /\ u ∉ members_id c) /\
  (removed = true <-> u ∈ members_id c) /\
  (v ∈ members_id c1 <-> v ∈ members_id c \/ (chat_type c <> Private /\ v = u)) /\
  (v ∈ members_id c2 <-> v ∈ members_id c /\ v <> u) /\
  messages c1 = messages c /\ messages c2 = messages c /\
  NoDup (Chat_get_members c) /\
  (v ∈ Chat_get_members c <-> Chat_is_member c v = true) /\
  exists old, messages c = old ++ Chat_get_recent_message c n /\
    length (Chat_get_recent_message c n) = Nat.min n (length (messages c)).
Proof.
  unfold Chat_add_member, Chat_remove_member.
  repeat case_bool_decide; cbn [members_id with_members messages];
    rewrite Chat_is_member_spec; split_and!; try done; auto using get_members_NoDup, elem_of_get_members, Chat_recent_suffix;
    set_solver.
Qed.
