(* ===== verification/Services.v ===== *)
(** The services of the server: users, chats and sessions
    ([src/application/services/user_service.cpp], [chat_service.cpp],
    [session_manager.cpp]) and the event stream and error type of
    [services_common.hpp]. *)
From S2P Require Import Prelude Message Models.

(** ** [services_common.hpp] *)

Inductive ServiceError :=
| UserNotFound
| ChatNotFound
| AccessDenied
| InvalidToken
| AlreadyExists
| AlreadyMember.

#[global] Instance ServiceError_eq_dec : EqDecision ServiceError.
Proof. solve_decision. Defined.

(** [std::expected<T, ServiceError>]. *)
Inductive ServiceResult (A : Type) :=
| expected (a : A)
| unexpected (e : ServiceError).
Arguments expected {A} a.
Arguments unexpected {A} e.

Definition has_value {A} (r : ServiceResult A) : bool :=
  match r with expected _ => true | unexpected _ => false end.

(** [Stream<T>]: subscribers with a predicate and a handler; handlers act on a
    state [S]. *)
Record Subscriber (S T : Type) := {
  sub_when : T -> bool;
  sub_then : T -> M S unit;
}.
Arguments sub_when {S T}.
Arguments sub_then {S T}.

Definition Stream_subscribe {S T} (subscribers : list (Subscriber S T))
    (when : T -> bool) (then_ : T -> M S unit) : list (Subscriber S T) :=
  subscribers ++ [{| sub_when := when; sub_then := then_ |}].

Fixpoint Stream_emit {S T} (subscribers : list (Subscriber S T)) (value : T) : M S unit :=
  match subscribers with
  | [] => mret tt
  | s :: rest =>
      _ ← (if sub_when s value then sub_then s value else mret tt);
      Stream_emit rest value
  end.

(** ** [UserService] *)

Record UserService := {
  users_ : gmap string User;
  name_to_id_ : gmap string string;
}.

Definition UserService_empty : UserService := {| users_ := ∅; name_to_id_ := ∅ |}.

Definition with_users (s : UserService) (m : gmap string User) : UserService :=
  {| users_ := m; name_to_id_ := name_to_id_ s |}.

Definition UserService_set_public_key (s : UserService) (id : string)
    (pubkey identity_pub signature : bytes) : UserService :=
  match users_ s !! id with
  | None => s
  | Some u =>
      let u := User_set_public_DH_key u pubkey in
      let u := User_set_public_Identity_key u identity_pub in
      let u := User_set_key_signature u signature in
      with_users s (<[id := u]> (users_ s))
  end.

Definition UserService_register_user (s : UserService) (name : string)
    (pubkey identity_pub signature : bytes) : ServiceResult string * UserService :=
  let user_obj := User_make "" name in
  match users_ s !! name with
  | Some _ => (unexpected AlreadyExists, s)
  | None =>
      let s := with_users s (<[name := user_obj]> (users_ s)) in
      (expected name, UserService_set_public_key s name pubkey identity_pub signature)
  end.

Definition UserService_find_user (s : UserService) (id : string) : ServiceResult User :=
  match users_ s !! id with
  | None => unexpected UserNotFound
  | Some u => expected u
  end.

Definition UserService_remove_user (s : UserService) (id : string) : UserService :=
  match users_ s !! id with
  | None => s
  | Some _ => with_users s (delete id (users_ s))
  end.

(** ** [ChatService] *)

Record ChatService := {
  chats_ : gmap string Chat;
  chat_name_to_id_ : gmap string string;
}.

Definition ChatService_empty : ChatService := {| chats_ := ∅; chat_name_to_id_ := ∅ |}.

Definition with_chats (s : ChatService) (m : gmap string Chat) : ChatService :=
  {| chats_ := m; chat_name_to_id_ := chat_name_to_id_ s |}.

Definition ChatService_create_chat (s : ChatService) (name creator_id : string) :
    ServiceResult string * ChatService :=
  match chats_ s !! name with
  | Some _ => (unexpected AlreadyMember, s)
  | None =>
      let chat := Chat_make "" name Group in
      (expected name,
       with_chats s (<[name := (Chat_add_member chat creator_id).2]> (chats_ s)))
  end.

Definition ChatService_add_member (s : ChatService) (chat_id user_id : string) :
    ServiceResult unit * ChatService :=
  match chats_ s !! chat_id with
  | None => (unexpected ChatNotFound, s)
  | Some c =>
      if Chat_is_member c user_id then (unexpected AlreadyMember, s)
      else (expected tt,
            with_chats s (<[chat_id := (Chat_add_member c user_id).2]> (chats_ s)))
  end.

Definition ChatService_post_message `{IterOrder} (s : ChatService) (chat_id username : string)
    (message : Message) : ServiceResult (list string) * ChatService :=
  match chats_ s !! chat_id with
  | None => (unexpected ChatNotFound, s)
  | Some c =>
      if negb (Chat_is_member c username) then (unexpected AccessDenied, s)
      else
        let c' := Chat_addMessage c message in
        (expected (Chat_get_members c'), with_chats s (<[chat_id := c']> (chats_ s)))
  end.

Definition ChatService_remove_chat (s : ChatService) (chat_id : string) : ChatService :=
  match chats_ s !! chat_id with
  | None => s
  | Some _ => with_chats s (delete chat_id (chats_ s))
  end.

Definition ChatService_remove_user_from_all_chats (s : ChatService) (username : string) :
    ChatService :=
  with_chats s
    ((fun chat => if Chat_is_member chat username
                  then (Chat_remove_member chat username).2 else chat) <$> chats_ s).

(** ** [SessionManager] *)

Record SessionManager := {
  fd_to_name_ : gmap Z string;
  name_to_fd_ : gmap string Z;
}.

Definition SessionManager_empty : SessionManager := {| fd_to_name_ := ∅; name_to_fd_ := ∅ |}.

Definition SessionManager_bind (s : SessionManager) (fd : Z) (username : string) :
    SessionManager :=
  {| fd_to_name_ := <[fd := username]> (fd_to_name_ s);
     name_to_fd_ := <[username := fd]> (name_to_fd_ s) |}.

Definition SessionManager_unbind (s : SessionManager) (fd : Z) : SessionManager :=
  match fd_to_name_ s !! fd with
  | None => s
  | Some name =>
      {| fd_to_name_ := delete fd (fd_to_name_ s);
         name_to_fd_ := delete name (name_to_fd_ s) |}
  end.

Definition SessionManager_get_username (s : SessionManager) (fd : Z) : ServiceResult string :=
  match fd_to_name_ s !! fd with
  | None => unexpected UserNotFound
  | Some name => expected name
  end.

Definition SessionManager_get_fd (s : SessionManager) (username : string) : ServiceResult Z :=
  match name_to_fd_ s !! username with
  | None => unexpected UserNotFound
  | Some fd => expected fd
  end.

(** ** Invariants *)

(** The two maps of a session manager are inverse to each other. *)
Definition sessions_ok (s : SessionManager) : Prop :=
  forall fd name, fd_to_name_ s !! fd = Some name <-> name_to_fd_ s !! name = Some fd.

(** A chat is filed under its name, is not private and has no chat id. *)
Definition chats_ok (s : ChatService) : Prop :=
  map_Forall (fun name c => chat_name c = name /\ chat_type c = Group) (chats_ s).

Lemma sessions_ok_empty : sessions_ok SessionManager_empty.
Proof. intros fd name. cbn. by rewrite !lookup_empty. Qed.

(** Binding a connection without a name to a name without a connection. *)
Lemma bind_ok s fd name :
  sessions_ok s -> fd_to_name_ s !! fd = None -> name_to_fd_ s !! name = None ->
  sessions_ok (SessionManager_bind s fd name).
Proof.
  intros Hs Hfd Hn fd' name'. cbn.
  rewrite !lookup_insert. pose proof (Hs fd' name'). pose proof (Hs fd name').
  repeat case_decide; subst; naive_solver congruence.
Qed.

Lemma unbind_ok s fd : sessions_ok s -> sessions_ok (SessionManager_unbind s fd).
Proof.
  intros Hs. unfold SessionManager_unbind. case_match eqn:E; [|done].
  intros fd' name'. cbn. rewrite !lookup_delete.
  pose proof (Hs fd' name'). apply Hs in E as E'. pose proof (Hs fd name').
  repeat case_decide; subst; naive_solver congruence.
Qed.

Lemma unbind_lookup s fd : sessions_ok s ->
  fd_to_name_ (SessionManager_unbind s fd) = delete fd (fd_to_name_ s).
Proof.
  intros Hs. unfold SessionManager_unbind. case_match eqn:E; [done|].
  by rewrite delete_id.
Qed.

#[export] Hint Resolve sessions_ok_empty bind_ok unbind_ok : cpp.

(** ** Properties *)

(** C12: sessions form a partial bijection between connections and names. Binding makes
    the connection and the name lead to each other and changes no other connection and
    no other name. With the two maps inverse to each other, binding keeps them so
    exactly when neither the connection nor the name is bound to something else;
    unbinding keeps them so, and forgets the connection and its name and nothing
    else. *)
Theorem SessionManager_bijection (s : SessionManager) (fd : Z) (name : string) :
  sessions_ok s ->
  (forall f, SessionManager_get_username (SessionManager_bind s fd name) f
     = if bool_decide (f = fd) then expected name else SessionManager_get_username s f) /\
  (forall n, SessionManager_get_fd (SessionManager_bind s fd name) n
     = if bool_decide (n = name) then expected fd else SessionManager_get_fd s n) /\
  (sessions_ok (SessionManager_bind s fd name) <->
     (forall n, SessionManager_get_username s fd = expected n -> n = name) /\
     (forall f, SessionManager_get_fd s name = expected f -> f = fd)) /\
  sessions_ok (SessionManager_unbind s fd) /\
  (forall f n, SessionManager_get_username (SessionManager_unbind s fd) f = expected n <->
     f <> fd /\ SessionManager_get_username s f = expected n) /\
  (forall f n, SessionManager_get_fd (SessionManager_unbind s fd) n = expected f <->
     f <> fd /\ SessionManager_get_fd s n = expected f).
Proof.
  intros Hs. split.
  { intros f. unfold SessionManager_get_username. cbn. rewrite lookup_insert.
    repeat case_decide; repeat case_bool_decide; naive_solver. }
  split.
  { intros n. unfold SessionManager_get_fd. cbn. rewrite lookup_insert.
    repeat case_decide; repeat case_bool_decide; naive_solver. }
  assert (Hu : forall s f n, SessionManager_get_username s f = expected n
                             <-> fd_to_name_ s !! f = Some n)
    by (intros; unfold SessionManager_get_username; case_match; naive_solver).
  assert (Hf : forall s n f, SessionManager_get_fd s n = expected f
                             <-> name_to_fd_ s !! n = Some f)
    by (intros; unfold SessionManager_get_fd; case_match; naive_solver).
  setoid_rewrite Hu. setoid_rewrite Hf.
  assert (Hun : forall f n, fd_to_name_ (SessionManager_unbind s fd) !! f = Some n <->
                 f <> fd /\ fd_to_name_ s !! f = Some n)
    by (intros f n; rewrite unbind_lookup, lookup_delete_Some by done; naive_solver).
  split_and!; [| auto with cpp | done |].
  - split.
    + intros Hb. split.
      * intros n Hn. pose proof (Hb fd n) as Hbn. cbn in Hbn.
        rewrite lookup_insert_eq, lookup_insert in Hbn. apply Hs in Hn.
        case_decide; naive_solver.
      * intros f Hn. pose proof (Hb f name) as Hbn. cbn in Hbn.
        rewrite lookup_insert_eq, lookup_insert in Hbn. apply Hs in Hn.
        case_decide; naive_solver.
    + intros [H1 H2] f n. cbn. rewrite !lookup_insert. pose proof (Hs f n).
      repeat case_decide; subst; naive_solver.
  - intros f n. rewrite <- (unbind_ok s fd Hs f n), <- (Hs f n). apply Hun.
Qed.

Lemma SessionManager_bijection_witness :
  let s := SessionManager_bind SessionManager_empty 4 "ann" in
  sessions_ok s /\ ~ sessions_ok (SessionManager_bind s 4 "bob").
Proof.
  intros s.
  assert (Hs : sessions_ok s) by (apply bind_ok; auto with cpp).
  split; [done|]. intros H.
  destruct (SessionManager_bijection s 4 "bob" Hs) as (_ & _ & Hb & _). apply Hb in H as [H _].
  discriminate (H "ann"%string eq_refl).
Defined.

(** The user table: registration succeeds exactly when the name is free and then
    stores a user with that name and exactly the three keys given; it reports
    [AlreadyExists] and changes nothing otherwise; removal frees the name;
    neither touches another user. A second [set_public_key] on a user does not
    replace the keys: it appends the public keys to the ones that are there. *)
Theorem UserService_contract (s : UserService) (name other : string) (dh id sg dh' id' sg' : bytes) :
  let '(r, s1) := UserService_register_user s name dh id sg in
  let s2 := UserService_remove_user s name in
  (forall e, r = unexpected e -> e = AlreadyExists /\ s1 = s /\ has_value (UserService_find_user s name) = true) /\
  (forall n, r = expected n -> n = name /\ UserService_find_user s name = unexpected UserNotFound /\
     UserService_find_user s1 name
     = expected {| user_id := ""; username := name; publicDHKey := dh; publicIdentityKey := id;
                   signature := sg; status := Offline; chat_ids := [] |} /\
     exists u, UserService_find_user (UserService_set_public_key s1 name dh' id' sg') name = expected u /\
       publicDHKey u = dh ++ dh' /\ publicIdentityKey u = id ++ id' /\ signature u = sg') /\
  UserService_find_user s2 name = unexpected UserNotFound /\
  has_value (UserService_register_user s2 name dh id sg).1 = true /\
  (other <> name -> UserService_find_user s1 other = UserService_find_user s other /\
                    UserService_find_user s2 other = UserService_find_user s other).
Proof.
  unfold UserService_register_user, UserService_remove_user, UserService_set_public_key,
    UserService_find_user.
  destruct (users_ s !! name) as [u|] eqn:E; cbn [users_ with_users];
    rewrite ?lookup_insert_eq, ?lookup_delete_eq, ?E; cbn [users_ with_users];
    rewrite ?lookup_insert_eq, ?E;
    split_and!; try done; intros; simplify_eq;
    rewrite ?lookup_insert_ne, ?lookup_delete_ne by done; split_and!; try done.
  eexists; split; [cbn; rewrite lookup_insert_eq; done|]. done.
Qed.

(** Posting to a chat: the chat must exist and the author must be a member;
    then the message is appended to the log of that chat, the recipients are
    the members, each once and the author included, and membership does not
    change; on an error nothing changes. *)
Theorem ChatService_post_message_contract `{IterOrder} (s : ChatService)
    (chat_id author : string) (m : Message) :
  match ChatService_post_message s chat_id author m with
  | (expected to, s') =>
      exists c, chats_ s !! chat_id = Some c /\ author ∈ members_id c /\ author ∈ to /\ NoDup to /\
        (forall u, u ∈ to <-> u ∈ members_id c) /\
        chats_ s' = <[chat_id := Chat_addMessage c m]> (chats_ s)
  | (unexpected e, s') =>
      s' = s /\ ((e = ChatNotFound /\ chats_ s !! chat_id = None)
                 \/ (e = AccessDenied /\ exists c, chats_ s !! chat_id = Some c /\ author ∉ members_id c))
  end.
Proof.
  unfold ChatService_post_message. destruct (chats_ s !! chat_id) as [c|] eqn:E; [|naive_solver].
  destruct (Chat_is_member c author) eqn:Em; cbn [negb].
  - apply Chat_is_member_spec in Em. exists c.
    split_and!; try done; [by apply elem_of_get_members | apply get_members_NoDup |].
    intros u. apply (elem_of_get_members (Chat_addMessage c m)).
  - split; [done|]. right. split; [done|]. exists c. split; [done|].
    rewrite <- Chat_is_member_spec. congruence.
Qed.
