(* ===== verification/AppService.v ===== *)
(** The server's application service
    ([src/application/services/server_application_service.cpp]) and the context
    it works on ([ServerContext] of
    [include/application/session/client_context.hpp]). *)
From S2P Require Import Prelude Message Models Services.

(** ** The interface to the transport *)

(** What the application asks of [IServer]: [send(fd, data)] on a transport in
    state [T]. It is a total function because that is what the implementation the
    program has is: [Server::send] appends to the send buffer of a connection, if there
    is one, and asks the event loop for writability ([Server_send] in [Stack.v], with
    its instance); it neither blocks nor throws. Writing is done by later events. *)
Class IServer (T : Type) := server_send : Z -> bytes -> T -> T.

(** A transport that only records what is sent, most recent last. *)
Definition sent_log : Type := list (Z * bytes).

#[global] Instance sent_log_server : IServer sent_log := fun fd data log => log ++ [(fd, data)].

(** ** Contexts *)

Record AppConfig := {
  server_host : string;
  server_port : Z;
}.

(** The pointers a [ServerApplicationService] was built with: whether each is
    not null. They point to the fields of the context: [*fd_ref_] is its [fd]. *)
Record ServerApplicationService := {
  fd_ref_ : bool;
  serializer_ : bool;
  transport_server_ : bool;
}.

Record ServerContext (T : Type) := {
  sc_config : AppConfig;
  sc_transport : T;
  sc_users : UserService;
  sc_chats : ChatService;
  sc_sessions : SessionManager;
  sc_app_service : ServerApplicationService;
  sc_fd : Z;
}.
Arguments sc_config {T}.
Arguments sc_transport {T}.
Arguments sc_users {T}.
Arguments sc_chats {T}.
Arguments sc_sessions {T}.
Arguments sc_app_service {T}.
Arguments sc_fd {T}.

(** [ServerContext(cfg)] over a transport in state [t]; [fd] is not initialised
    by the constructor, [fd0] is the value it happens to have. *)
Definition ServerContext_make {T} (cfg : AppConfig) (t : T) (fd0 : Z) : ServerContext T :=
  {| sc_config := cfg; sc_transport := t; sc_users := UserService_empty;
     sc_chats := ChatService_empty; sc_sessions := SessionManager_empty;
     sc_app_service := {| fd_ref_ := true; serializer_ := true; transport_server_ := true |};
     sc_fd := fd0 |}.

Section Setters.
  Context {T : Type}.

Definition set_transport (t : T) (c : ServerContext T) : ServerContext T :=
  {| sc_config := sc_config c; sc_transport := t; sc_users := sc_users c;
     sc_chats := sc_chats c; sc_sessions := sc_sessions c;
     sc_app_service := sc_app_service c; sc_fd := sc_fd c |}.

Definition set_users (u : UserService) (c : ServerContext T) : ServerContext T :=
  {| sc_config := sc_config c; sc_transport := sc_transport c; sc_users := u;
     sc_chats := sc_chats c; sc_sessions := sc_sessions c;
     sc_app_service := sc_app_service c; sc_fd := sc_fd c |}.

Definition set_chats (s : ChatService) (c : ServerContext T) : ServerContext T :=
  {| sc_config := sc_config c; sc_transport := sc_transport c; sc_users := sc_users c;
     sc_chats := s; sc_sessions := sc_sessions c;
     sc_app_service := sc_app_service c; sc_fd := sc_fd c |}.

Definition set_sessions (s : SessionManager) (c : ServerContext T) : ServerContext T :=
  {| sc_config := sc_config c; sc_transport := sc_transport c; sc_users := sc_users c;
     sc_chats := sc_chats c; sc_sessions := s;
     sc_app_service := sc_app_service c; sc_fd := sc_fd c |}.

Definition set_fd (fd : Z) (c : ServerContext T) : ServerContext T :=
  {| sc_config := sc_config c; sc_transport := sc_transport c; sc_users := sc_users c;
     sc_chats := sc_chats c; sc_sessions := sc_sessions c;
     sc_app_service := sc_app_service c; sc_fd := fd |}.

End Setters.

(** ** [ServerApplicationService] *)

Section AppService.
  Context {T : Type} {srv : IServer T} {ord : IterOrder}.
  (** The clock, in seconds, during the operation. *)
  Variable now : Z.

Definition transport_send (fd : Z) (data : bytes) : M (ServerContext T) unit :=
  modify (fun c => set_transport (server_send fd data (sc_transport c)) c).

(** [serializer_->serialize(Message(bytes of s, 0, {}, Text))], sent to [fd]. *)
Definition send_text (fd : Z) (s : string) : M (ServerContext T) unit :=
  m ← lift (Message_make now (sbytes s) 0 [] Text);
  transport_send fd (Serializer_serialize m).

(** [!fd_ref_ || !serializer_ || !transport_server_]. *)
Definition not_ready (c : ServerContext T) : bool :=
  let a := sc_app_service c in
  negb (fd_ref_ a) || negb (serializer_ a) || negb (transport_server_ a).

Definition AppService_current_username (c : ServerContext T) : option string :=
  if negb (fd_ref_ (sc_app_service c)) then None
  else match SessionManager_get_username (sc_sessions c) (sc_fd c) with
       | unexpected _ => None
       | expected u => Some u
       end.

Definition AppService_login (username : string) (dh_pubkey identity_pub signature : bytes) :
    M (ServerContext T) unit :=
  c ← get;
  if not_ready c then mret tt
  else
    let fd := sc_fd c in
    match SessionManager_get_username (sc_sessions c) fd with
    | expected _ => transport_send fd YOU_ARE_LOGGED_IN
    | unexpected _ =>
        let '(r, users) :=
          UserService_register_user (sc_users c) username dh_pubkey identity_pub signature in
        _ ← modify (set_users users);
        match r with
        | unexpected _ => transport_send fd PUBLIC_KEY_HAS_NOT_SET
        | expected _ =>
            _ ← modify (fun c => set_sessions (SessionManager_bind (sc_sessions c) fd username) c);
            send_text fd ("Hello, " +:+ username +:+ "!")
        end
    end.

Definition AppService_join_room (chat_name : string) : M (ServerContext T) unit :=
  c ← get;
  if not_ready c then mret tt
  else
    let fd := sc_fd c in
    match SessionManager_get_username (sc_sessions c) fd with
    | unexpected _ => transport_send fd YOU_NEED_TO_LOGIN
    | expected username =>
        if String.eqb chat_name "" then transport_send fd EMPTY_CHAT_NAME
        else
          let '(r, chats) := ChatService_add_member (sc_chats c) chat_name username in
          _ ← modify (set_chats chats);
          match r with
          | unexpected ChatNotFound => transport_send fd CHAT_NOT_FOUND
          | unexpected AlreadyMember => transport_send fd YOU_ARE_ALREADY_MEMBER
          | _ => send_text fd ("You joined the room " +:+ chat_name)
          end
    end.

(** No guard on the pointers here: dereferencing a null one is undefined. *)
Definition AppService_deliver_cipher_message (fd : Z) (msg : Message) :
    M (ServerContext T) unit :=
  c ← get;
  let a := sc_app_service c in
  let send fd data :=
    if transport_server_ a then transport_send fd data else lift Undef in
  match SessionManager_get_username (sc_sessions c) fd with
  | unexpected _ => send fd YOU_NEED_TO_LOGIN
  | expected username =>
      let recipient_username := bstr (Message_get_meta msg 0) in
      match SessionManager_get_fd (sc_sessions c) recipient_username with
      | unexpected _ => send fd USER_NOT_FOUND
      | expected recipient_fd =>
          match UserService_find_user (sc_users c) username with
          | unexpected _ => send fd YOU_NEED_TO_LOGIN
          | expected sender =>
              m ← lift (Message_make now (Message_get_payload msg) 5
                          [Message_get_meta msg 0; Message_get_meta msg 1; publicDHKey sender;
                           publicIdentityKey sender; Models.signature sender] CipherMessage);
              if serializer_ a then send recipient_fd (Serializer_serialize m) else lift Undef
          end
      end
  end.

Definition AppService_create_room (chat_name : string) : M (ServerContext T) unit :=
  c ← get;
  if not_ready c then mret tt
  else
    let fd := sc_fd c in
    match SessionManager_get_username (sc_sessions c) fd with
    | unexpected _ => transport_send fd YOU_NEED_TO_LOGIN
    | expected username =>
        if String.eqb chat_name "" then transport_send fd EMPTY_CHAT_NAME
        else
          let '(r, chats) := ChatService_create_chat (sc_chats c) chat_name username in
          _ ← modify (set_chats chats);
          match r with
          | unexpected _ => transport_send fd CHAT_ALREADY_EXISTS
          | expected _ => send_text fd ("Room " +:+ chat_name +:+ " was created!")
          end
    end.

(** The loop over the recipients of a group message. *)
Fixpoint send_to_members (data : bytes) (members : list string) : M (ServerContext T) unit :=
  match members with
  | [] => mret tt
  | u :: rest =>
      c ← get;
      _ ← match SessionManager_get_fd (sc_sessions c) u with
          | expected his_fd => transport_send his_fd data
          | unexpected _ => mret tt
          end;
      send_to_members data rest
  end.

(** [post_message] has only the two errors that are handled; reading the value
    of a result without one is undefined. *)
Definition AppService_send_group_message (chat_name : string) (message : Message) :
    M (ServerContext T) unit :=
  c ← get;
  if not_ready c then mret tt
  else
    let fd := sc_fd c in
    match SessionManager_get_username (sc_sessions c) fd with
    | unexpected _ => transport_send fd YOU_NEED_TO_LOGIN
    | expected username =>
        let '(r, chats) := ChatService_post_message (sc_chats c) chat_name username message in
        _ ← modify (set_chats chats);
        match r with
        | unexpected AccessDenied => transport_send fd YOU_ARE_NOT_MEMBER
        | unexpected ChatNotFound => transport_send fd CHAT_NOT_FOUND
        | unexpected _ => lift Undef
        | expected to => send_to_members (Serializer_serialize message) to
        end
    end.

Definition AppService_disconnect_username (username : string) : M (ServerContext T) unit :=
  c ← get;
  if negb (fd_ref_ (sc_app_service c)) then mret tt
  else
    match SessionManager_get_fd (sc_sessions c) username with
    | unexpected _ => mret tt
    | expected fd =>
        _ ← modify (fun c => set_users (UserService_remove_user (sc_users c) username) c);
        modify (fun c => set_sessions (SessionManager_unbind (sc_sessions c) fd) c)
    end.

Definition AppService_exit_current_session : M (ServerContext T) unit :=
  c ← get;
  if negb (fd_ref_ (sc_app_service c)) then mret tt
  else
    match SessionManager_get_username (sc_sessions c) (sc_fd c) with
    | unexpected _ => mret tt
    | expected username =>
        _ ← modify (fun c => set_users (UserService_remove_user (sc_users c) username) c);
        _ ← modify (fun c => set_chats
                      (ChatService_remove_user_from_all_chats (sc_chats c) username) c);
        modify (fun c => set_sessions (SessionManager_unbind (sc_sessions c) (sc_fd c)) c)
    end.

Definition AppService_send_pubkey (username : bytes) : M (ServerContext T) unit :=
  c ← get;
  if not_ready c then mret tt
  else if is_empty username then transport_send (sc_fd c) WRONG_COMMAND_USAGE
  else
    match UserService_find_user (sc_users c) (bstr username) with
    | unexpected _ => transport_send (sc_fd c) USER_NOT_FOUND
    | expected user =>
        m ← lift (Message_make now (publicDHKey user) 4
                    [[CommandType_to_byte GET_PUBKEY]; username; publicIdentityKey user;
                     Models.signature user] Response);
        transport_send (sc_fd c) (Serializer_serialize m)
    end.

End AppService.
