(* ===== verification/Commands.v ===== *)
(** The command objects: their data, how they are read from and written to
    messages, the factory and the registries
    ([include/application/commands/impl/], [src/application/commands/]). *)
From Stdlib Require Import Ascii.
From S2P Require Import Prelude Message Wire CommandPattern Parser.

(** ** Decimal integers: [std::to_string] and [std::stoi] *)

Definition digit (d : Z) : Ascii.ascii := Ascii.ascii_of_nat (48 + Z.to_nat d).

(** The decimal digits of [n], in front of [acc]; an [int] has at most ten. *)
Fixpoint decimal (fuel : nat) (n : Z) (acc : string) : string :=
  match fuel with
  | O => acc
  | S fuel' =>
      let acc := String (digit (n mod 10)) acc in
      if n <? 10 then acc else decimal fuel' (n / 10) acc
  end.

Definition to_string (n : Z) : string :=
  if n <? 0 then String "-" (decimal 10 (- n) "") else decimal 10 n "".

Definition digit_of (c : Ascii.ascii) : option Z :=
  let n := Z.of_nat (Ascii.nat_of_ascii c) in
  if (48 <=? n) && (n <=? 57) then Some (n - 48) else None.

(** The value of the digits [s] starts with; [seen] tells whether there was one. *)
Fixpoint scan_digits (s : string) (seen : bool) (acc : Z) : option Z :=
  match s with
  | EmptyString => if seen then Some acc else None
  | String c s' =>
      match digit_of c with
      | Some d => scan_digits s' true (acc * 10 + d)
      | None => if seen then Some acc else None
      end
  end.

Fixpoint skip_space (s : string) : string :=
  match s with
  | String c s' => if is_space c then skip_space s' else s
  | EmptyString => s
  end.

(** [stoi]: white space, a sign, digits; the rest is ignored. *)
Definition stoi (s : string) : outcome Z :=
  let s := skip_space s in
  let '(neg, s) :=
    match s with
    | String c s' =>
        if Ascii.eqb c "-" then (true, s') else if Ascii.eqb c "+" then (false, s') else (false, s)
    | EmptyString => (false, s)
    end in
  match scan_digits s false 0 with
  | None => Throw (invalid_argument "stoi")
  | Some v =>
      let v := if neg : bool then - v else v in
      if (- 2 ^ 31 <=? v) && (v <? 2 ^ 31) then Ok v else Throw (out_of_range "stoi")
  end.

(** ** The command classes *)

Record LoginCommand := {
  login_username : bytes;
  login_DH_public_bytes : bytes;
  login_identity_pub_bytes : bytes;
  login_signature : bytes;
}.

Record MakeRoomCommand := { room_chat_name : bytes }.

Record JoinCommand := { join_chat_name : bytes }.

Record SendGroupMessageCommand := {
  group_sender : bytes;
  group_chat_name : bytes;
  group_pubkey_bytes : bytes;
  group_payload : bytes;
}.

Record PrivateMessageCommand := {
  pmess_sender : bytes;
  pmess_recipient : bytes;
  pmess_pubkey_bytes : bytes;
  pmess_payload : bytes;
}.

Record GetPubkeyCommand := { getpub_username : bytes }.

(** The [client] pointer is assigned from the context when it is used. *)
Record SendFileCommand := {
  sendfile_filename : string;
  sendfile_recipient : bytes;
}.

Record ConnectCommand := {
  connect_ip : string;
  connect_port : Z;
  connect_DH_bytes : bytes;
  connect_identity_bytes : bytes;
  connect_signature : bytes;
  connect_username : bytes;
}.

Record DisconnectCommand := { disconnect_name : string }.

(** [ICommandHandler]: one constructor per class that implements it. *)
Inductive ICommandHandler :=
| Login (c : LoginCommand)
| MakeRoom (c : MakeRoomCommand)
| Join (c : JoinCommand)
| SendGroupMessage (c : SendGroupMessageCommand)
| PrivateMessage (c : PrivateMessageCommand)
| GetPubkey (c : GetPubkeyCommand)
| SendFile (c : SendFileCommand)
| Connect (c : ConnectCommand)
| Disconnect (c : DisconnectCommand)
| Exit
| Help.

(** What [std::make_unique] constructs. *)
Definition LoginCommand_new : ICommandHandler :=
  Login {| login_username := []; login_DH_public_bytes := []; login_identity_pub_bytes := [];
           login_signature := [] |}.
Definition MakeRoomCommand_new : ICommandHandler := MakeRoom {| room_chat_name := [] |}.
Definition JoinCommand_new : ICommandHandler := Join {| join_chat_name := [] |}.
Definition SendGroupMessageCommand_new : ICommandHandler :=
  SendGroupMessage {| group_sender := []; group_chat_name := []; group_pubkey_bytes := [];
                      group_payload := [] |}.
Definition PrivateMessageCommand_new : ICommandHandler :=
  PrivateMessage {| pmess_sender := []; pmess_recipient := []; pmess_pubkey_bytes := [];
                    pmess_payload := [] |}.
Definition GetPubkeyCommand_new : ICommandHandler := GetPubkey {| getpub_username := [] |}.
Definition SendFileCommand_new : ICommandHandler :=
  SendFile {| sendfile_filename := ""; sendfile_recipient := [] |}.
Definition ConnectCommand_new : ICommandHandler :=
  Connect {| connect_ip := ""; connect_port := 0; connect_DH_bytes := [];
             connect_identity_bytes := []; connect_signature := []; connect_username := [] |}.
Definition DisconnectCommand_new : ICommandHandler := Disconnect {| disconnect_name := "" |}.

Definition getType (h : ICommandHandler) : CommandType :=
  match h with
  | Login _ => LOGIN
  | MakeRoom _ => MAKE_ROOM
  | Join _ => JOIN
  | SendGroupMessage _ => SEND
  | PrivateMessage _ => PRIVATE_MESSAGE
  | GetPubkey _ => GET_PUBKEY
  | SendFile _ => SEND_FILE
  | Connect _ => CONNECT
  | Disconnect _ => DISCONNECT
  | Exit => EXIT
  | Help => HELP
  end.

Definition isClientOnly (h : ICommandHandler) : bool :=
  match h with
  | SendFile _ | Help => true
  | _ => false
  end.

Definition type_meta (t : CommandType) : bytes := [CommandType_to_byte t].

(** *** [fromParsedCommand] *)

Definition Login_fromParsedCommand (c : LoginCommand) (pc : ParsedCommand) : LoginCommand :=
  match pc_args pc with
  | [] => c
  | a :: _ => {| login_username := a; login_DH_public_bytes := login_DH_public_bytes c;
                 login_identity_pub_bytes := login_identity_pub_bytes c;
                 login_signature := login_signature c |}
  end.

Definition MakeRoom_fromParsedCommand (c : MakeRoomCommand) (pc : ParsedCommand) : MakeRoomCommand :=
  match pc_args pc with [] => c | a :: _ => {| room_chat_name := a |} end.

Definition Join_fromParsedCommand (c : JoinCommand) (pc : ParsedCommand) : JoinCommand :=
  match pc_args pc with [] => c | a :: _ => {| join_chat_name := a |} end.

Definition GetPubkey_fromParsedCommand (c : GetPubkeyCommand) (pc : ParsedCommand) :
    GetPubkeyCommand :=
  match pc_args pc with [] => c | a :: _ => {| getpub_username := a |} end.

Definition PrivateMessage_fromParsedCommand (c : PrivateMessageCommand) (pc : ParsedCommand) :
    PrivateMessageCommand :=
  match pc_args pc with
  | a :: b :: _ => {| pmess_sender := pmess_sender c; pmess_recipient := a;
                      pmess_pubkey_bytes := pmess_pubkey_bytes c; pmess_payload := b |}
  | _ => c
  end.

Definition SendFile_fromParsedCommand (c : SendFileCommand) (pc : ParsedCommand) : SendFileCommand :=
  match pc_args pc with
  | a :: b :: _ => {| sendfile_filename := bstr b; sendfile_recipient := a |}
  | _ => c
  end.

Definition fromParsedCommand (h : ICommandHandler) (pc : ParsedCommand) : ICommandHandler :=
  match h with
  | Login c => Login (Login_fromParsedCommand c pc)
  | MakeRoom c => MakeRoom (MakeRoom_fromParsedCommand c pc)
  | Join c => Join (Join_fromParsedCommand c pc)
  | PrivateMessage c => PrivateMessage (PrivateMessage_fromParsedCommand c pc)
  | GetPubkey c => GetPubkey (GetPubkey_fromParsedCommand c pc)
  | SendFile c => SendFile (SendFile_fromParsedCommand c pc)
  | SendGroupMessage _ | Connect _ | Disconnect _ | Exit | Help => h
  end.

(** *** [toMessage] *)

Definition Login_toMessage (now : Z) (c : LoginCommand) : outcome Message :=
  make_command_from_struct now
    {| pc_name := "login";
       pc_args := [login_username c; login_DH_public_bytes c; login_identity_pub_bytes c;
                   login_signature c] |}.

Definition MakeRoom_toMessage (now : Z) (c : MakeRoomCommand) : outcome Message :=
  make_command_from_struct now {| pc_name := "room"; pc_args := [room_chat_name c] |}.

Definition Join_toMessage (now : Z) (c : JoinCommand) : outcome Message :=
  make_command_from_struct now {| pc_name := "join"; pc_args := [join_chat_name c] |}.

Definition SendGroupMessage_toMessage (now : Z) (c : SendGroupMessageCommand) : outcome Message :=
  Message_make now (group_payload c) 0 [] Text.

Definition GetPubkey_toMessage (now : Z) (c : GetPubkeyCommand) : outcome Message :=
  Message_make now [] 2 [type_meta GET_PUBKEY; getpub_username c] Command.

Definition PrivateMessage_toMessage (now : Z) (c : PrivateMessageCommand) : outcome Message :=
  let cmd := GetPubkey_fromParsedCommand {| getpub_username := [] |}
               {| pc_name := "getpub"; pc_args := [pmess_recipient c] |} in
  GetPubkey_toMessage now cmd.

Definition SendFile_toMessage (now : Z) (c : SendFileCommand) : outcome Message :=
  Message_make now [] 1
    [type_meta SEND_FILE; sendfile_recipient c; sbytes (sendfile_filename c)] Command.

Definition Connect_toMessage (now : Z) (c : ConnectCommand) : outcome Message :=
  Message_make now (connect_username c) 6
    [type_meta CONNECT; sbytes (connect_ip c); sbytes (to_string (connect_port c));
     connect_DH_bytes c; connect_identity_bytes c; connect_signature c] Command.

Definition Disconnect_toMessage (now : Z) (c : DisconnectCommand) : outcome Message :=
  Message_make now [] 1 [type_meta DISCONNECT] Command.

Definition Exit_toMessage (now : Z) : outcome Message :=
  Message_make now [] 1 [type_meta EXIT] Command.

Definition toMessage (now : Z) (h : ICommandHandler) : outcome Message :=
  match h with
  | Login c => Login_toMessage now c
  | MakeRoom c => MakeRoom_toMessage now c
  | Join c => Join_toMessage now c
  | SendGroupMessage c => SendGroupMessage_toMessage now c
  | PrivateMessage c => PrivateMessage_toMessage now c
  | GetPubkey c => GetPubkey_toMessage now c
  | SendFile c => SendFile_toMessage now c
  | Connect c => Connect_toMessage now c
  | Disconnect c => Disconnect_toMessage now c
  | Exit => Exit_toMessage now
  | Help => Ok Message_default
  end.

(** *** [fromMessage] *)

Definition Login_fromMessage (msg : Message) : LoginCommand :=
  {| login_username := Message_get_meta msg 1; login_DH_public_bytes := Message_get_meta msg 2;
     login_identity_pub_bytes := Message_get_meta msg 3;
     login_signature := Message_get_meta msg 4 |}.

Definition MakeRoom_fromMessage (msg : Message) : MakeRoomCommand :=
  {| room_chat_name := Message_get_meta msg 1 |}.

Definition Join_fromMessage (msg : Message) : JoinCommand :=
  {| join_chat_name := Message_get_meta msg 1 |}.

Definition SendGroupMessage_fromMessage (c : SendGroupMessageCommand) (msg : Message) :
    SendGroupMessageCommand :=
  {| group_sender := group_sender c; group_chat_name := Message_get_meta msg 1;
     group_pubkey_bytes := group_pubkey_bytes c; group_payload := Message_get_payload msg |}.

Definition PrivateMessage_fromMessage (c : PrivateMessageCommand) (msg : Message) :
    PrivateMessageCommand :=
  {| pmess_sender := pmess_sender c; pmess_recipient := Message_get_meta msg 1;
     pmess_pubkey_bytes := pmess_pubkey_bytes c; pmess_payload := Message_get_payload msg |}.

Definition GetPubkey_fromMessage (msg : Message) : GetPubkeyCommand :=
  {| getpub_username := Message_get_meta msg 1 |}.

Definition SendFile_fromMessage (msg : Message) : SendFileCommand :=
  {| sendfile_filename := bstr (Message_get_meta msg 2);
     sendfile_recipient := Message_get_meta msg 1 |}.

(** [stoi] throws after [ip] has been assigned: the command keeps the new [ip]
    and its other fields. *)
Definition Connect_fromMessage (c : ConnectCommand) (msg : Message) :
    outcome unit * ConnectCommand :=
  let ip := bstr (Message_get_meta msg 1) in
  match stoi (bstr (Message_get_meta msg 2)) with
  | Ok port =>
      (Ok tt,
       {| connect_ip := ip; connect_port := port; connect_DH_bytes := Message_get_meta msg 3;
          connect_identity_bytes := Message_get_meta msg 4;
          connect_signature := Message_get_meta msg 5;
          connect_username := Message_get_payload msg |})
  | Throw e =>
      (Throw e,
       {| connect_ip := ip; connect_port := connect_port c;
          connect_DH_bytes := connect_DH_bytes c;
          connect_identity_bytes := connect_identity_bytes c;
          connect_signature := connect_signature c; connect_username := connect_username c |})
  | Undef => (Undef, c)
  end.

Definition Disconnect_fromMessage (msg : Message) : DisconnectCommand :=
  {| disconnect_name := bstr (Message_get_payload msg) |}.

(** The result of the call and the handler's new state. *)
Definition fromMessage (h : ICommandHandler) (msg : Message) : outcome unit * ICommandHandler :=
  match h with
  | Login _ => (Ok tt, Login (Login_fromMessage msg))
  | MakeRoom _ => (Ok tt, MakeRoom (MakeRoom_fromMessage msg))
  | Join _ => (Ok tt, Join (Join_fromMessage msg))
  | SendGroupMessage c => (Ok tt, SendGroupMessage (SendGroupMessage_fromMessage c msg))
  | PrivateMessage c => (Ok tt, PrivateMessage (PrivateMessage_fromMessage c msg))
  | GetPubkey _ => (Ok tt, GetPubkey (GetPubkey_fromMessage msg))
  | SendFile _ => (Ok tt, SendFile (SendFile_fromMessage msg))
  | Connect c => let '(r, c') := Connect_fromMessage c msg in (r, Connect c')
  | Disconnect _ => (Ok tt, Disconnect (Disconnect_fromMessage msg))
  | Exit => (Ok tt, Exit)
  | Help => (Ok tt, Help)
  end.

(** ** [CommandFactory] and the registries *)

Definition CommandFactory_create (command_name : string) : option ICommandHandler :=
  if String.eqb command_name "login" then Some LoginCommand_new
  else if String.eqb command_name "room" then Some MakeRoomCommand_new
  else if String.eqb command_name "join" then Some JoinCommand_new
  else if String.eqb command_name "send" then Some SendGroupMessageCommand_new
  else if String.eqb command_name "pmess" then Some PrivateMessageCommand_new
  else if String.eqb command_name "getpub" then Some GetPubkeyCommand_new
  else if String.eqb command_name "sendfile" then Some SendFileCommand_new
  else if String.eqb command_name "connect" then Some ConnectCommand_new
  else if String.eqb command_name "disconnect" then Some DisconnectCommand_new
  else if String.eqb command_name "exit" then Some Exit
  else if String.eqb command_name "help" then Some Help
  else None.

(** [ClientCommandRegistry], [PeerCommandRegistry] and [ServerCommandRegistry]
    have the same state and operations. *)
Abbreviation CommandRegistry := (gmap string ICommandHandler).

Definition registerCommand (commands : CommandRegistry) (name : string) (cmd : ICommandHandler) :
    CommandRegistry :=
  <[name := cmd]> commands.

Definition registry_find (commands : CommandRegistry) (name : string) : option ICommandHandler :=
  commands !! name.

Definition registry_exists (commands : CommandRegistry) (name : string) : bool :=
  bool_decide (is_Some (commands !! name)).

Definition registerCommands (cs : list (string * ICommandHandler)) : CommandRegistry :=
  foldl (fun r '(n, c) => registerCommand r n c) ∅ cs.

Definition ClientCommandHandler_registry : CommandRegistry :=
  registerCommands
    [("exit", Exit); ("login", LoginCommand_new); ("room", MakeRoomCommand_new);
     ("send", SendGroupMessageCommand_new); ("join", JoinCommand_new);
     ("getpub", GetPubkeyCommand_new); ("pmess", PrivateMessageCommand_new); ("help", Help);
     ("sendfile", SendFileCommand_new)]%string.

Definition ServerCommandHandler_registry : CommandRegistry :=
  registerCommands
    [("exit", Exit); ("login", LoginCommand_new); ("room", MakeRoomCommand_new);
     ("send", SendGroupMessageCommand_new); ("join", JoinCommand_new);
     ("getpub", GetPubkeyCommand_new); ("help", Help);
     ("sendfile", SendFileCommand_new)]%string.

Definition PeerCommandHandler_registry : CommandRegistry :=
  registerCommands
    [("exit", Exit); ("connect", ConnectCommand_new); ("disconnect", DisconnectCommand_new);
     ("pmess", PrivateMessageCommand_new); ("login", LoginCommand_new)]%string.

(** ** Lemmas *)

Lemma small_digit d : 0 <= d < 10 ->
  digit_of (digit d) = Some d /\ is_space (digit d) = false /\
  Ascii.eqb (digit d) "-" = false /\ Ascii.eqb (digit d) "+" = false.
Proof.
  intros. assert (d = 0 \/ d = 1 \/ d = 2 \/ d = 3 \/ d = 4 \/ d = 5 \/ d = 6 \/ d = 7 \/ d = 8 \/ d = 9)
    as Hd by lia.
  by destruct_or!; subst d; vm_compute.
Qed.

Lemma decimal_scan fuel : forall n acc, 0 <= n < 10 ^ Z.of_nat (S fuel) ->
  exists k, forall seen v,
    scan_digits (decimal (S fuel) n acc) seen v = scan_digits acc true (v * k + n).
Proof.
  induction fuel as [|fuel IH]; intros n acc Hn; cbn [decimal].
  - exists 10. intros seen v. destruct (Z.ltb_spec n 10); cbn [scan_digits];
      (destruct (small_digit (n mod 10)) as [-> _]; [apply Z.mod_pos_bound; lia|]);
      rewrite Z.mod_small by lia; done.
  - destruct (Z.ltb_spec n 10).
    + exists 10. intros seen v. cbn [scan_digits].
      destruct (small_digit (n mod 10)) as [-> _]; [apply Z.mod_pos_bound; lia|].
      rewrite Z.mod_small by lia; done.
    + destruct (IH (n / 10) (String (digit (n mod 10)) acc)) as [k Hk].
      { rewrite Nat2Z.inj_succ, Z.pow_succ_r in Hn by lia.
        split; [apply Z.div_pos; lia | apply Z.div_lt_upper_bound; lia]. }
      exists (k * 10). intros seen v. cbn [decimal] in Hk. rewrite Hk. cbn [scan_digits].
      destruct (small_digit (n mod 10)) as [-> _]; [apply Z.mod_pos_bound; lia|].
      f_equal. pose proof (Z.div_mod n 10). lia.
Qed.

Lemma decimal_head fuel : forall n acc,
  exists d s, 0 <= d < 10 /\ decimal (S fuel) n acc = String (digit d) s.
Proof.
  induction fuel as [|fuel IH]; intros n acc; cbn [decimal];
    pose proof (Z.mod_pos_bound n 10 ltac:(lia)); case_match; eauto.
Qed.

Lemma stoi_to_string n : - 2 ^ 31 <= n < 2 ^ 31 -> stoi (to_string n) = Ok n.
Proof.
  intros Hn. unfold to_string, stoi. destruct (Z.ltb_spec n 0).
  - change (skip_space (String "-" ?x)) with (String "-" x). cbn [Ascii.eqb Bool.eqb].
    destruct (decimal_scan 9 (- n) "") as [k Hk]; [cbn; lia|].
    rewrite Hk. cbn [scan_digits]. rewrite Z.add_0_l, Z.opp_involutive.
    destruct (Z.leb_spec (- 2 ^ 31) n), (Z.ltb_spec n (2 ^ 31)); try lia. done.
  - destruct (decimal_scan 9 n "") as [k Hk]; [cbn; lia|].
    destruct (decimal_head 9 n "") as (d & s & Hd & E).
    specialize (Hk false 0). rewrite E in *. 
    destruct (small_digit d Hd) as (_ & Hs & Hm & Hp).
    cbn [skip_space]. rewrite Hs, Hm, Hp, Hk. cbn [scan_digits]. rewrite Z.add_0_l.
    destruct (Z.leb_spec (- 2 ^ 31) n), (Z.ltb_spec n (2 ^ 31)); try lia. done.
Qed.

(** The commands whose message carries all they need, and the metadata and
    payload that message has. *)
Definition message_content (h : ICommandHandler) : option (list bytes * bytes) :=
  match h with
  | Login c => Some ([type_meta LOGIN; login_username c; login_DH_public_bytes c;
                      login_identity_pub_bytes c; login_signature c], login_signature c)
  | MakeRoom c => Some ([type_meta MAKE_ROOM; room_chat_name c], room_chat_name c)
  | Join c => Some ([type_meta JOIN; join_chat_name c], join_chat_name c)
  | GetPubkey c => Some ([type_meta GET_PUBKEY; getpub_username c], [])
  | SendFile c =>
      Some ([type_meta SEND_FILE; sendfile_recipient c; sbytes (sendfile_filename c)], [])
  | Connect c =>
      if (- 2 ^ 31 <=? connect_port c) && (connect_port c <? 2 ^ 31) then
        Some ([type_meta CONNECT; sbytes (connect_ip c); sbytes (to_string (connect_port c));
               connect_DH_bytes c; connect_identity_bytes c; connect_signature c],
              connect_username c)
      else None
  | Exit => Some ([type_meta EXIT], [])
  | _ => None
  end.

Lemma toMessage_carries now h ms x :
  message_content h = Some (ms, x) -> fits ms x = true -> carries (toMessage now h) Command ms x.
Proof.
  intros Hc Hf. destruct h; cbn [message_content toMessage] in *; simplify_eq.
  1-3: by apply make_command_carries.
  all: try case_match; simplify_eq; by apply Message_make_carries.
Qed.

Lemma fromMessage_content h0 h m ms x :
  message_content h = Some (ms, x) -> getType h0 = getType h -> metadata m = ms -> payload m = x ->
  fromMessage h0 m = (Ok tt, h).
Proof.
  intros Hc Ht Hm Hp.
  destruct h; try done; destruct h0; try done; cbn [message_content fromMessage] in *.
  all: unfold Login_fromMessage, MakeRoom_fromMessage, Join_fromMessage, GetPubkey_fromMessage,
    SendFile_fromMessage, Connect_fromMessage, Message_get_meta, Message_get_payload.
  all: try match type of Hc with
           | (if ?b then _ else _) = _ => destruct b eqn:Eb; [|done]
           end.
  all: injection Hc as <- <-; rewrite ?Hm, ?Hp; cbn [lookup list_lookup].
  all: rewrite ?bstr_sbytes; destruct c; try done.
  cbn [connect_port] in *. bools. by rewrite stoi_to_string.
Qed.

(** ** Properties *)

(** C37: a command object survives the trip to the other side: [toMessage], the
    serialiser, the deserialiser and [fromMessage] on any handler of the same
    class give back the same command, for every command of the classes login,
    room, join, getpub, sendfile, connect (with a port that is an [int]) and
    exit whose fields fit a message. *)
Theorem command_object_roundtrip (now : Z) (h0 h : ICommandHandler) (ms : list bytes) (x q : bytes) :
  message_content h = Some (ms, x) -> fits ms x = true -> getType h0 = getType h ->
  exists m m', toMessage now h = Ok m /\
    Serializer_deserialize (Serializer_serialize m ++ q) = Ok m' /\
    fromMessage h0 m' = (Ok tt, h).
Proof.
  intros Hc Hf Ht.
  destruct (carries_wire _ _ _ _ q (toMessage_carries now h ms x Hc Hf))
    as (m & m' & E & Er & _ & Hm & Hp).
  exists m, m'. split_and!; try done. by apply (fromMessage_content h0 h m' ms x).
Qed.

Lemma command_object_roundtrip_witness :
  let h := Connect {| connect_ip := "10.0.0.7"; connect_port := -8080; connect_DH_bytes := sbytes "dh";
                      connect_identity_bytes := sbytes "id"; connect_signature := sbytes "sg";
                      connect_username := sbytes "ann" |} in
  exists m m', toMessage 0 h = Ok m /\
    Serializer_deserialize (Serializer_serialize m ++ []) = Ok m' /\
    fromMessage ConnectCommand_new m' = (Ok tt, h).
Proof.
  intros h. apply (command_object_roundtrip 0 ConnectCommand_new h
    [type_meta CONNECT; sbytes "10.0.0.7"; sbytes "-8080"; sbytes "dh"; sbytes "id"; sbytes "sg"]
    (sbytes "ann") []); vm_compute; reflexivity.
Defined.

(** The tables agree: the factory makes a command for exactly the names of the
    catalog; for every one but "help" the parser's table maps the name to the
    type of the command made, and the table of names maps that type back. *)
Theorem command_tables_agree (name : string) :
  (is_Some (CommandFactory_create name) <-> name ∈ map pat_command_name default_command_catalog) /\
  (forall h, CommandFactory_create name = Some h -> name <> "help"%string ->
     command_types_map name = Some (getType h) /\ command_names_map (getType h) = Some name).
Proof.
  unfold CommandFactory_create, command_types_map.
  repeat match goal with
         | |- context [String.eqb name ?s] => destruct (String.eqb_spec name s) as [->|?]
         end; cbn.
  all: split; [split; [intros; set_solver | eauto] | intros h [= <-]; done || (intros; done)].
  set_solver.
Qed.
