(* ===== verification/Server.v ===== *)
(** The server: commands executed on it, the handlers of incoming messages,
    the dispatcher and [MessagingServer]
    ([execeuteOnServer] of [src/application/commands/impl/],
    [src/application/dispatching/], [src/application/messaging/messaging_server.cpp]). *)
From S2P Require Import Prelude Message Parser Models Services AppService Commands.

(** The handler classes a server dispatcher can hold; the command handler owns
    its registry of command objects. *)
Inductive IServerMessageHandler :=
| ServerTextHandler
| ServerCommandHandler (registry_ : CommandRegistry)
| ServerCipherHandler
| ServerFileStartHandler
| ServerFileChunkHandler
| ServerFileEndHandler.

Definition server_getMessageType (h : IServerMessageHandler) : MessageType :=
  match h with
  | ServerTextHandler => Text
  | ServerCommandHandler _ => Command
  | ServerCipherHandler => CipherMessage
  | ServerFileStartHandler => FileStart
  | ServerFileChunkHandler => FileChunk
  | ServerFileEndHandler => FileEnd
  end.

(** [handlers], and whether [context_] has been set. *)
Record ServerMessageDispatcher := {
  server_handlers : gmap MessageType IServerMessageHandler;
  server_context_set : bool;
}.

Definition server_registerHandler (d : ServerMessageDispatcher) (type : MessageType)
    (handler : IServerMessageHandler) : ServerMessageDispatcher :=
  {| server_handlers := <[type := handler]> (server_handlers d);
     server_context_set := server_context_set d |}.

Definition server_setContext (d : ServerMessageDispatcher) : ServerMessageDispatcher :=
  {| server_handlers := server_handlers d; server_context_set := true |}.

Definition server_HasHandlerFor (d : ServerMessageDispatcher) (type : MessageType) : bool :=
  bool_decide (is_Some (server_handlers d !! type)).

Definition server_clear (d : ServerMessageDispatcher) : ServerMessageDispatcher :=
  {| server_handlers := ∅; server_context_set := server_context_set d |}.

Record MessagingServer (T : Type) := {
  server_context : ServerContext T;
  server_dispatcher : ServerMessageDispatcher;
}.
Arguments server_context {T}.
Arguments server_dispatcher {T}.

Definition MessagingServer_make {T} (config : AppConfig) (t : T) (fd0 : Z) : MessagingServer T :=
  {| server_context := ServerContext_make config t fd0;
     server_dispatcher :=
       foldl (fun d '(t, h) => server_registerHandler d t h)
         {| server_handlers := ∅; server_context_set := false |}
         [(Text, ServerTextHandler);
          (Command, ServerCommandHandler ServerCommandHandler_registry);
          (CipherMessage, ServerCipherHandler);
          (FileStart, ServerFileStartHandler);
          (FileChunk, ServerFileChunkHandler);
          (FileEnd, ServerFileEndHandler)] |}.

Section Server.
  Context {T : Type} {srv : IServer T} {ord : IterOrder}.
  Variable now : Z.

(** ** [execeuteOnServer] *)

Definition SendFile_execeuteOnServer (c : SendFileCommand) : M (ServerContext T) unit :=
  ctx ← get;
  send_text now (sc_fd ctx)
    ("Server should send a file '" +:+ sendfile_filename c +:+ "' to "
     +:+ bstr (sendfile_recipient c)).

Definition Login_execeuteOnServer (c : LoginCommand) : M (ServerContext T) unit :=
  let username_string := bstr (login_username c) in
  AppService_login now username_string (login_DH_public_bytes c) (login_identity_pub_bytes c)
    (login_signature c).

Definition MakeRoom_execeuteOnServer (c : MakeRoomCommand) : M (ServerContext T) unit :=
  AppService_create_room now (bstr (room_chat_name c)).

Definition Join_execeuteOnServer (c : JoinCommand) : M (ServerContext T) unit :=
  AppService_join_room now (bstr (join_chat_name c)).

Definition SendGroupMessage_execeuteOnServer (c : SendGroupMessageCommand) :
    M (ServerContext T) unit :=
  m ← lift (SendGroupMessage_toMessage now c);
  AppService_send_group_message (bstr (group_chat_name c)) m.

Definition GetPubkey_execeuteOnServer (c : GetPubkeyCommand) : M (ServerContext T) unit :=
  AppService_send_pubkey now (getpub_username c).

Definition Exit_execeuteOnServer : M (ServerContext T) unit := AppService_exit_current_session.

(** The virtual call; the bodies of the other commands are empty. *)
Definition execeuteOnServer (h : ICommandHandler) : M (ServerContext T) unit :=
  match h with
  | Login c => Login_execeuteOnServer c
  | MakeRoom c => MakeRoom_execeuteOnServer c
  | Join c => Join_execeuteOnServer c
  | SendGroupMessage c => SendGroupMessage_execeuteOnServer c
  | GetPubkey c => GetPubkey_execeuteOnServer c
  | SendFile c => SendFile_execeuteOnServer c
  | Exit => Exit_execeuteOnServer
  | PrivateMessage _ | Connect _ | Disconnect _ | Help => mret tt
  end.

(** ** Handlers *)

(** [ServerCommandBus::dispatch]: the command object found in the registry is
    overwritten by [fromMessage] and then run. *)
Definition ServerCommandBus_dispatch (registry : CommandRegistry) (msg : Message)
    (ctx : ServerContext T) : outcome unit * ServerContext T * CommandRegistry :=
  let cmd := make_struct_from_command msg in
  match registry_find registry (pc_name cmd) with
  | None => (Ok tt, ctx, registry)
  | Some handler =>
      let '(r, handler) := fromMessage handler msg in
      let registry := <[pc_name cmd := handler]> registry in
      match r with
      | Ok _ => (execeuteOnServer handler ctx, registry)
      | Throw e => (Throw e, ctx, registry)
      | Undef => (Undef, ctx, registry)
      end
  end.

Definition recipient_from (msg : Message) : string := bstr (Message_get_meta msg 0).

(** [handleMessage] of the three file handlers, which forward the message. *)
Definition forward_to_recipient (msg : Message) : M (ServerContext T) unit :=
  ctx ← get;
  match SessionManager_get_fd (sc_sessions ctx) (recipient_from msg) with
  | unexpected _ => transport_send (sc_fd ctx) USER_NOT_FOUND
  | expected recipient_fd => transport_send recipient_fd (Serializer_serialize msg)
  end.

Definition ServerCipherHandler_handleMessage (msg : Message) : M (ServerContext T) unit :=
  ctx ← get;
  AppService_deliver_cipher_message now (sc_fd ctx) msg.

Definition server_handleMessage (h : IServerMessageHandler) (msg : Message) (ctx : ServerContext T) :
    outcome unit * ServerContext T * IServerMessageHandler :=
  match h with
  | ServerTextHandler => (Ok tt, ctx, h)
  | ServerCommandHandler registry_ =>
      let '(r, ctx, registry_) := ServerCommandBus_dispatch registry_ msg ctx in
      (r, ctx, ServerCommandHandler registry_)
  | ServerCipherHandler => (ServerCipherHandler_handleMessage msg ctx, h)
  | ServerFileStartHandler | ServerFileChunkHandler | ServerFileEndHandler =>
      (forward_to_recipient msg ctx, h)
  end.

(** ** [ServerMessageDispatcher] *)

(** An exception of a handler is caught and reported as [false]. *)
Definition server_dispatch (msg : Message) : M (MessagingServer T) bool := fun s =>
  let d := server_dispatcher s in
  match server_handlers d !! Message_get_type msg with
  | None => (Ok false, s)
  | Some h =>
      if negb (server_context_set d) then (Undef, s)
      else
        let '(r, ctx, h) := server_handleMessage h msg (server_context s) in
        let s' := {| server_context := ctx;
                     server_dispatcher :=
                       server_registerHandler d (Message_get_type msg) h |} in
        match r with
        | Ok _ => (Ok true, s')
        | Throw _ => (Ok false, s')
        | Undef => (Undef, s')
        end
  end.

Definition server_dispatchFromRawBytes (raw_data : bytes) : M (MessagingServer T) bool := fun s =>
  match Serializer_deserialize raw_data with
  | Ok msg => server_dispatch msg s
  | Throw _ => (Ok false, s)
  | Undef => (Undef, s)
  end.

(** ** [MessagingServer] *)

(** [server_context->fd = fd; dispatcher.setContext(server_context)]. *)
Definition server_enter (fd : Z) (s : MessagingServer T) : MessagingServer T :=
  {| server_context := set_fd fd (server_context s);
     server_dispatcher := server_setContext (server_dispatcher s) |}.

Definition on_tcp_data_received (fd : Z) (raw_data : bytes) : M (MessagingServer T) unit :=
  msg ← lift (Serializer_deserialize raw_data);
  _ ← modify (server_enter fd);
  _ ← server_dispatch msg;
  mret tt.

(** The disconnect callback installed by [start_server]. *)
Definition on_disconnected (fd : Z) : M (MessagingServer T) unit :=
  _ ← modify (server_enter fd);
  msg ← lift (Message_make now [] 1 [[CommandType_to_byte EXIT]] Command);
  _ ← server_dispatch msg;
  mret tt.

(** [send_error] ignores its text. *)
Definition MessagingServer_send_error (fd : Z) (error_string : string) : M (MessagingServer T) unit :=
  modify (fun s => {| server_context :=
                        set_transport (server_send fd (sbytes "error")
                                         (sc_transport (server_context s))) (server_context s);
                      server_dispatcher := server_dispatcher s |}).

(** What the transport reports to the server. *)
Inductive ServerEvent :=
| DataReceived (fd : Z) (raw_data : bytes)
| ClientDisconnected (fd : Z).

Definition server_step (e : ServerEvent) : M (MessagingServer T) unit :=
  match e with
  | DataReceived fd raw => on_tcp_data_received fd raw
  | ClientDisconnected fd => on_disconnected fd
  end.

End Server.

(** The states a server can be in: the initial one, and every one an event leads
    to, also when the event ends in an exception. *)
Inductive server_reachable {T} {srv : IServer T} {ord : IterOrder} (s0 : MessagingServer T) :
    MessagingServer T -> Prop :=
| server_reach_init : server_reachable s0 s0
| server_reach_step s now e r s' :
    server_reachable s0 s -> server_step now e s = (r, s') -> server_reachable s0 s'.

(** Exposes the application-service call behind a command. *)
Ltac exec_unfold :=
  cbn [execeuteOnServer]; unfold Login_execeuteOnServer, MakeRoom_execeuteOnServer,
    Join_execeuteOnServer, SendGroupMessage_execeuteOnServer, GetPubkey_execeuteOnServer,
    Exit_execeuteOnServer.
Tactic Notation "exec_unfold" "in" hyp(H) :=
  cbn [execeuteOnServer] in H; unfold Login_execeuteOnServer, MakeRoom_execeuteOnServer,
    Join_execeuteOnServer, SendGroupMessage_execeuteOnServer, GetPubkey_execeuteOnServer,
    Exit_execeuteOnServer in H.
