(* ===== verification/ServerInvariant.v ===== *)
(** The invariant of the server: what holds of the users, the sessions, the
    chats and the dispatcher in every state the server can reach, and what an
    event can end in. *)
From S2P Require Import Prelude Message Wire CommandPattern Parser Models Services AppService Commands Server.

Section Invariant.
  Context {T : Type} {srv : IServer T} {ord : IterOrder}.

(** ** The context *)

(** Sessions are a bijection; a user is registered exactly while the name has a
    session; users and chats are filed under their names; the members of every
    chat are registered users. *)
Record context_ok (c : ServerContext T) : Prop := {
  ok_sessions : sessions_ok (sc_sessions c);
  ok_users : forall n, is_Some (users_ (sc_users c) !! n) <-> is_Some (name_to_fd_ (sc_sessions c) !! n);
  ok_usernames : map_Forall (fun n u => username u = n) (users_ (sc_users c));
  ok_chats : chats_ok (sc_chats c);
  ok_members : map_Forall (fun _ ch => forall u, u ∈ members_id ch -> is_Some (users_ (sc_users c) !! u))
                 (chats_ (sc_chats c));
  ok_app : sc_app_service c = {| fd_ref_ := true; serializer_ := true; transport_server_ := true |};
}.

(** An operation that keeps the context well-formed and whose behaviour is
    defined. *)
Definition safe {A} (m : M (ServerContext T) A) : Prop :=
  forall c, context_ok c -> wp m (fun r c' => defined r /\ context_ok c') c.

Lemma context_ok_transport t c : context_ok c -> context_ok (set_transport t c).
Proof. intros []; by constructor. Qed.

Lemma context_ok_fd fd c : context_ok c -> context_ok (set_fd fd c).
Proof. intros []; by constructor. Qed.

Lemma ready c : context_ok c -> not_ready c = false.
Proof. intros []. unfold not_ready. by rewrite ok_app0. Qed.

Lemma transport_send_safe fd data : safe (transport_send fd data).
Proof. intros c Hc. split; [done | by apply context_ok_transport]. Qed.

Lemma Message_make_defined now x ml ms t : defined (Message_make now x ml ms t).
Proof. rewrite Message_make_eq. repeat case_match; done. Qed.

Lemma send_text_safe now fd s : safe (send_text now fd s).
Proof.
  intros c Hc. unfold send_text. pose proof (Message_make_defined now (sbytes s) 0 [] Text).
  wp_go; try done. by apply transport_send_safe.
Qed.

Lemma expected_username s fd n :
  SessionManager_get_username s fd = expected n <-> fd_to_name_ s !! fd = Some n.
Proof. unfold SessionManager_get_username. case_match; naive_solver. Qed.

Lemma unexpected_username s fd e :
  SessionManager_get_username s fd = unexpected e -> fd_to_name_ s !! fd = None.
Proof. unfold SessionManager_get_username. by case_match. Qed.

Lemma expected_fd s n fd : SessionManager_get_fd s n = expected fd <-> name_to_fd_ s !! n = Some fd.
Proof. unfold SessionManager_get_fd. case_match; naive_solver. Qed.

(** Whoever has a session is a registered user. *)
Lemma session_user c fd n :
  context_ok c -> fd_to_name_ (sc_sessions c) !! fd = Some n -> is_Some (users_ (sc_users c) !! n).
Proof. intros Hc Hn. apply (ok_users c Hc). exists fd. by apply (ok_sessions c Hc). Qed.

(** *** Changes of the services *)

(** The user record a registration stores. *)
Definition registered (name : string) (dh id sg : bytes) : User :=
  {| user_id := ""; username := name; publicDHKey := dh; publicIdentityKey := id;
     Models.signature := sg; status := Offline; chat_ids := [] |}.

Lemma register_eq s name dh id sg :
  UserService_register_user s name dh id sg
  = match users_ s !! name with
    | Some _ => (unexpected AlreadyExists, s)
    | None => (expected name, with_users s (<[name := registered name dh id sg]> (users_ s)))
    end.
Proof.
  unfold UserService_register_user, UserService_set_public_key. case_match; [done|].
  cbn [users_ with_users]. rewrite lookup_insert_eq. by rewrite insert_insert_eq.
Qed.

Lemma context_ok_login c name dh id sg :
  context_ok c -> fd_to_name_ (sc_sessions c) !! sc_fd c = None -> users_ (sc_users c) !! name = None ->
  context_ok (set_sessions (SessionManager_bind (sc_sessions c) (sc_fd c) name)
    (set_users (with_users (sc_users c) (<[name := registered name dh id sg]> (users_ (sc_users c)))) c)).
Proof.
  intros [] Hfd Hn.
  assert (Hs : name_to_fd_ (sc_sessions c) !! name = None).
  { apply eq_None_not_Some. rewrite <- ok_users0, Hn. by intros []. }
  constructor; cbn; try done.
  - by apply bind_ok.
  - intros n. rewrite !lookup_insert. case_decide; [split; eauto | apply ok_users0].
  - by apply map_Forall_insert.
  - intros i ch Hi u Hu. rewrite lookup_insert. case_decide; [eauto | by eapply ok_members0].
Qed.

Lemma context_ok_chat c name ch u :
  context_ok c -> chat_name ch = name -> chat_type ch = Group ->
  (forall v, v ∈ members_id ch -> v = u \/ exists ch', chats_ (sc_chats c) !! name = Some ch' /\ v ∈ members_id ch') ->
  is_Some (users_ (sc_users c) !! u) ->
  context_ok (set_chats (with_chats (sc_chats c) (<[name := ch]> (chats_ (sc_chats c)))) c).
Proof.
  intros [] Hn Ht Hm Hu. constructor; cbn; try done.
  - by apply map_Forall_insert_2.
  - apply map_Forall_insert_2; [|done]. intros v [->|(ch' & Hch & Hv)]%Hm; [done|].
    by eapply ok_members0.
Qed.

Lemma context_ok_exit c name :
  context_ok c -> fd_to_name_ (sc_sessions c) !! sc_fd c = Some name ->
  context_ok (set_sessions (SessionManager_unbind (sc_sessions c) (sc_fd c))
    (set_chats (ChatService_remove_user_from_all_chats (sc_chats c) name)
      (set_users (UserService_remove_user (sc_users c) name) c))).
Proof.
  intros Hc Hfd. destruct (session_user c _ _ Hc Hfd) as [u Hu]. destruct Hc.
  constructor; cbn; try done.
  - by apply unbind_ok.
  - intros n. unfold UserService_remove_user, SessionManager_unbind. rewrite Hu, Hfd. cbn.
    rewrite !lookup_delete. case_decide; [done | apply ok_users0].
  - unfold UserService_remove_user. rewrite Hu. by apply map_Forall_delete.
  - unfold ChatService_remove_user_from_all_chats, chats_ok. cbn.
    intros n ch. rewrite lookup_fmap, fmap_Some. intros (ch' & Hch & ->).
    apply ok_chats0 in Hch. unfold Chat_remove_member. by repeat case_match.
  - intros n ch. rewrite lookup_fmap, fmap_Some. intros (ch' & Hch & ->) v Hv.
    unfold UserService_remove_user. rewrite Hu. cbn.
    assert (v <> name /\ v ∈ members_id ch') as [Hne Hv'].
    { unfold Chat_is_member, Chat_remove_member in Hv. repeat case_bool_decide; cbn in Hv; set_solver. }
    rewrite lookup_delete_ne by done. by eapply ok_members0.
Qed.

(** ** The operations of the application service *)

Lemma safe_post {A} (m : M (ServerContext T) A) c :
  safe m -> context_ok c -> wp m (fun r c' => defined r /\ context_ok c') c.
Proof. auto. Qed.

Ltac use_ready :=
  match goal with
  | H : context_ok ?c, E : not_ready ?c = true |- _ => by rewrite (ready c H) in E
  end.

Ltac app_safe :=
  wp_go; try use_ready; try done;
  try (apply safe_post; [apply transport_send_safe || apply send_text_safe|]);
  try done.

Lemma set_users_id (c : ServerContext T) : set_users (sc_users c) c = c.
Proof. by destruct c. Qed.

Lemma set_chats_id (c : ServerContext T) : set_chats (sc_chats c) c = c.
Proof. by destruct c. Qed.

Lemma login_safe now name dh id sg : safe (AppService_login now name dh id sg).
Proof.
  intros c Hc. unfold AppService_login. app_safe.
  all: rewrite register_eq in *; case_match; simplify_eq.
  - apply (context_ok_login c); eauto using unexpected_username.
  - by rewrite set_users_id.
Qed.

Lemma chat_error_id (c : ServerContext T) s : context_ok c -> s = sc_chats c -> context_ok (set_chats s c).
Proof. intros ? ->. by rewrite set_chats_id. Qed.

Lemma add_member_group ch u :
  chat_type ch = Group ->
  chat_name (Chat_add_member ch u).2 = chat_name ch /\ chat_type (Chat_add_member ch u).2 = Group /\
  forall v, v ∈ members_id (Chat_add_member ch u).2 <-> v ∈ members_id ch \/ v = u.
Proof.
  intros Ht. unfold Chat_add_member. rewrite Ht. repeat case_bool_decide; cbn; set_solver.
Qed.

Lemma context_ok_add_member c fd u name r s :
  context_ok c -> fd_to_name_ (sc_sessions c) !! fd = Some u ->
  ChatService_add_member (sc_chats c) name u = (r, s) -> context_ok (set_chats s c).
Proof.
  intros Hc Hu E. unfold ChatService_add_member in E.
  repeat case_match; simplify_eq; try (by rewrite set_chats_id).
  destruct (ok_chats c Hc name c0) as [Hn Ht]; [done|].
  destruct (add_member_group c0 u Ht) as (? & ? & Hm).
  eapply context_ok_chat; eauto using session_user; [congruence|].
  intros v [?| ->]%Hm; eauto.
Qed.

Lemma join_safe now name : safe (AppService_join_room now name).
Proof.
  intros c Hc. unfold AppService_join_room. app_safe.
  all: subst; eapply context_ok_add_member; eauto; by apply expected_username.
Qed.

Lemma context_ok_create c fd u name r s :
  context_ok c -> fd_to_name_ (sc_sessions c) !! fd = Some u ->
  ChatService_create_chat (sc_chats c) name u = (r, s) -> context_ok (set_chats s c).
Proof.
  intros Hc Hu E. unfold ChatService_create_chat in E. case_match; simplify_eq; [by rewrite set_chats_id|].
  destruct (add_member_group (Chat_make "" name Group) u eq_refl) as (? & ? & Hm).
  eapply context_ok_chat; eauto using session_user. intros v [?| ->]%Hm; [set_solver | auto].
Qed.

Lemma create_room_safe now name : safe (AppService_create_room now name).
Proof.
  intros c Hc. unfold AppService_create_room. app_safe.
  all: subst; eapply context_ok_create; eauto; by apply expected_username.
Qed.

Lemma send_to_members_safe data members : safe (send_to_members data members).
Proof.
  induction members as [|u members IH]; intros c Hc; cbn [send_to_members]; wp_go; try done.
  all: apply IH; [by apply context_ok_transport || done].
Qed.

Lemma context_ok_post c fd u name m r s :
  context_ok c -> fd_to_name_ (sc_sessions c) !! fd = Some u ->
  ChatService_post_message (sc_chats c) name u m = (r, s) ->
  context_ok (set_chats s c) /\ (forall e, r = unexpected e -> e = ChatNotFound \/ e = AccessDenied).
Proof.
  intros Hc Hu E. unfold ChatService_post_message in E.
  repeat case_match; simplify_eq; (split; [|naive_solver]); try (by rewrite set_chats_id).
  destruct (ok_chats c Hc name c0) as [Hn Ht]; [done|].
  eapply context_ok_chat; eauto using session_user.
Qed.

Lemma send_group_message_safe name m : safe (AppService_send_group_message name m).
Proof.
  intros c Hc. unfold AppService_send_group_message. wp_go; try use_ready.
  all: try (by apply transport_send_safe).
  all: subst; edestruct context_ok_post as [Hc' He];
    [exact Hc | by apply expected_username | eassumption |].
  all: try (by apply transport_send_safe); try (by apply send_to_members_safe).
  all: exfalso; specialize (He _ eq_refl); naive_solver.
Qed.

Lemma deliver_cipher_message_safe now fd msg : safe (AppService_deliver_cipher_message now fd msg).
Proof.
  intros c Hc. unfold AppService_deliver_cipher_message.
  wp_go; rewrite ?(ok_app c Hc) in *; try done; try (by apply transport_send_safe).
  split; [|done]. intros E. by eapply Message_make_defined.
Qed.

Lemma exit_safe : safe AppService_exit_current_session.
Proof.
  intros c Hc. unfold AppService_exit_current_session. wp_go; try done.
  split; [done|]. apply (context_ok_exit c); [done | by apply expected_username].
Qed.

Lemma send_pubkey_safe now name : safe (AppService_send_pubkey now name).
Proof.
  intros c Hc. unfold AppService_send_pubkey.
  wp_go; try done; try (by apply transport_send_safe).
  split; [|done]. intros E. by eapply Message_make_defined.
Qed.

(** ** Commands and handlers *)

Lemma execeuteOnServer_safe now h : safe (execeuteOnServer now h).
Proof.
  destruct h; exec_unfold;
    eauto using login_safe, create_room_safe, join_safe, send_pubkey_safe, exit_safe.
  all: intros ctx Hc; try by split.
  - unfold SendGroupMessage_toMessage. wp_go; [by apply send_group_message_safe | by split |].
    exfalso; by eapply Message_make_defined.
  - unfold SendFile_execeuteOnServer. wp_go. by apply send_text_safe.
Qed.

(** ** The dispatcher *)

Definition initial_handlers : gmap MessageType IServerMessageHandler :=
  server_handlers (server_dispatcher (@MessagingServer_make unit {| server_host := ""; server_port := 0 |} tt 0)).

(** The dispatcher keeps its six handlers, and the command handler its commands:
    only the fields of the command objects change. *)
Definition dispatcher_ok (d : ServerMessageDispatcher) : Prop :=
  exists reg : CommandRegistry,
    getType <$> reg = getType <$> ServerCommandHandler_registry /\
    server_handlers d = <[Command := ServerCommandHandler reg]> initial_handlers.

Definition server_ok (s : MessagingServer T) : Prop :=
  context_ok (server_context s) /\ dispatcher_ok (server_dispatcher s).

Lemma fromMessage_getType h m : getType (fromMessage h m).2 = getType h.
Proof. destruct h; cbn [fromMessage]; try done. unfold Connect_fromMessage. by case_match. Qed.

Lemma stoi_defined x : defined (stoi x).
Proof.
  unfold stoi. destruct (match skip_space x with EmptyString => _ | _ => _ end) as [neg y].
  repeat case_match; done.
Qed.

Lemma bus_safe now reg msg c :
  context_ok c ->
  let '(r, c', reg') := ServerCommandBus_dispatch now reg msg c in
  defined r /\ context_ok c' /\ getType <$> reg' = (getType <$> reg : gmap string CommandType).
Proof.
  intros Hc. unfold ServerCommandBus_dispatch, registry_find.
  destruct (reg !! _) as [h|] eqn:E; [|done].
  pose proof (fromMessage_getType h msg) as Ht.
  assert (Hd : defined (fromMessage h msg).1).
  { destruct h; try done. cbn [fromMessage]. unfold Connect_fromMessage.
    pose proof (stoi_defined (bstr (Message_get_meta msg 2))). by destruct (stoi _). }
  destruct (fromMessage h msg) as [r h']. cbn in Ht, Hd.
  assert (Hreg : getType <$> <[pc_name (make_struct_from_command msg) := h']> reg
                 = (getType <$> reg : gmap string CommandType)).
  { rewrite fmap_insert, Ht. apply insert_id. by rewrite lookup_fmap, E. }
  destruct r; try done.
  pose proof (execeuteOnServer_safe now h' c Hc) as Hx. unfold wp in Hx.
  destruct (execeuteOnServer now h' c) as [r' c']. naive_solver.
Qed.

Lemma initial_handlers_command :
  initial_handlers !! Command = Some (ServerCommandHandler ServerCommandHandler_registry).
Proof. vm_compute. reflexivity. Qed.

Lemma handler_cases t h reg :
  <[Command := ServerCommandHandler reg]> initial_handlers !! t = Some h ->
  (t = Command /\ h = ServerCommandHandler reg) \/
  (t <> Command /\ initial_handlers !! t = Some h /\ forall r, h <> ServerCommandHandler r).
Proof.
  rewrite lookup_insert. case_decide; [naive_solver|]. intros E. right. split_and!; try done.
  intros r ->. destruct t; vm_compute in E; done.
Qed.

Lemma handle_safe now h msg c :
  context_ok c -> (forall r, h <> ServerCommandHandler r) ->
  let '(r, c', h') := server_handleMessage now h msg c in
  defined r /\ context_ok c' /\ h' = h.
Proof.
  intros Hc Hnc.
  assert (Hx : forall m : M (ServerContext T) unit,
            safe m -> let '(r, c', h') := (m c, h) in defined r /\ context_ok c' /\ h' = h).
  { intros m Hm. specialize (Hm c Hc). unfold wp in Hm. destruct (m c). naive_solver. }
  destruct h; [done | by destruct (Hnc registry_) | | | |]; apply Hx; intros c' Hc'.
  1: { unfold ServerCipherHandler_handleMessage. wp_go. by apply deliver_cipher_message_safe. }
  all: unfold forward_to_recipient; wp_go; by apply transport_send_safe.
Qed.

(** A handler never leaves the server in a bad state, and what it throws is
    caught. *)
Lemma server_dispatch_safe now msg s :
  server_ok s -> server_context_set (server_dispatcher s) = true ->
  wp (server_dispatch now msg) (fun r s' => (exists b, r = Ok b) /\ server_ok s') s.
Proof.
  intros [Hc (reg & Hreg & Hh)] Hset. unfold wp, server_dispatch. rewrite Hh, Hset. cbn [negb].
  destruct (_ !! Message_get_type msg) as [h|] eqn:E; [|split; [eauto|split; [done|by exists reg]]].
  assert (Hx : let '(r, c', h') := server_handleMessage now h msg (server_context s) in
    defined r /\ server_ok {| server_context := c';
      server_dispatcher := server_registerHandler (server_dispatcher s) (Message_get_type msg) h' |}).
  { apply handler_cases in E as [[Ht ->]|(Ht & E & Hnc)].
    - cbn [server_handleMessage]. pose proof (bus_safe now reg msg _ Hc) as Hb.
      destruct (ServerCommandBus_dispatch _ _ _ _) as [[r c'] reg']. destruct Hb as (Hr & Hc' & Hreg').
      split; [done|]. split; [done|]. exists reg'. split; [congruence|]. cbn. rewrite Hh, Ht.
      by rewrite insert_insert_eq.
    - pose proof (handle_safe now h msg _ Hc Hnc) as Hb.
      destruct (server_handleMessage _ _ _ _) as [[r c'] h']. destruct Hb as (Hr & Hc' & ->).
      split; [done|]. split; [done|]. exists reg. split; [done|]. cbn. rewrite Hh.
      rewrite insert_insert_ne by done. by rewrite (insert_id _ _ _ E). }
  destruct (server_handleMessage _ _ _ _) as [[r c'] h']. destruct Hx as [Hr Hs].
  destruct r; try done; (split; [eauto | done]).
Qed.

Lemma server_ok_enter fd s :
  server_ok s -> server_ok (server_enter fd s) /\
    server_context_set (server_dispatcher (server_enter fd s)) = true.
Proof. intros [Hc Hd]. split; [|done]. split; [by apply context_ok_fd | done]. Qed.

Lemma MessagingServer_make_ok cfg (t : T) fd0 : server_ok (MessagingServer_make cfg t fd0).
Proof.
  split.
  - constructor; cbn; try done. intros n. by rewrite !lookup_empty.
  - exists ServerCommandHandler_registry. split; [done|].
    rewrite insert_id by apply initial_handlers_command. done.
Qed.

(** ** Events *)

(** What an event ends in, from a well-formed state. *)
Lemma server_step_safe now e s :
  server_ok s ->
  wp (server_step now e) (fun r s' => server_ok s' /\
    (r = Ok tt \/ exists fd raw x, e = DataReceived fd raw /\ Serializer_deserialize raw = Throw x /\
                  r = Throw x /\ s' = s)) s.
Proof.
  intros Hs. destruct e as [fd raw|fd]; cbn [server_step].
  - unfold on_tcp_data_received. apply wp_bind, wp_lift.
    destruct (Serializer_deserialize raw) as [msg|x|] eqn:E.
    + wp_go. destruct (server_ok_enter fd s Hs) as [Hs' Hset].
      eapply wp_mono; [by apply server_dispatch_safe|]. intros r s' [[b ->] ?].
      wp_go. auto.
    + split; [done|]. right. eauto 10.
    + by destruct (deserialize_defined raw).
  - unfold on_disconnected. rewrite Message_make_small by (vm_compute; done). wp_go. destruct (server_ok_enter fd s Hs) as [Hs' Hset].
    eapply wp_mono; [by apply server_dispatch_safe|]. intros r s' [[b ->] ?]. wp_go. auto.
Qed.

Lemma server_reachable_ok cfg (t : T) fd0 s :
  server_reachable (MessagingServer_make cfg t fd0) s -> server_ok s.
Proof.
  induction 1 as [|s now e r s' _ IH E]; [apply MessagingServer_make_ok|].
  by destruct (wp_run _ _ _ _ _ E (server_step_safe now e s IH)).
Qed.

(** ** Properties *)

(** C1: the invariant of the server: in every state it can reach, by whatever bytes
    clients send and however they disconnect, connections and names are in
    bijection, exactly the names with a connection are registered, users and
    chats are filed under their names, every member of a chat is a registered
    user, and the dispatcher still has its handlers and commands. *)
Theorem server_invariant (cfg : AppConfig) (t : T) (fd0 : Z) (s : MessagingServer T) :
  server_reachable (MessagingServer_make cfg t fd0) s -> server_ok s.
Proof. apply server_reachable_ok. Qed.

(** C2: what an event can end in: in a reachable state no event has undefined
    behaviour; it is handled, whatever the handlers throw, unless the bytes
    received do not deserialise. Then the exception leaves the server's
    callback, and the state is unchanged. *)
Theorem server_step_outcome (cfg : AppConfig) (t : T) (fd0 now : Z) (s s' : MessagingServer T)
    (e : ServerEvent) (r : outcome unit) :
  server_reachable (MessagingServer_make cfg t fd0) s -> server_step now e s = (r, s') ->
  r <> Undef /\
  (r = Ok tt <-> forall fd raw, e = DataReceived fd raw -> exists m, Serializer_deserialize raw = Ok m) /\
  (forall x, r = Throw x -> s' = s /\ exists fd raw, e = DataReceived fd raw /\ Serializer_deserialize raw = Throw x).
Proof.
  intros Hr E. apply server_reachable_ok in Hr.
  destruct (wp_run _ _ _ _ _ E (server_step_safe now e s Hr)) as [_ [->|(fd & raw & x & -> & Hx & -> & ->)]].
  - split_and!; try done. split; [|done]. intros _ fd raw ->. cbn [server_step] in E.
    unfold on_tcp_data_received, mbind, M_bind, lift in E. destruct (Serializer_deserialize raw); naive_solver.
  - split_and!; try done.
    + split; [done|]. intros H. destruct (H fd raw eq_refl) as [m Hm]. congruence.
    + intros y [= ->]. eauto.
Qed.

End Invariant.

(** A server that has handled two connections logging in as "ann" and "bob". *)
Definition demo_config : AppConfig := {| server_host := "127.0.0.1"; server_port := 8080 |}.

Definition demo_login (fd : Z) (name : string) : ServerEvent :=
  match Login_toMessage 0 {| login_username := sbytes name; login_DH_public_bytes := sbytes "dh";
                             login_identity_pub_bytes := sbytes "id"; login_signature := sbytes "sg" |} with
  | Ok m => DataReceived fd (Serializer_serialize m)
  | _ => ClientDisconnected fd
  end.

Definition demo_start : MessagingServer sent_log := MessagingServer_make demo_config [] 0.

Definition demo_server : MessagingServer sent_log :=
  (server_step 0 (demo_login 5 "bob") (server_step 0 (demo_login 4 "ann") demo_start).2).2.

Lemma demo_reachable : server_reachable demo_start demo_server.
Proof.
  eapply (server_reach_step _ _ 0 (demo_login 5 "bob")); [|apply surjective_pairing].
  eapply (server_reach_step _ _ 0 (demo_login 4 "ann")); [|apply surjective_pairing].
  constructor.
Qed.

Lemma server_invariant_witness :
  server_ok demo_server /\
  SessionManager_get_username (sc_sessions (server_context demo_server)) 5 = expected "bob"%string.
Proof.
  split; [|vm_compute; reflexivity].
  apply (server_invariant demo_config [] 0). exact demo_reachable.
Defined.

Lemma server_step_outcome_witness :
  let e := DataReceived 4 (sbytes "bad") in
  (server_step 0 e demo_server).1 <> Undef /\ (server_step 0 e demo_server).1 <> Ok tt.
Proof.
  intros e.
  destruct (server_step_outcome demo_config [] 0 0 demo_server (server_step 0 e demo_server).2 e
              (server_step 0 e demo_server).1 demo_reachable (surjective_pairing _)) as (H & _ & _).
  split; [exact H | vm_compute; discriminate].
Defined.
