(* ===== verification/ServerRefinement.v ===== *)
(** The server does not depend on its transport: running it over any [IServer]
    is running it over the one that records what is sent and handing the record
    to the transport. What is proved of the recorded messages thus holds of what
    any transport is given. *)
From S2P Require Import Prelude Message Wire Parser Models Services AppService Commands Server ServerInvariant.

Section Refinement.
  Context {T : Type} {srv : IServer T} {ord : IterOrder}.
  (** The state the transport starts in. *)
  Variable t0 : T.

(** Hand a record of sent messages to the transport. *)
Definition replay (log : sent_log) : T := foldl (fun t '(fd, data) => server_send fd data t) t0 log.

Definition lower (c : ServerContext sent_log) : ServerContext T :=
  {| sc_config := sc_config c; sc_transport := replay (sc_transport c); sc_users := sc_users c;
     sc_chats := sc_chats c; sc_sessions := sc_sessions c; sc_app_service := sc_app_service c;
     sc_fd := sc_fd c |}.

Definition lower_server (s : MessagingServer sent_log) : MessagingServer T :=
  {| server_context := lower (server_context s); server_dispatcher := server_dispatcher s |}.

Lemma replay_send log fd data : replay (server_send fd data log) = server_send fd data (replay log).
Proof.
  change (server_send fd data log) with (log ++ [(fd, data)] : sent_log).
  unfold replay. by rewrite foldl_app.
Qed.

Lemma natural_send fd data : natural lower (transport_send fd data) (transport_send fd data).
Proof.
  apply natural_modify. intros s. unfold lower, set_transport. cbn. by rewrite replay_send.
Qed.

(** Decompose an operation along its structure. *)
Ltac natural :=
  repeat (cbn [lower sc_config sc_users sc_chats sc_sessions sc_app_service sc_fd];
    lazymatch goal with
    | |- natural _ (transport_send _ _) _ => apply natural_send
    | |- natural _ (get ≫= _) _ => apply natural_get; intros ?
    | |- natural _ (_ ≫= _) _ => apply natural_bind; [|intros ?]
    | |- natural _ (modify _) _ => by apply natural_modify
    | |- natural _ (mret _) _ => apply natural_ret
    | |- natural _ (lift _) _ => apply natural_lift
    | |- natural _ (match ?x with _ => _ end) _ => destruct x
    | |- natural _ (let '(_, _) := ?x in _) _ => destruct x
    end).

Lemma natural_members data ms : natural lower (send_to_members data ms) (send_to_members data ms).
Proof. induction ms as [|u ms IH]; cbn [send_to_members]; natural; apply IH. Qed.

Lemma natural_execute now h : natural lower (execeuteOnServer now h) (execeuteOnServer now h).
Proof.
  destruct h; exec_unfold;
    unfold AppService_login, AppService_create_room, AppService_join_room,
      AppService_send_group_message, AppService_send_pubkey, AppService_exit_current_session,
      SendFile_execeuteOnServer, send_text, not_ready;
    natural; apply natural_members.
Qed.

Lemma natural_cipher now msg :
  natural lower (ServerCipherHandler_handleMessage now msg) (ServerCipherHandler_handleMessage now msg).
Proof. unfold ServerCipherHandler_handleMessage, AppService_deliver_cipher_message. natural. Qed.

Lemma natural_forward msg : natural lower (forward_to_recipient msg) (forward_to_recipient msg).
Proof. unfold forward_to_recipient. natural. Qed.

Lemma natural_handle now h msg c :
  server_handleMessage now h msg (lower c)
  = let '(r, c', h') := server_handleMessage now h msg c in (r, lower c', h').
Proof.
  destruct h; cbn [server_handleMessage]; try done.
  - unfold ServerCommandBus_dispatch. destruct (registry_find _ _) as [h|]; [|done].
    destruct (fromMessage h msg) as [[] h']; try done. rewrite natural_execute. by destruct (execeuteOnServer now h' c).
  - rewrite natural_cipher. by destruct (ServerCipherHandler_handleMessage now msg c).
  - rewrite natural_forward. by destruct (forward_to_recipient msg c).
  - rewrite natural_forward. by destruct (forward_to_recipient msg c).
  - rewrite natural_forward. by destruct (forward_to_recipient msg c).
Qed.

Lemma natural_dispatch now msg : natural lower_server (server_dispatch now msg) (server_dispatch now msg).
Proof.
  intros s. unfold server_dispatch. cbn [lower_server server_dispatcher server_context].
  destruct (_ !! _) as [h|]; [|done]. destruct (negb _); [done|].
  rewrite natural_handle. by destruct (server_handleMessage now h msg (server_context s)) as [[[] c'] h'].
Qed.

Lemma natural_step now e : natural lower_server (server_step now e) (server_step now e).
Proof.
  destruct e; cbn [server_step]; unfold on_tcp_data_received, on_disconnected; natural;
    apply natural_dispatch.
Qed.

End Refinement.

(** A run: the outcomes of the events, each with the time it happens at, and the
    final state. *)
Fixpoint server_run {T} {srv : IServer T} {ord : IterOrder} (evs : list (Z * ServerEvent))
    (s : MessagingServer T) : list (outcome unit) * MessagingServer T :=
  match evs with
  | [] => ([], s)
  | (now, e) :: evs' =>
      let '(r, s1) := server_step now e s in
      let '(rs, s2) := server_run evs' s1 in
      (r :: rs, s2)
  end.

(** ** Properties *)

(** The transport is a parameter: for every [IServer], every iteration order and every
    sequence of events, the server started over the transport in state [t0] does
    exactly what the server over the recording transport does: the same outcomes, the same users, chats, sessions and
    dispatcher, and the transport is in the state it reaches when it is given
    the recorded messages one by one. *)
Theorem server_transport_refinement {T} {srv : IServer T} {ord : IterOrder} (cfg : AppConfig)
    (t0 : T) (fd0 : Z) (evs : list (Z * ServerEvent)) :
  server_run evs (MessagingServer_make cfg t0 fd0)
  = let '(rs, s) := server_run evs (MessagingServer_make cfg ([] : sent_log) fd0) in
    (rs, lower_server t0 s).
Proof.
  change (MessagingServer_make cfg t0 fd0)
    with (lower_server t0 (MessagingServer_make cfg ([] : sent_log) fd0)).
  generalize (MessagingServer_make cfg ([] : sent_log) fd0).
  induction evs as [|[now e] evs IH]; intros s; cbn [server_run]; [done|].
  rewrite natural_step. destruct (server_step now e s) as [r s1]. cbn [fst snd]. rewrite IH.
  by destruct (server_run evs s1).
Qed.
