(* ===== verification/ServerSpec.v ===== *)
(** What the server does with the requests of its clients: the effect of each
    command message, who receives what, and what a disconnection leaves. *)
From S2P Require Import Prelude Message Wire Parser Models Services AppService Commands Server ServerInvariant.

(** ** From bytes to operations *)

(** The message [m] is the request to execute [h] on the server. *)
Definition requests (h : ICommandHandler) (m : Message) : Prop :=
  match h with
  | Login c => metadata m = [type_meta LOGIN; login_username c; login_DH_public_bytes c;
                             login_identity_pub_bytes c; login_signature c]
  | MakeRoom c => metadata m = [type_meta MAKE_ROOM; room_chat_name c]
  | Join c => metadata m = [type_meta JOIN; join_chat_name c]
  | SendGroupMessage c =>
      metadata m = [type_meta SEND; group_chat_name c] /\ payload m = group_payload c
  | GetPubkey c => metadata m = [type_meta GET_PUBKEY; getpub_username c]
  | SendFile c =>
      metadata m = [type_meta SEND_FILE; sendfile_recipient c; sbytes (sendfile_filename c)]
  | Exit => metadata m = [type_meta EXIT]
  | PrivateMessage _ | Connect _ | Disconnect _ | Help => False
  end.

Section Requests.
  Context {T : Type} {srv : IServer T} {ord : IterOrder}.

(** The registry has an object for the command [m] asks for. *)
Lemma requests_registry (reg : CommandRegistry) h m :
  getType <$> reg = (getType <$> ServerCommandHandler_registry : gmap string CommandType) ->
  requests h m ->
  exists h1, reg !! pc_name (make_struct_from_command m) = Some h1 /\ getType h1 = getType h.
Proof.
  intros Hreg Hm.
  assert (Hl : (getType <$> reg : gmap string CommandType) !! pc_name (make_struct_from_command m)
               = Some (getType h)).
  { rewrite Hreg. destruct h; cbn in Hm; try done; try (match type of Hm with _ /\ _ => destruct Hm as [Hm _] end);
      rewrite (make_struct_spec _ _ _ Hm); vm_compute; reflexivity. }
  rewrite lookup_fmap, fmap_Some in Hl. naive_solver.
Qed.

(** Whatever the command object held before, it now executes [h]. *)
Lemma requests_fromMessage now h1 h m :
  requests h m -> getType h1 = getType h ->
  (fromMessage h1 m).1 = Ok tt /\
  execeuteOnServer (T := T) now (fromMessage h1 m).2 = execeuteOnServer now h.
Proof.
  intros Hm Ht. destruct h; try done; destruct h1; try done; cbn in Hm;
    try (match type of Hm with _ /\ _ => destruct Hm as [Hm Hp] end); split; try done; cbn [fromMessage fst snd];
    unfold Login_fromMessage, MakeRoom_fromMessage, Join_fromMessage, GetPubkey_fromMessage,
      SendFile_fromMessage, SendGroupMessage_fromMessage, Message_get_meta, Message_get_payload;
    rewrite Hm; cbn [lookup list_lookup]; rewrite ?bstr_sbytes; try (by destruct c).
  exec_unfold. unfold SendGroupMessage_toMessage. cbn. by rewrite Hp.
Qed.

Lemma requests_norm h m : requests h m -> requests h (wire_norm m).
Proof. done. Qed.

(** A request has the effect of the command; what the command throws is caught. *)
Lemma dispatch_request now h m s :
  server_ok s -> server_context_set (server_dispatcher s) = true ->
  Message_get_type m = Command -> requests h m ->
  exists b s', server_dispatch now m s = (Ok b, s') /\
    server_context s' = (execeuteOnServer now h (server_context s)).2.
Proof.
  intros [Hc (reg & Hreg & Hh)] Hset Ht Hm. unfold server_dispatch.
  rewrite Hh, Ht, Hset, lookup_insert_eq. cbn [negb server_handleMessage].
  unfold ServerCommandBus_dispatch, registry_find.
  destruct (requests_registry reg h m Hreg Hm) as (h1 & -> & Ht1).
  destruct (requests_fromMessage now h1 h m Hm Ht1) as [Hr He].
  destruct (fromMessage h1 m) as [r h']. cbn [fst snd] in Hr, He. subst r. rewrite He.
  pose proof (execeuteOnServer_safe now h _ Hc) as Hx. unfold wp in Hx.
  destruct (execeuteOnServer now h (server_context s)) as [[] c']; destruct Hx as [Hd _];
    try done; (do 2 eexists; split; [reflexivity | done]).
Qed.

Lemma server_request now fd q h m s :
  server_ok s -> wire_ok m = true -> Message_get_type m = Command -> requests h m ->
  exists s', server_step now (DataReceived fd (Serializer_serialize m ++ q)) s = (Ok tt, s') /\
    server_context s' = (execeuteOnServer now h (set_fd fd (server_context s))).2.
Proof.
  intros Hs Hw Ht Hm. cbn [server_step]. unfold on_tcp_data_received.
  rewrite wire_ok_roundtrip by done. unfold mbind, M_bind, lift, modify.
  destruct (server_ok_enter fd s Hs) as [Hs1 Hset].
  destruct (dispatch_request now h (wire_norm m) _ Hs1 Hset Ht Hm) as (b & s' & -> & Hc').
  exists s'. split; [done | exact Hc'].
Qed.

Lemma server_disconnect now fd s :
  server_ok s ->
  exists s', server_step now (ClientDisconnected fd) s = (Ok tt, s') /\
    server_context s' = (AppService_exit_current_session (set_fd fd (server_context s))).2.
Proof.
  intros Hs. cbn [server_step]. unfold on_disconnected, mbind, M_bind, lift, modify.
  rewrite Message_make_small by (vm_compute; done).
  destruct (server_ok_enter fd s Hs) as [Hs1 Hset].
  edestruct (dispatch_request now Exit) as (b & s' & -> & Hc'); [exact Hs1 | exact Hset | done | done |].
  exists s'. split; [done | exact Hc'].
Qed.

End Requests.

(** ** Sending to the members of a chat *)

Section Delivery.
  Context {ord : IterOrder}.

Lemma send_to_members_log data ms : forall c : ServerContext sent_log,
  send_to_members data ms c
  = (Ok tt, set_transport (sc_transport c ++ map (fun fd => (fd, data))
              (omap (fun u => name_to_fd_ (sc_sessions c) !! u) ms)) c).
Proof.
  induction ms as [|u ms IH]; intros c; cbn [send_to_members omap list_omap map].
  - unfold mret, M_ret. rewrite app_nil_r. by destruct c.
  - unfold mbind, M_bind, get. cbn [fst snd].
    unfold SessionManager_get_fd. destruct (name_to_fd_ (sc_sessions c) !! u) as [fd|]; cbn.
    + rewrite IH. cbn [sc_transport sc_sessions set_transport].
      change (server_send fd data (sc_transport c)) with (sc_transport c ++ [(fd, data)] : sent_log).
      by rewrite <- app_assoc.
    + apply IH.
Qed.

Lemma members_fds (s : SessionManager) ms :
  sessions_ok s -> NoDup ms ->
  NoDup (omap (fun u => name_to_fd_ s !! u) ms) /\
  forall fd, fd ∈ omap (fun u => name_to_fd_ s !! u) ms <-> exists v, v ∈ ms /\ fd_to_name_ s !! fd = Some v.
Proof.
  intros Hs Hnd.
  assert (Hin : forall (ms : list string) fd, fd ∈ omap (fun u => name_to_fd_ s !! u) ms
                  <-> exists v, v ∈ ms /\ fd_to_name_ s !! fd = Some v).
  { intros l fd. rewrite list_elem_of_omap. setoid_rewrite (Hs fd). done. }
  split; [|apply Hin]. induction Hnd as [|u ms Hu Hnd IH]; cbn [omap list_omap]; [constructor|].
  case_match; [|done]. constructor; [|done]. rewrite Hin. intros (v & Hv & Hfd).
  apply Hs in Hfd. apply Hs in H. apply Hs in Hfd. congruence.
Qed.

(** ** Who is sent something *)

(** Between [c] and [c'] messages were sent to the current connection or to
    connections with a session only, and at most one to each. *)
Definition addressed (c c' : ServerContext sent_log) : Prop :=
  exists new, sc_transport c' = sc_transport c ++ new /\
    Forall (fun '(f, _) => f = sc_fd c \/ is_Some (fd_to_name_ (sc_sessions c) !! f)) new /\
    NoDup (map fst new).

Lemma addressed_none c c' : sc_transport c' = sc_transport c -> addressed c c'.
Proof. intros E. exists []. rewrite app_nil_r. split_and!; [done|done|constructor]. Qed.

Lemma addressed_one c c' f d :
  sc_transport c' = sc_transport c ++ [(f, d)] ->
  f = sc_fd c \/ is_Some (fd_to_name_ (sc_sessions c) !! f) -> addressed c c'.
Proof. intros E Hf. exists [(f, d)]. split_and!; [done | by apply Forall_singleton | apply NoDup_singleton]. Qed.

Lemma addressed_self c c' d : sc_transport c' = sc_transport c ++ [(sc_fd c, d)] -> addressed c c'.
Proof. intros E. eapply addressed_one; [done|]. by left. Qed.

Lemma addressed_name c c' n f d :
  sessions_ok (sc_sessions c) -> SessionManager_get_fd (sc_sessions c) n = expected f ->
  sc_transport c' = sc_transport c ++ [(f, d)] -> addressed c c'.
Proof.
  intros Hs Hf E. eapply addressed_one; [done|]. right. apply expected_fd, Hs in Hf. eauto.
Qed.

Lemma members_addressed c c' data ms :
  sessions_ok (sc_sessions c) -> NoDup ms -> sc_sessions c' = sc_sessions c -> sc_transport c' = sc_transport c ->
  addressed c (send_to_members data ms c').2.
Proof.
  intros Hs Hms E1 E2. rewrite send_to_members_log, E1, E2.
  eexists. split_and!; [done| |rewrite map_map, map_id; by apply members_fds].
  apply Forall_map, Forall_forall. intros f Hf. right.
  apply list_elem_of_In, list_elem_of_omap in Hf as (u & _ & Hu). apply Hs in Hu. eauto.
Qed.

Lemma post_message_NoDup s name u m to s' :
  ChatService_post_message s name u m = (expected to, s') -> NoDup to.
Proof.
  unfold ChatService_post_message. intros E. repeat case_match; simplify_eq. apply get_members_NoDup.
Qed.

Ltac addressed :=
  wp_go; unfold transport_send; wp_go; try done;
  first [by apply addressed_none | by eapply addressed_self | by eapply addressed_name; eauto | idtac].

Lemma execute_addressed now h c :
  context_ok c -> wp (execeuteOnServer now h) (fun _ c' => addressed c c') c.
Proof.
  intros Hc. pose proof (ok_sessions c Hc).
  destruct h; exec_unfold;
    unfold AppService_login, AppService_create_room, AppService_join_room,
      AppService_send_group_message, AppService_send_pubkey, AppService_exit_current_session,
      SendFile_execeuteOnServer, send_text; addressed.
  apply members_addressed; [done| |done..]. by eapply post_message_NoDup.
Qed.

Lemma handle_addressed now h msg c :
  context_ok c -> let '(_, c', _) := server_handleMessage now h msg c in addressed c c'.
Proof.
  intros Hc. pose proof (ok_sessions c Hc).
  destruct h; cbn [server_handleMessage]; [by apply addressed_none|..].
  1: { unfold ServerCommandBus_dispatch.
    destruct (registry_find _ _) as [h|]; [|by apply addressed_none].
    destruct (fromMessage h msg) as [[] h']; try by apply addressed_none.
    pose proof (execute_addressed now h' c Hc) as Hx. unfold wp in Hx.
    by destruct (execeuteOnServer now h' c). }
  1: { assert (Hx : wp (ServerCipherHandler_handleMessage now msg) (fun _ c' => addressed c c') c)
      by (unfold ServerCipherHandler_handleMessage, AppService_deliver_cipher_message; addressed).
    unfold wp in Hx. by destruct (ServerCipherHandler_handleMessage now msg c). }
  all: assert (Hx : wp (forward_to_recipient msg) (fun _ c' => addressed c c') c)
      by (unfold forward_to_recipient; addressed);
    unfold wp in Hx; by destruct (forward_to_recipient msg c).
Qed.

Lemma dispatch_addressed now msg s :
  server_ok s ->
  wp (server_dispatch now msg) (fun _ s' => addressed (server_context s) (server_context s')) s.
Proof.
  intros [Hc _]. unfold wp, server_dispatch.
  destruct (_ !! _) as [h|]; [|by apply addressed_none].
  destruct (negb _); [by apply addressed_none|].
  pose proof (handle_addressed now h msg _ Hc) as Hx.
  by destruct (server_handleMessage now h msg (server_context s)) as [[[] c'] h'].
Qed.

Definition event_fd (e : ServerEvent) : Z :=
  match e with DataReceived fd _ | ClientDisconnected fd => fd end.

Lemma step_addressed now e s :
  server_ok s ->
  wp (server_step now e) (fun _ s' => addressed (set_fd (event_fd e) (server_context s)) (server_context s')) s.
Proof.
  intros Hs. destruct e as [fd raw|fd]; cbn [server_step event_fd].
  - unfold on_tcp_data_received. wp_go; try (by apply addressed_none).
    eapply wp_mono; [apply dispatch_addressed, server_ok_enter, Hs|]. intros [] s1 Hs1; wp_go; done.
  - unfold on_disconnected. wp_go; try (by apply addressed_none).
    eapply wp_mono; [apply dispatch_addressed, server_ok_enter, Hs|]. intros [] s1 Hs1; wp_go; done.
Qed.

(** ** Properties *)

(** C7: a group message reaches the chat: when a connected user sends a message to
    a chat the user is a member of, in any reachable state, every member of the
    chat is sent exactly one copy of the text, the sender included, nobody else
    is sent anything, the message is appended to the log of the chat, and
    users, sessions and the other chats stay as they are. *)
Theorem group_message_delivered (cfg : AppConfig) (fd0 now fd : Z) (s : MessagingServer sent_log)
    (m : Message) (c : SendGroupMessageCommand) (u : string) (ch : Chat) :
  server_reachable (MessagingServer_make cfg ([] : sent_log) fd0) s ->
  wire_ok m = true -> Message_get_type m = Command -> requests (SendGroupMessage c) m ->
  fd_to_name_ (sc_sessions (server_context s)) !! fd = Some u ->
  chats_ (sc_chats (server_context s)) !! bstr (group_chat_name c) = Some ch -> u ∈ members_id ch ->
  exists s' text fds,
    server_step now (DataReceived fd (Serializer_serialize m)) s = (Ok tt, s') /\
    SendGroupMessage_toMessage now c = Ok text /\
    sc_transport (server_context s')
    = sc_transport (server_context s) ++ map (fun f => (f, Serializer_serialize text)) fds /\
    NoDup fds /\
    (forall f, f ∈ fds <-> exists v, v ∈ members_id ch /\
                 fd_to_name_ (sc_sessions (server_context s)) !! f = Some v) /\
    chats_ (sc_chats (server_context s'))
    = <[bstr (group_chat_name c) := Chat_addMessage ch text]> (chats_ (sc_chats (server_context s))) /\
    sc_users (server_context s') = sc_users (server_context s) /\
    sc_sessions (server_context s') = sc_sessions (server_context s).
Proof.
  intros Hr Hw Ht Hm Hu Hch Hmem. apply server_reachable_ok in Hr.
  destruct (server_request now fd [] _ m s Hr Hw Ht Hm) as (s' & Hs' & Hc').
  rewrite app_nil_r in Hs'. destruct Hr as [Hc _].
  assert (exists text, SendGroupMessage_toMessage now c = Ok text) as [text Htext].
  { unfold SendGroupMessage_toMessage. destruct Hm as [_ <-]. unfold wire_ok in Hw; bools.
    rewrite Message_make_small; eauto; unfold wire_size in *; sizes. }
  destruct (members_fds (sc_sessions (server_context s)) (Chat_get_members (Chat_addMessage ch text))
              (ok_sessions _ Hc) (get_members_NoDup _)) as [Hnd Hin].
  exec_unfold in Hc'. rewrite Htext in Hc'.
  unfold mbind, M_bind, lift in Hc'. unfold AppService_send_group_message in Hc'.
  unfold mbind at 1, M_bind, get in Hc'. rewrite ready in Hc' by (by apply context_ok_fd).
  cbn [set_fd sc_fd sc_sessions sc_chats] in Hc'.
  rewrite (proj2 (expected_username _ _ _) Hu) in Hc'.
  unfold ChatService_post_message in Hc'. rewrite Hch, (proj2 (Chat_is_member_spec _ _) Hmem) in Hc'.
  cbn [negb] in Hc'. unfold mbind, modify in Hc'. rewrite send_to_members_log in Hc'. cbn in Hc'.
  eexists s', text, _. rewrite Hs', Hc'. cbn. split_and!; try done.
  intros f. rewrite Hin. by setoid_rewrite elem_of_get_members.
Qed.

(** C10: a disconnection is forgotten: in any reachable state it ends the session of
    the connection; the name of the connection, if it had one, is free again:
    not registered, without a connection, in no chat; all other users, sessions
    and memberships, the names and logs of the chats stay as they are, and
    nothing is sent. *)
Theorem disconnect_forgets (cfg : AppConfig) (fd0 now fd : Z) (s : MessagingServer sent_log) :
  server_reachable (MessagingServer_make cfg ([] : sent_log) fd0) s ->
  exists s', server_step now (ClientDisconnected fd) s = (Ok tt, s') /\
    let c := server_context s in let c' := server_context s' in
    let gone n := fd_to_name_ (sc_sessions c) !! fd = Some n in
    sc_transport c' = sc_transport c /\
    fd_to_name_ (sc_sessions c') = delete fd (fd_to_name_ (sc_sessions c)) /\
    (forall n, gone n -> users_ (sc_users c') !! n = None /\ name_to_fd_ (sc_sessions c') !! n = None) /\
    (forall n, ~ gone n -> users_ (sc_users c') !! n = users_ (sc_users c) !! n /\
                           name_to_fd_ (sc_sessions c') !! n = name_to_fd_ (sc_sessions c) !! n) /\
    (forall name, match chats_ (sc_chats c) !! name, chats_ (sc_chats c') !! name with
                  | Some ch, Some ch' => messages ch' = messages ch /\
                      forall v, v ∈ members_id ch' <-> v ∈ members_id ch /\ ~ gone v
                  | None, None => True
                  | _, _ => False
                  end).
Proof.
  intros Hr. apply server_reachable_ok in Hr.
  destruct (server_disconnect now fd s Hr) as (s' & -> & Hc'). exists s'. split; [done|].
  destruct Hr as [Hc _]. cbv zeta. rewrite Hc'. clear Hc' s'.
  unfold AppService_exit_current_session, mbind, M_bind, get, modify. 
  cbn [set_fd sc_app_service]. rewrite (ok_app _ Hc). cbn [fd_ref_ negb set_fd sc_sessions sc_fd].
  destruct (fd_to_name_ (sc_sessions (server_context s)) !! fd) as [n|] eqn:E.
  - rewrite (proj2 (expected_username _ _ _) E).
    destruct (session_user _ _ _ Hc E) as [us Hus].
    cbn. unfold UserService_remove_user, SessionManager_unbind. rewrite Hus, E. cbn.
    split_and!; try done.
    + intros n' [= ->]. by rewrite !lookup_delete_eq.
    + intros n' Hn. rewrite !lookup_delete_ne by congruence. done.
    + intros name. rewrite lookup_fmap. destruct (chats_ _ !! name) as [ch|]; [|done]. cbn.
      unfold Chat_is_member, Chat_remove_member. repeat case_bool_decide; cbn; (split; [done|]);
        intros v; split; intros Hv; try set_solver.
  - unfold SessionManager_get_username. rewrite E. cbn. split_and!; try done.
    + by rewrite delete_id.
    + intros name. destruct (chats_ _ !! name); [|done]. split; [done|]. naive_solver.
Qed.

(** What a login does, whatever led to the state. *)
Lemma login_step (now fd : Z) (s : MessagingServer sent_log) (m : Message) (l : LoginCommand) :
  server_ok s ->
  wire_ok m = true -> Message_get_type m = Command -> requests (Login l) m ->
  let c := server_context s in let name := bstr (login_username l) in
  exists s' hello, server_step now (DataReceived fd (Serializer_serialize m)) s = (Ok tt, s') /\
    let c' := server_context s' in
    Message_make now (sbytes ("Hello, " +:+ name +:+ "!")) 0 [] Text = Ok hello /\
    sc_chats c' = sc_chats c /\
    match fd_to_name_ (sc_sessions c) !! fd, users_ (sc_users c) !! name with
    | None, None =>
        fd_to_name_ (sc_sessions c') = <[fd := name]> (fd_to_name_ (sc_sessions c)) /\
        name_to_fd_ (sc_sessions c') = <[name := fd]> (name_to_fd_ (sc_sessions c)) /\
        users_ (sc_users c') = <[name := registered name (login_DH_public_bytes l)
                                   (login_identity_pub_bytes l) (login_signature l)]> (users_ (sc_users c)) /\
        sc_transport c' = sc_transport c ++ [(fd, Serializer_serialize hello)]
    | None, Some _ =>
        sc_users c' = sc_users c /\ sc_sessions c' = sc_sessions c /\
        sc_transport c' = sc_transport c ++ [(fd, PUBLIC_KEY_HAS_NOT_SET)]
    | Some _, _ =>
        sc_users c' = sc_users c /\ sc_sessions c' = sc_sessions c /\
        sc_transport c' = sc_transport c ++ [(fd, YOU_ARE_LOGGED_IN)]
    end.
Proof.
  intros Hr Hw Ht Hm c name.
  destruct (server_request now fd [] _ m s Hr Hw Ht Hm) as (s' & Hs' & Hc').
  rewrite app_nil_r in Hs'. destruct Hr as [Hc _].
  assert (exists hello, Message_make now (sbytes ("Hello, " +:+ name +:+ "!")) 0 [] Text = Ok hello)
    as [hello Hh].
  { unfold wire_ok in Hw. guards. rewrite Hm in *.
    repeat match goal with H : Forall _ (_ :: _) |- _ => apply Forall_cons_iff in H as [? ?] end.
    unfold small_meta in *.
    destruct (Message_make_carries now (sbytes ("Hello, " +:+ name +:+ "!")) 0 [] Text) as (h & Hh & _);
      [|done|by exists h].
    unfold fits. apply Z.ltb_lt. unfold name. rewrite !sbytes_app, !zsize_app, sbytes_bstr.
    change (zsize (sbytes "Hello, ")) with 7. change (zsize (sbytes "!")) with 1. lia. }
  exists s', hello. rewrite Hs', Hc'. split_and!; try done; clear Hs' Hc'.
  all: exec_unfold; unfold AppService_login, mbind, M_bind, get;
    rewrite ready by (by apply context_ok_fd); cbn [set_fd sc_sessions sc_fd sc_users];
    rewrite register_eq; fold name; unfold SessionManager_get_username;
    change (server_context s) with c;
    destruct (fd_to_name_ (sc_sessions c) !! fd) eqn:E1;
    [|destruct (users_ (sc_users c) !! name) eqn:E2]; try done.
  all: cbn [modify]; unfold send_text, mbind, M_bind, lift; fold name; by rewrite Hh.
Qed.

(** C8: logging in: from a connection without a session and with a free name, in any
    reachable state, the connection gets the name, the user is registered with
    exactly the keys sent, and the answer is a greeting; with a taken name, or
    from a connection that is logged in, the answer is an error and users,
    sessions and chats do not change. *)
Theorem login_outcome (cfg : AppConfig) (fd0 now fd : Z) (s : MessagingServer sent_log) (m : Message)
    (l : LoginCommand) :
  server_reachable (MessagingServer_make cfg ([] : sent_log) fd0) s ->
  wire_ok m = true -> Message_get_type m = Command -> requests (Login l) m ->
  let c := server_context s in let name := bstr (login_username l) in
  exists s' hello, server_step now (DataReceived fd (Serializer_serialize m)) s = (Ok tt, s') /\
    let c' := server_context s' in
    Message_make now (sbytes ("Hello, " +:+ name +:+ "!")) 0 [] Text = Ok hello /\
    sc_chats c' = sc_chats c /\
    match fd_to_name_ (sc_sessions c) !! fd, users_ (sc_users c) !! name with
    | None, None =>
        fd_to_name_ (sc_sessions c') = <[fd := name]> (fd_to_name_ (sc_sessions c)) /\
        name_to_fd_ (sc_sessions c') = <[name := fd]> (name_to_fd_ (sc_sessions c)) /\
        users_ (sc_users c') = <[name := registered name (login_DH_public_bytes l)
                                   (login_identity_pub_bytes l) (login_signature l)]> (users_ (sc_users c)) /\
        sc_transport c' = sc_transport c ++ [(fd, Serializer_serialize hello)]
    | None, Some _ =>
        sc_users c' = sc_users c /\ sc_sessions c' = sc_sessions c /\
        sc_transport c' = sc_transport c ++ [(fd, PUBLIC_KEY_HAS_NOT_SET)]
    | Some _, _ =>
        sc_users c' = sc_users c /\ sc_sessions c' = sc_sessions c /\
        sc_transport c' = sc_transport c ++ [(fd, YOU_ARE_LOGGED_IN)]
    end.
Proof. intros Hr%server_reachable_ok. by apply login_step. Qed.

(** The cipher handler is the one for cipher messages. *)
Lemma cipher_step now fd q m s :
  server_ok s -> wire_ok m = true -> Message_get_type m = CipherMessage ->
  exists s', server_step now (DataReceived fd (Serializer_serialize m ++ q)) s = (Ok tt, s') /\
    server_context s'
    = (AppService_deliver_cipher_message now fd (wire_norm m) (set_fd fd (server_context s))).2.
Proof.
  intros Hs Hw Ht. cbn [server_step]. unfold on_tcp_data_received.
  rewrite wire_ok_roundtrip by done. unfold mbind, M_bind, lift, modify.
  destruct (server_ok_enter fd s Hs) as [[Hc (reg & _ & Hh)] Hset].
  unfold server_dispatch. rewrite Hset, Hh. cbn [negb].
  change (Message_get_type (wire_norm m)) with (Message_get_type m). rewrite Ht.
  change (<[Command:=ServerCommandHandler reg]> initial_handlers !! CipherMessage)
    with (Some ServerCipherHandler). cbn [server_handleMessage].
  unfold ServerCipherHandler_handleMessage, mbind, M_bind, get. cbn [server_enter server_context].
  pose proof (deliver_cipher_message_safe now fd (wire_norm m) _ Hc) as Hx. unfold wp in Hx.
  cbn [server_enter server_context sc_fd set_fd] in *.
  destruct (AppService_deliver_cipher_message now fd (wire_norm m) _) as [[] c'];
    destruct Hx as [Hd _]; try done; (eexists; split; [reflexivity | done]).
Qed.

(** What the server does with a cipher message, whatever led to the state. *)
Lemma cipher_relay (now fd : Z) (s : MessagingServer sent_log) (m : Message) :
  server_ok s ->
  wire_ok m = true -> Message_get_type m = CipherMessage ->
  let c := server_context s in
  exists s', server_step now (DataReceived fd (Serializer_serialize m)) s = (Ok tt, s') /\
    let c' := server_context s' in
    sc_users c' = sc_users c /\ sc_chats c' = sc_chats c /\ sc_sessions c' = sc_sessions c /\
    match fd_to_name_ (sc_sessions c) !! fd with
    | None => sc_transport c' = sc_transport c ++ [(fd, YOU_NEED_TO_LOGIN)]
    | Some u =>
        match name_to_fd_ (sc_sessions c) !! bstr (Message_get_meta m 0) with
        | None => sc_transport c' = sc_transport c ++ [(fd, USER_NOT_FOUND)]
        | Some rfd =>
            exists us, users_ (sc_users c) !! u = Some us /\
              let ms := [Message_get_meta m 0; Message_get_meta m 1; publicDHKey us;
                         publicIdentityKey us; Models.signature us] in
              (fits ms (payload m) = true ->
               exists out, Message_make now (payload m) 5 ms CipherMessage = Ok out /\
                 sc_transport c' = sc_transport c ++ [(rfd, Serializer_serialize out)])
        end
    end.
Proof.
  intros Hr Hw Ht c.
  destruct (cipher_step now fd [] m s Hr Hw Ht) as (s' & Hs' & Hc'). rewrite app_nil_r in Hs'.
  exists s'. split; [done|]. cbv zeta. rewrite Hc'. clear Hs' Hc' s'. destruct Hr as [Hc _].
  unfold AppService_deliver_cipher_message, mbind, M_bind, get, lift.
  cbn [set_fd sc_sessions sc_users sc_app_service]. rewrite (ok_app _ Hc).
  unfold SessionManager_get_username, SessionManager_get_fd, UserService_find_user.
  change (Message_get_meta (wire_norm m)) with (Message_get_meta m).
  change (Message_get_payload (wire_norm m)) with (payload m). fold c.
  destruct (fd_to_name_ (sc_sessions c) !! fd) as [u|] eqn:Eu; [|done].
  destruct (session_user c fd u Hc Eu) as [us Hus]. rewrite Hus.
  destruct (name_to_fd_ (sc_sessions c) !! bstr (Message_get_meta m 0)) as [rfd|]; [|done].
  split_and!; try (by case_match). exists us. split; [done|]. intros Hf.
  destruct (Message_make_carries now (payload m) 5 _ CipherMessage Hf eq_refl) as (out & -> & _).
  by exists out.
Qed.

(** C9: an encrypted message goes to its recipient only: when a connected user sends
    one, in any reachable state, and the recipient named in it is connected, the
    only message sent is to the recipient's connection and carries the same
    ciphertext, the recipient, the name of the author as the author gave it
    (which is not compared with the name of the session), and the keys
    registered for the session. An unknown recipient or an author that is not
    logged in is answered with an error. Users, chats and sessions stay as they
    are. *)
Theorem cipher_message_relayed (cfg : AppConfig) (fd0 now fd : Z) (s : MessagingServer sent_log)
    (m : Message) :
  server_reachable (MessagingServer_make cfg ([] : sent_log) fd0) s ->
  wire_ok m = true -> Message_get_type m = CipherMessage ->
  let c := server_context s in
  exists s', server_step now (DataReceived fd (Serializer_serialize m)) s = (Ok tt, s') /\
    let c' := server_context s' in
    sc_users c' = sc_users c /\ sc_chats c' = sc_chats c /\ sc_sessions c' = sc_sessions c /\
    match fd_to_name_ (sc_sessions c) !! fd with
    | None => sc_transport c' = sc_transport c ++ [(fd, YOU_NEED_TO_LOGIN)]
    | Some u =>
        match name_to_fd_ (sc_sessions c) !! bstr (Message_get_meta m 0) with
        | None => sc_transport c' = sc_transport c ++ [(fd, USER_NOT_FOUND)]
        | Some rfd =>
            exists us, users_ (sc_users c) !! u = Some us /\
              let ms := [Message_get_meta m 0; Message_get_meta m 1; publicDHKey us;
                         publicIdentityKey us; Models.signature us] in
              (fits ms (payload m) = true ->
               exists out, Message_make now (payload m) 5 ms CipherMessage = Ok out /\
                 sc_transport c' = sc_transport c ++ [(rfd, Serializer_serialize out)])
        end
    end.
Proof. intros Hr%server_reachable_ok. by apply cipher_relay. Qed.

(** Asking for the keys of a registered user is answered with them. *)
Lemma pubkey_answered now fd s m name u :
  server_ok s -> wire_ok m = true -> Message_get_type m = Command ->
  requests (GetPubkey {| getpub_username := name |}) m -> name <> [] ->
  let c := server_context s in
  users_ (sc_users c) !! bstr name = Some u ->
  let ms := [type_meta GET_PUBKEY; name; publicIdentityKey u; Models.signature u] in
  fits ms (publicDHKey u) = true ->
  exists s' out, server_step now (DataReceived fd (Serializer_serialize m)) s = (Ok tt, s') /\
    carries (Ok out) Response ms (publicDHKey u) /\
    let c' := server_context s' in
    sc_users c' = sc_users c /\ sc_chats c' = sc_chats c /\ sc_sessions c' = sc_sessions c /\
    sc_transport c' = sc_transport c ++ [(fd, Serializer_serialize out)].
Proof.
  intros Hs Hw Ht Hm Hne c Hu ms Hf.
  destruct (server_request now fd [] _ m s Hs Hw Ht Hm) as (s' & Hs' & Hc'). rewrite app_nil_r in Hs'.
  destruct (Message_make_carries now (publicDHKey u) 4 ms Response Hf eq_refl) as (out & Hout & Hrest).
  exists s', out. split; [done|]. split; [by exists out|]. cbv zeta. rewrite Hc'. clear Hs' Hc' s'.
  destruct Hs as [Hc _]. exec_unfold. unfold AppService_send_pubkey, mbind, M_bind, get.
  rewrite ready by (by apply context_ok_fd). cbn [getpub_username].
  replace (is_empty name) with false by (by destruct name).
  unfold UserService_find_user. cbn [set_fd sc_users sc_fd]. fold c. rewrite Hu.
  change [CommandType_to_byte GET_PUBKEY] with (type_meta GET_PUBKEY). fold ms. unfold lift. rewrite Hout. done.
Qed.

(** C11: no misdelivery: whatever a reachable server is sent, all it sends while
    handling an event goes to the connection the event came from or to
    connections that are logged in, and no connection is sent more than one
    message. *)
Theorem server_addresses (cfg : AppConfig) (fd0 now : Z) (s s' : MessagingServer sent_log)
    (e : ServerEvent) (r : outcome unit) :
  server_reachable (MessagingServer_make cfg ([] : sent_log) fd0) s -> server_step now e s = (r, s') ->
  exists new, sc_transport (server_context s') = sc_transport (server_context s) ++ new /\
    Forall (fun '(f, _) => f = event_fd e \/
              is_Some (fd_to_name_ (sc_sessions (server_context s)) !! f)) new /\
    NoDup (map fst new).
Proof.
  intros Hr E. apply server_reachable_ok in Hr. exact (wp_run _ _ _ _ _ E (step_addressed now e s Hr)).
Qed.

End Delivery.

(** ** The properties on a concrete server *)

(** The event a client's message gives rise to. *)
Definition demo_send (fd : Z) (m : outcome Message) : ServerEvent :=
  match m with Ok m => DataReceived fd (Serializer_serialize m) | _ => ClientDisconnected fd end.

(** "ann" has made the room "den" and "bob" has joined it. *)
Definition demo_den : MessagingServer sent_log :=
  (server_step 0 (demo_send 5 (Join_toMessage 0 {| join_chat_name := sbytes "den" |}))
     (server_step 0 (demo_send 4 (MakeRoom_toMessage 0 {| room_chat_name := sbytes "den" |}))
        demo_server).2).2.

Lemma demo_den_reachable : server_reachable demo_start demo_den.
Proof.
  do 2 (eapply server_reach_step; [|apply surjective_pairing]). exact demo_reachable.
Qed.

Definition demo_group : SendGroupMessageCommand :=
  {| group_sender := []; group_chat_name := sbytes "den"; group_pubkey_bytes := [];
     group_payload := sbytes "hi" |}.

Definition made (c : outcome Message) : Message :=
  match c with Ok m => m | _ => Message_default end.

Definition demo_group_message : Message :=
  made (Message_make 0 (sbytes "hi") 2 [type_meta SEND; sbytes "den"] Command).

Lemma group_message_delivered_witness :
  exists s' fds, server_step 0 (DataReceived 4 (Serializer_serialize demo_group_message)) demo_den
    = (Ok tt, s') /\ NoDup fds /\ 4 ∈ fds /\ 5 ∈ fds /\
    sc_transport (server_context s') = sc_transport (server_context demo_den)
      ++ map (fun f => (f, Serializer_serialize (made (SendGroupMessage_toMessage 0 demo_group)))) fds.
Proof.
  set (ch := default (Chat_make "" "" Group) (chats_ (sc_chats (server_context demo_den)) !! "den"%string)).
  destruct (group_message_delivered demo_config 0 0 4 demo_den demo_group_message demo_group "ann" ch)
    as (s' & text & fds & H1 & H2 & H3 & H4 & H5 & _).
  - exact demo_den_reachable.
  - vm_compute; reflexivity.
  - reflexivity.
  - split; reflexivity.
  - vm_compute; reflexivity.
  - vm_compute; reflexivity.
  - apply (bool_decide_unpack _). vm_compute. exact I.
  - exists s', fds. split; [exact H1|]. split; [exact H4|]. rewrite !H5.
    vm_compute in H2. injection H2 as <-. split_and!; [| |exact H3].
    + exists "ann"%string. split; [apply (bool_decide_unpack _); vm_compute; exact I | vm_compute; reflexivity].
    + exists "bob"%string. split; [apply (bool_decide_unpack _); vm_compute; exact I | vm_compute; reflexivity].
Defined.

Lemma disconnect_forgets_witness :
  exists s', server_step 0 (ClientDisconnected 4) demo_den = (Ok tt, s') /\
    users_ (sc_users (server_context s')) !! "ann"%string = None /\
    users_ (sc_users (server_context s')) !! "bob"%string
    = users_ (sc_users (server_context demo_den)) !! "bob"%string.
Proof.
  destruct (disconnect_forgets demo_config 0 0 4 demo_den demo_den_reachable)
    as (s' & H1 & _ & _ & H2 & H3 & _).
  exists s'. split; [exact H1|]. split.
  - apply H2. vm_compute; reflexivity.
  - apply H3. vm_compute; discriminate.
Defined.

Definition demo_login_cmd : LoginCommand :=
  {| login_username := sbytes "cat"; login_DH_public_bytes := sbytes "dh";
     login_identity_pub_bytes := sbytes "id"; login_signature := sbytes "sg" |}.

Lemma login_outcome_witness :
  exists s', server_step 0
      (DataReceived 6 (Serializer_serialize (made (Login_toMessage 0 demo_login_cmd)))) demo_den = (Ok tt, s') /\
    name_to_fd_ (sc_sessions (server_context s')) !! "cat"%string = Some 6.
Proof.
  destruct (login_outcome demo_config 0 0 6 demo_den (made (Login_toMessage 0 demo_login_cmd)) demo_login_cmd)
    as (s' & hello & H1 & _ & _ & H2).
  - exact demo_den_reachable.
  - vm_compute; reflexivity.
  - vm_compute; reflexivity.
  - vm_compute; reflexivity.
  - exists s'. split; [exact H1|].
    match type of H2 with
    | match ?a with _ => _ end =>
        let E := fresh in assert (E : a = None) by (vm_compute; reflexivity); rewrite E in H2
    end.
    match type of H2 with
    | match ?a with _ => _ end =>
        let E := fresh in assert (E : a = None) by (vm_compute; reflexivity); rewrite E in H2
    end.
    destruct H2 as (_ & -> & _). apply lookup_insert_eq.
Defined.

Definition demo_cipher : Message :=
  made (Message_make 0 (sbytes "xyz") 2 [sbytes "bob"; sbytes "eve"] CipherMessage).

Lemma cipher_message_relayed_witness :
  exists s' out, server_step 0 (DataReceived 4 (Serializer_serialize demo_cipher)) demo_den = (Ok tt, s') /\
    Message_get_meta out 1 = sbytes "eve" /\
    sc_transport (server_context s')
    = sc_transport (server_context demo_den) ++ [(5, Serializer_serialize out)].
Proof.
  destruct (cipher_message_relayed demo_config 0 0 4 demo_den demo_cipher)
    as (s' & H1 & _ & _ & _ & H2).
  - exact demo_den_reachable.
  - vm_compute; reflexivity.
  - reflexivity.
  - exists s'.
    match type of H2 with
    | match ?a with _ => _ end => replace a with (Some "ann"%string) in H2 by (vm_compute; reflexivity)
    end.
    match type of H2 with
    | match ?a with _ => _ end => replace a with (Some 5) in H2 by (vm_compute; reflexivity)
    end.
    destruct H2 as (us & Hus & H2). vm_compute in Hus. injection Hus as <-.
    destruct (H2 ltac:(vm_compute; reflexivity)) as (out & Hout & Ht).
    exists out. split; [exact H1|]. split; [|exact Ht].
    vm_compute in Hout. injection Hout as <-. reflexivity.
Defined.

Lemma server_addresses_witness :
  let e := DataReceived 4 (Serializer_serialize demo_cipher) in
  exists new, sc_transport (server_context (server_step 0 e demo_den).2)
    = sc_transport (server_context demo_den) ++ new /\
    Forall (fun '(f, _) => f = 4 \/
              is_Some (fd_to_name_ (sc_sessions (server_context demo_den)) !! f)) new /\
    NoDup (map fst new).
Proof.
  intros e. apply (server_addresses demo_config 0 0 demo_den _ e (server_step 0 e demo_den).1).
  - exact demo_den_reachable.
  - apply surjective_pairing.
Defined.
