(* ===== verification/Queue.v ===== *)
(** The queues of outgoing messages
    ([include/application/messaging/message_queue.hpp] and its source): the ring
    buffer [LockFreeQueue], alone and with a producer and a consumer running at
    the same time, and [MessageQueue]. *)
From S2P Require Import Prelude.

(** ** [LockFreeQueue<T, Size>] *)

Section Ring.
  Context {A : Type}.
  (** The template parameter [Size], and what a moved-from item is. *)
  Variable Size : nat.
  Variable moved : A.

(** The array and the two indices, which stay between 0 and [Size - 1]. *)
Record LockFreeQueue := {
  buffer : list A;
  head : nat;
  tail : nat;
}.

Definition LockFreeQueue_make : LockFreeQueue :=
  {| buffer := replicate Size moved; head := 0; tail := 0 |}.

Definition LockFreeQueue_push (q : LockFreeQueue) (item : A) : bool * LockFreeQueue :=
  let t := tail q in
  let t_next := ((t + 1) mod Size)%nat in
  if (t_next =? head q)%nat then (false, q)
  else (true, {| buffer := <[t := item]> (buffer q); head := head q; tail := t_next |}).

Definition LockFreeQueue_pop (q : LockFreeQueue) : option A * LockFreeQueue :=
  let h := head q in
  if (h =? tail q)%nat then (None, q)
  else
    match buffer q !! h with
    | None => (None, q)
    | Some item =>
        (Some item,
         {| buffer := <[h := moved]> (buffer q); head := ((h + 1) mod Size)%nat; tail := tail q |})
    end.

(** *** One producer and one consumer

    The atomic actions of [push] and [pop] in program order: a load, a
    comparison with the other index, the access to the slot, a store. The
    program counters hold the local variables. *)

Inductive Producer :=
| PIdle
| PTail (item : A) (t : nat)
| PReady (item : A) (t : nat)
| PWritten (item : A) (t : nat).

Inductive Consumer :=
| CIdle
| CHead (h : nat)
| CReady (h : nat)
| CRead (item : A) (h : nat).

Record Shared := {
  sh_queue : LockFreeQueue;
  sh_producer : Producer;
  sh_consumer : Consumer;
}.

(** What a step shows to the callers. *)
Inductive QueueEvent :=
| Silent
| Pushed (item : A)
| PushFull (item : A)
| Popped (item : A)
| PopEmpty.

Inductive queue_step : Shared -> QueueEvent -> Shared -> Prop :=
| push_load_tail q item c :
    queue_step {| sh_queue := q; sh_producer := PIdle; sh_consumer := c |} Silent
               {| sh_queue := q; sh_producer := PTail item (tail q); sh_consumer := c |}
| push_full q item t c :
    ((t + 1) mod Size)%nat = head q ->
    queue_step {| sh_queue := q; sh_producer := PTail item t; sh_consumer := c |} (PushFull item)
               {| sh_queue := q; sh_producer := PIdle; sh_consumer := c |}
| push_load_head q item t c :
    ((t + 1) mod Size)%nat <> head q ->
    queue_step {| sh_queue := q; sh_producer := PTail item t; sh_consumer := c |} Silent
               {| sh_queue := q; sh_producer := PReady item t; sh_consumer := c |}
| push_write q item t c :
    queue_step {| sh_queue := q; sh_producer := PReady item t; sh_consumer := c |} Silent
               {| sh_queue := {| buffer := <[t := item]> (buffer q); head := head q; tail := tail q |};
                  sh_producer := PWritten item t; sh_consumer := c |}
| push_store_tail q item t c :
    queue_step {| sh_queue := q; sh_producer := PWritten item t; sh_consumer := c |} (Pushed item)
               {| sh_queue := {| buffer := buffer q; head := head q; tail := ((t + 1) mod Size)%nat |};
                  sh_producer := PIdle; sh_consumer := c |}
| pop_load_head q p :
    queue_step {| sh_queue := q; sh_producer := p; sh_consumer := CIdle |} Silent
               {| sh_queue := q; sh_producer := p; sh_consumer := CHead (head q) |}
| pop_empty q p h :
    h = tail q ->
    queue_step {| sh_queue := q; sh_producer := p; sh_consumer := CHead h |} PopEmpty
               {| sh_queue := q; sh_producer := p; sh_consumer := CIdle |}
| pop_load_tail q p h :
    h <> tail q ->
    queue_step {| sh_queue := q; sh_producer := p; sh_consumer := CHead h |} Silent
               {| sh_queue := q; sh_producer := p; sh_consumer := CReady h |}
| pop_read q p h item :
    buffer q !! h = Some item ->
    queue_step {| sh_queue := q; sh_producer := p; sh_consumer := CReady h |} Silent
               {| sh_queue := {| buffer := <[h := moved]> (buffer q); head := head q; tail := tail q |};
                  sh_producer := p; sh_consumer := CRead item h |}
| pop_store_head q p h item :
    queue_step {| sh_queue := q; sh_producer := p; sh_consumer := CRead item h |} (Popped item)
               {| sh_queue := {| buffer := buffer q; head := ((h + 1) mod Size)%nat; tail := tail q |};
                  sh_producer := p; sh_consumer := CIdle |}.

(** *** The specification: a FIFO of bounded capacity *)

Inductive fifo_step : list A -> QueueEvent -> list A -> Prop :=
| fifo_silent l : fifo_step l Silent l
| fifo_push l item : (length l < Size - 1)%nat -> fifo_step l (Pushed item) (l ++ [item])
| fifo_full l item : length l = (Size - 1)%nat -> fifo_step l (PushFull item) l
| fifo_pop l item : fifo_step (item :: l) (Popped item) l
| fifo_empty : fifo_step [] PopEmpty [].

(** Slot [i] of the items that start at [h]. *)
Definition slot (h i : nat) : nat := ((h + i) mod Size)%nat.

(** The ring holds the items [l], except that the first [k] slots may have been
    moved from. *)
Record holds (k : nat) (q : LockFreeQueue) (l : list A) : Prop := {
  holds_size : length (buffer q) = Size;
  holds_head : (head q < Size)%nat;
  holds_tail : tail q = slot (head q) (length l);
  holds_room : (length l <= Size - 1)%nat;
  holds_items : forall i x, (k <= i)%nat -> l !! i = Some x -> buffer q !! slot (head q) i = Some x;
}.

Lemma slot_inj h i j : (i < Size)%nat -> (j < Size)%nat -> slot h i = slot h j -> i = j.
Proof.
  unfold slot. intros Hi Hj E.
  pose proof (Nat.div_mod_eq (h + i) Size). pose proof (Nat.div_mod_eq (h + j) Size). 
  assert ((h + i) / Size = (h + j) / Size \/ (h + i) / Size <> (h + j) / Size)%nat as [|Hne] by lia; [lia|].
  exfalso. assert (((h + i) / Size < (h + j) / Size) \/ ((h + j) / Size < (h + i) / Size))%nat as [|] by lia; nia.
Qed.

Lemma slot_S h i : (h < Size)%nat -> slot (slot h 1) i = slot h (S i).
Proof. unfold slot. intros. rewrite Nat.Div0.add_mod_idemp_l. f_equal. lia. Qed.

Lemma slot_lt h i : (0 < Size)%nat -> (slot h i < Size)%nat.
Proof. intros. unfold slot. apply Nat.mod_upper_bound. lia. Qed.

Lemma slot_0 h : (h < Size)%nat -> slot h 0 = h.
Proof. intros. unfold slot. rewrite Nat.add_0_r. by apply Nat.mod_small. Qed.

Lemma slot_full h n :
  (h < Size)%nat -> (n <= Size - 1)%nat -> slot (slot h n) 1 = h <-> n = (Size - 1)%nat.
Proof.
  intros Hh Hn. unfold slot at 1. unfold slot. rewrite Nat.Div0.add_mod_idemp_l. split.
  - intros E. destruct (decide (n = (Size - 1)%nat)) as [|Hne]; [done|]. exfalso.
    assert (S n = 0%nat); [|lia].
    apply (slot_inj h); [lia..|]. rewrite slot_0 by done. rewrite <- E at 2. unfold slot. f_equal. lia.
  - intros ->. replace (h + (Size - 1) + 1)%nat with (h + 1 * Size)%nat by lia.
    rewrite Nat.Div0.mod_add. by apply Nat.mod_small.
Qed.

Lemma slot_next h n : slot (slot h n) 1 = slot h (S n).
Proof. unfold slot. rewrite Nat.Div0.add_mod_idemp_l. f_equal. lia. Qed.

(** *** Changes of the ring *)

Lemma holds_make : (0 < Size)%nat -> holds 0 LockFreeQueue_make [].
Proof.
  intros. constructor; cbn; try lia; try done.
  - apply length_replicate.
  - by rewrite slot_0.
Qed.

Lemma holds_empty k q l : holds k q l -> head q = tail q <-> l = [].
Proof.
  intros [Hs Hh Ht Hr _]. split.
  - intros E. apply length_zero_iff_nil. apply (slot_inj (head q)); [lia..|].
    by rewrite <- Ht, slot_0.
  - intros ->. rewrite Ht. cbn. by rewrite slot_0.
Qed.

Lemma holds_full k q l : holds k q l -> ((tail q + 1) mod Size)%nat = head q <-> length l = (Size - 1)%nat.
Proof. intros [Hs Hh Ht Hr _]. rewrite Ht. by apply slot_full. Qed.

(** Writing the free slot at the tail. *)
Lemma holds_write k q l item :
  holds k q l -> (length l < Size - 1)%nat ->
  holds k {| buffer := <[tail q := item]> (buffer q); head := head q; tail := tail q |} l /\
  <[tail q := item]> (buffer q) !! tail q = Some item.
Proof.
  intros [Hs Hh Ht Hr Hi] Hl. split.
  - constructor; cbn; try done; [by rewrite length_insert|].
    intros i x Hk Hx. rewrite list_lookup_insert_ne; [eauto|].
    rewrite Ht. intros E. apply slot_inj in E; [|lia|]; apply lookup_lt_Some in Hx; lia.
  - apply list_lookup_insert_eq. rewrite Hs, Ht. apply slot_lt. lia.
Qed.

Lemma holds_push k q l item :
  holds k q l -> (length l < Size - 1)%nat -> (k <= length l)%nat -> buffer q !! tail q = Some item ->
  holds k {| buffer := buffer q; head := head q; tail := ((tail q + 1) mod Size)%nat |} (l ++ [item]).
Proof.
  intros [Hs Hh Ht Hr Hi] Hl Hk Hb. constructor; cbn; try done.
  - rewrite Ht, length_app. cbn [length]. rewrite (Nat.add_1_r (length l)). apply slot_next.
  - rewrite length_app. cbn. lia.
  - intros i x Hki Hx. apply lookup_app_Some in Hx as [?|[Hge Hx]]; [eauto|].
    apply list_lookup_singleton_Some in Hx as [Hz <-].
    replace i with (length l) by lia. by rewrite <- Ht.
Qed.

Lemma holds_take q x l :
  holds 0 q (x :: l) ->
  buffer q !! head q = Some x /\
  holds 1 {| buffer := <[head q := moved]> (buffer q); head := head q; tail := tail q |} (x :: l).
Proof.
  intros [Hs Hh Ht Hr Hi]. split.
  - rewrite <- (slot_0 (head q)) by done. by apply Hi.
  - constructor; cbn in *; try done; [by rewrite length_insert|].
    intros i y Hk Hy. rewrite list_lookup_insert_ne; [apply Hi; [lia|done]|].
    rewrite <- (slot_0 (head q)) at 1 by done. intros E.
    apply slot_inj in E; [lia|lia|]. apply lookup_lt_Some in Hy; cbn in Hy; lia.
Qed.

Lemma holds_pop q x l :
  holds 1 q (x :: l) ->
  holds 0 {| buffer := buffer q; head := ((head q + 1) mod Size)%nat; tail := tail q |} l.
Proof.
  intros [Hs Hh Ht Hr Hi]. constructor; cbn in *; try lia; try done.
  - by apply (slot_lt (head q) 1); lia.
  - rewrite Ht. change ((head q + 1) mod Size)%nat with (slot (head q) 1). by rewrite slot_S.
  - intros i y _ Hy. change ((head q + 1) mod Size)%nat with (slot (head q) 1).
    rewrite slot_S by done. apply (Hi (S i)); [lia | done].
Qed.

Lemma holds_weaken q l : holds 0 q l -> forall k, holds k q l.
Proof. intros [] k. constructor; try done. intros i x _. apply holds_items0. lia. Qed.

(** *** The simulation *)

Definition moving (c : Consumer) : nat := match c with CRead _ _ => 1 | _ => 0 end.

Definition producer_ok (p : Producer) (q : LockFreeQueue) (l : list A) : Prop :=
  match p with
  | PIdle => True
  | PTail _ t => t = tail q
  | PReady _ t => t = tail q /\ (length l < Size - 1)%nat
  | PWritten item t => t = tail q /\ (length l < Size - 1)%nat /\ buffer q !! t = Some item
  end.

Definition consumer_ok (c : Consumer) (q : LockFreeQueue) (l : list A) : Prop :=
  match c with
  | CIdle => True
  | CHead h => h = head q
  | CReady h => h = head q /\ l <> []
  | CRead item h => h = head q /\ exists l', l = item :: l'
  end.

(** The ring, whatever its two users are doing, stands for the items [l]. *)
Definition stands_for (s : Shared) (l : list A) : Prop :=
  holds (moving (sh_consumer s)) (sh_queue s) l /\
  producer_ok (sh_producer s) (sh_queue s) l /\ consumer_ok (sh_consumer s) (sh_queue s) l.

Lemma consumer_ok_app c q q' l x :
  head q' = head q -> consumer_ok c q l -> consumer_ok c q' (l ++ [x]).
Proof. intros E. destruct c; cbn; rewrite ?E; try done; naive_solver (try destruct l; done). Qed.

Lemma moving_le c q l : consumer_ok c q l -> (moving c <= length l)%nat.
Proof. destruct c; cbn; try lia. intros (_ & l' & ->). cbn. lia. Qed.

Lemma queue_step_simulates s e s' l :
  stands_for s l -> queue_step s e s' -> exists l', fifo_step l e l' /\ stands_for s' l'.
Proof.
  intros (Hh & Hp & Hc) Hstep. destruct Hstep; cbn [sh_queue sh_producer sh_consumer] in *.
  - exists l. split; [constructor | done].
  - cbn in Hp. subst t. exists l. split; [|done]. constructor. exact (proj1 (holds_full _ q l Hh) H).
  - cbn in Hp. subst t. exists l. split; [constructor|]. split_and!; try done. cbn. split; [done|].
    pose proof (holds_room _ _ _ Hh). rewrite (holds_full _ _ _ Hh) in H. lia.
  - destruct Hp as [-> Hl]. destruct (holds_write _ _ _ item Hh Hl) as [Hh' Hb].
    exists l. split; [constructor|]. split_and!; done.
  - destruct Hp as (-> & Hl & Hb). exists (l ++ [item]). split; [by constructor|].
    split_and!; [|done|by eapply consumer_ok_app].
    apply holds_push; try done. by eapply moving_le.
  - exists l. split; [constructor | done].
  - cbn in Hc. exists l. assert (l = []) as -> by (apply (holds_empty _ q _ Hh); congruence).
    split; [constructor | done].
  - cbn in Hc. exists l. split; [constructor|]. split_and!; try done. cbn. split; [done|].
    rewrite <- (holds_empty _ q _ Hh). congruence.
  - destruct Hc as [-> Hl]. destruct l as [|x l]; [done|]. destruct (holds_take _ _ _ Hh) as [Hb Hh'].
    exists (x :: l). split; [constructor|]. assert (item = x) as -> by congruence.
    split_and!; [done | | cbn; eauto].
    destruct p; try done. destruct Hp as (-> & Hl' & Hb'). split_and!; try done. cbn.
    rewrite list_lookup_insert_ne; [done|]. intros E.
    apply (holds_empty _ _ _ Hh) in E. done.
  - destruct Hc as (-> & l' & ->). exists l'. split; [constructor|].
    split_and!; [by apply holds_pop with (x := item) | | done].
    destruct p; try done; cbn in *; naive_solver lia.
Qed.

Inductive queue_run : Shared -> list QueueEvent -> Shared -> Prop :=
| queue_run_nil s : queue_run s [] s
| queue_run_step s es s1 e s2 : queue_run s es s1 -> queue_step s1 e s2 -> queue_run s (es ++ [e]) s2.

Inductive fifo_run : list A -> list QueueEvent -> list A -> Prop :=
| fifo_run_nil l : fifo_run l [] l
| fifo_run_step l es l1 e l2 : fifo_run l es l1 -> fifo_step l1 e l2 -> fifo_run l (es ++ [e]) l2.

Definition Shared_make : Shared :=
  {| sh_queue := LockFreeQueue_make; sh_producer := PIdle; sh_consumer := CIdle |}.

Lemma queue_run_simulates es s :
  (0 < Size)%nat -> queue_run Shared_make es s -> exists l, fifo_run [] es l /\ stands_for s l.
Proof.
  intros HS Hr. remember Shared_make as s0 eqn:E. induction Hr as [s|s es s1 e s2 _ IH Hs]; subst.
  - exists []. split; [constructor|]. split_and!; try done. by apply holds_make.
  - destruct (IH eq_refl) as (l & Hl & Hst). destruct (queue_step_simulates _ _ _ _ Hst Hs) as (l' & ? & ?).
    exists l'. split; [by econstructor | done].
Qed.

(** *** [push] and [pop] without interleaving *)

Lemma push_holds q l item :
  holds 0 q l ->
  if decide (length l < Size - 1)%nat
  then exists q', LockFreeQueue_push q item = (true, q') /\ holds 0 q' (l ++ [item])
  else LockFreeQueue_push q item = (false, q).
Proof.
  intros Hh. pose proof (holds_room _ _ _ Hh). unfold LockFreeQueue_push.
  destruct (Nat.eqb_spec ((tail q + 1) mod Size) (head q)) as [E|E]; rewrite (holds_full _ _ _ Hh) in E.
  - case_decide; [lia | done].
  - case_decide; [|lia]. eexists; split; [done|].
    destruct (holds_write _ _ _ item Hh) as [Hh' Hb]; [done|].
    apply (holds_push 0 {| buffer := <[tail q := item]> (buffer q); head := head q; tail := tail q |});
      [done | lia | lia | done].
Qed.

Lemma pop_holds q l :
  holds 0 q l ->
  match l with
  | [] => LockFreeQueue_pop q = (None, q)
  | x :: l' => exists q', LockFreeQueue_pop q = (Some x, q') /\ holds 0 q' l'
  end.
Proof.
  intros Hh. unfold LockFreeQueue_pop.
  destruct (Nat.eqb_spec (head q) (tail q)) as [E|E]; rewrite (holds_empty _ _ _ Hh) in E; destruct l as [|x l];
    try done.
  destruct (holds_take _ _ _ Hh) as [-> Hh']. eexists; split; [done|].
  exact (holds_pop _ _ _ Hh').
Qed.

End Ring.

Arguments LockFreeQueue A : clear implicits.
Arguments Shared A : clear implicits.
Arguments QueueEvent A : clear implicits.

(** ** [MessageQueue] *)

Record OutgoingMessage := { om_bytes : bytes }.

(** [lock_free_queues]; the client pointer, the serialiser and the parser are
    not used by the operations, the mutex makes each of them atomic. *)
Record MessageQueue := { lock_free_queues : gmap bytes (LockFreeQueue OutgoingMessage) }.

Definition queue_size : nat := Z.to_nat 4096.

Definition moved_message : OutgoingMessage := {| om_bytes := [] |}.

Definition MessageQueue_make : MessageQueue := {| lock_free_queues := ∅ |}.

(** The result of the inner [push] is not looked at. *)
Definition MessageQueue_push (mq : MessageQueue) (recipient_username b : bytes) : MessageQueue :=
  let q := default (LockFreeQueue_make queue_size moved_message)
             (lock_free_queues mq !! recipient_username) in
  {| lock_free_queues :=
       <[recipient_username := (LockFreeQueue_push queue_size q {| om_bytes := b |}).2]>
         (lock_free_queues mq) |}.

Definition MessageQueue_empty (mq : MessageQueue) (recipient_username : bytes) : bool := false.

Definition MessageQueue_pop (mq : MessageQueue) : outcome (option OutgoingMessage) :=
  Throw (runtime_error "MessageQueue is empty").

Definition MessageQueue_find_pending (mq : MessageQueue) (recipient_username : bytes) :
    option OutgoingMessage * MessageQueue :=
  match lock_free_queues mq !! recipient_username with
  | None => (None, mq)
  | Some q =>
      let '(msg, q) := LockFreeQueue_pop queue_size moved_message q in
      (msg, {| lock_free_queues := <[recipient_username := q]> (lock_free_queues mq) |})
  end.

(** The messages waiting for each recipient. *)
Definition mq_holds (mq : MessageQueue) (f : bytes -> list OutgoingMessage) : Prop :=
  forall r, holds queue_size 0
    (default (LockFreeQueue_make queue_size moved_message) (lock_free_queues mq !! r)) (f r).

Lemma queue_size_eq : queue_size = S (Z.to_nat 4095).
Proof. unfold queue_size. lia. Qed.

Lemma mq_holds_make : mq_holds MessageQueue_make (fun _ => []).
Proof. intros r. apply holds_make. rewrite queue_size_eq. lia. Qed.

Lemma mq_holds_push mq f r b :
  mq_holds mq f ->
  mq_holds (MessageQueue_push mq r b)
    (fun r' => if decide (r' = r /\ (length (f r) < queue_size - 1)%nat)
               then f r ++ [{| om_bytes := b |}] else f r').
Proof.
  intros H r'. unfold MessageQueue_push. cbn [lock_free_queues]. rewrite lookup_insert.
  pose proof (push_holds queue_size _ _ {| om_bytes := b |} (H r)) as Hp.
  destruct (decide (r = r')) as [<-|Hne]; cbn [default from_option id].
  - destruct (decide (length (f r) < queue_size - 1)%nat) as [Hlt|Hge].
    + rewrite decide_True by done. destruct Hp as (q' & -> & Hq). exact Hq.
    + rewrite decide_False by (intros [_ ?]; contradiction). rewrite Hp. apply H.
  - rewrite decide_False by (intros [? _]; congruence). apply H.
Qed.

Lemma mq_holds_find mq f r :
  mq_holds mq f ->
  (MessageQueue_find_pending mq r).1 = hd_error (f r) /\
  mq_holds (MessageQueue_find_pending mq r).2 (fun r' => if decide (r' = r) then tl (f r) else f r').
Proof.
  intros H. unfold MessageQueue_find_pending. pose proof (H r) as Hr.
  destruct (lock_free_queues mq !! r) as [q|] eqn:E; cbn [default from_option id] in Hr.
  - pose proof (pop_holds queue_size moved_message q (f r) Hr) as Hp.
    destruct (f r) as [|x l] eqn:Ef.
    + rewrite Hp. split; [reflexivity|]. intros r'. cbn [snd lock_free_queues]. rewrite lookup_insert.
      destruct (decide (r = r')) as [<-|].
      * rewrite decide_True by reflexivity. exact Hr.
      * rewrite decide_False by congruence. apply H.
    + destruct Hp as (q' & -> & Hq). split; [reflexivity|]. intros r'. cbn [snd lock_free_queues tl].
      rewrite lookup_insert. destruct (decide (r = r')) as [<-|].
      * rewrite decide_True by reflexivity. exact Hq.
      * rewrite decide_False by congruence. apply H.
  - assert (f r = []) as Ef by (apply (holds_empty queue_size 0 _ _ Hr); reflexivity).
    rewrite Ef. split; [reflexivity|]. intros r'.
    destruct (decide (r' = r)) as [->|]; [|apply H]. cbn [snd tl]. rewrite <- Ef. apply H.
Qed.

#[global] Opaque queue_size.

(** ** Properties *)

(** The ring buffer is a FIFO under concurrency: however the atomic actions of
    one producer and one consumer interleave, the results the two see are those
    of a FIFO that holds up to [Size - 1] items: an item popped is the oldest one
    pushed and not yet popped, a push fails only when [Size - 1] items are in
    the ring, a pop finds nothing only when there is none. *)
Theorem queue_refines_fifo {A} (Size : nat) (moved : A) (es : list (QueueEvent A)) (s : Shared A) :
  (0 < Size)%nat -> queue_run Size moved (Shared_make Size moved) es s ->
  exists l, fifo_run Size [] es l.
Proof. intros HS Hr. destruct (queue_run_simulates _ _ _ _ HS Hr) as (l & Hl & _). by exists l. Qed.

(** A pop that starts before a push and reads the tail after it. *)
Definition demo_events : list (QueueEvent Z) :=
  [Silent; Silent; Silent; Silent; Pushed 7; Silent; Silent; Popped 7].

Lemma demo_queue_run : exists s, queue_run 3 0 (Shared_make 3 0) demo_events s.
Proof.
  eexists. unfold demo_events.
  change [Silent; Silent; Silent; Silent; Pushed 7; Silent; Silent; Popped 7]
    with ((((((((([] ++ [Silent]) ++ [Silent]) ++ [Silent]) ++ [Silent]) ++ [Pushed 7])
      ++ [Silent]) ++ [Silent]) ++ [Popped 7]) : list (QueueEvent Z)).
  do 8 only 1: eapply queue_run_step.
  - constructor.
  - apply (push_load_tail _ _ _ 7).
  - apply pop_load_head.
  - apply push_load_head; cbn; discriminate.
  - apply push_write.
  - apply push_store_tail.
  - apply pop_load_tail; cbn; discriminate.
  - apply pop_read; reflexivity.
  - apply pop_store_head.
Qed.

Lemma queue_refines_fifo_witness : exists l, fifo_run 3 [] demo_events l.
Proof.
  destruct demo_queue_run as [s Hs].
  apply (queue_refines_fifo 3 0 demo_events s); [lia | exact Hs].
Defined.

(** The queue of each recipient: [push] appends the message to the messages that
    wait for that recipient, unless 4095 wait already; then it is dropped, and
    the caller is not told. [find_pending] hands out the oldest one waiting for
    the recipient and removes it; other recipients are not affected. *)
Theorem MessageQueue_contract (mq : MessageQueue) (f : bytes -> list OutgoingMessage) (r b : bytes) :
  mq_holds mq f ->
  mq_holds (MessageQueue_push mq r b)
    (fun r' => if decide (r' = r /\ zsize (f r) < 4095) then f r ++ [{| om_bytes := b |}] else f r') /\
  (MessageQueue_find_pending mq r).1 = hd_error (f r) /\
  mq_holds (MessageQueue_find_pending mq r).2 (fun r' => if decide (r' = r) then tl (f r) else f r').
Proof.
  intros H. split; [|by apply mq_holds_find].
  pose proof (mq_holds_push mq f r b H) as Hp. intros r'. specialize (Hp r'). cbv beta in Hp.
  rewrite (decide_ext (r' = r /\ zsize (f r) < 4095) (r' = r /\ (length (f r) < queue_size - 1)%nat)); [done|].
  assert (zsize (f r) < 4095 <-> (length (f r) < queue_size - 1)%nat)
    by (rewrite queue_size_eq; unfold zsize; lia).
  tauto.
Qed.

Lemma MessageQueue_contract_witness :
  (MessageQueue_find_pending (MessageQueue_push MessageQueue_make (sbytes "bob") (sbytes "hi")) (sbytes "bob")).1
  = Some {| om_bytes := sbytes "hi" |}.
Proof.
  pose proof (proj1 (MessageQueue_contract MessageQueue_make (fun _ => []) (sbytes "bob") (sbytes "hi") mq_holds_make))
    as H.
  destruct (MessageQueue_contract _ _ (sbytes "bob") [] H) as (_ & Hf & _). rewrite Hf.
  reflexivity.
Defined.
