(* ===== verification/QueueMemory.v ===== *)
(** [LockFreeQueue] under the memory orders it asks for
    ([src/application/messaging/message_queue.cpp]): each atomic operation of [push]
    and [pop] with its [std::memory_order], on a memory in which a load may return an
    old value, and with the slots of the array as plain variables, whose unordered
    accesses are data races. [Queue.v] has the same operations on a memory that is
    always up to date. *)
From S2P Require Import Prelude Queue.

(** ** Memory *)

(** What the queue uses of [std::memory_order]. *)
Inductive MemoryOrder := relaxed | acquire | release.

Inductive Loc := LHead | LTail | LSlot (i : nat).

#[global] Instance Loc_eq_dec : EqDecision Loc.
Proof. solve_decision. Defined.

(** How many of the stores to a location a thread knows of: a store is known to the
    thread that made it, and to those that synchronise with a thread that knows it. *)
Definition View := Loc -> nat.

Definition view_le (V W : View) : Prop := forall l, (V l <= W l)%nat.

Definition view_join (V W : View) : View := fun l => Nat.max (V l) (W l).

Definition view_set (l : Loc) (t : nat) (V : View) : View := fun l' => if decide (l' = l) then t else V l'.

Definition view_bot : View := fun _ => 0%nat.

#[global] Instance view_le_preorder : PreOrder view_le.
Proof. split; [intros V l; lia | intros U V W HU HV l; specialize (HU l); specialize (HV l); lia]. Qed.

Lemma view_join_l V W : view_le V (view_join V W).
Proof. intros l. unfold view_join. lia. Qed.

Lemma view_join_r V W : view_le W (view_join V W).
Proof. intros l. unfold view_join. lia. Qed.

Lemma view_set_eq l t V : view_set l t V l = t.
Proof. unfold view_set. by rewrite decide_True. Qed.

Lemma view_set_ne l l' t V : l' <> l -> view_set l t V l' = V l'.
Proof. intros. unfold view_set. by rewrite decide_False. Qed.

Lemma view_le_set l t V : (V l <= t)%nat -> view_le V (view_set l t V).
Proof. intros Ht l'. unfold view_set. case_decide; subst; lia. Qed.

Section Memory.
  Context {A : Type}.

(** The stores to the indices, with what their thread knew when it made them if they
    release, and the values the slots had, oldest first. The first is the value the
    constructor gives. Each index is stored to by one thread only, so that its stores
    are in the order in which they were made. *)
Record Memory := {
  m_head : list (nat * View);
  m_tail : list (nat * View);
  m_slots : nat -> list A;
}.

(** An atomic load by a thread that knows [V] returns the [t]-th store, none older than
    what the thread knows; one that acquires learns what a releasing store carries. *)
Inductive load (h : list (nat * View)) (l : Loc) (o : MemoryOrder) (V : View) : nat -> View -> Prop :=
| load_intro t v R :
    h !! t = Some (v, R) -> (V l <= t)%nat ->
    load h l o V v (match o with
                    | acquire => view_join (view_set l t V) R
                    | _ => view_set l t V
                    end).

(** An atomic store, and what its thread knows after it. *)
Definition stored_view (h : list (nat * View)) (l : Loc) (V : View) : View := view_set l (length h) V.

Definition store (h : list (nat * View)) (l : Loc) (o : MemoryOrder) (V : View) (v : nat) : list (nat * View) :=
  h ++ [(v, match o with release => stored_view h l V | _ => view_bot end)].

(** Access to a slot is ordered after everything done to it before when the thread
    knows of the last change; otherwise the two are a data race. *)
Definition ordered (m : Memory) (V : View) (i : nat) : Prop := S (V (LSlot i)) = length (m_slots m i).

Definition slot_write (i : nat) (x : A) (m : Memory) : Memory :=
  {| m_head := m_head m; m_tail := m_tail m;
     m_slots := fun j => if decide (j = i) then m_slots m j ++ [x] else m_slots m j |}.

Definition slot_view (m : Memory) (i : nat) (V : View) : View := view_set (LSlot i) (length (m_slots m i)) V.

End Memory.

Arguments Memory A : clear implicits.

(** ** [push] and [pop] *)

(** The orders of the loads and the store of [push] and of [pop]. *)
Record Orders := {
  push_tail : MemoryOrder;
  push_head : MemoryOrder;
  push_store : MemoryOrder;
  pop_head : MemoryOrder;
  pop_tail : MemoryOrder;
  pop_store : MemoryOrder;
}.

Definition LockFreeQueue_orders : Orders :=
  {| push_tail := relaxed; push_head := acquire; push_store := release;
     pop_head := relaxed; pop_tail := acquire; pop_store := release |}.

Section Machine.
  Context {A : Type}.
  Variable Size : nat.
  Variable moved : A.
  Variable ord : Orders.

(** The memory, and for each thread where it is and what it knows. *)
Record Threads := {
  th_mem : Memory A;
  th_producer : Producer (A := A);
  th_pview : View;
  th_consumer : Consumer (A := A);
  th_cview : View;
}.

Definition Threads_make : Threads :=
  {| th_mem := {| m_head := [(0%nat, view_bot)]; m_tail := [(0%nat, view_bot)]; m_slots := fun _ => [moved] |};
     th_producer := PIdle; th_pview := view_bot; th_consumer := CIdle; th_cview := view_bot |}.

Definition at_producer (p : Producer) (V : View) (m : Memory A) (s : Threads) : Threads :=
  {| th_mem := m; th_producer := p; th_pview := V; th_consumer := th_consumer s; th_cview := th_cview s |}.

Definition at_consumer (c : Consumer) (V : View) (m : Memory A) (s : Threads) : Threads :=
  {| th_mem := m; th_producer := th_producer s; th_pview := th_pview s; th_consumer := c; th_cview := V |}.

Definition with_tail (h : list (nat * View)) (m : Memory A) : Memory A :=
  {| m_head := m_head m; m_tail := h; m_slots := m_slots m |}.

Definition with_head (h : list (nat * View)) (m : Memory A) : Memory A :=
  {| m_head := h; m_tail := m_tail m; m_slots := m_slots m |}.

(** The actions of [push]. *)
Inductive push_step (s : Threads) : QueueEvent A -> Threads -> Prop :=
| pm_load_tail item t V :
    th_producer s = PIdle -> load (m_tail (th_mem s)) LTail (push_tail ord) (th_pview s) t V ->
    push_step s Silent (at_producer (PTail item t) V (th_mem s) s)
| pm_full item t h V :
    th_producer s = PTail item t -> load (m_head (th_mem s)) LHead (push_head ord) (th_pview s) h V ->
    ((t + 1) mod Size)%nat = h ->
    push_step s (PushFull item) (at_producer PIdle V (th_mem s) s)
| pm_load_head item t h V :
    th_producer s = PTail item t -> load (m_head (th_mem s)) LHead (push_head ord) (th_pview s) h V ->
    ((t + 1) mod Size)%nat <> h ->
    push_step s Silent (at_producer (PReady item t) V (th_mem s) s)
| pm_write item t :
    th_producer s = PReady item t -> ordered (th_mem s) (th_pview s) t ->
    push_step s Silent (at_producer (PWritten item t) (slot_view (th_mem s) t (th_pview s))
                          (slot_write t item (th_mem s)) s)
| pm_store item t :
    th_producer s = PWritten item t ->
    push_step s (Pushed item)
      (at_producer PIdle (stored_view (m_tail (th_mem s)) LTail (th_pview s))
         (with_tail (store (m_tail (th_mem s)) LTail (push_store ord) (th_pview s) ((t + 1) mod Size)%nat)
            (th_mem s)) s).

(** The actions of [pop]; moving the item out changes the slot. *)
Inductive pop_step (s : Threads) : QueueEvent A -> Threads -> Prop :=
| cm_load_head h V :
    th_consumer s = CIdle -> load (m_head (th_mem s)) LHead (pop_head ord) (th_cview s) h V ->
    pop_step s Silent (at_consumer (CHead h) V (th_mem s) s)
| cm_empty h t V :
    th_consumer s = CHead h -> load (m_tail (th_mem s)) LTail (pop_tail ord) (th_cview s) t V ->
    h = t ->
    pop_step s PopEmpty (at_consumer CIdle V (th_mem s) s)
| cm_load_tail h t V :
    th_consumer s = CHead h -> load (m_tail (th_mem s)) LTail (pop_tail ord) (th_cview s) t V ->
    h <> t ->
    pop_step s Silent (at_consumer (CReady h) V (th_mem s) s)
| cm_move h item :
    th_consumer s = CReady h -> ordered (th_mem s) (th_cview s) h ->
    m_slots (th_mem s) h !! th_cview s (LSlot h) = Some item ->
    pop_step s Silent (at_consumer (CRead item h) (slot_view (th_mem s) h (th_cview s))
                         (slot_write h moved (th_mem s)) s)
| cm_store h item :
    th_consumer s = CRead item h ->
    pop_step s (Popped item)
      (at_consumer CIdle (stored_view (m_head (th_mem s)) LHead (th_cview s))
         (with_head (store (m_head (th_mem s)) LHead (pop_store ord) (th_cview s) ((h + 1) mod Size)%nat)
            (th_mem s)) s).

Inductive memory_run : Threads -> list (QueueEvent A) -> Threads -> Prop :=
| memory_run_nil s : memory_run s [] s
| memory_run_push s es s1 e s2 : memory_run s es s1 -> push_step s1 e s2 -> memory_run s (es ++ [e]) s2
| memory_run_pop s es s1 e s2 : memory_run s es s1 -> pop_step s1 e s2 -> memory_run s (es ++ [e]) s2.

(** A thread is about to access a slot although it does not know of the last change. *)
Definition data_race (s : Threads) : Prop :=
  (exists item t, th_producer s = PReady item t /\ ~ ordered (th_mem s) (th_pview s) t) \/
  (exists h, th_consumer s = CReady h /\ ~ ordered (th_mem s) (th_cview s) h).

(** ** The specification: a FIFO whose ends see each other late *)

(** [ws_unseen_pops] of the items taken out are not known to the producer yet, and
    [ws_unseen_pushes] of the items in the queue not to the consumer. *)
Record WeakFifo := {
  ws_items : list A;
  ws_unseen_pops : nat;
  ws_unseen_pushes : nat;
}.

Inductive weak_step : WeakFifo -> QueueEvent A -> WeakFifo -> Prop :=
| ws_see l a b a' b' : (a' <= a)%nat -> (b' <= b)%nat ->
    weak_step {| ws_items := l; ws_unseen_pops := a; ws_unseen_pushes := b |} Silent
              {| ws_items := l; ws_unseen_pops := a'; ws_unseen_pushes := b' |}
| ws_push l a b item : (length l + a < Size - 1)%nat ->
    weak_step {| ws_items := l; ws_unseen_pops := a; ws_unseen_pushes := b |} (Pushed item)
              {| ws_items := l ++ [item]; ws_unseen_pops := a; ws_unseen_pushes := S b |}
| ws_full l a b a' item : (a' <= a)%nat -> (length l + a' = Size - 1)%nat ->
    weak_step {| ws_items := l; ws_unseen_pops := a; ws_unseen_pushes := b |} (PushFull item)
              {| ws_items := l; ws_unseen_pops := a'; ws_unseen_pushes := b |}
| ws_pop l a b item : (b <= length l)%nat ->
    weak_step {| ws_items := item :: l; ws_unseen_pops := a; ws_unseen_pushes := b |} (Popped item)
              {| ws_items := l; ws_unseen_pops := S a; ws_unseen_pushes := b |}
| ws_empty l a b b' : (b' <= b)%nat -> length l = b' ->
    weak_step {| ws_items := l; ws_unseen_pops := a; ws_unseen_pushes := b |} PopEmpty
              {| ws_items := l; ws_unseen_pops := a; ws_unseen_pushes := b' |}.

Inductive weak_run : WeakFifo -> list (QueueEvent A) -> WeakFifo -> Prop :=
| weak_run_nil w : weak_run w [] w
| weak_run_step w es w1 e w2 : weak_run w es w1 -> weak_step w1 e w2 -> weak_run w (es ++ [e]) w2.

End Machine.

(** ** The invariant *)

Section Correct.
  Context {A : Type}.
  Variable Size : nat.
  Variable moved : A.
  Hypothesis Size_pos : (0 < Size)%nat.

Abbreviation Threads := (Threads (A := A)).
Abbreviation sl k := (k mod Size)%nat.

(** The item with the number [k], counted from the first one pushed, is written into its
    slot by the change [wr k] of the slot and moved out by the next. *)
Definition wr (k : nat) : nat := (2 * (k / Size) + 1)%nat.

Lemma mod_same x y : (x <= y)%nat -> (y < x + Size)%nat -> sl x = sl y -> x = y.
Proof.
  intros Hxy Hy E. pose proof (Nat.div_mod_eq x Size). pose proof (Nat.div_mod_eq y Size).
  assert (x / Size = y / Size \/ x / Size < y / Size)%nat as [|] by (pose proof (Nat.Div0.div_le_mono x y Size Hxy); lia); nia.
Qed.

Lemma wr_next k : wr (k + Size) = (wr k + 2)%nat.
Proof. unfold wr. replace (k + Size)%nat with (k + 1 * Size)%nat by lia. rewrite Nat.div_add by lia. lia. Qed.

Lemma sl_next k : sl (k + Size) = sl k.
Proof. replace (k + Size)%nat with (k + 1 * Size)%nat by lia. apply Nat.Div0.mod_add. Qed.

Lemma wr_small k : (k < Size)%nat -> wr k = 1%nat /\ sl k = k.
Proof. intros. unfold wr. rewrite Nat.div_small, Nat.mod_small by done. lia. Qed.

Lemma sl_succ k : ((sl k + 1) mod Size)%nat = sl (S k).
Proof. rewrite Nat.Div0.add_mod_idemp_l. f_equal. lia. Qed.

(** What a thread knows of the first [n] pushes and of the first [n] pops. *)
Definition knows_pushes (V : View) (n : nat) : Prop := forall j, (j < n)%nat -> (wr j <= V (LSlot (sl j)))%nat.
Definition knows_pops (V : View) (n : nat) : Prop := forall j, (j < n)%nat -> (wr j < V (LSlot (sl j)))%nat.

Lemma knows_pushes_mono V W n : view_le V W -> knows_pushes V n -> knows_pushes W n.
Proof. intros H HV j Hj. specialize (HV j Hj). specialize (H (LSlot (sl j))). lia. Qed.

Lemma knows_pops_mono V W n : view_le V W -> knows_pops V n -> knows_pops W n.
Proof. intros H HV j Hj. specialize (HV j Hj). specialize (H (LSlot (sl j))). lia. Qed.

(** Nobody knows more than there is, with [p] stores to the tail and [c] to the head. *)
Record bounded (m : Memory A) (p c : nat) (V : View) : Prop := {
  bd_head : (V LHead <= c)%nat;
  bd_tail : (V LTail <= p)%nat;
  bd_slots : forall i, (V (LSlot i) < length (m_slots m i))%nat;
}.

Lemma bounded_join m p c V W : bounded m p c V -> bounded m p c W -> bounded m p c (view_join V W).
Proof.
  intros [H1 H2 H3] [K1 K2 K3]. constructor; unfold view_join; try lia. intros i. specialize (H3 i). specialize (K3 i). lia.
Qed.

(** The indices: their stores have the values of a counter, and carry what was done
    before. *)
Record indices_ok (m : Memory A) (p c : nat) : Prop := {
  ix_tail_length : length (m_tail m) = S p;
  ix_head_length : length (m_head m) = S c;
  ix_tail : forall k v (R : View), m_tail m !! k = Some (v, R) ->
    v = sl k /\ (R LTail <= k)%nat /\ knows_pushes R k /\ bounded m p c R;
  ix_head : forall k v (R : View), m_head m !! k = Some (v, R) ->
    v = sl k /\ (R LHead <= k)%nat /\ knows_pops R k /\ bounded m p c R;
}.

(** The slots, after [length all] writes and [C] moves. *)
Record slots_ok (m : Memory A) (all : list A) (C : nat) : Prop := {
  so_length : forall k, (k < length all)%nat -> (length all <= k + Size)%nat ->
    length (m_slots m (sl k)) = (wr k + (if (k <? C)%nat then 2 else 1))%nat;
  so_unused : forall i, (i < Size)%nat -> (length all <= i)%nat -> length (m_slots m i) = 1%nat;
  so_items : forall k x, (C <= k)%nat -> all !! k = Some x -> m_slots m (sl k) !! wr k = Some x;
}.

Definition written (p : Producer (A := A)) : list A := match p with PWritten item _ => [item] | _ => [] end.

Definition producer_at (p : Producer (A := A)) (n a : nat) : Prop :=
  match p with
  | PIdle => True
  | PTail _ t | PWritten _ t => t = sl n
  | PReady _ t => t = sl n /\ (n + 1 <= a + (Size - 1))%nat
  end.

Definition consumer_at (c : Consumer) (all : list A) (n b : nat) : Prop :=
  match c with
  | CIdle => True
  | CHead h => h = sl n
  | CReady h => h = sl n /\ (n < b)%nat
  | CRead item h => h = sl n /\ all !! n = Some item
  end.

(** [L] are the items pushed so far, [c] the number of those popped. *)
Record inv (s : Threads) (L : list A) (c : nat) : Prop := {
  inv_indices : indices_ok (th_mem s) (length L) c;
  inv_slots : slots_ok (th_mem s) (L ++ written (th_producer s)) (c + moving (th_consumer s));
  inv_pbound : bounded (th_mem s) (length L) c (th_pview s);
  inv_cbound : bounded (th_mem s) (length L) c (th_cview s);
  inv_ptail : th_pview s LTail = length L;
  inv_chead : th_cview s LHead = c;
  inv_pushes : knows_pushes (th_pview s) (length (L ++ written (th_producer s)));
  inv_pops_seen : knows_pops (th_pview s) (th_pview s LHead);
  inv_pops : knows_pops (th_cview s) (c + moving (th_consumer s));
  inv_pushes_seen : knows_pushes (th_cview s) (th_cview s LTail);
  inv_room : (length (L ++ written (th_producer s)) <= th_pview s LHead + (Size - 1))%nat;
  inv_avail : (c + moving (th_consumer s) <= th_cview s LTail)%nat;
  inv_producer : producer_at (th_producer s) (length L) (th_pview s LHead);
  inv_consumer : consumer_at (th_consumer s) (L ++ written (th_producer s)) c (th_cview s LTail);
}.

Lemma inv_make : inv (Threads_make moved) [] 0.
Proof.
  assert (Hb : bounded (th_mem (Threads_make moved)) 0 0 view_bot) by (constructor; intros; cbn; unfold view_bot; lia).
  constructor; try exact Hb; cbn; try done; try lia; try (intros j Hj; unfold view_bot in Hj; cbn in Hj; lia).
  - constructor; try done; intros [|k] v R; cbn; try done; intros [= <- <-];
      (split; [by rewrite Nat.Div0.mod_0_l|]); (split; [done|]); (split; [intros j Hj; lia | exact Hb]).
  - constructor; cbn; intros; try lia; done.
Qed.

(** *** Loads *)

(** A thread that loads the index it alone stores to sees its own last store. *)
Lemma load_own h l V v V' n :
  load h l relaxed V v V' -> length h = S n -> V l = n ->
  (exists R, h !! n = Some (v, R)) /\ V' l = n /\ (forall l', V' l' = V l').
Proof.
  intros [t x R Ht Hle] Hl Hn. assert (t = n) as -> by (apply lookup_lt_Some in Ht; lia).
  split; [by exists R|]. rewrite view_set_eq. split; [done|]. intros l'.
  destruct (decide (l' = l)) as [->|Hne]; [by rewrite view_set_eq | by rewrite view_set_ne].
Qed.

(** Loading the head, with what it carries. *)
Lemma load_head m p c V v V' :
  indices_ok m p c -> bounded m p c V -> load (m_head m) LHead acquire V v V' ->
  exists t, v = sl t /\ V' LHead = t /\ (V LHead <= t <= c)%nat /\ view_le V V' /\ knows_pops V' t /\ bounded m p c V'.
Proof.
  intros [_ Hlen _ Hx] Hb [t x R Ht Hle]. destruct (Hx _ _ _ Ht) as (-> & HR & Hk & Hbd).
  apply lookup_lt_Some in Ht. exists t. assert (Hset : bounded m p c (view_set LHead t V)).
  { destruct Hb as [H1 H2 H3]. constructor; [rewrite view_set_eq; lia|by rewrite view_set_ne|].
    intros i. by rewrite view_set_ne. }
  split_and!; try done; try lia.
  - unfold view_join. rewrite view_set_eq. lia.
  - etrans; [|apply view_join_l]. by apply view_le_set.
  - eapply knows_pops_mono; [apply view_join_r | done].
  - by apply bounded_join.
Qed.

Lemma load_tail m p c V v V' :
  indices_ok m p c -> bounded m p c V -> load (m_tail m) LTail acquire V v V' ->
  exists t, v = sl t /\ V' LTail = t /\ (V LTail <= t <= p)%nat /\ view_le V V' /\ knows_pushes V' t /\ bounded m p c V'.
Proof.
  intros [Hlen _ Hx _] Hb [t x R Ht Hle]. destruct (Hx _ _ _ Ht) as (-> & HR & Hk & Hbd).
  apply lookup_lt_Some in Ht. exists t. assert (Hset : bounded m p c (view_set LTail t V)).
  { destruct Hb as [H1 H2 H3]. constructor; [by rewrite view_set_ne|rewrite view_set_eq; lia|].
    intros i. by rewrite view_set_ne. }
  split_and!; try done; try lia.
  - unfold view_join. rewrite view_set_eq. lia.
  - etrans; [|apply view_join_l]. by apply view_le_set.
  - eapply knows_pushes_mono; [apply view_join_r | done].
  - by apply bounded_join.
Qed.

(** A thread that has learnt something and gone on. *)
Lemma inv_producer_moves s L c q V :
  inv s L c -> written q = written (th_producer s) ->
  view_le (th_pview s) V -> bounded (th_mem s) (length L) c V -> knows_pops V (V LHead) ->
  producer_at q (length L) (V LHead) -> inv (at_producer q V (th_mem s) s) L c.
Proof.
  intros [] Hw Hle Hb Hk Hq. constructor; cbn; rewrite ?Hw; try done.
  - pose proof (Hle LTail). destruct Hb. lia.
  - by eapply knows_pushes_mono.
  - pose proof (Hle LHead). lia.
Qed.

Lemma inv_consumer_moves s L c q V :
  inv s L c -> moving q = moving (th_consumer s) ->
  view_le (th_cview s) V -> bounded (th_mem s) (length L) c V -> knows_pushes V (V LTail) ->
  consumer_at q (L ++ written (th_producer s)) c (V LTail) -> inv (at_consumer q V (th_mem s) s) L c.
Proof.
  intros [] Hw Hle Hb Hk Hq. constructor; cbn; rewrite ?Hw; try done.
  - pose proof (Hle LHead). destruct Hb. lia.
  - by eapply knows_pops_mono.
  - pose proof (Hle LTail). lia.
Qed.

(** *** Slots *)

Lemma slot_write_same i x (m : Memory A) : m_slots (slot_write i x m) i = m_slots m i ++ [x].
Proof. cbn. by rewrite decide_True. Qed.

Lemma slot_write_other i j x (m : Memory A) : j <> i -> m_slots (slot_write i x m) j = m_slots m j.
Proof. intros. cbn. by rewrite decide_False. Qed.

Lemma bounded_grows m m' p p' c c' V :
  (p <= p')%nat -> (c <= c')%nat -> (forall i, (length (m_slots m i) <= length (m_slots m' i))%nat) ->
  bounded m p c V -> bounded m' p' c' V.
Proof. intros Hp Hc Hm [H1 H2 H3]. constructor; try lia. intros i. specialize (H3 i). specialize (Hm i). lia. Qed.

Lemma slot_write_grows i x (m : Memory A) j : (length (m_slots m j) <= length (m_slots (slot_write i x m) j))%nat.
Proof.
  destruct (decide (j = i)) as [->|Hne]; [rewrite slot_write_same, length_app; lia | by rewrite slot_write_other].
Qed.

Lemma indices_write m p c i x : indices_ok m p c -> indices_ok (slot_write i x m) p c.
Proof.
  intros [H1 H2 H3 H4]. assert (Hg := slot_write_grows i x m). constructor; try done.
  - intros k v R (? & ? & ? & Hb)%H3. split_and!; try done. by eapply bounded_grows, Hb.
  - intros k v R (? & ? & ? & Hb)%H4. split_and!; try done. by eapply bounded_grows, Hb.
Qed.

(** What a thread knows after it has changed a slot. *)
Lemma slot_view_le m p c i V : bounded m p c V -> view_le V (slot_view m i V).
Proof. intros [_ _ H]. apply view_le_set. specialize (H i). lia. Qed.

Lemma slot_view_bounded m p c i x V : bounded m p c V -> bounded (slot_write i x m) p c (slot_view m i V).
Proof.
  intros [H1 H2 H3]. constructor; [by unfold slot_view; rewrite view_set_ne..|]. intros j. unfold slot_view.
  destruct (decide (j = i)) as [->|Hne].
  - rewrite view_set_eq, slot_write_same, length_app. cbn. lia.
  - rewrite view_set_ne by congruence. pose proof (slot_write_grows i x m j). specialize (H3 j). lia.
Qed.

(** Writing the next item into its slot, which has been moved out of before. *)
Lemma slots_push m all C item :
  slots_ok m all C -> length (m_slots m (sl (length all))) = wr (length all) ->
  (C <= length all)%nat -> (length all < C + Size)%nat -> slots_ok (slot_write (sl (length all)) item m) (all ++ [item]) C.
Proof.
  intros [H1 H2 H3] Hfree HC Hroom. set (n := length all) in *.
  assert (Hne : forall k, (k < n)%nat -> (n < k + Size)%nat -> sl k <> sl n) by (intros k ? ? E; apply mod_same in E; lia).
  constructor; rewrite ?length_app; cbn [length]; fold n.
  - intros k Hk Hw. destruct (decide (k = n)) as [->|Hkn].
    + rewrite slot_write_same, length_app, Hfree. cbn [length]. destruct (Nat.ltb_spec n C); lia.
    + rewrite slot_write_other by (apply Hne; lia). apply H1; lia.
  - intros i Hi Hn. rewrite slot_write_other; [apply H2; lia|]. rewrite Nat.mod_small by lia. lia.
  - intros k x Hk Hx. apply lookup_app_Some in Hx as [Hx|[Hge Hx]].
    + apply lookup_lt_Some in Hx as Hlt. fold n in Hlt. rewrite slot_write_other by (apply Hne; lia). by apply H3.
    + apply list_lookup_singleton_Some in Hx as [Hz <-]. assert (k = n) as -> by (unfold n in *; lia).
      rewrite slot_write_same, lookup_app_r, Hfree, Nat.sub_diag by lia. done.
Qed.

(** Moving the oldest item out. *)
Lemma slots_move m all C :
  slots_ok m all C -> (C < length all)%nat -> (length all <= C + Size)%nat ->
  slots_ok (slot_write (sl C) moved m) all (S C).
Proof.
  intros [H1 H2 H3] HC Hroom. constructor.
  - intros k Hk Hw. destruct (decide (k = C)) as [->|Hne].
    + rewrite slot_write_same, length_app, H1 by done. cbn [length].
      destruct (Nat.ltb_spec C C), (Nat.ltb_spec C (S C)); lia.
    + rewrite slot_write_other, H1; [|done..|].
      2: { intros E. destruct (Nat.le_gt_cases k C); [|symmetry in E]; apply mod_same in E; lia. }
      destruct (Nat.ltb_spec k C), (Nat.ltb_spec k (S C)); lia.
  - intros i Hi Hn. rewrite slot_write_other; [by apply H2|]. rewrite Nat.mod_small by lia. lia.
  - intros k x Hk Hx. apply lookup_lt_Some in Hx as Hlt. rewrite slot_write_other; [apply H3; [lia|done]|].
    intros E. symmetry in E. apply mod_same in E; lia.
Qed.

(** *** Facts the threads rely on *)

Lemma inv_counts s L c : inv s L c ->
  (th_pview s LHead <= c)%nat /\ (c + moving (th_consumer s) <= th_cview s LTail)%nat /\
  (th_cview s LTail <= length L)%nat /\ (length L < c + Size)%nat.
Proof.
  intros H. pose proof (inv_room _ _ _ H) as Hr. rewrite length_app in Hr.
  destruct (inv_pbound _ _ _ H), (inv_cbound _ _ _ H). pose proof (inv_avail _ _ _ H). lia.
Qed.

(** The slot of the next item has been written and moved out of, as the producer knows. *)
Lemma next_slot_free s L c item t : inv s L c -> th_producer s = PReady item t ->
  t = sl (length L) /\ length (m_slots (th_mem s) t) = wr (length L) /\ ordered (th_mem s) (th_pview s) t.
Proof.
  intros H Hp. destruct (inv_counts _ _ _ H) as (Ha & Hav & Hb & Hroom).
  pose proof (inv_producer _ _ _ H) as Hat. rewrite Hp in Hat. destruct Hat as [-> Hn].
  pose proof (inv_slots _ _ _ H) as Hs. rewrite Hp in Hs. cbn [written] in Hs. rewrite app_nil_r in Hs.
  pose proof (bd_slots _ _ _ _ (inv_pbound _ _ _ H) (sl (length L))) as Hbd. split; [done|].
  destruct (decide (length L < Size)%nat) as [Hlt|Hge].
  - destruct (wr_small (length L) Hlt) as [Hw Hsl]. unfold ordered. rewrite Hsl, Hw in *.
    rewrite (so_unused _ _ _ Hs) in * by lia. lia.
  - set (k := (length L - Size)%nat). assert (Hk : length L = (k + Size)%nat) by lia.
    pose proof (so_length _ _ _ Hs k) as Hlen. pose proof (inv_pops_seen _ _ _ H k) as Hknow.
    unfold ordered. rewrite Hk, wr_next, sl_next in *.
    destruct (Nat.ltb_spec k (c + moving (th_consumer s))); lia.
Qed.

(** The slot of the oldest item holds it, as the consumer knows. *)
Lemma first_slot_full s L c h : inv s L c -> th_consumer s = CReady h ->
  h = sl c /\ th_cview s (LSlot h) = wr c /\ ordered (th_mem s) (th_cview s) h /\
  exists item, L !! c = Some item /\ m_slots (th_mem s) h !! wr c = Some item.
Proof.
  intros H Hc. destruct (inv_counts _ _ _ H) as (Ha & Hav & Hb & Hroom).
  pose proof (inv_consumer _ _ _ H) as Hat. pose proof (inv_slots _ _ _ H) as Hs. rewrite Hc in Hat, Hs.
  destruct Hat as [-> Hlt]. cbn [moving] in Hs. rewrite Nat.add_0_r in Hs.
  assert (Hlen : length (m_slots (th_mem s) (sl c)) = S (wr c)).
  { pose proof (inv_room _ _ _ H) as Hr. rewrite length_app in Hr.
    rewrite (so_length _ _ _ Hs) by (rewrite length_app; lia). destruct (Nat.ltb_spec c c); lia. }
  pose proof (bd_slots _ _ _ _ (inv_cbound _ _ _ H) (sl c)) as Hbd.
  pose proof (inv_pushes_seen _ _ _ H c Hlt) as Hknow. unfold ordered. rewrite Hlen in *.
  split_and!; try done; try lia. destruct (lookup_lt_is_Some_2 L c) as [item Hi]; [lia|].
  exists item. split; [done|]. apply (so_items _ _ _ Hs); [done|]. by apply lookup_app_l_Some.
Qed.

Lemma inv_race_free s L c : inv s L c -> ~ data_race s.
Proof.
  intros H [(item & t & Hp & Hr)|(h & Hc & Hr)].
  - by destruct (next_slot_free _ _ _ _ _ H Hp) as (_ & _ & ?).
  - by destruct (first_slot_full _ _ _ _ H Hc) as (_ & _ & ? & _).
Qed.

(** *** Changes of the memory *)

Lemma push_write_inv s L c item t :
  inv s L c -> th_producer s = PReady item t ->
  inv (at_producer (PWritten item t) (slot_view (th_mem s) t (th_pview s)) (slot_write t item (th_mem s)) s) L c.
Proof.
  intros H Hp. destruct (next_slot_free _ _ _ _ _ H Hp) as (-> & Hfree & _).
  destruct (inv_counts _ _ _ H) as (Ha & Hav & Hb & Hroom).
  pose proof (inv_producer _ _ _ H) as Hat. rewrite Hp in Hat. destruct Hat as [_ Hn].
  destruct H as [Hi Hs Hpb Hcb Hpt Hch Hpu Hps Hpo Hcs Hrm Hv Hpr Hco]. rewrite Hp in *. cbn [written] in *.
  rewrite app_nil_r in *. pose proof (slot_view_le _ _ _ (sl (length L)) _ Hpb) as Hle.
  assert (Hh : slot_view (th_mem s) (sl (length L)) (th_pview s) LHead = th_pview s LHead) by (by apply view_set_ne).
  constructor; cbn [at_producer th_mem th_producer th_pview th_consumer th_cview written]; rewrite ?Hh; try done.
  - by apply indices_write.
  - apply slots_push; try done; lia.
  - by apply slot_view_bounded.
  - eapply bounded_grows, Hcb; [done|done|apply slot_write_grows].
  - intros j Hj. rewrite length_app in Hj. cbn in Hj. destruct (decide (j = length L)) as [->|Hne].
    + unfold slot_view. rewrite view_set_eq. lia.
    + apply (knows_pushes_mono _ _ _ Hle Hpu). lia.
  - by apply (knows_pops_mono _ _ _ Hle).
  - rewrite length_app. cbn. lia.
  - destruct (th_consumer s); try done. cbn in *. destruct Hco as [? Hl]. split; [done|]. by apply lookup_app_l_Some.
Qed.

Lemma pop_move_inv s L c h item :
  inv s L c -> th_consumer s = CReady h -> m_slots (th_mem s) h !! th_cview s (LSlot h) = Some item ->
  inv (at_consumer (CRead item h) (slot_view (th_mem s) h (th_cview s)) (slot_write h moved (th_mem s)) s) L c.
Proof.
  intros H Hc Hitem. destruct (first_slot_full _ _ _ _ H Hc) as (-> & Hview & Hord & x & Hx & Hx').
  destruct (inv_counts _ _ _ H) as (Ha & Hav & Hb & Hroom).
  pose proof (inv_consumer _ _ _ H) as Hat. rewrite Hc in Hat. destruct Hat as [_ Hlt].
  rewrite Hview in Hitem. assert (item = x) as -> by congruence. unfold ordered in Hord.
  destruct H as [Hi Hs Hpb Hcb Hpt Hch Hpu Hps Hpo Hcs Hrm Hv Hpr Hco]. rewrite Hc in *. cbn [moving] in *.
  rewrite Nat.add_0_r in *. pose proof (slot_view_le _ _ _ (sl c) _ Hcb) as Hle.
  assert (Hh : slot_view (th_mem s) (sl c) (th_cview s) LTail = th_cview s LTail) by (by apply view_set_ne).
  rewrite length_app in Hrm.
  constructor; cbn [at_consumer th_mem th_producer th_pview th_consumer th_cview moving]; rewrite ?Hh, ?Nat.add_1_r; try done.
  - by apply indices_write.
  - apply slots_move; try done; rewrite length_app; lia.
  - eapply bounded_grows, Hpb; [done|done|apply slot_write_grows].
  - by apply slot_view_bounded.
  - intros j Hj. destruct (decide (j = c)) as [->|Hne].
    + unfold slot_view. rewrite view_set_eq. lia.
    + apply (knows_pops_mono _ _ _ Hle Hpo). lia.
  - by apply (knows_pushes_mono _ _ _ Hle).
  - rewrite length_app. lia.
  - split; [done|]. by apply lookup_app_l_Some.
Qed.

Lemma push_store_inv s L c item t :
  inv s L c -> th_producer s = PWritten item t ->
  inv (at_producer PIdle (stored_view (m_tail (th_mem s)) LTail (th_pview s))
         (with_tail (store (m_tail (th_mem s)) LTail release (th_pview s) ((t + 1) mod Size)%nat) (th_mem s)) s)
    (L ++ [item]) c.
Proof.
  intros H Hp. destruct H as [Hi Hs Hpb Hcb Hpt Hch Hpu Hps Hpo Hcs Hrm Hv Hpr Hco]. rewrite Hp in *. cbn [written producer_at] in *.
  subst t. rewrite sl_succ. set (V := stored_view (m_tail (th_mem s)) LTail (th_pview s)).
  assert (Hlen := ix_tail_length _ _ _ Hi).
  assert (HVt : V LTail = S (length L)) by (unfold V, stored_view; by rewrite view_set_eq).
  assert (Hle : view_le (th_pview s) V) by (apply view_le_set; rewrite Hpt; lia).
  set (m' := with_tail _ _).
  assert (Hg : forall W, bounded (th_mem s) (length L) c W -> bounded m' (length (L ++ [item])) c W).
  { intros W. apply bounded_grows; [rewrite length_app; lia|done..]. }
  assert (HV : bounded m' (length (L ++ [item])) c V).
  { apply Hg in Hpb as [H1 H2 H3]. constructor; [done|rewrite HVt, length_app; cbn; lia|done]. }
  constructor; cbn [at_producer with_tail th_mem th_producer th_pview th_consumer th_cview written];
    rewrite ?app_nil_r; try done; try (by apply Hg).
  - destruct Hi as [H1 H2 H3 H4]. constructor; cbn [m' with_tail m_tail m_head m_slots]; [|done| |].
    + unfold store. rewrite !length_app, H1. cbn. lia.
    + intros k v R Hk. apply lookup_app_Some in Hk as [Hk|[Hge Hk]].
      * destruct (H3 _ _ _ Hk) as (? & ? & ? & ?). split_and!; try done. by apply Hg.
      * apply list_lookup_singleton_Some in Hk as [Hz [= <- <-]]. assert (k = S (length L)) as -> by lia.
        split_and!; [done | fold V; lia | | done]. eapply knows_pushes_mono; [exact Hle|].
        by rewrite length_app in Hpu; cbn in Hpu; rewrite Nat.add_1_r in Hpu.
    + intros k v R (? & ? & ? & ?)%H4. split_and!; try done. by apply Hg.
  - by destruct Hs.
  - rewrite HVt, length_app. cbn. lia.
Qed.

Lemma pop_store_inv s L c h item :
  inv s L c -> th_consumer s = CRead item h ->
  inv (at_consumer CIdle (stored_view (m_head (th_mem s)) LHead (th_cview s))
         (with_head (store (m_head (th_mem s)) LHead release (th_cview s) ((h + 1) mod Size)%nat) (th_mem s)) s)
    L (S c).
Proof.
  intros H Hc. destruct H as [Hi Hs Hpb Hcb Hpt Hch Hpu Hps Hpo Hcs Hrm Hv Hpr Hco]. rewrite Hc in *. cbn [moving consumer_at] in *.
  destruct Hco as [-> _]. rewrite sl_succ, Nat.add_1_r in *. set (V := stored_view (m_head (th_mem s)) LHead (th_cview s)).
  assert (Hlen := ix_head_length _ _ _ Hi).
  assert (HVt : V LHead = S c) by (unfold V, stored_view; by rewrite view_set_eq).
  assert (Hle : view_le (th_cview s) V) by (apply view_le_set; rewrite Hch; lia).
  set (m' := with_head _ _).
  assert (Hg : forall W, bounded (th_mem s) (length L) c W -> bounded m' (length L) (S c) W).
  { intros W. apply bounded_grows; [done|lia|done]. }
  assert (HV : bounded m' (length L) (S c) V).
  { apply Hg in Hcb as [H1 H2 H3]. constructor; [rewrite HVt; lia|done|done]. }
  constructor; cbn [at_consumer with_head th_mem th_producer th_pview th_consumer th_cview moving consumer_at];
    rewrite ?Nat.add_0_r; try done; try (by apply Hg).
  - destruct Hi as [H1 H2 H3 H4]. constructor; cbn [m' with_head m_tail m_head m_slots]; [done| | |].
    + unfold store. rewrite length_app, H2. cbn. lia.
    + intros k v R (? & ? & ? & ?)%H3. split_and!; try done. by apply Hg.
    + intros k v R Hk. apply lookup_app_Some in Hk as [Hk|[Hge Hk]].
      * destruct (H4 _ _ _ Hk) as (? & ? & ? & ?). split_and!; try done. by apply Hg.
      * apply list_lookup_singleton_Some in Hk as [Hz [= <- <-]]. assert (k = S c) as -> by lia.
        split_and!; [done | fold V; lia | | done]. by eapply knows_pops_mono.
  - by destruct Hs.
Qed.

(** *** The simulation *)

(** The state of the specification. *)
Definition weak_of (s : Threads) (L : list A) (c : nat) : WeakFifo :=
  {| ws_items := drop c L; ws_unseen_pops := c - th_pview s LHead; ws_unseen_pushes := length L - th_cview s LTail |}.

Definition simulates (s : Threads) (L : list A) (c : nat) (e : QueueEvent A) (s' : Threads) : Prop :=
  exists L' c', inv s' L' c' /\ weak_step Size (weak_of s L c) e (weak_of s' L' c').

Lemma producer_silent s L c q V :
  inv s L c -> written q = written (th_producer s) ->
  view_le (th_pview s) V -> bounded (th_mem s) (length L) c V -> knows_pops V (V LHead) ->
  producer_at q (length L) (V LHead) -> simulates s L c Silent (at_producer q V (th_mem s) s).
Proof.
  intros H Hw Hle Hb Hk Hq. exists L, c. split; [by apply inv_producer_moves|]. pose proof (Hle LHead). constructor; cbn; lia.
Qed.

Lemma consumer_silent s L c q V :
  inv s L c -> moving q = moving (th_consumer s) ->
  view_le (th_cview s) V -> bounded (th_mem s) (length L) c V -> knows_pushes V (V LTail) ->
  consumer_at q (L ++ written (th_producer s)) c (V LTail) -> simulates s L c Silent (at_consumer q V (th_mem s) s).
Proof.
  intros H Hw Hle Hb Hk Hq. exists L, c. split; [by apply inv_consumer_moves|]. pose proof (Hle LTail). constructor; cbn; lia.
Qed.

Lemma same_view_le (V W : View) : (forall l, W l = V l) -> view_le V W.
Proof. intros H l. rewrite H. lia. Qed.

Lemma same_view_bounded m p c V W : (forall l, W l = V l) -> bounded m p c V -> bounded m p c W.
Proof. intros H [H1 H2 H3]. constructor; [by rewrite H..|]. intros i. by rewrite H. Qed.

Lemma push_simulates s L c e s' :
  inv s L c -> push_step Size LockFreeQueue_orders s e s' -> simulates s L c e s'.
Proof.
  intros H Hstep. destruct (inv_counts _ _ _ H) as (Ha & Hav & Hb & Hroom).
  pose proof (inv_room _ _ _ H) as Hrm. rewrite length_app in Hrm.
  destruct Hstep as [item t V Hp Hl|item t h V Hp Hl Ht|item t h V Hp Hl Ht|item t Hp Ho|item t Hp].
  - destruct (load_own _ _ _ _ _ _ Hl (ix_tail_length _ _ _ (inv_indices _ _ _ H)) (inv_ptail _ _ _ H))
      as ([R HR] & _ & Hsame). destruct (ix_tail _ _ _ (inv_indices _ _ _ H) _ _ _ HR) as [-> _].
    pose proof (same_view_le _ _ Hsame) as Hle. apply producer_silent; try done.
    + by rewrite Hp.
    + by eapply same_view_bounded, (inv_pbound _ _ _ H).
    + rewrite Hsame. eapply knows_pops_mono; [exact Hle | apply H].
  - destruct (load_head _ _ _ _ _ _ (inv_indices _ _ _ H) (inv_pbound _ _ _ H) Hl) as (k & -> & Hk & Hkc & Hle & Hkn & Hbd).
    pose proof (inv_producer _ _ _ H) as Hat. rewrite Hp in Hat. cbn in Hat. subst t. rewrite sl_succ in Ht.
    assert (length L + 1 = k + Size)%nat.
    { rewrite <- (sl_next k) in Ht. symmetry in Ht. destruct (Nat.le_gt_cases (S (length L)) k); [lia|].
      destruct (decide (S (length L) = k + Size)%nat); [lia|]. rewrite sl_next in Ht. apply mod_same in Ht; lia. }
    exists L, c. split.
    + apply inv_producer_moves; try done; [by rewrite Hp | by rewrite Hk].
    + apply ws_full; [cbn; lia|]. rewrite length_drop. cbn. lia.
  - destruct (load_head _ _ _ _ _ _ (inv_indices _ _ _ H) (inv_pbound _ _ _ H) Hl) as (k & -> & Hk & Hkc & Hle & Hkn & Hbd).
    pose proof (inv_producer _ _ _ H) as Hat. rewrite Hp in Hat. cbn in Hat. subst t. rewrite sl_succ in Ht.
    apply producer_silent; try done; [by rewrite Hp | by rewrite Hk |]. rewrite Hk. split; [done|].
    assert (S (length L) <> k + Size)%nat by (intros E; apply Ht; by rewrite E, sl_next). lia.
  - exists L, c. split; [by apply push_write_inv|]. by constructor.
  - exists (L ++ [item]), c. split; [by apply push_store_inv|]. rewrite Hp in Hrm. cbn in Hrm.
    unfold weak_of. cbn [at_producer th_pview th_cview].
    replace (length (L ++ [item]) - th_cview s LTail)%nat with (S (length L - th_cview s LTail)) by (rewrite length_app; cbn; lia).
    change (stored_view (m_tail (th_mem s)) LTail (th_pview s) LHead) with (th_pview s LHead).
    rewrite drop_app_le by lia. apply ws_push. rewrite length_drop. lia.
Qed.

Lemma pop_simulates s L c e s' :
  inv s L c -> pop_step Size moved LockFreeQueue_orders s e s' -> simulates s L c e s'.
Proof.
  intros H Hstep. destruct (inv_counts _ _ _ H) as (Ha & Hav & Hb & Hroom).
  destruct Hstep as [h V Hc Hl|h t V Hc Hl Ht|h t V Hc Hl Ht|h item Hc Ho Hx|h item Hc].
  - destruct (load_own _ _ _ _ _ _ Hl (ix_head_length _ _ _ (inv_indices _ _ _ H)) (inv_chead _ _ _ H))
      as ([R HR] & _ & Hsame). destruct (ix_head _ _ _ (inv_indices _ _ _ H) _ _ _ HR) as [-> _].
    pose proof (same_view_le _ _ Hsame) as Hle. apply consumer_silent; try done.
    + by rewrite Hc.
    + by eapply same_view_bounded, (inv_cbound _ _ _ H).
    + rewrite Hsame. eapply knows_pushes_mono; [exact Hle | apply H].
  - destruct (load_tail _ _ _ _ _ _ (inv_indices _ _ _ H) (inv_cbound _ _ _ H) Hl) as (k & -> & Hk & Hkc & Hle & Hkn & Hbd).
    pose proof (inv_consumer _ _ _ H) as Hat. rewrite Hc in Hat, Hav. cbn in Hat, Hav. rewrite Hat in Ht.
    apply mod_same in Ht as <-; [|lia..]. exists L, c. split.
    + apply inv_consumer_moves; try done; [by rewrite Hc | by rewrite Hk].
    + apply ws_empty; [cbn; lia|]. rewrite length_drop. cbn. lia.
  - destruct (load_tail _ _ _ _ _ _ (inv_indices _ _ _ H) (inv_cbound _ _ _ H) Hl) as (k & -> & Hk & Hkc & Hle & Hkn & Hbd).
    pose proof (inv_consumer _ _ _ H) as Hat. rewrite Hc in Hat, Hav. cbn in Hat, Hav. subst h.
    apply consumer_silent; try done; [by rewrite Hc | by rewrite Hk |]. rewrite Hk. split; [done|].
    assert (c <> k) by congruence. lia.
  - exists L, c. split; [by apply pop_move_inv|]. by constructor.
  - exists L, (S c). split; [by eapply pop_store_inv|]. pose proof (inv_consumer _ _ _ H) as Hat. rewrite Hc in Hat, Hav.
    destruct Hat as [_ Hi]. cbn in Hav. apply lookup_app_Some in Hi as [Hi|[? _]]; [|lia].
    unfold weak_of. cbn [at_consumer th_pview th_cview]. rewrite (drop_S _ _ _ Hi).
    change (stored_view (m_head (th_mem s)) LHead (th_cview s) LTail) with (th_cview s LTail).
    replace (S c - th_pview s LHead)%nat with (S (c - th_pview s LHead)) by lia. apply ws_pop. rewrite length_drop. lia.
Qed.

Definition WeakFifo_make : WeakFifo (A := A) := {| ws_items := []; ws_unseen_pops := 0; ws_unseen_pushes := 0 |}.

Lemma memory_run_simulates es s :
  memory_run Size moved LockFreeQueue_orders (Threads_make moved) es s ->
  exists L c, inv s L c /\ weak_run Size WeakFifo_make es (weak_of s L c).
Proof.
  intros Hr. remember (Threads_make moved) as s0 eqn:E.
  induction Hr as [s|s es s1 e s2 _ IH Hs|s es s1 e s2 _ IH Hs]; subst.
  - exists [], 0%nat. split; [apply inv_make | constructor].
  - destruct (IH eq_refl) as (L & c & Hi & Hw). destruct (push_simulates _ _ _ _ _ Hi Hs) as (L' & c' & Hi' & Hstep).
    exists L', c'. split; [done | by econstructor].
  - destruct (IH eq_refl) as (L & c & Hi & Hw). destruct (pop_simulates _ _ _ _ _ Hi Hs) as (L' & c' & Hi' & Hstep).
    exists L', c'. split; [done | by econstructor].
Qed.

(** What went in and what came out. *)
Definition pushed (es : list (QueueEvent A)) : list A := omap (fun e => match e with Pushed x => Some x | _ => None end) es.
Definition popped (es : list (QueueEvent A)) : list A := omap (fun e => match e with Popped x => Some x | _ => None end) es.

Lemma weak_run_order es w : weak_run Size WeakFifo_make es w -> pushed es = popped es ++ ws_items w.
Proof.
  intros Hr. remember WeakFifo_make as w0 eqn:E. induction Hr as [w|w es w1 e w2 _ IH Hs]; subst; [done|].
  specialize (IH eq_refl). unfold pushed, popped in *. rewrite !omap_app, IH.
  destruct Hs; cbn; rewrite ?app_nil_r, <- ?app_assoc; done.
Qed.

Lemma weak_of_room s L c : inv s L c -> (length (ws_items (weak_of s L c)) <= Size - 1)%nat.
Proof. intros H. destruct (inv_counts _ _ _ H) as (_ & _ & _ & Hr). cbn. rewrite length_drop. lia. Qed.

End Correct.

(** ** Properties *)

(** C28: one producer and one consumer can use the queue at the same time under the
    memory orders the code asks for. No slot of the array is ever accessed in a data
    race, although the slots are plain variables; the queue refines a FIFO of bounded
    capacity whose two ends see each other late, so that [push] refuses an item only
    when as many items as fit have been pushed since the last pop the producer knows
    of, and [pop] finds nothing only when it knows of no item that is left; and what is
    popped is what was pushed, in that order, with nothing lost or doubled. *)
Theorem queue_memory_safe {A : Type} (Size : nat) (moved : A) (es : list (QueueEvent A)) (s : Threads (A := A)) :
  (0 < Size)%nat -> memory_run Size moved LockFreeQueue_orders (Threads_make moved) es s ->
  ~ data_race s /\
  exists w, weak_run Size WeakFifo_make es w /\ (length (ws_items w) <= Size - 1)%nat /\
    pushed es = popped es ++ ws_items w.
Proof.
  intros HS Hr. destruct (memory_run_simulates Size moved HS es s Hr) as (L & c & Hi & Hw). split.
  - by eapply inv_race_free.
  - exists (weak_of s L c). split_and!; [done | by apply (weak_of_room Size) | by eapply weak_run_order].
Qed.

(** The code's orders, with another one for the store of [push] and for the load of the
    tail in [pop]. *)
Definition orders_with (st ld : MemoryOrder) : Orders :=
  {| push_tail := relaxed; push_head := acquire; push_store := st;
     pop_head := relaxed; pop_tail := ld; pop_store := release |}.

(** An item has been pushed, and the consumer has loaded its own index. *)
Lemma one_pushed {A : Type} (Size : nat) (moved item : A) (st ld : MemoryOrder) :
  (1 < Size)%nat ->
  exists s, memory_run Size moved (orders_with st ld) (Threads_make moved) [Silent; Silent; Silent; Pushed item; Silent] s /\
    th_consumer s = CHead 0 /\ th_cview s = view_set LHead 0 view_bot /\ length (m_slots (th_mem s) 0) = 2%nat /\
    exists R, m_tail (th_mem s) = [(0%nat, view_bot); (1%nat, R)] /\ (st <> release -> R = view_bot).
Proof.
  intros HS. assert (Hmod : ((0 + 1) mod Size)%nat = 1%nat) by (rewrite Nat.mod_small; lia).
  set (ord := orders_with st ld). set (s0 := Threads_make moved : Threads (A := A)).
  pose proof (memory_run_push Size moved ord s0 [] s0 _ _ (memory_run_nil _ _ _ s0)
    (pm_load_tail Size ord s0 item _ _ eq_refl
      (load_intro (m_tail (th_mem s0)) LTail relaxed (th_pview s0) 0 0 view_bot eq_refl (le_n 0)))) as H1.
  match type of H1 with memory_run _ _ _ _ _ ?x => set (s1 := x) in H1 end.
  pose proof (memory_run_push Size moved ord s0 _ s1 _ _ H1
    (pm_load_head Size ord s1 item _ _ _ eq_refl
      (load_intro (m_head (th_mem s1)) LHead acquire (th_pview s1) 0 0 view_bot eq_refl (le_n 0)) ltac:(by rewrite Hmod))) as H2.
  match type of H2 with memory_run _ _ _ _ _ ?x => set (s2 := x) in H2 end.
  pose proof (memory_run_push Size moved ord s0 _ s2 _ _ H2 (pm_write Size ord s2 item 0 eq_refl eq_refl)) as H3.
  match type of H3 with memory_run _ _ _ _ _ ?x => set (s3 := x) in H3 end.
  pose proof (memory_run_push Size moved ord s0 _ s3 _ _ H3 (pm_store Size ord s3 item 0 eq_refl)) as H4.
  match type of H4 with memory_run _ _ _ _ _ ?x => set (s4 := x) in H4 end.
  pose proof (memory_run_pop Size moved ord s0 _ s4 _ _ H4
    (cm_load_head Size moved ord s4 _ _ eq_refl
      (load_intro (m_head (th_mem s4)) LHead relaxed (th_cview s4) 0 0 view_bot eq_refl (le_n 0)))) as H5.
  eexists. split; [exact H5|]. split; [done|]. split; [done|]. split; [done|]. eexists. split.
  - change (m_tail _) with (store (m_tail (th_mem s3)) LTail st (th_pview s3) ((0 + 1) mod Size)%nat) at 1.
    rewrite Hmod. reflexivity.
  - by destruct st.
Qed.

(** The release and the acquire of the tail are both needed: when one of them is
    relaxed, the consumer can be told of an item whose slot it then reads in a data
    race. *)
Theorem queue_orders_needed {A : Type} (Size : nat) (moved item : A) (st ld : MemoryOrder) :
  (1 < Size)%nat -> (st, ld) = (relaxed, acquire) \/ (st, ld) = (release, relaxed) ->
  exists es s, memory_run Size moved (orders_with st ld) (Threads_make moved) es s /\ data_race s.
Proof.
  intros HS Hord. destruct (one_pushed Size moved item st ld HS) as (s & Hrun & Hc & HV & Hlen & R & Ht & HR).
  eexists _, _. split.
  - eapply memory_run_pop; [exact Hrun|]. eapply (cm_load_tail _ _ _ s 0 1); [done | | done].
    eapply (load_intro _ _ _ _ 1); [by rewrite Ht | rewrite HV; change (0 <= 1)%nat; lia].
  - right. exists 0%nat. split; [done|]. unfold ordered. cbn [at_consumer th_mem th_cview]. rewrite Hlen, HV.
    by destruct Hord as [[= -> ->]|[= -> ->]]; cbn; [rewrite HR|].
Qed.

(** The consumer loads an old tail and finds nothing, although an item was pushed. *)
Lemma queue_memory_safe_witness :
  exists es s, memory_run 2 0%nat LockFreeQueue_orders (Threads_make 0%nat) es s /\
    pushed es = [7%nat] /\ popped es = [] /\ In PopEmpty es /\ ~ data_race s.
Proof.
  destruct (one_pushed 2 0%nat 7%nat release acquire ltac:(lia)) as (s & Hrun & Hc & HV & Hlen & R & Ht & HR).
  assert (Hstep : pop_step 2 0%nat LockFreeQueue_orders s PopEmpty
    (at_consumer CIdle (view_join (view_set LTail 0 (th_cview s)) view_bot) (th_mem s) s)).
  { eapply (cm_empty _ _ _ s 0 0); [exact Hc | | reflexivity].
    apply (load_intro _ LTail acquire _ 0); [rewrite Ht; reflexivity | rewrite HV; change (0 <= 0)%nat; lia]. }
  pose proof (memory_run_pop _ _ _ _ _ _ _ _ Hrun Hstep) as Hrun'.
  destruct (queue_memory_safe 2 0%nat _ _ ltac:(lia) Hrun') as (Hrace & _).
  eexists _, _. split; [exact Hrun'|]. split; [reflexivity|]. split; [reflexivity|].
  split; [cbn; tauto | exact Hrace].
Defined.
