(* ===== verification/Crypto.v ===== *)
(** Encryption between users: key derivation, AES-GCM records with a message
    counter, the key classes and [EncryptionService]
    ([include/infrastructure/crypto/], [src/infrastructure/crypto/],
    [src/application/encryption_service.cpp]). OpenSSL is a parameter. *)
From S2P Require Import Prelude Message Wire.

(** ** What the code calls of OpenSSL *)

(** The calls, each with the result the code looks at: whether it succeeded, or
    what it produced. [pkey] stands for an [EVP_PKEY]. Where the code passes
    [v.data()] with [v.size()] as an [int], the call takes the bytes and that
    [int]. *)
Class OpenSSL := {
  pkey : Type;
  (* HKDF *)
  hkdf_ctx_new : bool;
  hkdf_init : bool;
  hkdf_set_md : bool;
  hkdf_set_key : bytes * Z -> bool;
  hkdf_set_salt : bytes * Z -> bool;
  hkdf_add_info : bytes * Z -> bool;
  hkdf_derive : bytes * Z -> option (bytes * Z) -> option (bytes * Z) -> nat -> option bytes;
  (* AES-256-GCM; [std::strerror(errno)] after a failed call *)
  errno_text : string;
  gcm_encrypt : bytes -> bytes -> bytes -> bytes * Z -> option bytes;
  gcm_get_tag : bytes -> bytes -> bytes -> bytes * Z -> option bytes;
  gcm_decrypt_init : bytes -> bytes -> bool;
  gcm_decrypt_update : bytes -> bytes -> bytes -> bytes * Z -> option bytes;
  gcm_set_tag : bytes -> bool;
  gcm_decrypt_final : bytes -> bytes -> bytes -> bytes * Z -> bytes -> bool;
  (* Keys *)
  x25519_from_public : bytes -> option pkey;
  ed25519_from_public : bytes -> option pkey;
  ed25519_from_private : bytes -> option pkey;
  raw_public_size : pkey -> bool;
  get_raw_public_key : pkey -> option bytes;
  raw_private_size : pkey -> bool;
  get_raw_private_key : pkey -> option bytes;
  x25519_derive : pkey -> pkey -> option bytes;
  (* not a call: an X25519 key with its private half, as the key generation makes it *)
  x25519_private : pkey -> bool;
  md_ctx_new : bool;
  digest_sign_init : pkey -> bool;
  digest_sign_size : pkey -> bytes -> bool;
  digest_sign : pkey -> bytes -> option bytes;
  digest_verify_init : pkey -> bool;
  digest_verify : pkey -> bytes -> bytes -> bool;
}.

Section Crypto.
  Context {ssl : OpenSSL}.

(** [v.data(), v.size()] where the length is an [int]: the size is narrowed. *)
Definition int_sized (v : bytes) : bytes * Z := (v, i32 (zsize v)).

(** ** [HKDF] *)

Definition HKDF_derive (ikm salt info : bytes) (output_len : nat) : outcome bytes :=
  if negb hkdf_ctx_new then Throw (runtime_error "Failed to create HKDF context")
  else if negb hkdf_init then Throw (runtime_error "HKDF init failed")
  else if negb hkdf_set_md then Throw (runtime_error "Failed to set HKDF hash")
  else if negb (hkdf_set_key (int_sized ikm)) then Throw (runtime_error "Failed to set HKDF key")
  else if negb (is_empty salt) && negb (hkdf_set_salt (int_sized salt))
  then Throw (runtime_error "Failed to set HKDF salt")
  else if negb (is_empty info) && negb (hkdf_add_info (int_sized info))
  then Throw (runtime_error "Failed to set HKDF info")
  else
    match hkdf_derive (int_sized ikm) (if is_empty salt then None else Some (int_sized salt))
            (if is_empty info then None else Some (int_sized info)) output_len with
    | None => Throw (runtime_error "HKDF derivation failed")
    | Some k => Ok k
    end.

(** [operator<] on [std::vector<uint8_t>]: lexicographic. *)
Fixpoint bytes_lt (a b : bytes) : bool :=
  match a, b with
  | _, [] => false
  | [], _ :: _ => true
  | x :: a', y :: b' =>
      if b2z x <? b2z y then true else if b2z y <? b2z x then false else bytes_lt a' b'
  end.

Definition derive_for_messaging (shared_secret sender_id receiver_id : bytes) (purpose : string) :
    outcome bytes :=
  let salt := if bytes_lt sender_id receiver_id then sender_id ++ receiver_id
              else receiver_id ++ sender_id in
  HKDF_derive shared_secret salt (sbytes ("messaging-key-" +:+ purpose)) 32.

(** ** [AESGCMEncryptor] *)

(** [iv] is what [RAND_bytes] produced, if it succeeded. The key is read as 32
    bytes. The results of the calls that encrypt are not looked at: when they
    fail, [out_len1] and [out_len2] are read without having been written. The
    ciphertext is cut to the lengths OpenSSL reports, for a plaintext whose size
    is passed as an [int]. *)
Definition AES_encrypt (iv : option bytes) (key plaintext : bytes) (counter : Z) : outcome bytes :=
  match iv with
  | None => Throw (runtime_error "Failed to generate IV")
  | Some iv =>
      if zsize key <? 32 then Undef
      else
        let aad := map (fun i => z2b (Z.land (Z.shiftr counter (i * 8)) 0xFF)) (seqZ 0 8) in
        match gcm_encrypt key iv aad (int_sized plaintext) with
        | None => Undef
        | Some ciphertext =>
            match gcm_get_tag key iv aad (int_sized plaintext) with
            | None => Throw (runtime_error "Failed to get GCM tag")
            | Some tag => Ok (iv ++ aad ++ ciphertext ++ tag)
            end
        end
  end.

Definition AES_decrypt (key input : bytes) (counter : Z) : outcome bytes :=
  let iv_len := 12 in
  let counter_len := 8 in
  let tag_len := 16 in
  if zsize input <? iv_len + counter_len + tag_len
  then Throw (runtime_error "Ciphertext too short")
  else
    let ciphertext_len := zsize input - iv_len - counter_len - tag_len in
    iv ← range input 0 iv_len;
    counter_bytes ← range input iv_len (iv_len + counter_len);
    ciphertext ← range input (iv_len + counter_len) (iv_len + counter_len + ciphertext_len);
    tag ← range input (iv_len + counter_len + ciphertext_len)
            (iv_len + counter_len + ciphertext_len + tag_len);
    received_counter ← read_u64_loop counter_bytes 0 8 0 0;
    if negb (received_counter =? counter)
    then Throw (runtime_error "Replay attack detected or counter mismatch")
    else if zsize key <? 32 then Undef
    else if negb (gcm_decrypt_init key iv)
      then Throw (runtime_error ("EVP_DecryptInit_ex failed: " +:+ errno_text))
    else
      match gcm_decrypt_update key iv counter_bytes (int_sized ciphertext) with
      | None => Throw (runtime_error "DecryptUpdate failed")
      | Some plaintext =>
          if negb (gcm_set_tag tag) then Throw (runtime_error "SetTag failed")
          else if negb (gcm_decrypt_final key iv counter_bytes (int_sized ciphertext) tag)
          then Throw (runtime_error "DecryptFinal failed: authentication failure")
          else Ok plaintext
      end.

(** ** [DH_Key] and [IdentityKey]: a pointer to a key, or null *)

Abbreviation DH_Key := (option pkey).
Abbreviation IdentityKey := (option pkey).

(** OpenSSL dereferences the key it is asked about. *)
Definition DH_public_bytes (k : DH_Key) : outcome bytes :=
  match k with
  | None => Undef
  | Some p => if negb (raw_public_size p) then Ok [] else Ok (default [] (get_raw_public_key p))
  end.

Definition DH_private_bytes (k : DH_Key) : outcome bytes :=
  match k with
  | None => Undef
  | Some p => if negb (raw_private_size p) then Ok [] else Ok (default [] (get_raw_private_key p))
  end.

(** Every failure gives an empty secret. *)
Definition compute_shared_secret (k other_public_key : DH_Key) : bytes :=
  match k, other_public_key with
  | Some p, Some q => default [] (x25519_derive p q)
  | _, _ => []
  end.

Definition DH_from_public_bytes (pub_bytes : bytes) : outcome DH_Key :=
  match x25519_from_public pub_bytes with
  | None => Throw (runtime_error "Failed to create IdentityKey from public bytes")
  | Some p => Ok (Some p)
  end.

Definition Identity_sign (k : IdentityKey) (message : bytes) : outcome bytes :=
  match k with
  | None => Throw (runtime_error "No private key")
  | Some p =>
      if negb md_ctx_new then Throw (runtime_error "Failed to create MD Context")
      else if negb (digest_sign_init p) then Throw (runtime_error "DigestSignInit failed")
      else if negb (digest_sign_size p message)
      then Throw (runtime_error "DigestSign (size) failed")
      else match digest_sign p message with
           | None => Throw (runtime_error "DigestSign failed")
           | Some s => Ok s
           end
  end.

Definition Identity_verify (k : IdentityKey) (pubkey signature : bytes) : outcome bool :=
  match k with
  | None => Throw (runtime_error "No public key")
  | Some p =>
      if negb md_ctx_new then Throw (runtime_error "MD_CTX failed")
      else if negb (digest_verify_init p) then Throw (runtime_error "VerifyInit failed")
      else Ok (digest_verify p signature pubkey)
  end.

Definition Identity_public_bytes (k : IdentityKey) : outcome bytes :=
  match k with
  | None => Undef
  | Some p =>
      if negb (raw_public_size p) then Throw (runtime_error "Failed to get public key size")
      else match get_raw_public_key p with
           | None => Throw (runtime_error "Failed to get public key")
           | Some b => Ok b
           end
  end.

Definition Identity_private_bytes (k : IdentityKey) : outcome bytes :=
  match k with
  | None => Undef
  | Some p =>
      if negb (raw_private_size p) then Throw (runtime_error "Failed to get private key size")
      else match get_raw_private_key p with
           | None => Throw (runtime_error "Failed to get private key")
           | Some b => Ok b
           end
  end.

Definition Identity_from_private_bytes (b : bytes) : outcome IdentityKey :=
  match ed25519_from_private b with
  | None => Throw (runtime_error "Failed to create key from private bytes")
  | Some p => Ok (Some p)
  end.

Definition Identity_from_public_bytes (b : bytes) : outcome IdentityKey :=
  match ed25519_from_public b with
  | None => Throw (runtime_error "Failed to create from public bytes")
  | Some p => Ok (Some p)
  end.

(** What the calls of [generate] give: no context, a failure, or a key. *)
Inductive Keygen :=
| NoContext
| KeygenFailed
| Generated (p : pkey).

Definition DH_generate (g : Keygen) : outcome DH_Key :=
  match g with
  | NoContext => Throw (runtime_error "Failed to create context")
  | KeygenFailed => Throw (runtime_error "Failed to generate X25519 key")
  | Generated p => Ok (Some p)
  end.

Definition Identity_generate (g : Keygen) : outcome IdentityKey :=
  match g with
  | NoContext => Throw (runtime_error "Failed to create context")
  | KeygenFailed => Throw (runtime_error "Failed to generate Ed25519 key")
  | Generated p => Ok (Some p)
  end.

(** The files, over the working directory [files]; [can_write] tells whether a
    path can be opened for writing. *)
Definition Identity_file_exists (files : gmap string bytes) (path : string) : bool :=
  bool_decide (is_Some (files !! path)).

Definition Identity_load_file (files : gmap string bytes) (path : string) : outcome bytes :=
  match files !! path with
  | None => Throw (runtime_error "Failed to open file")
  | Some data => Ok data
  end.

Definition Identity_save_file (can_write : string -> bool) (files : gmap string bytes)
    (path : string) (data : bytes) : outcome (gmap string bytes) :=
  if can_write path then Ok (<[path := data]> files)
  else Throw (runtime_error "Failed to write file").

(** ** [EncryptionService] *)

Record EncryptionService := {
  es_DH_key : DH_Key;
  es_identity_key : IdentityKey;
  es_DH_keys : gmap bytes DH_Key;
  es_identity_keys : gmap bytes IdentityKey;
}.

Definition EncryptionService_new : EncryptionService :=
  {| es_DH_key := None; es_identity_key := None; es_DH_keys := ∅; es_identity_keys := ∅ |}.

(** [set_key], over the files of the working directory: the identity key is
    read from "identity.key", or generated and written there. *)
Definition ES_set_key (gen_dh gen_id : Keygen) (can_write : string -> bool)
    (files : gmap string bytes) (s : EncryptionService) :
    outcome (EncryptionService * gmap string bytes) :=
  dh ← DH_generate gen_dh;
  let path := "identity.key"%string in
  let with_keys idk := {| es_DH_key := dh; es_identity_key := idk; es_DH_keys := es_DH_keys s;
                          es_identity_keys := es_identity_keys s |} in
  if Identity_file_exists files path then
    data ← Identity_load_file files path;
    idk ← Identity_from_private_bytes data;
    Ok (with_keys idk, files)
  else
    idk ← Identity_generate gen_id;
    data ← Identity_private_bytes idk;
    files ← Identity_save_file can_write files path data;
    Ok (with_keys idk, files).

Definition ES_get_DH_bytes (s : EncryptionService) : outcome bytes := DH_public_bytes (es_DH_key s).

Definition ES_get_identity_bytes (s : EncryptionService) : outcome bytes :=
  Identity_public_bytes (es_identity_key s).

Definition ES_sign (s : EncryptionService) : outcome bytes :=
  b ← DH_public_bytes (es_DH_key s);
  Identity_sign (es_identity_key s) b.

Definition key_not_found (who : bytes) : exn :=
  runtime_error ("User public " +:+ bstr who +:+ " key not found").

Definition ES_encrypt_for (iv : option bytes) (s : EncryptionService)
    (sender username plaintext : bytes) (counter : Z) : outcome bytes :=
  match es_DH_keys s !! username with
  | None => Throw (key_not_found username)
  | Some other =>
      let shared_secret := compute_shared_secret (es_DH_key s) other in
      encryption_key ← derive_for_messaging shared_secret sender username "encryption";
      AES_encrypt iv encryption_key plaintext counter
  end.

(** [identity_keys[sender]] adds an empty key when there is none. *)
Definition ES_decrypt_for (s : EncryptionService) (sender username ciphertext signature : bytes)
    (counter : Z) : outcome bytes * EncryptionService :=
  match es_DH_keys s !! sender with
  | None => (Throw (key_not_found sender), s)
  | Some other =>
      let idk := default None (es_identity_keys s !! sender) in
      let s' := {| es_DH_key := es_DH_key s; es_identity_key := es_identity_key s;
                   es_DH_keys := es_DH_keys s;
                   es_identity_keys := <[sender := idk]> (es_identity_keys s) |} in
      (pub ← DH_public_bytes other;
       ok ← Identity_verify idk pub signature;
       if negb ok then Throw (runtime_error "MITM detected!")
       else
         let shared_secret := compute_shared_secret (es_DH_key s) other in
         decryption_key ← derive_for_messaging shared_secret sender username "encryption";
         AES_decrypt decryption_key ciphertext counter, s')
  end.

(** The first key stays cached when the second one is refused. *)
Definition ES_cache_public_key (s : EncryptionService) (username pubkey identity_key : bytes) :
    outcome unit * EncryptionService :=
  match DH_from_public_bytes pubkey with
  | Throw e => (Throw e, s)
  | Undef => (Undef, s)
  | Ok k =>
      let s1 := {| es_DH_key := es_DH_key s; es_identity_key := es_identity_key s;
                   es_DH_keys := <[username := k]> (es_DH_keys s);
                   es_identity_keys := es_identity_keys s |} in
      match Identity_from_public_bytes identity_key with
      | Throw e => (Throw e, s1)
      | Undef => (Undef, s1)
      | Ok i =>
          (Ok tt, {| es_DH_key := es_DH_key s1; es_identity_key := es_identity_key s1;
                     es_DH_keys := es_DH_keys s1;
                     es_identity_keys := <[username := i]> (es_identity_keys s1) |})
      end
  end.

End Crypto.

(** ** What is documented of OpenSSL *)

(** The key [q] is the public part of [p], sent as raw bytes. *)
Definition public_part `{OpenSSL} (p q : pkey) : Prop :=
  exists b, get_raw_public_key p = Some b /\ x25519_from_public b = Some q.

Class OpenSSLLaws `{ssl : OpenSSL} : Prop := {
  hkdf_length ikm salt info n k : hkdf_derive ikm salt info n = Some k -> zsize k = Z.of_nat n;
  (* of [n] bytes, [n] bytes are made: for a length that an [int] holds *)
  gcm_length key iv aad pt ct :
    zsize pt < 2 ^ 31 -> gcm_encrypt key iv aad (pt, zsize pt) = Some ct -> zsize ct = zsize pt;
  gcm_tag_length key iv aad pt tag : gcm_get_tag key iv aad pt = Some tag -> zsize tag = 16;
  (* decrypting with the right tag gives the plaintext back *)
  gcm_roundtrip key iv aad pt ct tag :
    zsize key = 32 -> zsize iv = 12 -> zsize pt < 2 ^ 31 ->
    gcm_encrypt key iv aad (pt, zsize pt) = Some ct ->
    gcm_get_tag key iv aad (pt, zsize pt) = Some tag ->
    gcm_decrypt_init key iv = true /\
    gcm_decrypt_update key iv aad (ct, zsize ct) = Some pt /\
    gcm_set_tag tag = true /\
    gcm_decrypt_final key iv aad (ct, zsize ct) tag = true;
  (* Diffie-Hellman: two owners of private keys compute the same secret *)
  x25519_agree a b qa qb :
    x25519_private a = true -> x25519_private b = true ->
    public_part a qa -> public_part b qb -> x25519_derive a qb = x25519_derive b qa;
}.

(** Raw public keys are read back as they were, and a signature made with a key
    verifies with its public part. *)
Class OpenSSLKeyLaws `{ssl : OpenSSL} : Prop := {
  x25519_raw b q :
    x25519_from_public b = Some q -> raw_public_size q = true /\ get_raw_public_key q = Some b;
  ed25519_verifies k b q m s :
    get_raw_public_key k = Some b -> ed25519_from_public b = Some q -> digest_sign k m = Some s ->
    digest_verify_init q = true /\ digest_verify q s m = true;
}.

Lemma bytes_lt_trichotomy a : forall b,
  bytes_lt a b = false -> bytes_lt b a = false -> a = b.
Proof.
  induction a as [|x a IH]; intros [|y b]; cbn; try done. intros H1 H2.
  repeat (case_match; bools; try done); f_equal; [apply b2z_inj; lia | by apply IH].
Qed.

Lemma bytes_lt_asym a : forall b, bytes_lt a b = true -> bytes_lt b a = false.
Proof.
  induction a as [|x a IH]; intros [|y b]; cbn; try done. intros H1.
  repeat (case_match; bools; try done); try lia. by apply IH.
Qed.

Definition ordered_pair (a b : bytes) : bytes := if bytes_lt a b then a ++ b else b ++ a.

Lemma ordered_pair_comm a b : ordered_pair a b = ordered_pair b a.
Proof.
  unfold ordered_pair. destruct (bytes_lt a b) eqn:E1.
  - by rewrite (bytes_lt_asym _ _ E1).
  - destruct (bytes_lt b a) eqn:E2; [done|]. by rewrite (bytes_lt_trichotomy a b).
Qed.

Section Roundtrip.
  Context {ssl : OpenSSL} {laws : OpenSSLLaws}.

Lemma derive_comm secret a b purpose :
  derive_for_messaging secret a b purpose = derive_for_messaging secret b a purpose.
Proof.
  unfold derive_for_messaging. fold (ordered_pair a b) (ordered_pair b a).
  by rewrite ordered_pair_comm.
Qed.

Lemma HKDF_derive_length ikm salt info n k :
  HKDF_derive ikm salt info n = Ok k -> zsize k = Z.of_nat n.
Proof.
  unfold HKDF_derive. intros H. repeat (case_match; try done);
    simplify_eq; by eapply hkdf_length.
Qed.

Lemma derive_length secret a b purpose k :
  derive_for_messaging secret a b purpose = Ok k -> zsize k = 32.
Proof. unfold derive_for_messaging. by intros ->%HKDF_derive_length. Qed.

(** The four parts of a record. *)
Lemma AES_decrypt_parts key iv ct tag counter n :
  zsize iv = 12 -> zsize tag = 16 -> 0 <= n < 2 ^ 64 ->
  AES_decrypt key (iv ++ write_u64 n ++ ct ++ tag) counter
  = if negb (n =? counter) then Throw (runtime_error "Replay attack detected or counter mismatch")
    else if zsize key <? 32 then Undef
    else if negb (gcm_decrypt_init key iv)
      then Throw (runtime_error ("EVP_DecryptInit_ex failed: " +:+ errno_text))
    else
      match gcm_decrypt_update key iv (write_u64 n) (int_sized ct) with
      | None => Throw (runtime_error "DecryptUpdate failed")
      | Some plaintext =>
          if negb (gcm_set_tag tag) then Throw (runtime_error "SetTag failed")
          else if negb (gcm_decrypt_final key iv (write_u64 n) (int_sized ct) tag)
          then Throw (runtime_error "DecryptFinal failed: authentication failure")
          else Ok plaintext
      end.
Proof.
  intros Hiv Htag Hn. unfold AES_decrypt. cbv zeta.
  destruct (Z.ltb_spec (zsize (iv ++ write_u64 n ++ ct ++ tag)) (12 + 8 + 16)) as [?|_]; [sizes|].
  assert (zsize (iv ++ write_u64 n ++ ct ++ tag) - 12 - 8 - 16 = zsize ct) as -> by sizes.
  set (l := iv ++ write_u64 n ++ ct ++ tag).
  rewrite (range_at l [] iv (write_u64 n ++ ct ++ tag) 0 12) by (done || sizes). cbn [mbind outcome_bind].
  rewrite (range_at l iv (write_u64 n) (ct ++ tag) 12 (12 + 8)) by (done || sizes). cbn [mbind outcome_bind].
  rewrite (range_at l (iv ++ write_u64 n) ct tag (12 + 8) (12 + 8 + zsize ct)) by (unfold l; by rewrite <- ?app_assoc || sizes).
  cbn [mbind outcome_bind].
  rewrite (range_at l (iv ++ write_u64 n ++ ct) tag [] (12 + 8 + zsize ct) (12 + 8 + zsize ct + 16))
    by (unfold l; by rewrite ?app_nil_r, <- ?app_assoc || sizes).
  cbn [mbind outcome_bind].
  pose proof (read_write_u64 [] [] 0 n eq_refl) as Hr. unfold read_u64 in Hr. cbn [app] in Hr.
  rewrite app_nil_r in Hr. rewrite Hr.
  cbn [mbind outcome_bind]. unfold u64. by rewrite Z.mod_small.
Qed.

Lemma int_sized_small v : zsize v < 2 ^ 31 -> int_sized v = (v, zsize v).
Proof. intros H. unfold int_sized. rewrite i32_small; [done|]. sizes. Qed.

Lemma AES_encrypt_parts iv key pt counter rec :
  AES_encrypt (Some iv) key pt counter = Ok rec ->
  exists ct tag, gcm_encrypt key iv (write_u64 counter) (int_sized pt) = Some ct /\
    gcm_get_tag key iv (write_u64 counter) (int_sized pt) = Some tag /\
    rec = iv ++ write_u64 counter ++ ct ++ tag.
Proof.
  unfold AES_encrypt, write_u64. intros H. repeat (case_match; try done). simplify_eq. eauto.
Qed.

Lemma AES_encrypt_size iv key pt counter rec :
  zsize iv = 12 -> zsize pt < 2 ^ 31 ->
  AES_encrypt (Some iv) key pt counter = Ok rec -> zsize rec = zsize pt + 36.
Proof.
  intros Hiv Hpt (ct & tag & Hct & Ht & ->)%AES_encrypt_parts. apply gcm_tag_length in Ht.
  rewrite int_sized_small in Hct by done. apply gcm_length in Hct; [|done]. sizes.
Qed.

Lemma AES_roundtrip iv key pt counter rec c :
  zsize iv = 12 -> zsize key = 32 -> 0 <= counter < 2 ^ 64 -> zsize pt < 2 ^ 31 ->
  AES_encrypt (Some iv) key pt counter = Ok rec ->
  AES_decrypt key rec c
  = if c =? counter then Ok pt else Throw (runtime_error "Replay attack detected or counter mismatch").
Proof.
  intros Hiv Hk Hc Hpt (ct & tag & Hct & Ht & ->)%AES_encrypt_parts.
  rewrite AES_decrypt_parts by eauto using gcm_tag_length.
  rewrite (Z.eqb_sym c counter). destruct (counter =? c); [|done]. cbn [negb].
  rewrite int_sized_small in Hct, Ht by done.
  rewrite int_sized_small by (by rewrite (gcm_length _ _ _ _ _ Hpt Hct)).
  destruct (gcm_roundtrip _ _ _ _ _ _ Hk Hiv Hpt Hct Ht) as (-> & -> & -> & ->).
  case_match; bools; [lia | done].
Qed.

(** What [b], with the name [nb], has to know of [a], with the name [na]. *)
Record paired (a b : EncryptionService) (na nb sig : bytes) : Prop := {
  pair_keys : exists pa pb qa qb, es_DH_key a = Some pa /\ es_DH_key b = Some pb /\
    x25519_private pa = true /\ x25519_private pb = true /\ public_part pa qa /\ public_part pb qb /\
    es_DH_keys a !! nb = Some (Some qb) /\ es_DH_keys b !! na = Some (Some qa);
  pair_identity : exists ia qa, es_identity_keys b !! na = Some (Some ia) /\
    es_DH_keys b !! na = Some (Some qa) /\ md_ctx_new = true /\ digest_verify_init ia = true /\
    exists d, DH_public_bytes (Some qa) = Ok d /\ digest_verify ia sig d = true;
}.

Lemma end_to_end iv a b na nb sig pt counter rec c :
  paired a b na nb sig -> zsize iv = 12 -> 0 <= counter < 2 ^ 64 -> zsize pt < 2 ^ 31 ->
  ES_encrypt_for (Some iv) a na nb pt counter = Ok rec ->
  (ES_decrypt_for b na nb rec sig c).1
  = if c =? counter then Ok pt else Throw (runtime_error "Replay attack detected or counter mismatch").
Proof.
  intros [(pa & pb & qa & qb & Ha & Hb & Hpa & Hpb & Hqa & Hqb & Hca & Hcb)
          (ia & qa' & Hia & Hcb' & Hmd & Hvi & d & Hd & Hv)] Hiv Hc Hpt He.
  assert (qa' = qa) as -> by congruence.
  unfold ES_encrypt_for in He. rewrite Hca, Ha in He. cbn [compute_shared_secret] in He.
  apply obind_Ok in He as (k & Hk & He). apply derive_length in Hk as Hlen.
  unfold ES_decrypt_for. rewrite Hcb, Hia, Hb. cbn [default from_option id fst]. rewrite Hd.
  cbn [mbind outcome_bind]. unfold Identity_verify. rewrite Hmd, Hvi. cbn [negb mbind outcome_bind].
  rewrite Hv. cbn [negb compute_shared_secret].
  rewrite <- (x25519_agree pa pb qa qb Hpa Hpb Hqa Hqb), Hk. cbn [mbind outcome_bind].
  by apply (AES_roundtrip iv k pt counter rec c).
Qed.

(** ** Properties *)

(** Both users derive the same key: the key for messages between two users does
    not depend on which one is named as the sender. *)
Theorem derive_for_messaging_symmetric (secret a b : bytes) (purpose : string) :
  derive_for_messaging secret a b purpose = derive_for_messaging secret b a purpose.
Proof. apply derive_comm. Qed.

(** Encrypted records, for plaintexts shorter than 2^31 bytes: a record is 36 bytes longer than the plaintext; decrypting
    it with the same key gives the plaintext back when the expected counter is
    the one it was made with, and is rejected as a replay for every other one;
    input shorter than 36 bytes is rejected; decrypting never reads outside the
    input. *)
Theorem AES_record (iv key pt rec input : bytes) (counter c : Z) :
  zsize iv = 12 -> zsize key = 32 -> 0 <= counter < 2 ^ 64 -> zsize pt < 2 ^ 31 ->
  AES_encrypt (Some iv) key pt counter = Ok rec ->
  zsize rec = zsize pt + 36 /\
  AES_decrypt key rec c
  = (if c =? counter then Ok pt
     else Throw (runtime_error "Replay attack detected or counter mismatch")) /\
  (zsize input < 36 -> AES_decrypt key input c = Throw (runtime_error "Ciphertext too short")) /\
  AES_decrypt key input c <> Undef.
Proof.
  intros Hiv Hk Hc Hpt He. split_and!.
  - by eapply AES_encrypt_size.
  - by eapply AES_roundtrip.
  - intros Hs. unfold AES_decrypt. case_match; bools; [done | lia].
  - unfold AES_decrypt. destruct (Z.ltb_spec (zsize input) (12 + 8 + 16)) as [?|Hge]; [done|]. cbv zeta.
    destruct (range_defined input 0 12) as [x1 E1]; [lia..|]. rewrite E1.
    destruct (range_defined input 12 (12 + 8)) as [x2 E2]; [lia..|]. rewrite E2.
    destruct (range_defined input (12 + 8) (12 + 8 + (zsize input - 12 - 8 - 16))) as [x3 ->]; [lia..|].
    destruct (range_defined input (12 + 8 + (zsize input - 12 - 8 - 16))
                (12 + 8 + (zsize input - 12 - 8 - 16) + 16)) as [x4 ->]; [lia..|].
    cbn [mbind outcome_bind]. apply range_Ok in E2 as (_ & _ & _ & Hx2 & _).
    destruct (read_u64_loop x2 0 8 0 0) eqn:E; cbn [mbind outcome_bind]; try done.
    + repeat (case_match; bools; try done); lia.
    + exfalso. by apply (read_u64_defined x2 0); [lia..|].
Qed.

(** C26: end to end: what one user encrypts for another, with the public keys both
    have cached (each user's own key being an X25519 key with its private half,
    and the signature of the sender verifying), the other one decrypts to the
    same text when it expects the counter the message was sent with, and rejects
    when it expects another. For texts shorter than 2^31 bytes, the sizes that
    the [int] lengths of OpenSSL's calls can express. *)
Theorem encryption_end_to_end (iv pt rec na nb sig : bytes) (a b : EncryptionService) (counter c : Z) :
  paired a b na nb sig -> zsize iv = 12 -> 0 <= counter < 2 ^ 64 -> zsize pt < 2 ^ 31 ->
  ES_encrypt_for (Some iv) a na nb pt counter = Ok rec ->
  (ES_decrypt_for b na nb rec sig c).1
  = if c =? counter then Ok pt else Throw (runtime_error "Replay attack detected or counter mismatch").
Proof. apply end_to_end. Qed.

End Roundtrip.

(** ** An instance of the laws

    Keys are byte strings, a public key is the key itself, encryption is the
    identity: not secure, but as documented. *)
Definition plain_ssl : OpenSSL := {|
  pkey := bytes;
  hkdf_ctx_new := true;
  hkdf_init := true;
  hkdf_set_md := true;
  hkdf_set_key _ := true;
  hkdf_set_salt _ := true;
  hkdf_add_info _ := true;
  hkdf_derive ikm salt info n :=
    let input := ikm.1 ++ default [] (fst <$> salt) in
    Some (take n input ++ replicate (n - length input) Byte.x00);
  errno_text := EmptyString;
  gcm_encrypt _ _ _ '(pt, n) := Some (take (Z.to_nat n) pt);
  gcm_get_tag _ _ _ _ := Some (replicate 16 Byte.x00);
  gcm_decrypt_init _ _ := true;
  gcm_decrypt_update _ _ _ '(ct, n) := Some (take (Z.to_nat n) ct);
  gcm_set_tag _ := true;
  gcm_decrypt_final _ _ _ _ _ := true;
  x25519_from_public b := Some b;
  ed25519_from_public b := Some b;
  ed25519_from_private b := Some b;
  raw_public_size _ := true;
  get_raw_public_key k := Some k;
  raw_private_size _ := true;
  get_raw_private_key k := Some k;
  x25519_derive a b := Some (ordered_pair a b);
  x25519_private _ := true;
  md_ctx_new := true;
  digest_sign_init _ := true;
  digest_sign_size _ _ := true;
  digest_sign _ m := Some m;
  digest_verify_init _ := true;
  digest_verify _ s m := bool_decide (s = m);
|}.

#[local] Existing Instance plain_ssl.

#[global] Instance plain_laws : @OpenSSLLaws plain_ssl.
Proof.
  constructor; cbn; try done.
  - intros ikm salt info n k [= <-]. unfold zsize.
    rewrite length_app, length_take, length_replicate. lia.
  - intros _ _ _ pt ct _ [= <-]. unfold zsize. by rewrite Nat2Z.id, firstn_all.
  - intros _ _ _ _ tag [= <-]. done.
  - intros _ _ _ pt ct tag _ _ _ [= <-] _. unfold zsize. by rewrite !Nat2Z.id, !firstn_all.
  - intros a b qa qb _ _ (x & [= <-] & [= <-]) (y & [= <-] & [= <-]). by rewrite ordered_pair_comm.
Qed.

#[global] Instance plain_key_laws : @OpenSSLKeyLaws plain_ssl.
Proof.
  constructor; cbn.
  - by intros b q [= <-].
  - intros k b q m s _ _ [= <-]. split; [done|]. by apply bool_decide_eq_true.
Qed.

Lemma AES_record_witness :
  exists rec, AES_encrypt (Some (replicate 12 Byte.x01)) (replicate 32 Byte.x02) (sbytes "hi") 3 = Ok rec /\
    AES_decrypt (replicate 32 Byte.x02) rec 3 = Ok (sbytes "hi") /\
    AES_decrypt (replicate 32 Byte.x02) rec 4
    = Throw (runtime_error "Replay attack detected or counter mismatch").
Proof.
  eexists. split; [vm_compute; reflexivity|]. split.
  - eapply (AES_record (replicate 12 Byte.x01) (replicate 32 Byte.x02) (sbytes "hi") _ [] 3 3);
      [reflexivity | reflexivity | lia | vm_compute; reflexivity | vm_compute; reflexivity].
  - eapply (AES_record (replicate 12 Byte.x01) (replicate 32 Byte.x02) (sbytes "hi") _ [] 3 4);
      [reflexivity | reflexivity | lia | vm_compute; reflexivity | vm_compute; reflexivity].
Defined.

(** Two users that know each other's keys. *)
Definition demo_alice : EncryptionService :=
  {| es_DH_key := Some (sbytes "a"); es_identity_key := Some (sbytes "ia");
     es_DH_keys := {[sbytes "bob" := Some (sbytes "b")]}; es_identity_keys := ∅ |}.

Definition demo_bob : EncryptionService :=
  {| es_DH_key := Some (sbytes "b"); es_identity_key := Some (sbytes "ib");
     es_DH_keys := {[sbytes "alice" := Some (sbytes "a")]};
     es_identity_keys := {[sbytes "alice" := Some (sbytes "ia")]} |}.

Lemma demo_paired : paired demo_alice demo_bob (sbytes "alice") (sbytes "bob") (sbytes "a").
Proof.
  constructor.
  - exists (sbytes "a"), (sbytes "b"), (sbytes "a"), (sbytes "b").
    split_and!; try done; by eexists.
  - exists (sbytes "ia"), (sbytes "a"). split_and!; try done. exists (sbytes "a"). done.
Qed.

Lemma encryption_end_to_end_witness :
  exists rec, ES_encrypt_for (Some (replicate 12 Byte.x01)) demo_alice (sbytes "alice") (sbytes "bob")
                (sbytes "hello") 0 = Ok rec /\
    (ES_decrypt_for demo_bob (sbytes "alice") (sbytes "bob") rec (sbytes "a") 0).1 = Ok (sbytes "hello").
Proof.
  eexists. split; [vm_compute; reflexivity|].
  apply (encryption_end_to_end (replicate 12 Byte.x01) (sbytes "hello") _ _ _ _ demo_alice demo_bob 0 0);
    [exact demo_paired | reflexivity | lia | vm_compute; reflexivity | vm_compute; reflexivity].
Defined.
