(* ===== verification/KeyHandles.v ===== *)
(** The objects that own OpenSSL keys: constructors, assignments and destructors of
    [IdentityKey] and [DH_Key] ([src/infrastructure/crypto/identity_key.cpp]). What
    the keys compute is in [Crypto.v]; here are the references to them. *)
From S2P Require Import Prelude.

(** ** References *)

(** The calls that change the number of references of an [EVP_PKEY], newest first:
    one that makes a key gives the caller a reference, [EVP_PKEY_up_ref] adds one,
    [EVP_PKEY_free] takes one away. *)
Inductive KeyCall :=
| KeyMade (p : Z)
| UpRef (p : Z)
| FreeRef (p : Z).

Definition call_key (c : KeyCall) : Z :=
  match c with KeyMade p | UpRef p | FreeRef p => p end.

Definition call_change (c : KeyCall) : Z :=
  match c with KeyMade _ | UpRef _ => 1 | FreeRef _ => -1 end.

(** The references of [p] after the calls. *)
Fixpoint refs (p : Z) (calls : list KeyCall) : Z :=
  match calls with
  | [] => 0
  | c :: calls => refs p calls + (if call_key c =? p then call_change c else 0)
  end.

(** No call was made on a key that had no references left, and no key was made at the
    address of a living one. *)
Fixpoint calls_ok (calls : list KeyCall) : bool :=
  match calls with
  | [] => true
  | c :: calls =>
      calls_ok calls &&
      match c with
      | KeyMade p => refs p calls =? 0
      | UpRef p | FreeRef p => 0 <? refs p calls
      end
  end.

(** ** [IdentityKey] and [DH_Key] *)

(** [pkey_]: what was never assigned, [nullptr], or a key. *)
Inductive Pkey := Unset | Null | Key (p : Z).

#[global] Instance Pkey_eq_dec : EqDecision Pkey.
Proof. solve_decision. Defined.

(** The two classes have the same code; [pkey_] of a [DH_Key] is initialised where it
    is declared, [pkey_] of an [IdentityKey] is not. *)
Inductive KeyClass := IdentityClass | DHClass.

Definition pkey_default (k : KeyClass) : Pkey :=
  match k with IdentityClass => Unset | DHClass => Null end.

(** The objects of a program, and the calls made so far. *)
Record KeyWorld := {
  kw_objects : gmap nat Pkey;
  kw_calls : list KeyCall;
}.

Definition KeyWorld_make : KeyWorld := {| kw_objects := ∅; kw_calls := [] |}.

Definition set_pkey (o : nat) (v : Pkey) (w : KeyWorld) : KeyWorld :=
  {| kw_objects := <[o := v]> (kw_objects w); kw_calls := kw_calls w |}.

Definition call_ssl (c : KeyCall) (w : KeyWorld) : KeyWorld :=
  {| kw_objects := kw_objects w; kw_calls := c :: kw_calls w |}.

(** [pkey_] of an object, which must be alive; reading one without a value is
    undefined. *)
Definition read_pkey (o : nat) : M KeyWorld (option Z) :=
  w ← get;
  match kw_objects w !! o with
  | None | Some Unset => lift Undef
  | Some Null => mret None
  | Some (Key p) => mret (Some p)
  end.

(** [EVP_PKEY_keygen], [EVP_PKEY_new_raw_public_key] and the like, then the
    constructor from a pointer. *)
Definition Key_make (o : nat) (p : Z) : M KeyWorld unit :=
  _ ← modify (call_ssl (KeyMade p));
  modify (set_pkey o (Key p)).

Definition Key_default (k : KeyClass) (o : nat) : M KeyWorld unit :=
  modify (set_pkey o (pkey_default k)).

Definition Key_copy (k : KeyClass) (o key : nat) : M KeyWorld unit :=
  _ ← modify (set_pkey o (pkey_default k));
  pk ← read_pkey key;
  match pk with
  | None => mret tt
  | Some p =>
      _ ← modify (call_ssl (UpRef p));
      modify (set_pkey o (Key p))
  end.

Definition Key_copy_assign (o other : nat) : M KeyWorld unit :=
  pk ← read_pkey other;
  match pk with
  | None => mret tt
  | Some p =>
      _ ← modify (call_ssl (UpRef p));
      modify (set_pkey o (Key p))
  end.

Definition Key_move (o key : nat) : M KeyWorld unit :=
  pk ← read_pkey key;
  _ ← modify (set_pkey o (match pk with None => Null | Some p => Key p end));
  modify (set_pkey key Null).

Definition free_pkey (o : nat) : M KeyWorld unit :=
  pk ← read_pkey o;
  match pk with
  | None => mret tt
  | Some p => modify (call_ssl (FreeRef p))
  end.

Definition Key_move_assign (o other : nat) : M KeyWorld unit :=
  if bool_decide (o = other) then mret tt
  else
    _ ← free_pkey o;
    pk ← read_pkey other;
    _ ← modify (set_pkey o (match pk with None => Null | Some p => Key p end));
    modify (set_pkey other Null).

(** The object is gone afterwards. *)
Definition Key_destroy (o : nat) : M KeyWorld unit :=
  _ ← free_pkey o;
  modify (fun w => {| kw_objects := delete o (kw_objects w); kw_calls := kw_calls w |}).

(** ** Programs *)

Inductive KeyOp :=
| OpMake (o : nat) (p : Z)
| OpDefault (k : KeyClass) (o : nat)
| OpCopy (k : KeyClass) (o key : nat)
| OpCopyAssign (o other : nat)
| OpMove (o key : nat)
| OpMoveAssign (o other : nat)
| OpDestroy (o : nat).

Definition key_step (op : KeyOp) : M KeyWorld unit :=
  match op with
  | OpMake o p => Key_make o p
  | OpDefault k o => Key_default k o
  | OpCopy k o key => Key_copy k o key
  | OpCopyAssign o other => Key_copy_assign o other
  | OpMove o key => Key_move o key
  | OpMoveAssign o other => Key_move_assign o other
  | OpDestroy o => Key_destroy o
  end.

Abbreviation alive o w := (is_Some (kw_objects w !! o)).
Abbreviation fresh_object o w := (kw_objects w !! o = None).

(** Constructors make new objects, the other operations take living ones, and OpenSSL
    does not make a key at the address of a living one. *)
Definition op_ok (op : KeyOp) (w : KeyWorld) : Prop :=
  match op with
  | OpMake o p => fresh_object o w /\ refs p (kw_calls w) = 0
  | OpDefault _ o => fresh_object o w
  | OpCopy _ o key | OpMove o key => fresh_object o w /\ alive key w
  | OpCopyAssign o other | OpMoveAssign o other => alive o w /\ alive other w
  | OpDestroy o => alive o w
  end.

(** The key an object held when another was copied onto it. *)
Definition lost_by (op : KeyOp) (w : KeyWorld) : list Z :=
  match op with
  | OpCopyAssign o other =>
      match kw_objects w !! o, kw_objects w !! other with
      | Some (Key p), Some (Key _) => [p]
      | _, _ => []
      end
  | _ => []
  end.

(** What a program can reach, with the keys lost on the way. *)
Inductive key_reach : list Z -> KeyWorld -> Prop :=
| key_start : key_reach [] KeyWorld_make
| key_next lost op w w' :
    key_reach lost w -> op_ok op w -> key_step op w = (Ok tt, w') -> key_reach (lost_by op w ++ lost) w'.

(** The objects that hold [p]. *)
Definition holders (p : Z) (m : gmap nat Pkey) : nat := size (filter (fun kv => kv.2 = Key p) m).

Definition held (p : Z) (v : Pkey) : nat := if bool_decide (v = Key p) then 1 else 0.

Lemma holders_insert p o v m : m !! o = None -> holders p (<[o := v]> m) = (held p v + holders p m)%nat.
Proof.
  intros Ho. unfold holders, held. rewrite map_filter_insert. destruct (decide _) as [Hv|Hv]; cbn in Hv.
  - rewrite bool_decide_true by done. apply map_size_insert_None, map_lookup_filter_None. by left.
  - by rewrite bool_decide_false, delete_id by done.
Qed.

Lemma holders_split p o v m : m !! o = Some v -> holders p m = (held p v + holders p (delete o m))%nat.
Proof. intros Ho. rewrite <- (insert_delete_id m o v Ho) at 1. apply holders_insert, lookup_delete_eq. Qed.

Lemma holders_update p o v v' m : m !! o = Some v ->
  (holders p (<[o := v']> m) + held p v = held p v' + holders p m)%nat.
Proof.
  intros Ho. rewrite (holders_split p o v m Ho), <- insert_delete_eq.
  rewrite holders_insert by apply lookup_delete_eq. lia.
Qed.

(** Every reference belongs to an object or was lost. *)
Definition balanced (lost : list Z) (w : KeyWorld) : Prop :=
  calls_ok (kw_calls w) = true /\
  forall p, refs p (kw_calls w) = Z.of_nat (holders p (kw_objects w)) + Z.of_nat (count_occ Z.eq_dec lost p).

Lemma balanced_held lost w o p : balanced lost w -> kw_objects w !! o = Some (Key p) -> 0 < refs p (kw_calls w).
Proof.
  intros [_ Hb] Ho. rewrite Hb, (holders_split p o _ _ Ho). unfold held. rewrite bool_decide_true by done. lia.
Qed.

Lemma run_read {A} o (k : option Z -> M KeyWorld A) w :
  (read_pkey o ≫= k) w
  = match kw_objects w !! o with
    | None | Some Unset => (Undef, w)
    | Some Null => k None w
    | Some (Key p) => k (Some p) w
    end.
Proof. unfold read_pkey, mbind, M_bind, get. by destruct (kw_objects w !! o) as [[]|]. Qed.

Lemma run_free {A} o (k : unit -> M KeyWorld A) w :
  (free_pkey o ≫= k) w
  = match kw_objects w !! o with
    | None | Some Unset => (Undef, w)
    | Some Null => k tt w
    | Some (Key p) => k tt (call_ssl (FreeRef p) w)
    end.
Proof. unfold free_pkey, mbind at 1, M_bind at 1. rewrite run_read. by destruct (kw_objects w !! o) as [[]|]. Qed.

Lemma held_key p q : Z.of_nat (held p (Key q)) = if q =? p then 1 else 0.
Proof.
  unfold held. destruct (Z.eqb_spec q p) as [->|Hne]; [by rewrite bool_decide_true|].
  rewrite bool_decide_false; [done | by intros [= ?]].
Qed.

Lemma held_default p k : held p (pkey_default k) = 0%nat.
Proof. by destruct k. Qed.

(** Storing a pointer for which the calls [cs] were made. *)
Lemma balanced_set lost lost' w o v v' cs :
  balanced lost w -> kw_objects w !! o = Some v -> calls_ok (cs ++ kw_calls w) = true ->
  (forall q, refs q (cs ++ kw_calls w) + Z.of_nat (held q v) + Z.of_nat (count_occ Z.eq_dec lost q)
     = refs q (kw_calls w) + Z.of_nat (held q v') + Z.of_nat (count_occ Z.eq_dec lost' q)) ->
  balanced lost' {| kw_objects := <[o := v']> (kw_objects w); kw_calls := cs ++ kw_calls w |}.
Proof.
  intros [_ Hb] Ho Hok Hq. split; [done|]. intros q. cbn [kw_objects kw_calls].
  pose proof (holders_update q o v v' _ Ho). specialize (Hq q). specialize (Hb q). lia.
Qed.

Lemma balanced_new lost w o v cs :
  balanced lost w -> kw_objects w !! o = None -> calls_ok (cs ++ kw_calls w) = true ->
  (forall q, refs q (cs ++ kw_calls w) = refs q (kw_calls w) + Z.of_nat (held q v)) ->
  balanced lost {| kw_objects := <[o := v]> (kw_objects w); kw_calls := cs ++ kw_calls w |}.
Proof.
  intros [_ Hb] Ho Hok Hq. split; [done|]. intros q. cbn [kw_objects kw_calls].
  rewrite holders_insert, Hq, Hb by done. lia.
Qed.

Lemma balanced_delete lost w o v cs :
  balanced lost w -> kw_objects w !! o = Some v -> calls_ok (cs ++ kw_calls w) = true ->
  (forall q, refs q (cs ++ kw_calls w) + Z.of_nat (held q v) = refs q (kw_calls w)) ->
  balanced lost {| kw_objects := delete o (kw_objects w); kw_calls := cs ++ kw_calls w |}.
Proof.
  intros [_ Hb] Ho Hok Hq. split; [done|]. intros q. cbn [kw_objects kw_calls].
  specialize (Hq q). specialize (Hb q). rewrite (holders_split q o v _ Ho) in Hb. lia.
Qed.

Ltac balance :=
  intros q; cbn [app refs call_key call_change count_occ]; rewrite ?held_key;
  change (held q Null) with 0%nat; change (held q Unset) with 0%nat;
  repeat match goal with
  | |- context [Z.eq_dec ?a ?b] => destruct (Z.eq_dec a b)
  | |- context [?a =? ?b] => destruct (Z.eqb_spec a b)
  end; lia.

Lemma calls_up p w lost o : balanced lost w -> kw_objects w !! o = Some (Key p) ->
  calls_ok (UpRef p :: kw_calls w) = true /\ calls_ok (FreeRef p :: kw_calls w) = true.
Proof.
  intros Hb Ho. pose proof (balanced_held _ _ _ _ Hb Ho). destruct Hb as [Hc _]. cbn [calls_ok]. rewrite Hc.
  by rewrite (proj2 (Z.ltb_lt _ _)).
Qed.

Lemma Key_copy_balanced k o key lost w w' :
  balanced lost w -> fresh_object o w -> alive key w -> Key_copy k o key w = (Ok tt, w') -> balanced lost w'.
Proof.
  intros Hb Ho [v Hv]. assert (Hne : o <> key) by congruence.
  unfold Key_copy. rewrite run_modify, run_read. cbn [set_pkey kw_objects]. rewrite lookup_insert_ne by done.
  destruct (kw_objects w !! key) as [[| |p]|] eqn:Hk; try by intros [=].
  - intros [= <-]. apply (balanced_new lost w o (pkey_default k) []); [done..|apply Hb |].
    intros q. rewrite held_default. cbn. lia.
  - rewrite run_modify. intros [= <-]. unfold set_pkey, call_ssl. cbn [kw_objects kw_calls]. rewrite insert_insert_eq.
    apply (balanced_new lost w o (Key p) [UpRef p]); [done | done | by eapply calls_up | balance].
Qed.

Lemma Key_copy_assign_balanced o other lost w w' :
  balanced lost w -> alive o w -> Key_copy_assign o other w = (Ok tt, w') ->
  balanced (lost_by (OpCopyAssign o other) w ++ lost) w'.
Proof.
  intros Hb [v Hv]. unfold Key_copy_assign. rewrite run_read. cbn [lost_by]. rewrite Hv.
  destruct (kw_objects w !! other) as [[| |p]|] eqn:Hk; try by intros [=].
  - intros [= <-]. by destruct v.
  - rewrite run_modify. intros [= <-].
    destruct v; (eapply (balanced_set lost _ w o _ (Key p) [UpRef p]); [done | done | by eapply calls_up | balance]).
Qed.

Lemma Key_move_balanced o key lost w w' :
  balanced lost w -> fresh_object o w -> Key_move o key w = (Ok tt, w') -> balanced lost w'.
Proof.
  intros Hb Ho. unfold Key_move. rewrite run_read. destruct (kw_objects w !! key) as [v|] eqn:Hk; [|by intros [=]].
  assert (Hne : o <> key) by congruence. intros E.
  assert (E' : w' = set_pkey key Null (set_pkey o v w)) by (by destruct v as [| |p]; [|injection E..]).
  subst w'. clear E. destruct Hb as [Hc Hb]. split; [done|]. intros q. rewrite Hb. cbn [set_pkey kw_objects].
  pose proof (holders_update q key v Null (<[o := v]> (kw_objects w))) as Hu.
  rewrite lookup_insert_ne in Hu by done. specialize (Hu Hk). rewrite (holders_insert q o v) in Hu by done.
  change (held q Null) with 0%nat in Hu. lia.
Qed.

(** Freeing what an object holds; the object still has the pointer. *)
Lemma free_pkey_run o v lost w w' :
  balanced lost w -> kw_objects w !! o = Some v -> free_pkey o w = (Ok tt, w') ->
  exists cs, w' = {| kw_objects := kw_objects w; kw_calls := cs ++ kw_calls w |} /\ calls_ok (cs ++ kw_calls w) = true /\ forall q, refs q (cs ++ kw_calls w) + Z.of_nat (held q v) = refs q (kw_calls w).
Proof.
  intros Hb Hv. unfold free_pkey. rewrite run_read, Hv. destruct v as [| |p]; [by intros [=]|..]; intros [= <-].
  - exists []. split; [by destruct w|]. split; [apply Hb | balance].
  - exists [FreeRef p]. split; [done|]. split; [by eapply calls_up | balance].
Qed.

Lemma Key_move_assign_balanced o other lost w w' :
  balanced lost w -> alive o w -> Key_move_assign o other w = (Ok tt, w') -> balanced lost w'.
Proof.
  intros Hb [v Hv]. unfold Key_move_assign. case_bool_decide as Hne; [by intros [= <-]|].
  unfold mbind at 1, M_bind at 1. destruct (free_pkey o w) as [[[]| |] w1] eqn:E; [|by intros [=]..].
  destruct (free_pkey_run _ _ _ _ _ Hb Hv E) as (cs & -> & Hc & Hq). rewrite run_read. cbn [kw_objects].
  destruct (kw_objects w !! other) as [u|] eqn:Hu; [|by intros [=]]. intros Er.
  assert (E' : w' = {| kw_objects := <[other := Null]> (<[o := u]> (kw_objects w)); kw_calls := cs ++ kw_calls w |})
    by (by destruct u as [| |p]; [|injection Er..]).
  subst w'. split; [done|]. intros q. cbn [kw_objects kw_calls].
  pose proof (holders_update q other u Null (<[o := u]> (kw_objects w))) as H1. rewrite lookup_insert_ne in H1 by done.
  specialize (H1 Hu). pose proof (holders_update q o v u (kw_objects w) Hv) as H2.
  change (held q Null) with 0%nat in H1. specialize (Hq q). destruct Hb as [_ Hb]. specialize (Hb q). lia.
Qed.

Lemma key_step_balanced op lost w w' :
  balanced lost w -> op_ok op w -> key_step op w = (Ok tt, w') -> balanced (lost_by op w ++ lost) w'.
Proof.
  intros Hb Hok E. destruct op as [o p|k o|k o key|o other|o key|o other|o]; cbn [op_ok key_step] in *.
  - destruct Hok as [Ho Hp]. injection E as <-.
    apply (balanced_new lost w o (Key p) [KeyMade p]); [done | done | | balance].
    cbn. destruct Hb as [-> _]. by rewrite Hp.
  - injection E as <-. apply (balanced_new lost w o (pkey_default k) []); [done..|apply Hb |].
    intros q. rewrite held_default. cbn. lia.
  - by eapply Key_copy_balanced; [..|exact E]; [|apply Hok..].
  - by eapply Key_copy_assign_balanced; [..|exact E]; [|apply Hok].
  - by eapply Key_move_balanced; [..|exact E]; [|apply Hok].
  - by eapply Key_move_assign_balanced; [..|exact E]; [|apply Hok].
  - destruct Hok as [v Hv]. unfold Key_destroy, mbind, M_bind in E.
    destruct (free_pkey o w) as [[[]| |] w1] eqn:Ef; [|by injection E..].
    destruct (free_pkey_run _ _ _ _ _ Hb Hv Ef) as (cs & -> & Hc & Hq). injection E as <-.
    by apply (balanced_delete lost w o v cs).
Qed.

Lemma key_reach_balanced lost w : key_reach lost w -> balanced lost w.
Proof.
  induction 1 as [|lost op w w' _ IH Hok E]; [done | by apply (key_step_balanced op)].
Qed.

(** The objects whose pointer an operation reads. *)
Definition reads (op : KeyOp) : list nat :=
  match op with
  | OpMake _ _ | OpDefault _ _ => []
  | OpCopy _ _ key | OpMove _ key => [key]
  | OpCopyAssign _ other => [other]
  | OpMoveAssign o other => if bool_decide (o = other) then [] else [o; other]
  | OpDestroy o => [o]
  end.

Lemma key_step_runs op w :
  op_ok op w -> (forall o, o ∈ reads op -> kw_objects w !! o <> Some Unset) ->
  exists w', key_step op w = (Ok tt, w').
Proof.
  assert (Hread : forall o, alive o w -> kw_objects w !! o <> Some Unset ->
    kw_objects w !! o = Some Null \/ exists p, kw_objects w !! o = Some (Key p)).
  { intros o [[| |p] ->]; naive_solver. }
  destruct op as [o p|k o|k o key|o other|o key|o other|o]; cbn [op_ok key_step reads]; intros Hok Hr; try by eexists.
  - destruct Hok as [Ho Hk]. assert (o <> key) by (intros ->; rewrite Ho in Hk; by destruct Hk).
    unfold Key_copy. rewrite run_modify, run_read. cbn [set_pkey kw_objects]. rewrite lookup_insert_ne by done.
    destruct (Hread key) as [->|[p ->]]; [done | apply Hr; set_solver | by eexists..].
  - unfold Key_copy_assign. rewrite run_read. destruct Hok as [_ Hk].
    destruct (Hread other) as [->|[p ->]]; [done | apply Hr; set_solver | by eexists..].
  - unfold Key_move. rewrite run_read. destruct Hok as [_ Hk].
    destruct (Hread key) as [->|[p ->]]; [done | apply Hr; set_solver | by eexists..].
  - unfold Key_move_assign. case_bool_decide as Hne; [by eexists|]. destruct Hok as [Ho Hk].
    rewrite run_free. destruct (Hread o) as [->|[p ->]]; [done | apply Hr; set_solver |..]; rewrite run_read; cbn [call_ssl kw_objects];
      (destruct (Hread other) as [->|[p' ->]]; [done | apply Hr; set_solver | by eexists..]).
  - unfold Key_destroy. rewrite run_free. destruct (Hread o) as [->|[p ->]]; [done | apply Hr; set_solver | by eexists..].
Qed.

(** ** Properties *)

(** C27: the keys are counted right, except by copy assignment. However a program makes,
    copies, moves, assigns and destroys key objects, OpenSSL is never called with a key
    that has no reference left, so nothing is freed twice or used after it was freed;
    and the references of a key are exactly the objects that hold it and one for every
    time an object that held it was copied onto, which the assignment does not free:
    when no object is left, the keys that were not lost in this way are free. An
    operation is undefined only when it reads a pointer that was never set: the copy of
    an empty [IdentityKey] has one, so destroying it is undefined, while the copy of an
    empty [DH_Key] is empty. *)
Theorem key_references (lost : list Z) (w : KeyWorld) :
  key_reach lost w ->
  calls_ok (kw_calls w) = true /\
  (forall p, refs p (kw_calls w) = Z.of_nat (holders p (kw_objects w)) + Z.of_nat (count_occ Z.eq_dec lost p)) /\
  (kw_objects w = ∅ -> forall p, p ∉ lost -> refs p (kw_calls w) = 0) /\
  (forall op, op_ok op w -> (forall o, o ∈ reads op -> kw_objects w !! o <> Some Unset) ->
     exists w', key_step op w = (Ok tt, w')) /\
  (forall o key, kw_objects w !! o = None -> kw_objects w !! key = Some Null ->
     ((_ ← Key_copy IdentityClass o key; Key_destroy o) w).1 = Undef /\
     ((_ ← Key_copy DHClass o key; Key_destroy o) w).1 = Ok tt).
Proof.
  intros Hr. destruct (key_reach_balanced _ _ Hr) as [Hc Hb]. split_and!; [done | done | | |].
  - intros He p Hp. rewrite Hb, He, (proj1 (count_occ_not_In _ _ _)) by (by rewrite <- list_elem_of_In). done.
  - intros op. apply key_step_runs.
  - intros o key Ho Hk. assert (o <> key) by congruence.
    assert (Hcopy : forall k, Key_copy k o key w = (Ok tt, set_pkey o (pkey_default k) w)).
    { intros k. unfold Key_copy. rewrite run_modify, run_read. cbn [set_pkey kw_objects].
      by rewrite lookup_insert_ne, Hk by done. }
    rewrite !(run_bind _ _ _ _ _ (Hcopy _)). unfold Key_destroy.
    rewrite !run_free. cbn [set_pkey kw_objects]. by rewrite !lookup_insert_eq.
Qed.

(** A key is copied and the copy destroyed; then another is copied onto the first. *)
Definition demo_keys : list KeyOp :=
  [OpMake 0 10; OpCopy DHClass 1 0; OpDestroy 1; OpMake 2 20; OpCopyAssign 0 2; OpDestroy 0; OpDestroy 2].

Definition demo_world (n : nat) : KeyWorld :=
  foldl (fun w op => (key_step op w).2) KeyWorld_make (take n demo_keys).

Lemma key_references_witness :
  kw_objects (demo_world 7) = ∅ /\ refs 20 (kw_calls (demo_world 7)) = 0 /\ refs 10 (kw_calls (demo_world 7)) = 1.
Proof.
  assert (Hr : key_reach [10] (demo_world 7)).
  { eapply (key_next _ (OpDestroy 2) (demo_world 6)); [|eexists; reflexivity|reflexivity].
    eapply (key_next _ (OpDestroy 0) (demo_world 5)); [|eexists; reflexivity|reflexivity].
    eapply (key_next [] (OpCopyAssign 0 2) (demo_world 4)); [|split; eexists; reflexivity|reflexivity].
    eapply (key_next _ (OpMake 2 20) (demo_world 3)); [|split; reflexivity|reflexivity].
    eapply (key_next _ (OpDestroy 1) (demo_world 2)); [|eexists; reflexivity|reflexivity].
    eapply (key_next _ (OpCopy DHClass 1 0) (demo_world 1)); [|split; [reflexivity|eexists; reflexivity]|reflexivity].
    eapply (key_next _ (OpMake 0 10) KeyWorld_make); [constructor|split; reflexivity|reflexivity]. }
  destruct (key_references [10] (demo_world 7) Hr) as (_ & Hb & He & _).
  assert (Hempty : kw_objects (demo_world 7) = ∅) by (vm_compute; reflexivity).
  split; [exact Hempty|]. split.
  - apply He; [exact Hempty | intros [[=]|[]%elem_of_nil]%elem_of_cons].
  - rewrite Hb, Hempty. reflexivity.
Defined.
