(* ===== verification/Keys.v ===== *)
(** The keys of a user: what a service with keys gives out, and that two services
    which have cached what the other gave out can talk. *)
From S2P Require Import Prelude Message Crypto.

Section Keys.
  Context {ssl : OpenSSL} {laws : OpenSSLLaws} {key_laws : OpenSSLKeyLaws}.

(** The service has its keys, an X25519 key with its private half among them,
    and OpenSSL gives their public parts [d] and [ib],
    accepts them, and signs. *)
Record speaks (e : EncryptionService) (d ib sg : bytes) : Prop := {
  speaks_dh : exists p q, es_DH_key e = Some p /\ x25519_private p = true /\ raw_public_size p = true /\
    get_raw_public_key p = Some d /\ x25519_from_public d = Some q;
  speaks_identity : exists i iq, es_identity_key e = Some i /\ raw_public_size i = true /\
    get_raw_public_key i = Some ib /\ ed25519_from_public ib = Some iq /\
    md_ctx_new = true /\ digest_sign_init i = true /\ digest_sign_size i d = true /\
    digest_sign i d = Some sg;
}.

Lemma speaks_bytes e d ib sg :
  speaks e d ib sg ->
  ES_get_DH_bytes e = Ok d /\ ES_get_identity_bytes e = Ok ib /\ ES_sign e = Ok sg.
Proof.
  intros [(p & q & Hp & _ & Hs & Hd & _) (i & iq & Hi & His & Hib & _ & Hmd & H1 & H2 & H3)].
  unfold ES_get_DH_bytes, ES_get_identity_bytes, ES_sign, DH_public_bytes, Identity_public_bytes.
  rewrite Hp, Hi, Hs, His, Hd, Hib. cbn. rewrite Hmd, H1, H2, H3. done.
Qed.

(** What caching the keys of a peer gives. *)
Definition caches (e : EncryptionService) (name d ib : bytes) (e' : EncryptionService) : Prop :=
  exists q iq, x25519_from_public d = Some q /\ ed25519_from_public ib = Some iq /\
    e' = {| es_DH_key := es_DH_key e; es_identity_key := es_identity_key e;
            es_DH_keys := <[name := Some q]> (es_DH_keys e);
            es_identity_keys := <[name := Some iq]> (es_identity_keys e) |}.

Lemma cache_caches e name d ib a sg :
  speaks a d ib sg -> exists e', ES_cache_public_key e name d ib = (Ok tt, e') /\ caches e name d ib e'.
Proof.
  intros [(p & q & _ & _ & _ & _ & Hq) (i & iq & _ & _ & _ & Hiq & _)].
  unfold ES_cache_public_key, DH_from_public_bytes, Identity_from_public_bytes.
  rewrite Hq, Hiq. eexists. split; [done|]. by exists q, iq.
Qed.

Lemma caches_speaks e name d ib e' d' ib' sg : caches e name d ib e' -> speaks e d' ib' sg -> speaks e' d' ib' sg.
Proof. intros (q & iq & _ & _ & ->) [H1 H2]. by constructor. Qed.

(** Two services that have cached each other's keys can talk. *)
Lemma caches_paired a b na nb dA iA sA dB iB sB a' b' :
  speaks a dA iA sA -> speaks b dB iB sB -> caches a nb dB iB a' -> caches b na dA iA b' ->
  paired a' b' na nb sA.
Proof.
  intros [(pa & qa & Hpa & Hxa & _ & Hda & Hqa) (i & iq & Hi & _ & Hib & Hiq & Hmd & _ & _ & Hsg)]
    [(pb & qb & Hpb & Hxb & _ & Hdb & Hqb) _] (qb' & iqb & Hqb' & _ & ->) (qa' & iqa & Hqa' & Hiqa & ->).
  simplify_eq. constructor; cbn.
  - exists pa, pb, qa, qb. rewrite !lookup_insert_eq. split_and!; try done; by eexists.
  - exists iq, qa. rewrite !lookup_insert_eq. destruct (x25519_raw dA qa Hqa) as [Hs Hr].
    destruct (ed25519_verifies i iA iq dA sA Hib Hiq Hsg) as [Hvi Hv]. split_and!; try done.
    exists dA. unfold DH_public_bytes. rewrite Hs, Hr. done.
Qed.

End Keys.
