(* ===== verification/ClientContext.v ===== *)
(** The state of a client ([ClientContext] of
    [include/application/session/client_context.hpp]) and the operations the
    commands and handlers use on it. *)
From S2P Require Import Prelude Message Parser Commands AppService Queue Crypto.

(** What the application asks of [IClient]. *)
Class IClient (T : Type) := {
  client_send_to_server : bytes -> M T unit;
  client_disconnect : M T unit;
}.

(** A transport that records what is sent and whether it was closed. *)
Record client_log := {
  log_sent : list bytes;
  log_closed : bool;
}.

#[global] Instance client_log_client : IClient client_log := {|
  client_send_to_server data := modify (fun l => {| log_sent := log_sent l ++ [data]; log_closed := log_closed l |});
  client_disconnect := modify (fun l => {| log_sent := log_sent l; log_closed := true |});
|}.

(** [cc_ui] is what [ui_callback] was called with, [cc_ui_set] whether it is set;
    [cc_files] maps the keys of [pending_files] to the paths of the open
    streams; [cc_disk] holds the files of the working directory and [cc_rand]
    counts the encryptions, each of which asks for a random IV. *)
Record ClientContext {ssl : OpenSSL} (T : Type) := {
  cc_config : AppConfig;
  cc_ui_set : bool;
  cc_ui : list string;
  cc_client : T;
  cc_mq : MessageQueue;
  cc_encryption : EncryptionService;
  cc_files : gmap string string;
  cc_pending_messages : gmap bytes (list bytes);
  cc_my_username : bytes;
  cc_messages_counter : gmap bytes Z;
  cc_disk : gmap string bytes;
  cc_rand : nat;
}.
Arguments cc_config {ssl T}.
Arguments cc_ui_set {ssl T}.
Arguments cc_ui {ssl T}.
Arguments cc_client {ssl T}.
Arguments cc_mq {ssl T}.
Arguments cc_encryption {ssl T}.
Arguments cc_files {ssl T}.
Arguments cc_pending_messages {ssl T}.
Arguments cc_my_username {ssl T}.
Arguments cc_messages_counter {ssl T}.
Arguments cc_disk {ssl T}.
Arguments cc_rand {ssl T}.

Section ClientContext.
  Context {ssl : OpenSSL} {T : Type} {cl : IClient T}.

(** [ClientContext(cfg)]: [set_key] may throw. *)
Definition ClientContext_make (cfg : AppConfig) (client : T) (gen_dh gen_id : Keygen)
    (can_write : string -> bool) (disk : gmap string bytes) : outcome (ClientContext T) :=
  '(enc, disk) ← ES_set_key gen_dh gen_id can_write disk EncryptionService_new;
  Ok {| cc_config := cfg; cc_ui_set := false; cc_ui := []; cc_client := client;
        cc_mq := MessageQueue_make; cc_encryption := enc; cc_files := ∅;
        cc_pending_messages := ∅; cc_my_username := []; cc_messages_counter := ∅;
        cc_disk := disk; cc_rand := 0 |}.

(** ** Assignments *)

Definition with_ui (v : list string) (c : ClientContext T) : ClientContext T :=
  {| cc_config := cc_config c; cc_ui_set := cc_ui_set c; cc_ui := v; cc_client := cc_client c;
     cc_mq := cc_mq c; cc_encryption := cc_encryption c; cc_files := cc_files c;
     cc_pending_messages := cc_pending_messages c; cc_my_username := cc_my_username c;
     cc_messages_counter := cc_messages_counter c; cc_disk := cc_disk c; cc_rand := cc_rand c |}.

Definition with_client (v : T) (c : ClientContext T) : ClientContext T :=
  {| cc_config := cc_config c; cc_ui_set := cc_ui_set c; cc_ui := cc_ui c; cc_client := v;
     cc_mq := cc_mq c; cc_encryption := cc_encryption c; cc_files := cc_files c;
     cc_pending_messages := cc_pending_messages c; cc_my_username := cc_my_username c;
     cc_messages_counter := cc_messages_counter c; cc_disk := cc_disk c; cc_rand := cc_rand c |}.

Definition with_mq (v : MessageQueue) (c : ClientContext T) : ClientContext T :=
  {| cc_config := cc_config c; cc_ui_set := cc_ui_set c; cc_ui := cc_ui c; cc_client := cc_client c;
     cc_mq := v; cc_encryption := cc_encryption c; cc_files := cc_files c;
     cc_pending_messages := cc_pending_messages c; cc_my_username := cc_my_username c;
     cc_messages_counter := cc_messages_counter c; cc_disk := cc_disk c; cc_rand := cc_rand c |}.

Definition with_encryption (v : EncryptionService) (c : ClientContext T) : ClientContext T :=
  {| cc_config := cc_config c; cc_ui_set := cc_ui_set c; cc_ui := cc_ui c; cc_client := cc_client c;
     cc_mq := cc_mq c; cc_encryption := v; cc_files := cc_files c;
     cc_pending_messages := cc_pending_messages c; cc_my_username := cc_my_username c;
     cc_messages_counter := cc_messages_counter c; cc_disk := cc_disk c; cc_rand := cc_rand c |}.

Definition with_files (v : gmap string string) (c : ClientContext T) : ClientContext T :=
  {| cc_config := cc_config c; cc_ui_set := cc_ui_set c; cc_ui := cc_ui c; cc_client := cc_client c;
     cc_mq := cc_mq c; cc_encryption := cc_encryption c; cc_files := v;
     cc_pending_messages := cc_pending_messages c; cc_my_username := cc_my_username c;
     cc_messages_counter := cc_messages_counter c; cc_disk := cc_disk c; cc_rand := cc_rand c |}.

Definition with_pending (v : gmap bytes (list bytes)) (c : ClientContext T) : ClientContext T :=
  {| cc_config := cc_config c; cc_ui_set := cc_ui_set c; cc_ui := cc_ui c; cc_client := cc_client c;
     cc_mq := cc_mq c; cc_encryption := cc_encryption c; cc_files := cc_files c;
     cc_pending_messages := v; cc_my_username := cc_my_username c;
     cc_messages_counter := cc_messages_counter c; cc_disk := cc_disk c; cc_rand := cc_rand c |}.

Definition with_username (v : bytes) (c : ClientContext T) : ClientContext T :=
  {| cc_config := cc_config c; cc_ui_set := cc_ui_set c; cc_ui := cc_ui c; cc_client := cc_client c;
     cc_mq := cc_mq c; cc_encryption := cc_encryption c; cc_files := cc_files c;
     cc_pending_messages := cc_pending_messages c; cc_my_username := v;
     cc_messages_counter := cc_messages_counter c; cc_disk := cc_disk c; cc_rand := cc_rand c |}.

Definition with_counter (v : gmap bytes Z) (c : ClientContext T) : ClientContext T :=
  {| cc_config := cc_config c; cc_ui_set := cc_ui_set c; cc_ui := cc_ui c; cc_client := cc_client c;
     cc_mq := cc_mq c; cc_encryption := cc_encryption c; cc_files := cc_files c;
     cc_pending_messages := cc_pending_messages c; cc_my_username := cc_my_username c;
     cc_messages_counter := v; cc_disk := cc_disk c; cc_rand := cc_rand c |}.

Definition with_disk (v : gmap string bytes) (c : ClientContext T) : ClientContext T :=
  {| cc_config := cc_config c; cc_ui_set := cc_ui_set c; cc_ui := cc_ui c; cc_client := cc_client c;
     cc_mq := cc_mq c; cc_encryption := cc_encryption c; cc_files := cc_files c;
     cc_pending_messages := cc_pending_messages c; cc_my_username := cc_my_username c;
     cc_messages_counter := cc_messages_counter c; cc_disk := v; cc_rand := cc_rand c |}.

Definition with_rand (v : nat) (c : ClientContext T) : ClientContext T :=
  {| cc_config := cc_config c; cc_ui_set := cc_ui_set c; cc_ui := cc_ui c; cc_client := cc_client c;
     cc_mq := cc_mq c; cc_encryption := cc_encryption c; cc_files := cc_files c;
     cc_pending_messages := cc_pending_messages c; cc_my_username := cc_my_username c;
     cc_messages_counter := cc_messages_counter c; cc_disk := cc_disk c; cc_rand := v |}.

(** ** Calls *)

(** What [RAND_bytes] produces at each encryption. *)
Variable rand : nat -> option bytes.

(** [context->ui_callback(text)]: calling an empty [std::function] throws. *)
Definition ui_callback (text : string) : M (ClientContext T) unit :=
  c ← get;
  if cc_ui_set c then modify (with_ui (cc_ui c ++ [text])) else lift (Throw bad_function_call).

(** [context->client->f(...)]. *)
Definition on_client {A} (f : M T A) : M (ClientContext T) A := fun c =>
  let '(r, t) := f (cc_client c) in (r, with_client t c).

Definition send_to_server (data : bytes) : M (ClientContext T) unit :=
  on_client (client_send_to_server data).

(** [messages_counter[name]], which adds a 0 when there is none. *)
Definition counter_of (name : bytes) : M (ClientContext T) Z :=
  c ← get;
  let n := default 0 (cc_messages_counter c !! name) in
  _ ← modify (with_counter (<[name := n]> (cc_messages_counter c)));
  mret n.

(** [++messages_counter[name]], an unsigned 64-bit increment. *)
Definition increment_counter (name : bytes) : M (ClientContext T) unit :=
  n ← counter_of name;
  modify (fun c => with_counter (<[name := u64 (n + 1)]> (cc_messages_counter c)) c).

Definition cc_encrypt_for (sender username plaintext : bytes) (counter : Z) :
    M (ClientContext T) bytes :=
  c ← get;
  let r := ES_encrypt_for (rand (cc_rand c)) (cc_encryption c) sender username plaintext counter in
  _ ← modify (with_rand (S (cc_rand c)));
  lift r.

Definition cc_decrypt_for (sender username ciphertext signature : bytes) (counter : Z) :
    M (ClientContext T) bytes :=
  c ← get;
  let '(r, enc) := ES_decrypt_for (cc_encryption c) sender username ciphertext signature counter in
  _ ← modify (with_encryption enc);
  lift r.

Definition cc_cache_public_key (username pubkey identity_key : bytes) : M (ClientContext T) unit :=
  c ← get;
  let '(r, enc) := ES_cache_public_key (cc_encryption c) username pubkey identity_key in
  _ ← modify (with_encryption enc);
  lift r.

(** The values the commands send: [get_DH_bytes], [get_identity_bytes], [sign]. *)
Definition cc_keys : M (ClientContext T) (bytes * bytes * bytes) :=
  c ← get;
  dh ← lift (ES_get_DH_bytes (cc_encryption c));
  idb ← lift (ES_get_identity_bytes (cc_encryption c));
  sg ← lift (ES_sign (cc_encryption c));
  mret (dh, idb, sg).

End ClientContext.
