(* ===== verification/Client.v ===== *)
(** The client: commands executed on it, the handlers of messages, the
    dispatcher and [MessagingClient] ([executeOnClient] of
    [src/application/commands/impl/], [src/application/dispatching/],
    [src/application/messaging/messaging_client.cpp]). *)
From S2P Require Import Prelude Message CommandPattern Parser Commands AppService Queue Crypto ClientContext.

(** The handler classes of a client dispatcher; the command handler owns its
    registry. *)
Inductive IClientMessageHandler :=
| ClientTextHandler
| ClientCommandHandler (registry_ : CommandRegistry)
| ResponseMessageHandler
| CipherMessageHandler
| ClientFileStartHandler
| ClientFileChunkHandler
| ClientFileEndHandler.

Definition client_getMessageType (h : IClientMessageHandler) : MessageType :=
  match h with
  | ClientTextHandler => Text
  | ClientCommandHandler _ => Command
  | ResponseMessageHandler => Response
  | CipherMessageHandler => CipherMessage
  | ClientFileStartHandler => FileStart
  | ClientFileChunkHandler => FileChunk
  | ClientFileEndHandler => FileEnd
  end.

Record ClientMessageDispatcher := {
  client_handlers : gmap MessageType IClientMessageHandler;
  client_context_set : bool;
}.

Definition client_registerHandler (d : ClientMessageDispatcher) (type : MessageType)
    (handler : IClientMessageHandler) : ClientMessageDispatcher :=
  {| client_handlers := <[type := handler]> (client_handlers d);
     client_context_set := client_context_set d |}.

Definition client_setContext (d : ClientMessageDispatcher) : ClientMessageDispatcher :=
  {| client_handlers := client_handlers d; client_context_set := true |}.

Definition client_HasHandlerFor (d : ClientMessageDispatcher) (type : MessageType) : bool :=
  bool_decide (is_Some (client_handlers d !! type)).

Definition client_clear (d : ClientMessageDispatcher) : ClientMessageDispatcher :=
  {| client_handlers := ∅; client_context_set := client_context_set d |}.

Definition MessagingClient_dispatcher : ClientMessageDispatcher :=
  foldl (fun d '(t, h) => client_registerHandler d t h)
    {| client_handlers := ∅; client_context_set := false |}
    [(Text, ClientTextHandler);
     (Command, ClientCommandHandler ClientCommandHandler_registry);
     (Response, ResponseMessageHandler);
     (CipherMessage, CipherMessageHandler);
     (FileStart, ClientFileStartHandler);
     (FileChunk, ClientFileChunkHandler);
     (FileEnd, ClientFileEndHandler)].

(** [try { ... } catch (std::exception &) { ... }] with a catch block that only
    prints. *)
Definition try_catch {S} (m : M S unit) : M S unit := fun s =>
  match m s with
  | (Throw _, s') => (Ok tt, s')
  | r => r
  end.

(** Splitting the content of a file as the [read] loop does. *)
Fixpoint chunks_of (fuel n : nat) (b : bytes) : list bytes :=
  match fuel, b with
  | O, _ | _, [] => []
  | S fuel', _ => take n b :: chunks_of fuel' n (drop n b)
  end.

Definition CHUNK : nat := Z.to_nat (16 * 1024).

Definition file_chunks (b : bytes) : list bytes := chunks_of (length b) CHUNK b.

(** [SendFileCommand::to_bytes]. *)
Definition sendfile_to_bytes (x : Z) : bytes :=
  map (fun i => z2b (Z.land (Z.shiftr x (i * 8)) 0xFF)) (seqZ 0 8).

(** [from_bytes] of the file handlers: [v[0]] to [v[7]], without a check. *)
Definition file_from_bytes (v : bytes) : outcome Z := read_u64_loop v 0 8 0 0.

Record MessagingClient {ssl : OpenSSL} (T : Type) := {
  client_context : ClientContext T;
  client_dispatcher : ClientMessageDispatcher;
}.
Arguments client_context {ssl T}.
Arguments client_dispatcher {ssl T}.

Section Client.
  Context {ssl : OpenSSL} {T : Type} {cl : IClient T}.
  Variable now : Z.
  Variable rand : nat -> option bytes.
  (** Whether a path can be opened for writing. *)
  Variable can_open : string -> bool.

(** ** [executeOnClient] *)

(** [client->send_to_server(serializer.serialize(m))]. *)
Definition send_message (m : outcome Message) : M (ClientContext T) unit :=
  m ← lift m;
  send_to_server (Serializer_serialize m).

(** The fields assigned in the command object are the ones in the message. *)
Definition Login_executeOnClient (c : LoginCommand) : M (ClientContext T) LoginCommand :=
  '(dh, idb, sg) ← cc_keys;
  let c := {| login_username := login_username c; login_DH_public_bytes := dh;
              login_identity_pub_bytes := idb; login_signature := sg |} in
  _ ← modify (with_username (login_username c));
  _ ← send_message (Login_toMessage now c);
  mret c.

Definition MakeRoom_executeOnClient (c : MakeRoomCommand) : M (ClientContext T) unit :=
  send_message (MakeRoom_toMessage now c).

Definition Join_executeOnClient (c : JoinCommand) : M (ClientContext T) unit :=
  send_message (Join_toMessage now c).

Definition SendGroupMessage_executeOnClient (c : SendGroupMessageCommand) :
    M (ClientContext T) unit :=
  send_message (Message_make now (group_payload c) 2 [type_meta SEND; group_chat_name c] Command).

Definition GetPubkey_executeOnClient (c : GetPubkeyCommand) : M (ClientContext T) unit :=
  send_message (GetPubkey_toMessage now c).

Definition PrivateMessage_executeOnClient (c : PrivateMessageCommand) :
    M (ClientContext T) PrivateMessageCommand :=
  if is_empty (pmess_recipient c) || is_empty (pmess_payload c) then mret c
  else
    let cmd := GetPubkey_fromParsedCommand {| getpub_username := [] |}
                 {| pc_name := "getpub"; pc_args := [pmess_recipient c] |} in
    _ ← GetPubkey_executeOnClient cmd;
    _ ← modify (fun ctx => with_mq (MessageQueue_push (cc_mq ctx) (pmess_recipient c)
                                      (pmess_payload c)) ctx);
    mret {| pmess_sender := pmess_sender c; pmess_recipient := [];
            pmess_pubkey_bytes := pmess_pubkey_bytes c; pmess_payload := [] |}.

(** The loop over the file, one chunk per iteration. *)
Fixpoint send_chunks (recipient fname_bytes : bytes) (chunks : list bytes) :
    M (ClientContext T) unit :=
  match chunks with
  | [] => mret tt
  | buffer :: rest =>
      n ← counter_of recipient;
      ctx ← get;
      cipher_bytes ← cc_encrypt_for rand (cc_my_username ctx) recipient buffer n;
      _ ← increment_counter recipient;
      '(dh, idb, sg) ← cc_keys;
      _ ← send_message (Message_make now cipher_bytes 6
                          [recipient; fname_bytes; cc_my_username ctx; dh; idb; sg] FileChunk);
      send_chunks recipient fname_bytes rest
  end.

Definition SendFile_executeOnClient (c : SendFileCommand) : M (ClientContext T) unit :=
  ctx ← get;
  match cc_disk ctx !! sendfile_filename c with
  | None => mret tt
  | Some content =>
      let fname_bytes := sbytes (sendfile_filename c) in
      let recipient := sendfile_recipient c in
      '(dh, idb, sg) ← cc_keys;
      _ ← send_message (Message_make now [] 6
                          [recipient; fname_bytes; sendfile_to_bytes (zsize content); dh; idb; sg]
                          FileStart);
      _ ← send_chunks recipient fname_bytes (file_chunks content);
      send_message (Message_make now [] 2 [recipient; fname_bytes] FileEnd)
  end.

Definition Exit_executeOnClient : M (ClientContext T) unit :=
  _ ← send_message (Exit_toMessage now);
  on_client client_disconnect.

(** The command object after the call; on an exception it stays as
    [fromMessage] left it, which the next [fromMessage] overwrites. *)
Definition executeOnClient (h : ICommandHandler) : M (ClientContext T) ICommandHandler :=
  match h with
  | Login c => c ← Login_executeOnClient c; mret (Login c)
  | MakeRoom c => _ ← MakeRoom_executeOnClient c; mret h
  | Join c => _ ← Join_executeOnClient c; mret h
  | SendGroupMessage c => _ ← SendGroupMessage_executeOnClient c; mret h
  | PrivateMessage c => c ← PrivateMessage_executeOnClient c; mret (PrivateMessage c)
  | GetPubkey c => _ ← GetPubkey_executeOnClient c; mret h
  | SendFile c => _ ← SendFile_executeOnClient c; mret h
  | Exit => _ ← Exit_executeOnClient; mret h
  | Connect _ | Disconnect _ | Help => mret h
  end.

Definition ClientCommandBus_dispatch (registry : CommandRegistry) (msg : Message)
    (ctx : ClientContext T) : outcome unit * ClientContext T * CommandRegistry :=
  let cmd := make_struct_from_command msg in
  match registry_find registry (pc_name cmd) with
  | None => (Ok tt, ctx, registry)
  | Some handler =>
      let '(r, handler) := fromMessage handler msg in
      match r with
      | Ok _ =>
          match executeOnClient handler ctx with
          | (Ok handler, ctx) => (Ok tt, ctx, <[pc_name cmd := handler]> registry)
          | (Throw e, ctx) => (Throw e, ctx, <[pc_name cmd := handler]> registry)
          | (Undef, ctx) => (Undef, ctx, <[pc_name cmd := handler]> registry)
          end
      | Throw e => (Throw e, ctx, <[pc_name cmd := handler]> registry)
      | Undef => (Undef, ctx, <[pc_name cmd := handler]> registry)
      end
  end.

(** ** Handlers *)

Definition ClientTextHandler_handleOutgoing (msg : Message) : M (ClientContext T) unit :=
  ui_callback (bstr (Message_get_payload msg)).

Definition process_encrypted_message (sender recipient pubkey_bytes payload identity_key
    signature : bytes) : M (ClientContext T) unit :=
  try_catch (
    _ ← cc_cache_public_key sender pubkey_bytes identity_key;
    n ← counter_of sender;
    decrypted_msg ← cc_decrypt_for sender recipient payload signature n;
    _ ← increment_counter sender;
    ui_callback ("[Личное от " +:+ bstr sender +:+ "]: " +:+ bstr decrypted_msg)).

Definition CipherMessageHandler_handleIncoming (msg : Message) : M (ClientContext T) unit :=
  process_encrypted_message (Message_get_meta msg 1) (Message_get_meta msg 0)
    (Message_get_meta msg 2) (Message_get_payload msg) (Message_get_meta msg 3)
    (Message_get_meta msg 4).

(** The loop over the messages that wait for the key of [username]; each
    iteration takes one out of the queue, which holds less than [queue_size]. *)
Fixpoint send_pending (fuel : nat) (username : bytes) : M (ClientContext T) unit :=
  match fuel with
  | O => mret tt
  | S fuel' =>
      ctx ← get;
      let '(pending_it, mq) := MessageQueue_find_pending (cc_mq ctx) username in
      _ ← modify (with_mq mq);
      match pending_it with
      | None => mret tt
      | Some msg_to_send =>
          n ← counter_of username;
          ctx ← get;
          ciphertext ← cc_encrypt_for rand (cc_my_username ctx) username (om_bytes msg_to_send) n;
          _ ← send_message (Message_make now ciphertext 2 [username; cc_my_username ctx]
                              CipherMessage);
          _ ← increment_counter username;
          send_pending fuel' username
      end
  end.

(** [messages_counter.find(username)->second] is undefined without an entry. *)
Fixpoint show_pending (username : bytes) (pending_received : list bytes) :
    M (ClientContext T) unit :=
  match pending_received with
  | [] => mret tt
  | pending_ciphertext :: rest =>
      ctx ← get;
      sg ← lift (ES_sign (cc_encryption ctx));
      n ← lift (match cc_messages_counter ctx !! username with
                | Some n => Ok n
                | None => Undef
                end);
      _ ← cc_decrypt_for (cc_my_username ctx) (cc_my_username ctx) pending_ciphertext sg n;
      show_pending username rest
  end.

Definition handle_get_pubkey_response (msg : Message) : M (ClientContext T) unit :=
  let username := Message_get_meta msg 1 in
  _ ← cc_cache_public_key username (Message_get_payload msg) (Message_get_meta msg 2);
  _ ← send_pending queue_size username;
  ctx ← get;
  let pending_received := default [] (cc_pending_messages ctx !! username) in
  _ ← modify (with_pending (delete username (cc_pending_messages ctx)));
  show_pending username pending_received.

Definition ResponseMessageHandler_handleIncoming (msg : Message) : M (ClientContext T) unit :=
  match Message_get_meta msg 0 with
  | [] => mret tt
  | b :: _ =>
      match CommandType_of_byte b with
      | GET_PUBKEY => handle_get_pubkey_response msg
      | _ => mret tt
      end
  end.

(** The key of [pending_files], which is also the path. *)
Definition file_key (msg : Message) : string :=
  bstr (Message_get_meta msg 0) +:+ " " +:+ bstr (Message_get_meta msg 1).

(** Opening for writing truncates the file. *)
Definition ClientFileStart_handleIncoming (msg : Message) : M (ClientContext T) unit :=
  _ ← lift (file_from_bytes (Message_get_meta msg 2));
  let path := file_key msg in
  if can_open path then
    modify (fun c => with_files (<[path := path]> (cc_files c))
                       (with_disk (<[path := []]> (cc_disk c)) c))
  else mret tt.

Definition ClientFileChunk_handleIncoming (msg : Message) : M (ClientContext T) unit :=
  ctx ← get;
  match cc_files ctx !! file_key msg with
  | None => mret tt
  | Some path =>
      _ ← counter_of (Message_get_meta msg 0);
      _ ← cc_cache_public_key (Message_get_meta msg 2) (Message_get_meta msg 3)
            (Message_get_meta msg 4);
      n ← counter_of (Message_get_meta msg 0);
      payload ← cc_decrypt_for (Message_get_meta msg 2) (Message_get_meta msg 0)
                  (Message_get_payload msg) (Message_get_meta msg 5) n;
      modify (fun c => with_disk (<[path := default [] (cc_disk c !! path) ++ payload]> (cc_disk c)) c)
  end.

Definition ClientFileEnd_handleIncoming (msg : Message) : M (ClientContext T) unit :=
  modify (fun c => with_files (delete (file_key msg) (cc_files c)) c).

(** [handleOutgoing], which the dispatcher calls; all but the command handler's
    forward to [handleIncoming]. *)
Definition client_handleOutgoing (h : IClientMessageHandler) (msg : Message)
    (ctx : ClientContext T) : outcome unit * ClientContext T * IClientMessageHandler :=
  match h with
  | ClientTextHandler => (ClientTextHandler_handleOutgoing msg ctx, h)
  | ClientCommandHandler registry_ =>
      let '(r, ctx, registry_) := ClientCommandBus_dispatch registry_ msg ctx in
      (r, ctx, ClientCommandHandler registry_)
  | ResponseMessageHandler => (ResponseMessageHandler_handleIncoming msg ctx, h)
  | CipherMessageHandler => (CipherMessageHandler_handleIncoming msg ctx, h)
  | ClientFileStartHandler => (ClientFileStart_handleIncoming msg ctx, h)
  | ClientFileChunkHandler => (ClientFileChunk_handleIncoming msg ctx, h)
  | ClientFileEndHandler => (ClientFileEnd_handleIncoming msg ctx, h)
  end.

(** ** [ClientMessageDispatcher] and [MessagingClient] *)

Definition client_dispatch (msg : Message) : M (MessagingClient T) bool := fun s =>
  let d := client_dispatcher s in
  match client_handlers d !! Message_get_type msg with
  | None => (Ok false, s)
  | Some h =>
      if negb (client_context_set d) then (Undef, s)
      else
        let '(r, ctx, h) := client_handleOutgoing h msg (client_context s) in
        let s' := {| client_context := ctx;
                     client_dispatcher := client_registerHandler d (Message_get_type msg) h |} in
        match r with
        | Ok _ => (Ok true, s')
        | Throw _ => (Ok false, s')
        | Undef => (Undef, s')
        end
  end.

Definition client_dispatchFromRawBytes (raw_data : bytes) : M (MessagingClient T) bool := fun s =>
  match Serializer_deserialize raw_data with
  | Ok msg => client_dispatch msg s
  | Throw _ => (Ok false, s)
  | Undef => (Undef, s)
  end.

(** [dispatch_incoming] and [dispatch_outgoing] have the same body. *)
Definition dispatch_outgoing (msg : Message) : M (MessagingClient T) unit :=
  _ ← modify (fun s => {| client_context := client_context s;
                          client_dispatcher := client_setContext (client_dispatcher s) |});
  _ ← client_dispatch msg;
  mret tt.

Definition dispatch_incoming (msg : Message) : M (MessagingClient T) unit :=
  _ ← modify (fun s => {| client_context := client_context s;
                          client_dispatcher := client_setContext (client_dispatcher s) |});
  _ ← client_dispatch msg;
  mret tt.

Definition client_on_tcp_data_received (raw_data : bytes) : M (MessagingClient T) unit :=
  msg ← lift (Serializer_deserialize raw_data);
  dispatch_incoming msg.

(** A line the user typed. *)
Definition get_data (data : string) : M (MessagingClient T) unit :=
  msg ← lift (parse now data);
  dispatch_outgoing msg.

Definition MessagingClient_stop : M (MessagingClient T) unit := fun s =>
  let '(r, ctx) := on_client client_disconnect (client_context s) in
  (r, {| client_context := ctx; client_dispatcher := client_dispatcher s |}).

End Client.

Definition MessagingClient_make {ssl : OpenSSL} {T} (ctx : ClientContext T) : MessagingClient T :=
  {| client_context := ctx; client_dispatcher := MessagingClient_dispatcher |}.
