(* ===== verification/ClientSpec.v ===== *)
(** What the client does with the messages it receives and with what the user
    types: encrypted messages and their counters, messages that wait for a key,
    files, and commands that come from the network. *)
From S2P Require Import Prelude Message Wire CommandPattern Parser Commands AppService Queue Crypto ClientContext Client.

Section Receive.
  Context {ssl : OpenSSL} {laws : OpenSSLLaws} {T : Type} {cl : IClient T}.

(** The counter a client has for a name. *)
Definition counter_for (c : ClientContext T) (name : bytes) : Z :=
  default 0 (cc_messages_counter c !! name).

Definition private_text (sender : bytes) (pt : bytes) : string :=
  "[Личное от " +:+ bstr sender +:+ "]: " +:+ bstr pt.

(** *** One operation at a time *)

Lemma counter_of_run name (c : ClientContext T) :
  counter_of name c = (Ok (counter_for c name),
    with_counter (<[name := counter_for c name]> (cc_messages_counter c)) c).
Proof. done. Qed.

Lemma increment_counter_run name (c : ClientContext T) :
  increment_counter name c = (Ok tt,
    with_counter (<[name := u64 (counter_for c name + 1)]> (cc_messages_counter c)) c).
Proof.
  unfold increment_counter, mbind, M_bind. rewrite counter_of_run. unfold modify, with_counter. cbn.
  by rewrite insert_insert_eq.
Qed.

Lemma cache_run (c : ClientContext T) name dh id enc :
  ES_cache_public_key (cc_encryption c) name dh id = (Ok tt, enc) ->
  cc_cache_public_key name dh id c = (Ok tt, with_encryption enc c).
Proof. intros E. unfold cc_cache_public_key, mbind, M_bind, get. by rewrite E. Qed.

Lemma decrypt_run (c : ClientContext T) sender user ct sig n :
  cc_decrypt_for sender user ct sig n c
  = ((ES_decrypt_for (cc_encryption c) sender user ct sig n).1,
     with_encryption (ES_decrypt_for (cc_encryption c) sender user ct sig n).2 c).
Proof.
  unfold cc_decrypt_for, mbind, M_bind, get, modify, lift.
  by destruct (ES_decrypt_for (cc_encryption c) sender user ct sig n) as [[] ?].
Qed.

Lemma cipher_received (c : ClientContext T) (m : Message) (a enc : EncryptionService)
    (iv pt rec na nb dh id sig : bytes) (k : Z) :
  cc_ui_set c = true -> metadata m = [nb; na; dh; id; sig] -> payload m = rec ->
  ES_cache_public_key (cc_encryption c) na dh id = (Ok tt, enc) -> paired a enc na nb sig ->
  zsize iv = 12 -> 0 <= k < 2 ^ 64 -> zsize pt < 2 ^ 31 -> ES_encrypt_for (Some iv) a na nb pt k = Ok rec ->
  let '(r, c') := CipherMessageHandler_handleIncoming m c in
  r = Ok tt /\
  if counter_for c na =? k
  then cc_ui c' = cc_ui c ++ [private_text na pt] /\ counter_for c' na = u64 (k + 1)
  else cc_ui c' = cc_ui c /\ counter_for c' na = counter_for c na.
Proof.
  intros Hui Hm Hp Hcache Hpair Hiv Hk Hpt Henc.
  unfold CipherMessageHandler_handleIncoming, Message_get_meta, Message_get_payload. rewrite Hm, Hp.
  cbn [lookup list_lookup]. unfold process_encrypted_message, try_catch.
  unfold mbind at 1, M_bind. rewrite (cache_run _ _ _ _ _ Hcache).
  unfold mbind at 1, M_bind. rewrite counter_of_run.
  unfold mbind at 1, M_bind. rewrite decrypt_run. cbn [cc_encryption with_counter with_encryption].
  change (counter_for (with_encryption enc c) na) with (counter_for c na).
  rewrite (end_to_end iv a enc na nb sig pt k rec (counter_for c na) Hpair Hiv Hk Hpt Henc).
  destruct (Z.eqb_spec (counter_for c na) k) as [E|E].
  - unfold mbind at 1, M_bind. rewrite increment_counter_run. unfold ui_callback, mbind, M_bind, get.
    cbn [cc_ui_set with_counter with_encryption]. rewrite Hui. cbn. split; [done|]. split; [done|].
    unfold counter_for. cbn. rewrite !lookup_insert_eq. cbn. do 2 f_equal. exact E.
  - cbn. split; [done|]. split; [done|]. unfold counter_for. cbn. by rewrite lookup_insert_eq.
Qed.

(** ** Properties *)

(** Receiving a private message: a cipher message that carries the author's keys
    and a text encrypted for this user with counter [k] is shown, and the counter
    for the author goes up by one, exactly when the counter this client has for
    the author is [k]; otherwise it is dropped: nothing is shown and the counter
    stays. The handler never fails. *)
Theorem cipher_message_received (c : ClientContext T) (m : Message) (a enc : EncryptionService)
    (iv pt rec na nb dh id sig : bytes) (k : Z) :
  cc_ui_set c = true -> metadata m = [nb; na; dh; id; sig] -> payload m = rec ->
  ES_cache_public_key (cc_encryption c) na dh id = (Ok tt, enc) -> paired a enc na nb sig ->
  zsize iv = 12 -> 0 <= k < 2 ^ 64 -> zsize pt < 2 ^ 31 -> ES_encrypt_for (Some iv) a na nb pt k = Ok rec ->
  let '(r, c') := CipherMessageHandler_handleIncoming m c in
  r = Ok tt /\
  if counter_for c na =? k
  then cc_ui c' = cc_ui c ++ [private_text na pt] /\ counter_for c' na = u64 (k + 1)
  else cc_ui c' = cc_ui c /\ counter_for c' na = counter_for c na.
Proof. apply cipher_received. Qed.

End Receive.

(** ** Messages that wait for a key *)

(** The bytes of a message. *)
Definition wire_bytes (now : Z) (x : bytes) (ms : list bytes) (t : MessageType) : bytes :=
  match Message_make now x 0 ms t with
  | Ok m => Serializer_serialize m
  | _ => []
  end.

Section Send.
  Context {ssl : OpenSSL} {laws : OpenSSLLaws}.
  Variable now : Z.
  Variable rand : nat -> option bytes.
  Variables user my : bytes.

(** [recs] are the records of the messages [ms], encrypted one after the other
    from the random number [r] and the counter [n] on. *)
Inductive sealed (enc : EncryptionService) : nat -> Z -> list OutgoingMessage -> list bytes -> Prop :=
| sealed_nil r n : sealed enc r n [] []
| sealed_cons r n m ms rec recs :
    ES_encrypt_for (rand r) enc my user (om_bytes m) n = Ok rec ->
    sealed enc (S r) (u64 (n + 1)) ms recs -> sealed enc r n (m :: ms) (rec :: recs).

Lemma sealed_length enc r n ms recs : sealed enc r n ms recs -> length recs = length ms.
Proof. induction 1; cbn; congruence. Qed.

(** Encryption for [user] works: a key is cached and OpenSSL does not fail on
    texts that fit a message. *)
Definition can_encrypt (enc : EncryptionService) : Prop :=
  forall r pt n, zsize pt < 2 ^ 30 -> exists iv rec, rand r = Some iv /\ zsize iv = 12 /\
    ES_encrypt_for (Some iv) enc my user pt n = Ok rec.

Definition small_text (m : OutgoingMessage) : Prop := zsize (om_bytes m) < 2 ^ 30.

Lemma record_size iv enc pt n rec :
  zsize iv = 12 -> zsize pt < 2 ^ 30 ->
  ES_encrypt_for (Some iv) enc my user pt n = Ok rec -> zsize rec = zsize pt + 36.
Proof.
  intros Hiv Hpt H. unfold ES_encrypt_for in H. case_match; [|done].
  apply obind_Ok in H as (k & Hk & H). eapply AES_encrypt_size; [done | lia | done].
Qed.

Lemma cipher_message_made rec :
  small_meta user -> small_meta my -> zsize rec < 2 ^ 31 ->
  exists m, Message_make now rec 2 [user; my] CipherMessage = Ok m /\
    Serializer_serialize m = wire_bytes now rec [user; my] CipherMessage.
Proof.
  unfold small_meta. intros Hu Hm Hr.
  destruct (Message_make_carries now rec 2 [user; my] CipherMessage) as (m & E & _); [|done|].
  { unfold fits, small_metas. cbn. repeat (apply andb_true_iff; split); try done; apply Z.ltb_lt; lia. }
  exists m. split; [done|]. unfold wire_bytes.
  change (Message_make now rec 0 [user; my] CipherMessage) with (Message_make now rec 2 [user; my] CipherMessage).
  by rewrite E.
Qed.

Lemma send_pending_run l : forall fuel (c : ClientContext client_log) f,
  (length l < fuel)%nat -> mq_holds (cc_mq c) f -> f user = l ->
  cc_my_username c = my -> can_encrypt (cc_encryption c) ->
  small_meta user -> small_meta my -> Forall small_text l ->
  exists recs, sealed (cc_encryption c) (cc_rand c) (counter_for c user) l recs /\
    let '(r, c') := send_pending now rand fuel user c in
    r = Ok tt /\
    cc_client c' = {| log_sent := log_sent (cc_client c)
                        ++ map (fun rec => wire_bytes now rec [user; my] CipherMessage) recs;
                      log_closed := log_closed (cc_client c) |} /\
    mq_holds (cc_mq c') (fun r' => if decide (r' = user) then [] else f r').
Proof.
  induction l as [|m l IH]; intros [|fuel] c f Hf Hmq Hl Hmy Henc Hu Hm Hsm; cbn [length] in Hf; try lia;
    cbn [send_pending]; unfold mbind at 1, M_bind, get;
    destruct (mq_holds_find _ _ user Hmq) as [Hfind Hmq']; rewrite Hl in *;
    destruct (MessageQueue_find_pending (cc_mq c) user) as [p mq]; cbn [fst snd hd_error tl] in Hfind, Hmq'; subst p.
  - exists []. split; [constructor|]. unfold mbind, M_bind, modify, mret, M_ret. cbn. rewrite app_nil_r.
    split; [done|]. split; [by destruct (cc_client c)|]. done.
  - apply Forall_cons_iff in Hsm as [Hs Hsm].
    unfold small_text in Hs.
    destruct (Henc (cc_rand c) (om_bytes m) (counter_for c user) Hs) as (iv & rec & Hr & Hiv & He).
    pose proof (record_size _ _ _ _ _ Hiv Hs He) as Hsz.
    destruct (cipher_message_made rec Hu Hm ltac:(lia)) as (cm & Hcm & Hw).
    unfold counter_of, cc_encrypt_for, send_message, send_to_server, increment_counter, counter_of,
      mbind, M_bind, modify, get, lift, mret, M_ret.
    cbn -[send_pending u64 Message_make]. fold (counter_for c user). rewrite Hmy, Hr, He. rewrite Hcm.
    cbn -[send_pending u64 Message_make].
    match goal with |- context [send_pending now rand fuel user ?c1] => set (c' := c1) end.
    assert (Hc' : counter_for c' user = u64 (counter_for c user + 1))
      by (unfold counter_for at 1, c'; cbn; by rewrite !lookup_insert_eq).
    destruct (IH fuel c' (fun r' => if decide (r' = user) then l else f r')) as (recs & Hseal & Hrun);
      try done; [lia | by rewrite decide_True|].
    rewrite Hc' in Hseal. exists (rec :: recs). split.
    + constructor; [by rewrite Hr | exact Hseal].
    + destruct (send_pending now rand fuel user c') as [r c2]. destruct Hrun as (-> & -> & Hq).
      split; [done|]. split.
      * cbn. rewrite Hw, <- app_assoc. done.
      * intros r'. specialize (Hq r'). cbv beta in Hq. destruct (decide (r' = user)); done.
Qed.

(** Messages that wait for a key: when the key of a user arrives, every message
    queued for that user is encrypted and sent, in the order it was typed and
    with consecutive counters, nothing else is sent, and the queue of that user
    is empty while the others are as before. (The user name and the texts fit a
    message, and encryption works.) *)
Theorem pending_messages_sent (c : ClientContext client_log) (f : bytes -> list OutgoingMessage) :
  mq_holds (cc_mq c) f -> cc_my_username c = my -> can_encrypt (cc_encryption c) ->
  small_meta user -> small_meta my -> Forall small_text (f user) ->
  exists recs, sealed (cc_encryption c) (cc_rand c) (counter_for c user) (f user) recs /\
    let '(r, c') := send_pending now rand queue_size user c in
    r = Ok tt /\
    cc_client c' = {| log_sent := log_sent (cc_client c)
                        ++ map (fun rec => wire_bytes now rec [user; my] CipherMessage) recs;
                      log_closed := log_closed (cc_client c) |} /\
    mq_holds (cc_mq c') (fun r' => if decide (r' = user) then [] else f r').
Proof.
  intros Hmq. intros. apply send_pending_run; try done.
  pose proof (holds_room _ _ _ _ (Hmq user)). rewrite queue_size_eq in *. lia.
Qed.

End Send.

(** ** Files *)

Lemma chunks_of_concat n fuel : forall b, (0 < n)%nat -> (length b <= fuel)%nat ->
  concat (chunks_of fuel n b) = b /\
  Forall (fun x => x <> [] /\ (length x <= n)%nat) (chunks_of fuel n b).
Proof.
  induction fuel as [|fuel IH]; intros b Hn Hb.
  - destruct b; [done | cbn in Hb; lia].
  - cbn [chunks_of]. destruct b as [|x b]; [done|].
    destruct (IH (drop n (x :: b)) Hn) as [Hc Hf]; [rewrite length_drop; cbn [length] in *; lia|].
    cbn [concat]. split; [rewrite Hc; apply take_drop|].
    constructor; [|done]. split; [destruct n; [lia | done]|]. rewrite length_take. lia.
Qed.

Section Files.
  Context {ssl : OpenSSL} {laws : OpenSSLLaws} {T : Type} {cl : IClient T}.
  Variable can_open : string -> bool.

(** A file is cut without loss: the chunks a file is sent in are not empty, hold
    at most 16384 bytes and joined give the file back. *)
Theorem file_chunks_lossless (b : bytes) :
  concat (file_chunks b) = b /\
  Forall (fun x => x <> [] /\ zsize x <= 16384) (file_chunks b).
Proof.
  unfold file_chunks. destruct (chunks_of_concat CHUNK (length b) b) as [Hc Hf]; [unfold CHUNK; lia|lia|].
  split; [done|]. revert Hf. apply Forall_impl. intros x [Hx Hl]. split; [done|].
  unfold CHUNK, zsize in *. lia.
Qed.

(** Receiving a chunk: for a file that is open, a chunk that carries the sender's
    keys and was encrypted with counter [k] is appended to the file exactly when
    the counter this client has under its own name is [k], which receiving does
    not change; otherwise the handler throws and the file stays as it is. The
    sender counts its chunks up, so of a file sent in several chunks only one
    can be accepted. *)
Theorem file_chunk_received (c : ClientContext T) (m : Message) (a enc : EncryptionService)
    (path : string) (iv pt rec na nb fname dh id sig : bytes) (k : Z) :
  metadata m = [nb; fname; na; dh; id; sig] -> payload m = rec ->
  cc_files c !! file_key m = Some path ->
  ES_cache_public_key (cc_encryption c) na dh id = (Ok tt, enc) -> paired a enc na nb sig ->
  zsize iv = 12 -> 0 <= k < 2 ^ 64 -> zsize pt < 2 ^ 31 -> ES_encrypt_for (Some iv) a na nb pt k = Ok rec ->
  let '(r, c') := ClientFileChunk_handleIncoming m c in
  counter_for c' nb = counter_for c nb /\
  if counter_for c nb =? k
  then r = Ok tt /\ cc_disk c' = <[path := default [] (cc_disk c !! path) ++ pt]> (cc_disk c)
  else r = Throw (runtime_error "Replay attack detected or counter mismatch") /\ cc_disk c' = cc_disk c.
Proof.
  intros Hm Hp Hfile Hcache Hpair Hiv Hk Hpt Henc.
  unfold ClientFileChunk_handleIncoming. unfold mbind at 1, M_bind, get. rewrite Hfile.
  unfold Message_get_meta, Message_get_payload. rewrite Hm, Hp. cbn [lookup list_lookup].
  unfold mbind at 1, M_bind. rewrite counter_of_run.
  unfold mbind at 1, M_bind. erewrite cache_run by exact Hcache.
  unfold mbind at 1, M_bind. rewrite counter_of_run.
  unfold mbind at 1, M_bind. rewrite decrypt_run. cbn [cc_encryption with_counter with_encryption].
  match goal with |- context [ES_decrypt_for enc na nb rec sig ?n] =>
    assert (n = counter_for c nb) as -> by (unfold counter_for; cbn; by rewrite lookup_insert_eq) end.
  rewrite (end_to_end iv a enc na nb sig pt k rec (counter_for c nb) Hpair Hiv Hk Hpt Henc).
  destruct (counter_for c nb =? k); cbn; unfold counter_for; cbn; rewrite !lookup_insert_eq; done.
Qed.

(** A file announcement is read without a check of its size: when the third
    metadata entry of a [FileStart] message, eight bytes when our client sends
    it, is shorter, reading it is undefined; the server forwards the message as
    it is. *)
Theorem file_start_short_size (c : ClientContext T) (m : Message) :
  (ClientFileStart_handleIncoming can_open m c).1 = Undef <-> zsize (Message_get_meta m 2) < 8.
Proof.
  unfold ClientFileStart_handleIncoming, mbind at 1, M_bind, lift.
  destruct (Z.lt_ge_cases (zsize (Message_get_meta m 2)) 8) as [Hlt|Hge].
  - split; [done|]. intros _. unfold file_from_bytes.
    assert (H : forall b n i v, 0 <= i -> zsize b < i + Z.of_nat n -> (0 < n)%nat -> i <= zsize b ->
                read_u64_loop b 0 n i v = Undef).
    { clear. intros b n. induction n as [|n IH]; intros i v Hi Hlt Hn Hle; [lia|]. cbn [read_u64_loop].
      destruct (Z.eq_dec i (zsize b)) as [->|].
      - unfold at_. destruct (Z.ltb_spec (0 + zsize b) 0); [lia|].
        rewrite lookup_ge_None_2; [done|]. unfold zsize in *. lia.
      - destruct (at_defined b (0 + i)) as [x ->]; [lia|]. cbn [mbind outcome_bind].
        apply IH; [lia|lia| |lia]. destruct n; [exfalso; lia | lia]. }
    rewrite H; [done|lia..|]. apply zsize_nonneg.
  - split; [|lia]. pose proof (read_u64_defined (Message_get_meta m 2) 0 ltac:(lia) Hge) as Hd.
    unfold read_u64 in Hd. unfold file_from_bytes.
    destruct (read_u64_loop (Message_get_meta m 2) 0 8 0 0); try done. by case_match.
Qed.

End Files.

(** ** Commands from the network *)

Section Incoming.
  Context {ssl : OpenSSL} {T : Type} {cl : IClient T}.
  Variable now : Z.
  Variable rand : nat -> option bytes.
  Variable can_open : string -> bool.

(** The handlers look at the type, the metadata and the payload only. *)
Lemma client_dispatch_norm m (s : MessagingClient T) :
  client_dispatch now rand can_open (wire_norm m) s = client_dispatch now rand can_open m s.
Proof.
  unfold client_dispatch. change (Message_get_type (wire_norm m)) with (Message_get_type m).
  destruct (client_handlers (client_dispatcher s) !! Message_get_type m) as [h|]; [|done].
  destruct (negb (client_context_set (client_dispatcher s))); [done|].
  by destruct h.
Qed.

(** A command from the network is executed like one the user typed: for every
    line the user can type, the bytes of its message, received from the server,
    have exactly the effect of typing the line; also when the line is a
    "/sendfile" of any file the client can read. *)
Theorem incoming_command_executed (data : string) (m : Message) (q : bytes) (s : MessagingClient T) :
  parse now data = Ok m -> wire_ok m = true ->
  client_on_tcp_data_received now rand can_open (Serializer_serialize m ++ q) s
  = get_data now rand can_open data s.
Proof.
  intros Hp Hw. unfold client_on_tcp_data_received, get_data. rewrite wire_ok_roundtrip, Hp by done.
  unfold dispatch_incoming, dispatch_outgoing, mbind, M_bind, lift, modify. by rewrite client_dispatch_norm.
Qed.

End Incoming.

(** ** The properties on concrete clients *)

#[local] Existing Instance plain_ssl.

Definition demo_rand (n : nat) : option bytes := Some (replicate 12 Byte.x01).

(** The client of "bob", with the given services, files and counters. *)
Definition demo_client (enc : EncryptionService) (counters : gmap bytes Z) (mq : MessageQueue) :
    ClientContext client_log :=
  {| cc_config := {| server_host := "127.0.0.1"; server_port := 8080 |}; cc_ui_set := true; cc_ui := [];
     cc_client := {| log_sent := []; log_closed := false |}; cc_mq := mq; cc_encryption := enc;
     cc_files := {["bob notes"%string := "bob notes"%string]}; cc_pending_messages := ∅;
     cc_my_username := sbytes "bob"; cc_messages_counter := counters;
     cc_disk := {["bob notes"%string := []]}; cc_rand := 0 |}.

Definition demo_record : bytes :=
  match ES_encrypt_for (demo_rand 0) demo_alice (sbytes "alice") (sbytes "bob") (sbytes "hello") 0 with
  | Ok r => r
  | _ => []
  end.

Definition demo_message (x : bytes) (ms : list bytes) (t : MessageType) : Message :=
  match Message_make 0 x 0 ms t with Ok m => m | _ => Message_default end.

Lemma demo_cache : ES_cache_public_key demo_bob (sbytes "alice") (sbytes "a") (sbytes "ia") = (Ok tt, demo_bob).
Proof.
  unfold ES_cache_public_key.
  change (DH_from_public_bytes (sbytes "a")) with (Ok (Some (sbytes "a"))).
  change (Identity_from_public_bytes (sbytes "ia")) with (Ok (Some (sbytes "ia"))).
  unfold demo_bob. cbn [es_DH_key es_identity_key es_DH_keys es_identity_keys].
  by rewrite !insert_singleton_eq.
Qed.

(** The message is shown the first time and dropped the second time. *)
Lemma cipher_message_received_witness :
  let m := demo_message demo_record [sbytes "bob"; sbytes "alice"; sbytes "a"; sbytes "ia"; sbytes "a"]
             CipherMessage in
  let '(_, c1) := CipherMessageHandler_handleIncoming m (demo_client demo_bob ∅ MessageQueue_make) in
  let '(_, c2) := CipherMessageHandler_handleIncoming m
                    (demo_client demo_bob {[sbytes "alice" := 1]} MessageQueue_make) in
  cc_ui c1 = [private_text (sbytes "alice") (sbytes "hello")] /\ cc_ui c2 = [].
Proof.
  intros m.
  pose proof (cipher_message_received (demo_client demo_bob ∅ MessageQueue_make) m demo_alice demo_bob
    (replicate 12 Byte.x01) (sbytes "hello") demo_record (sbytes "alice") (sbytes "bob") (sbytes "a")
    (sbytes "ia") (sbytes "a") 0 ltac:(vm_compute; reflexivity) ltac:(vm_compute; reflexivity) ltac:(vm_compute; reflexivity)
    demo_cache demo_paired eq_refl ltac:(lia) eq_refl ltac:(vm_compute; reflexivity)) as H1.
  pose proof (cipher_message_received (demo_client demo_bob {[sbytes "alice" := 1]} MessageQueue_make) m
    demo_alice demo_bob
    (replicate 12 Byte.x01) (sbytes "hello") demo_record (sbytes "alice") (sbytes "bob") (sbytes "a")
    (sbytes "ia") (sbytes "a") 0 ltac:(vm_compute; reflexivity) ltac:(vm_compute; reflexivity) ltac:(vm_compute; reflexivity)
    demo_cache demo_paired eq_refl ltac:(lia) eq_refl ltac:(vm_compute; reflexivity)) as H2.
  destruct (CipherMessageHandler_handleIncoming m (demo_client demo_bob ∅ MessageQueue_make)) as [r1 c1].
  destruct (CipherMessageHandler_handleIncoming m _) as [r2 c2].
  split; [exact (proj1 (proj2 H1)) | exact (proj1 (proj2 H2))].
Defined.

Lemma pending_messages_sent_witness :
  let mq := MessageQueue_push MessageQueue_make (sbytes "bob") (sbytes "hi") in
  let c := with_username (sbytes "alice") (demo_client demo_alice ∅ mq) in
  exists recs, length recs = 1%nat /\
    log_sent (cc_client (send_pending 0 demo_rand queue_size (sbytes "bob") c).2)
    = map (fun rec => wire_bytes 0 rec [sbytes "bob"; sbytes "alice"] CipherMessage) recs.
Proof.
  intros mq c.
  set (f := fun r' : bytes => if decide (r' = sbytes "bob" /\ (@length OutgoingMessage [] < queue_size - 1)%nat)
                      then [] ++ [{| om_bytes := sbytes "hi" |}] else []).
  assert (Hq : mq_holds mq f) by exact (mq_holds_push _ _ _ _ mq_holds_make).
  assert (Hf : f (sbytes "bob") = [{| om_bytes := sbytes "hi" |}]).
  { unfold f. rewrite decide_True; [reflexivity|]. split; [reflexivity|]. rewrite queue_size_eq. cbn. lia. }
  destruct (pending_messages_sent 0 demo_rand (sbytes "bob") (sbytes "alice") c f) as (recs & Hs & Hr).
  - exact Hq.
  - reflexivity.
  - intros r pt n Hpt. exists (replicate 12 Byte.x01). eexists. split_and!; reflexivity.
  - vm_compute; reflexivity.
  - vm_compute; reflexivity.
  - rewrite Hf. repeat constructor.
  - exists recs. rewrite Hf in Hs. apply sealed_length in Hs. split; [exact Hs|].
    revert Hr. destruct (send_pending 0 demo_rand queue_size (sbytes "bob") c) as [r c'].
    intros (_ & Hr & _). cbn [snd]. rewrite Hr. reflexivity.
Defined.

Lemma file_chunk_received_witness :
  let m := demo_message demo_record
             [sbytes "bob"; sbytes "notes"; sbytes "alice"; sbytes "a"; sbytes "ia"; sbytes "a"] FileChunk in
  let '(r, c') := ClientFileChunk_handleIncoming m (demo_client demo_bob ∅ MessageQueue_make) in
  r = Ok tt /\ cc_disk c' !! "bob notes"%string = Some (sbytes "hello").
Proof.
  intros m.
  pose proof (file_chunk_received (demo_client demo_bob ∅ MessageQueue_make) m demo_alice demo_bob
    "bob notes" (replicate 12 Byte.x01) (sbytes "hello") demo_record (sbytes "alice") (sbytes "bob")
    (sbytes "notes") (sbytes "a") (sbytes "ia") (sbytes "a") 0 ltac:(vm_compute; reflexivity)
    ltac:(vm_compute; reflexivity) ltac:(vm_compute; reflexivity) demo_cache demo_paired
    eq_refl ltac:(lia) eq_refl ltac:(vm_compute; reflexivity)) as H.
  destruct (ClientFileChunk_handleIncoming m _) as [r c'].
  destruct H as [_ H]. cbn in H. destruct H as [-> ->]. split; [reflexivity | vm_compute; reflexivity].
Defined.

Lemma incoming_command_executed_witness :
  exists m, parse 0 "/sendfile eve notes.txt" = Ok m /\
    forall s : MessagingClient client_log,
      client_on_tcp_data_received 0 demo_rand (fun _ => true) (Serializer_serialize m ++ []) s
      = get_data 0 demo_rand (fun _ => true) "/sendfile eve notes.txt" s.
Proof.
  eexists. split; [vm_compute; reflexivity|]. intros s.
  apply incoming_command_executed; vm_compute; reflexivity.
Defined.
