(* ===== verification/System.v ===== *)
(** The whole chat system: the server, its clients, and the streams between them.
    Each client is connected under a descriptor; what it sends reaches the server
    in order, and so does what the server sends to it ([Transport.v], [Stack.v]
    and [TransportSpec.v] have the streams themselves). *)
From S2P Require Import Prelude Message Wire CommandPattern Parser Models Services AppService Commands Server Queue Crypto Keys ClientContext Client.

(** What the server has sent to a descriptor. *)
Definition sent_to (fd : Z) (log : sent_log) : list bytes :=
  omap (fun '(f, data) => if f =? fd then Some data else None) log.

(** [sys_up] and [sys_down] count, for each descriptor, the messages that have
    arrived at the server and at the client. *)
Record System {ssl : OpenSSL} := {
  sys_server : MessagingServer sent_log;
  sys_clients : gmap Z (MessagingClient client_log);
  sys_up : gmap Z nat;
  sys_down : gmap Z nat;
}.

Inductive SystemEvent :=
| Typed (fd : Z) (line : string)
| ToServer (fd : Z)
| ToClient (fd : Z).

Section System.
  Context {ssl : OpenSSL} {ord : IterOrder}.
  Variable now : Z.
  (** The random numbers of each client. *)
  Variable rand : Z -> nat -> option bytes.
  Variable can_open : string -> bool.

Definition set_client (fd : Z) (c : MessagingClient client_log) (s : System) : System :=
  {| sys_server := sys_server s; sys_clients := <[fd := c]> (sys_clients s);
     sys_up := sys_up s; sys_down := sys_down s |}.

Definition set_server (v : MessagingServer sent_log) (s : System) : System :=
  {| sys_server := v; sys_clients := sys_clients s; sys_up := sys_up s; sys_down := sys_down s |}.

Definition count_up (fd : Z) (s : System) : System :=
  {| sys_server := sys_server s; sys_clients := sys_clients s;
     sys_up := <[fd := S (default 0%nat (sys_up s !! fd))]> (sys_up s); sys_down := sys_down s |}.

Definition count_down (fd : Z) (s : System) : System :=
  {| sys_server := sys_server s; sys_clients := sys_clients s; sys_up := sys_up s;
     sys_down := <[fd := S (default 0%nat (sys_down s !! fd))]> (sys_down s) |}.

(** The next message of a client for the server, and of the server for a client. *)
Definition next_up (fd : Z) (s : System) : option bytes :=
  c ← sys_clients s !! fd;
  log_sent (cc_client (client_context c)) !! default 0%nat (sys_up s !! fd).

Definition next_down (fd : Z) (s : System) : option bytes :=
  sent_to fd (sc_transport (server_context (sys_server s))) !! default 0%nat (sys_down s !! fd).

(** Runs an operation of the client of [fd]. *)
Definition at_client (fd : Z) (f : M (MessagingClient client_log) unit) : M System unit := fun s =>
  match sys_clients s !! fd with
  | None => (Ok tt, s)
  | Some c => let '(r, c) := f c in (r, set_client fd c s)
  end.

Definition at_server (f : M (MessagingServer sent_log) unit) : M System unit := fun s =>
  let '(r, v) := f (sys_server s) in (r, set_server v s).

Definition system_step (e : SystemEvent) : M System unit :=
  match e with
  | Typed fd line => at_client fd (get_data now (rand fd) can_open line)
  | ToServer fd =>
      s ← get;
      match next_up fd s with
      | None => mret tt
      | Some raw =>
          _ ← modify (count_up fd);
          at_server (server_step now (DataReceived fd raw))
      end
  | ToClient fd =>
      s ← get;
      match next_down fd s with
      | None => mret tt
      | Some raw =>
          _ ← modify (count_down fd);
          at_client fd (client_on_tcp_data_received now (rand fd) can_open raw)
      end
  end.

Fixpoint system_run (es : list SystemEvent) : M System unit :=
  match es with
  | [] => mret tt
  | e :: es => _ ← system_step e; system_run es
  end.

End System.
