(* ===== verification/SystemSpec.v ===== *)
(** The system as a whole delivers: logging in, and a private message from the
    line its author types to the screen of its recipient. *)
From Stdlib Require Import Ascii.
From S2P Require Import Prelude Message Wire CommandPattern Parser Models Services AppService Commands Server ServerInvariant ServerSpec Queue Crypto Keys ClientContext Client ClientSpec System.

(** ** The client's dispatcher *)

Definition client_dispatcher_ok (d : ClientMessageDispatcher) : Prop :=
  exists reg : CommandRegistry,
    getType <$> reg = (getType <$> ClientCommandHandler_registry : gmap string CommandType) /\
    client_handlers d = <[Command := ClientCommandHandler reg]> (client_handlers MessagingClient_dispatcher).

Lemma MessagingClient_dispatcher_ok : client_dispatcher_ok MessagingClient_dispatcher.
Proof. exists ClientCommandHandler_registry. split; [done|]. by rewrite insert_id. Qed.

Section Client.
  Context {ssl : OpenSSL} {laws : OpenSSLLaws} {key_laws : OpenSSLKeyLaws}.
  Variable now : Z.
  Variable rand : nat -> option bytes.
  Variable can_open : string -> bool.

(** [s'] is [s] after an operation that left the context [c']. *)
Definition moved_to (c' : ClientContext client_log) (s' : MessagingClient client_log) : Prop :=
  client_context s' = c' /\ client_dispatcher_ok (client_dispatcher s').

(** A command message runs the command with the fields of the message. *)
Lemma dispatch_command m t name c' (s : MessagingClient client_log) :
  client_dispatcher_ok (client_dispatcher s) -> Message_get_type m = Command ->
  pc_name (make_struct_from_command m) = name ->
  (getType <$> ClientCommandHandler_registry : gmap string CommandType) !! name = Some t ->
  (forall h1, getType h1 = t -> exists h h', fromMessage h1 m = (Ok tt, h) /\ getType h' = t /\
     executeOnClient now rand h (client_context s) = (Ok h', c')) ->
  exists s', dispatch_outgoing now rand can_open m s = (Ok tt, s') /\ moved_to c' s'.
Proof.
  intros (reg & Hreg & Hh) Ht Hn Hl Hfrom.
  unfold dispatch_outgoing. rewrite run_modify. unfold mbind, M_bind, client_dispatch.
  cbn [client_dispatcher client_setContext client_handlers client_context client_context_set negb].
  rewrite Hh, Ht, lookup_insert_eq. cbn [client_handleOutgoing].
  unfold ClientCommandBus_dispatch, registry_find. rewrite Hn.
  assert (Hl' : (getType <$> reg : gmap string CommandType) !! name = Some t) by (by rewrite Hreg).
  rewrite lookup_fmap, fmap_Some in Hl'. destruct Hl' as (h1 & -> & Hh1).
  destruct (Hfrom h1 (eq_sym Hh1)) as (h & h' & -> & Hth & ->). eexists. split; [done|]. split; [done|].
  exists (<[name := h']> reg). cbn. split.
  - rewrite fmap_insert, Hreg, Hth. by apply insert_id.
  - by rewrite Hh, insert_insert_eq.
Qed.

(** The other messages reach the handler of their type. *)
Lemma receive_handled m h c' (s : MessagingClient client_log) :
  client_dispatcher_ok (client_dispatcher s) -> wire_ok m = true -> Message_get_type m <> Command ->
  client_handlers MessagingClient_dispatcher !! Message_get_type m = Some h ->
  client_handleOutgoing now rand can_open h m (client_context s) = (Ok tt, c', h) ->
  exists s', client_on_tcp_data_received now rand can_open (Serializer_serialize m) s = (Ok tt, s') /\
    moved_to c' s'.
Proof.
  intros (reg & Hreg & Hh) Hw Ht Hl Hx. unfold client_on_tcp_data_received.
  rewrite <- (app_nil_r (Serializer_serialize m)), wire_ok_roundtrip, run_lift by done.
  unfold dispatch_incoming. rewrite run_modify. unfold mbind, M_bind. rewrite client_dispatch_norm.
  unfold client_dispatch.
  cbn [client_dispatcher client_setContext client_handlers client_context client_context_set negb].
  rewrite Hh, lookup_insert_ne, Hl, Hx by done. eexists. split; [done|]. split; [done|].
  exists reg. split; [done|]. cbn. rewrite Hh, insert_insert_ne by done. f_equal. by apply insert_id.
Qed.

(** ** What a line does *)

(** A line with a command becomes the message of the command. *)
Lemma typed_line name c ts args :
  command_args name ts = Some args -> forallb token_ok ts = true -> command_types_map name = Some c ->
  fits (type_meta c :: map sbytes args) (default [] (list.last (map sbytes args))) = true ->
  carries (parse now (unwords (String "/" name :: ts))) Command (type_meta c :: map sbytes args)
    (default [] (list.last (map sbytes args))).
Proof.
  intros Ha Hts Hc Hf. unfold parse.
  replace (string_empty (unwords (String "/" name :: ts))) with false by (by destruct ts).
  replace (String.prefix "/" (unwords (String "/" name :: ts))) with true.
  - rewrite (parse_line_command name ts args Ha) by
      (rewrite forallb_forall in Hts; by apply Stdlib.Lists.List.Forall_forall).
    by apply (make_command_carries now {| pc_name := name; pc_args := map sbytes args |} c).
  - by destruct ts; cbn; destruct name.
Qed.

Lemma carries_struct o t x m c args :
  carries o Command (type_meta c :: args) x -> o = Ok m -> command_types_map t = Some c ->
  pc_name (make_struct_from_command m) = t.
Proof.
  intros (m' & E & _ & _ & Hm & _) -> Hc. simplify_eq.
  destruct (command_types_names _ _ Hc) as [Hcb Hcn].
  by rewrite (make_struct_spec m' _ args Hm), Hcb, Hcn.
Qed.

(** *** Running the steps of a command *)

Definition sent_more (data : bytes) (c : ClientContext client_log) : ClientContext client_log :=
  with_client {| log_sent := log_sent (cc_client c) ++ [data]; log_closed := log_closed (cc_client c) |} c.

Lemma client_message_run o m (c : ClientContext client_log) :
  o = Ok m -> send_message o c = (Ok tt, sent_more (Serializer_serialize m) c).
Proof. by intros ->. Qed.

Lemma keys_run (c : ClientContext client_log) d ib sg :
  speaks (cc_encryption c) d ib sg -> cc_keys c = (Ok (d, ib, sg), c).
Proof. intros (H1 & H2 & H3)%speaks_bytes. unfold cc_keys. by rewrite run_get, H1, H2, H3. Qed.

#[local] Strategy 100 [Message_make Serializer_serialize make_command_from_struct].

Lemma typed_login name d ib sg (s : MessagingClient client_log) :
  client_dispatcher_ok (client_dispatcher s) -> token_ok name = true ->
  speaks (cc_encryption (client_context s)) d ib sg ->
  fits [type_meta LOGIN; sbytes name; d; ib; sg] sg = true ->
  exists m s', get_data now rand can_open (unwords ["/login"; name]) s = (Ok tt, s') /\
    carries (Ok m) Command [type_meta LOGIN; sbytes name; d; ib; sg] sg /\
    moved_to (sent_more (Serializer_serialize m) (with_username (sbytes name) (client_context s))) s'.
Proof.
  intros Hd Hname Hs Hf.
  assert (Hf' : fits (type_meta LOGIN :: map sbytes [name]) (default [] (list.last (map sbytes [name]))) = true).
  { unfold fits, small_metas in *. cbn in *. bools. repeat (apply andb_true_iff; split); try done;
      apply Z.ltb_lt; lia. }
  pose proof (typed_line "login" LOGIN [name] [name] eq_refl ltac:(cbn; by rewrite Hname) eq_refl Hf')
    as (m0 & E & Hw & Ht & Hm & Hp).
  pose proof (make_command_carries now {| pc_name := "login"; pc_args := [sbytes name; d; ib; sg] |} LOGIN eq_refl Hf)
    as (m & Em & Hrest).
  destruct (dispatch_command m0 LOGIN "login"
              (sent_more (Serializer_serialize m) (with_username (sbytes name) (client_context s))) s)
    as (s' & Hrun & Hmoved); try done.
  - by rewrite (make_struct_spec m0 _ _ Hm).
  - intros [] Hh; try done. eexists _, _. cbn [fromMessage]. split; [done|].
    unfold Login_fromMessage, Message_get_meta. rewrite Hm. cbn [lookup list_lookup].
    cbn [executeOnClient]. unfold Login_executeOnClient. split; [|erewrite run_bind; [done|]].
    2: { rewrite (run_bind _ _ _ _ _ (keys_run _ _ _ _ Hs)). cbn iota. rewrite run_modify.
         erewrite run_bind by (by apply (client_message_run _ m)). done. }
    done.
  - exists m, s'. split; [|split; [by exists m | done]]. unfold get_data.
    change (unwords ["/login"%string; name]) with (unwords (String "/" "login" :: [name])).
    by rewrite E, run_lift.
Qed.

Lemma sbytes_token t : token_ok t = true -> sbytes t <> [].
Proof. by destruct t. Qed.

Lemma unwords_nonempty w ws : token_ok w = true -> sbytes (unwords (w :: ws)) <> [].
Proof. intros H. destruct w; [done|]. by destruct ws. Qed.

Lemma typed_pmess who w ws (s : MessagingClient client_log) :
  client_dispatcher_ok (client_dispatcher s) -> forallb token_ok (who :: w :: ws) = true ->
  let text := sbytes (unwords (w :: ws)) in
  fits [type_meta PRIVATE_MESSAGE; sbytes who; text] text = true ->
  exists m s', get_data now rand can_open (unwords ("/pmess" :: who :: w :: ws)%string) s = (Ok tt, s') /\
    carries (Ok m) Command [type_meta GET_PUBKEY; sbytes who] [] /\
    moved_to (with_mq (MessageQueue_push (cc_mq (client_context s)) (sbytes who) text)
                (sent_more (Serializer_serialize m) (client_context s))) s'.
Proof.
  intros Hd Hts text Hf.
  pose proof (typed_line "pmess" PRIVATE_MESSAGE (who :: w :: ws) [who; unwords (w :: ws)] eq_refl Hts eq_refl Hf)
    as (m0 & E & Hw & Ht & Hm & Hp).
  assert (Hf' : fits [type_meta GET_PUBKEY; sbytes who] [] = true).
  { unfold fits, small_metas in *. cbn in *. bools. repeat (apply andb_true_iff; split); try done;
      apply Z.ltb_lt; lia. }
  pose proof (Message_make_carries now [] 2 [type_meta GET_PUBKEY; sbytes who] Command Hf' eq_refl)
    as (m & Em & Hrest).
  cbn [forallb] in Hts. bools.
  assert (Hwho : is_empty (sbytes who) = false) by (by destruct who).
  assert (Htext : is_empty text = false) by (unfold text; destruct w; [done|by destruct ws]).
  destruct (dispatch_command m0 PRIVATE_MESSAGE "pmess"
              (with_mq (MessageQueue_push (cc_mq (client_context s)) (sbytes who) text)
                 (sent_more (Serializer_serialize m) (client_context s))) s)
    as (s' & Hrun & Hmoved); try done.
  - by rewrite (make_struct_spec m0 _ _ Hm).
  - intros [] Hh; try done. eexists _, _. cbn [fromMessage]. split; [done|].
    unfold PrivateMessage_fromMessage, Message_get_meta, Message_get_payload. rewrite Hm, Hp. cbn [map list.last].
    cbn [executeOnClient lookup list_lookup]. unfold PrivateMessage_executeOnClient.
    split; [|erewrite run_bind; [done|]].
    2: { cbn [pmess_recipient pmess_payload default from_option id]. rewrite Hwho. fold text. rewrite Htext. cbn [orb].
         unfold GetPubkey_executeOnClient.
         erewrite run_bind by (by apply (client_message_run _ m)). rewrite run_modify. done. }
    done.
  - exists m, s'. split; [|split; [by exists m | done]]. unfold get_data.
    change (unwords ("/pmess" :: who :: w :: ws)%string) with (unwords (String "/" "pmess" :: who :: w :: ws)).
    by rewrite E, run_lift.
Qed.

(** *** The key arrives *)

(** [c'] differs from [c] only in what it sent, its cache of keys, its queue, its
    counters, its random numbers and what it showed. *)
Record same_user (c c' : ClientContext client_log) : Prop := {
  same_name : cc_my_username c' = cc_my_username c;
  same_ui_set : cc_ui_set c' = cc_ui_set c;
  same_pending : cc_pending_messages c' = cc_pending_messages c;
  same_dh : es_DH_key (cc_encryption c') = es_DH_key (cc_encryption c);
  same_identity : es_identity_key (cc_encryption c') = es_identity_key (cc_encryption c);
}.

Lemma key_received m who d ib sg text f iv rec cm e' (c : ClientContext client_log) :
  metadata m = [type_meta GET_PUBKEY; who; ib; sg] -> payload m = d ->
  ES_cache_public_key (cc_encryption c) who d ib = (Ok tt, e') -> caches (cc_encryption c) who d ib e' ->
  mq_holds (cc_mq c) f -> f who = [{| om_bytes := text |}] -> cc_pending_messages c !! who = None ->
  rand (cc_rand c) = Some iv ->
  ES_encrypt_for (Some iv) e' (cc_my_username c) who text (counter_for c who) = Ok rec ->
  Message_make now rec 2 [who; cc_my_username c] CipherMessage = Ok cm ->
  exists c', ResponseMessageHandler_handleIncoming now rand m c = (Ok tt, c') /\
    cc_client c' = cc_client (sent_more (Serializer_serialize cm) c) /\ cc_ui c' = cc_ui c /\
    cc_encryption c' = e' /\ counter_for c' who = u64 (counter_for c who + 1) /\
    mq_holds (cc_mq c') (fun r' => if decide (r' = who) then [] else f r') /\ same_user c c'.
Proof.
  intros Hm Hp Hcache (q & iq & _ & _ & He') Hmq Hf Hpend Hr Henc Hcm.
  unfold ResponseMessageHandler_handleIncoming, Message_get_meta. rewrite Hm. cbn [lookup list_lookup type_meta].
  change (CommandType_of_byte (CommandType_to_byte GET_PUBKEY)) with GET_PUBKEY. cbn iota.
  unfold handle_get_pubkey_response, Message_get_meta, Message_get_payload. rewrite Hm, Hp. cbn [lookup list_lookup].
  rewrite (run_bind _ _ _ _ _ (cache_run _ _ _ _ _ Hcache)).
  destruct (mq_holds_find _ _ who Hmq) as [Hfind Hmq']. rewrite Hf in *.
  destruct (mq_holds_find _ _ who Hmq') as [Hfind' Hmq''].
  rewrite decide_True in Hfind' by done. rewrite decide_True in Hmq'' by done. cbn [tl hd_error] in *.
  replace queue_size with (S (S (queue_size - 2))) by (rewrite queue_size_eq; lia).
  cbn [send_pending].
  destruct (MessageQueue_find_pending (cc_mq c) who) as [p mq] eqn:E1. cbn [fst snd] in *. subst p.
  destruct (MessageQueue_find_pending mq who) as [p' mq'] eqn:E2. cbn [fst snd] in *. subst p'.
  unfold counter_of, cc_encrypt_for, send_message, send_to_server, increment_counter, counter_of,
    mbind, M_bind, modify, get, lift, mret, M_ret.
  cbn -[u64 Message_make lookup insert delete MessageQueue_find_pending]. rewrite E1.
  cbn -[u64 Message_make lookup insert delete MessageQueue_find_pending]. fold (counter_for c who).
  rewrite Hr, Henc. cbn -[u64 Message_make lookup insert delete MessageQueue_find_pending]. rewrite Hcm.
  cbn -[u64 Message_make lookup insert delete MessageQueue_find_pending]. rewrite E2.
  cbn -[u64 Message_make lookup insert delete MessageQueue_find_pending]. rewrite Hpend.
  eexists. split; [reflexivity|]. split_and!; try done.
  - unfold counter_for at 1. cbn. rewrite !lookup_insert_eq. cbn. done.
  - intros r'. specialize (Hmq'' r'). cbv beta in Hmq''. cbn [cc_mq with_pending with_counter with_mq].
    by destruct (decide (r' = who)).
  - constructor; cbn; try done.
    + by apply delete_id.
    + by rewrite He'.
    + by rewrite He'.
Qed.

(** *** The message arrives *)

(** [c'] is [c] with at most other keys cached, texts shown, and the counter of
    [sender] changed. *)
Record after_message (sender : bytes) (c c' : ClientContext client_log) : Prop := {
  after_user : same_user c c';
  after_client : cc_client c' = cc_client c;
  after_mq : cc_mq c' = cc_mq c;
  after_rand : cc_rand c' = cc_rand c;
  after_counter name : name <> sender -> counter_for c' name = counter_for c name;
}.

#[local] Instance after_message_trans sender : Transitive (after_message sender).
Proof.
  intros a b c [[] ? ? ? Hab] [[] ? ? ? Hbc]. constructor; [constructor|..]; try congruence.
  intros. by rewrite Hbc, Hab.
Qed.

Lemma counter_of_after sender c : after_message sender c (counter_of sender c).2.
Proof.
  rewrite counter_of_run. constructor; [done..|]. intros name Hn. unfold counter_for. cbn.
  by rewrite lookup_insert_ne.
Qed.

Lemma cipher_frame m c :
  after_message (Message_get_meta m 1) c (CipherMessageHandler_handleIncoming m c).2.
Proof.
  unfold CipherMessageHandler_handleIncoming, process_encrypted_message, try_catch.
  set (sender := Message_get_meta m 1).
  assert (H : forall (f : M (ClientContext client_log) unit), (forall c, after_message sender c (f c).2) ->
    after_message sender c (match f c with (Throw _, s') => (Ok tt, s') | r => r end).2).
  { intros f Hf. specialize (Hf c). by destruct (f c) as [[] ?]. }
  apply H. clear H c.
  apply keeps_bind; [apply _| |intros _; apply keeps_bind; [apply _| |intros n; apply keeps_bind; [apply _| |
    intros pt; apply keeps_bind; [apply _| |intros _]]]].
  - intros c. unfold cc_cache_public_key, ES_cache_public_key, mbind, M_bind, get, modify, lift.
    destruct (DH_from_public_bytes _); [destruct (Identity_from_public_bytes _)|..]; done.
  - apply counter_of_after.
  - intros c. rewrite decrypt_run. unfold ES_decrypt_for. by case_match.
  - intros c. rewrite increment_counter_run. constructor; [done..|]. intros name Hn.
    unfold counter_for. cbn. by rewrite lookup_insert_ne.
  - intros c. unfold ui_callback, mbind, M_bind, get. by destruct (cc_ui_set c).
Qed.

End Client.

(** ** The system *)

Lemma sent_to_app fd l l' : sent_to fd (l ++ l') = sent_to fd l ++ sent_to fd l'.
Proof. unfold sent_to. apply omap_app. Qed.

Lemma sent_to_one fd fd' data : sent_to fd [(fd', data)] = if fd' =? fd then [data] else [].
Proof. cbn. by destruct (fd' =? fd). Qed.

(** Sizes of messages made of small parts. *)
Ltac fits_small :=
  unfold fits, small_metas in *; cbn [forallb map list.last default from_option id] in *; bools;
  repeat (apply andb_true_iff; split); try reflexivity; try done;
  apply Z.ltb_lt; rewrite ?zsize_app; unfold zsize in *; cbn [length] in *; lia.

Ltac fits_small_metas := unfold small_metas in *; cbn [forallb] in *; bools;
  repeat (apply andb_true_iff; split); try done; apply Z.ltb_lt; lia.

Lemma hello_fits name : zsize (sbytes name) < 2 ^ 16 -> fits [] (sbytes ("Hello, " +:+ name +:+ "!")) = true.
Proof.
  intros H. unfold fits. cbn [small_metas forallb]. apply andb_true_iff; split; [done|]. apply Z.ltb_lt.
  rewrite !sbytes_app, !zsize_app.
  change (zsize (sbytes "Hello, ")) with 7. change (zsize (sbytes "!")) with 1. lia.
Qed.

Section System.
  Context {ssl : OpenSSL} {laws : OpenSSLLaws} {key_laws : OpenSSLKeyLaws} {ord : IterOrder}.
  Variable now : Z.
  Variable rand : Z -> nat -> option bytes.
  Variable can_open : string -> bool.

Abbreviation step := (system_step now rand can_open).
Abbreviation run := (system_run now rand can_open).

(** *** One step *)

Lemma typed_run fd line S c c' :
  sys_clients S !! fd = Some c -> get_data now (rand fd) can_open line c = (Ok tt, c') ->
  step (Typed fd line) S = (Ok tt, set_client fd c' S).
Proof. intros Hc Hr. cbn [system_step]. unfold at_client. by rewrite Hc, Hr. Qed.

Lemma to_server_run fd raw S v :
  next_up fd S = Some raw -> server_step now (DataReceived fd raw) (sys_server S) = (Ok tt, v) ->
  step (ToServer fd) S = (Ok tt, set_server v (count_up fd S)).
Proof.
  intros Hn Hr. cbn [system_step]. rewrite run_get, Hn, run_modify. unfold at_server.
  cbn [count_up sys_server]. by rewrite Hr.
Qed.

Lemma to_client_run fd raw S c c' :
  sys_clients S !! fd = Some c -> next_down fd S = Some raw ->
  client_on_tcp_data_received now (rand fd) can_open raw c = (Ok tt, c') ->
  step (ToClient fd) S = (Ok tt, set_client fd c' (count_down fd S)).
Proof.
  intros Hc Hn Hr. cbn [system_step]. rewrite run_get, Hn, run_modify. unfold at_client.
  cbn [count_down sys_clients]. by rewrite Hc, Hr.
Qed.

Lemma run_cons e es S S' : step e S = (Ok tt, S') -> run (e :: es) S = run es S'.
Proof. intros H. cbn [system_run]. by rewrite (run_bind _ _ _ _ _ H). Qed.

(** *** Users that are logged in *)

Definition server_state (S : System) : ServerContext sent_log := server_context (sys_server S).

(** The client of [fd] is connected and nothing is under way between it and the
    server: all it sent has arrived, and so has all that was sent to it. *)
Record connected (S : System) (fd : Z) (c : MessagingClient client_log) (d ib sg : bytes) : Prop := {
  con_client : sys_clients S !! fd = Some c;
  con_dispatcher : client_dispatcher_ok (client_dispatcher c);
  con_ui : cc_ui_set (client_context c) = true;
  con_speaks : speaks (cc_encryption (client_context c)) d ib sg;
  con_small : small_metas [d; ib; sg] = true;
  con_up : default 0%nat (sys_up S !! fd) = length (log_sent (cc_client (client_context c)));
  con_down : default 0%nat (sys_down S !! fd) = length (sent_to fd (sc_transport (server_state S)));
  con_queue : mq_holds (cc_mq (client_context c)) (fun _ => []);
  con_pending : cc_pending_messages (client_context c) = ∅;
}.

(** The user [name] is logged in there, with the keys [d], [ib] and [sg]. *)
Record online (S : System) (fd : Z) (name : string) (c : MessagingClient client_log) (d ib sg : bytes) :
    Prop := {
  on_connected : connected S fd c d ib sg;
  on_token : token_ok name = true;
  on_small : zsize (sbytes name) < 2 ^ 16;
  on_name : cc_my_username (client_context c) = sbytes name;
  on_session : fd_to_name_ (sc_sessions (server_state S)) !! fd = Some name;
  on_registered : users_ (sc_users (server_state S)) !! name = Some (registered name d ib sg);
}.

(** What happens between the server and one client does not concern another one. *)
Lemma connected_other S S' fd c d ib sg :
  connected S fd c d ib sg -> sys_clients S' !! fd = sys_clients S !! fd ->
  sys_up S' !! fd = sys_up S !! fd -> sys_down S' !! fd = sys_down S !! fd ->
  sent_to fd (sc_transport (server_state S')) = sent_to fd (sc_transport (server_state S)) ->
  connected S' fd c d ib sg.
Proof. intros [] Hc Hu Hd Ht. constructor; try done; congruence. Qed.

(** *** Logging in *)

Lemma next_up_at fd S c raw :
  sys_clients S !! fd = Some c ->
  log_sent (cc_client (client_context c)) !! default 0%nat (sys_up S !! fd) = Some raw ->
  next_up fd S = Some raw.
Proof. intros Hc Hl. unfold next_up. by rewrite Hc. Qed.

Lemma lookup_second {A} (l : list A) x y : (l ++ [x; y]) !! Datatypes.S (length l) = Some y.
Proof. rewrite lookup_app_r by lia. by rewrite Nat.sub_succ_l, Nat.sub_diag by lia. Qed.

Lemma lookup_last {A} (l : list A) x n : n = length l -> (l ++ [x]) !! n = Some x.
Proof. intros ->. by rewrite lookup_app_r, Nat.sub_diag by lia. Qed.

Lemma text_shown m x (rnd : nat -> option bytes) (c : MessagingClient client_log) :
  client_dispatcher_ok (client_dispatcher c) -> cc_ui_set (client_context c) = true ->
  carries (Ok m) Text [] x ->
  exists c', client_on_tcp_data_received now rnd can_open (Serializer_serialize m) c = (Ok tt, c') /\
    moved_to (with_ui (cc_ui (client_context c) ++ [bstr x]) (client_context c)) c'.
Proof.
  intros Hd Hui (m' & [= <-] & Hw & Ht & _ & Hp).
  apply (receive_handled now rnd can_open m ClientTextHandler); try done; unfold Message_get_type; rewrite ?Ht; try done.
  cbn [client_handleOutgoing]. unfold ClientTextHandler_handleOutgoing, ui_callback, Message_get_payload.
  by rewrite run_get, Hui, Hp.
Qed.

Lemma server_ok_step e v v' : server_ok v -> server_step now e v = (Ok tt, v') -> server_ok v'.
Proof. intros Hv E. by destruct (wp_run _ _ _ _ _ E (server_step_safe now e v Hv)). Qed.

(** The system after [fd] has sent one more message, the server has answered it,
    and the client has got the answer. *)
Definition exchanged (fd : Z) (c : MessagingClient client_log) (v : MessagingServer sent_log) (st : System) : System :=
  {| sys_server := v; sys_clients := <[fd := c]> (sys_clients st);
     sys_up := <[fd := S (default 0%nat (sys_up st !! fd))]> (sys_up st);
     sys_down := <[fd := S (default 0%nat (sys_down st !! fd))]> (sys_down st) |}.

Lemma exchange S fd c d ib sg line raw c1 (v : MessagingServer sent_log) out c2 :
  connected S fd c d ib sg -> get_data now (rand fd) can_open line c = (Ok tt, c1) ->
  log_sent (cc_client (client_context c1)) = log_sent (cc_client (client_context c)) ++ [raw] ->
  server_step now (DataReceived fd raw) (sys_server S) = (Ok tt, v) ->
  sc_transport (server_context v) = sc_transport (server_state S) ++ [(fd, out)] ->
  client_on_tcp_data_received now (rand fd) can_open out c1 = (Ok tt, c2) ->
  run [Typed fd line; ToServer fd; ToClient fd] S = (Ok tt, exchanged fd c2 v S).
Proof.
  intros [Hcl Hd Hui Hsp Hsm Hup Hdown Hq Hp] H1 Hl H2 Ht H3.
  rewrite (run_cons _ _ _ _ (typed_run fd _ S c c1 Hcl H1)).
  rewrite (run_cons _ _ _ (set_server v (count_up fd (set_client fd c1 S)))).
  2: { apply (to_server_run fd raw); [|done]. apply (next_up_at fd _ c1); [apply lookup_insert_eq|].
       rewrite Hl. by apply lookup_last. }
  erewrite run_cons.
  2: { apply (to_client_run fd out _ c1 c2); [apply lookup_insert_eq| |done]. unfold next_down.
       cbn [set_server count_up set_client sys_server sys_down].
       rewrite Ht, sent_to_app, sent_to_one, Z.eqb_refl. by apply lookup_last. }
  unfold exchanged, set_client, count_down, count_up, set_server. cbn. by rewrite insert_insert_eq.
Qed.

(** Such an exchange does not concern the other clients. *)
Lemma exchanged_other S fd c (v : MessagingServer sent_log) out fd' c2 d2 i2 s2 :
  sc_transport (server_context v) = sc_transport (server_state S) ++ [(fd, out)] ->
  fd' <> fd -> connected S fd' c2 d2 i2 s2 -> connected (exchanged fd c v S) fd' c2 d2 i2 s2.
Proof.
  intros Ht Hne H. apply (connected_other S); try done;
    [cbn; by rewrite lookup_insert_ne..|].
  etrans; [exact (f_equal (sent_to fd') Ht)|]. rewrite sent_to_app, sent_to_one, (proj2 (Z.eqb_neq _ _)) by done.
  apply app_nil_r.
Qed.

Lemma connected_updated S S' fd c c2 d ib sg :
  connected S fd c d ib sg -> client_dispatcher_ok (client_dispatcher c2) ->
  same_user (with_username (cc_my_username (client_context c2)) (client_context c)) (client_context c2) ->
  mq_holds (cc_mq (client_context c2)) (fun _ => []) -> sys_clients S' !! fd = Some c2 ->
  default 0%nat (sys_up S' !! fd) = length (log_sent (cc_client (client_context c2))) ->
  default 0%nat (sys_down S' !! fd) = length (sent_to fd (sc_transport (server_state S'))) ->
  connected S' fd c2 d ib sg.
Proof.
  intros [Hcl Hd Hui Hsp Hsm Hup Hdown Hq Hp] Hd2 [_ Hs2 Hs3 Hs4 Hs5] Hmq Hcl' Hup' Hdown'. constructor; try done.
  - by rewrite Hs2.
  - destruct Hsp as [Hdh Hid]. cbn in Hs4, Hs5. constructor; [by rewrite Hs4 | by rewrite Hs5].
  - by rewrite Hs3.
Qed.

Lemma online_updated S S' fd name c c2 d ib sg :
  online S fd name c d ib sg -> connected S' fd c2 d ib sg ->
  cc_my_username (client_context c2) = cc_my_username (client_context c) ->
  sc_sessions (server_state S') = sc_sessions (server_state S) ->
  sc_users (server_state S') = sc_users (server_state S) -> online S' fd name c2 d ib sg.
Proof. intros [] Hc Hn Hs Hu. constructor; try done; congruence. Qed.

Lemma same_user_named c c2 :
  same_user c c2 -> same_user (with_username (cc_my_username c2) c) c2.
Proof. intros []. by constructor. Qed.

(** For the client itself it only moves the counts. *)
Lemma exchanged_self S fd c d ib sg (v : MessagingServer sent_log) out raw c2 :
  connected S fd c d ib sg ->
  sc_transport (server_context v) = sc_transport (server_state S) ++ [(fd, out)] ->
  client_dispatcher_ok (client_dispatcher c2) ->
  log_sent (cc_client (client_context c2)) = log_sent (cc_client (client_context c)) ++ [raw] ->
  same_user (with_username (cc_my_username (client_context c2)) (client_context c)) (client_context c2) ->
  mq_holds (cc_mq (client_context c2)) (fun _ => []) ->
  connected (exchanged fd c2 v S) fd c2 d ib sg.
Proof.
  intros Hc Ht Hd2 Hl Hs Hmq. pose proof Hc as [Hcl Hd Hui Hsp Hsm Hup Hdown Hq Hp].
  apply (connected_updated S _ fd c); try done.
  - apply lookup_insert_eq.
  - cbn. rewrite lookup_insert_eq, Hl, length_app, Hup. cbn. lia.
  - cbn. rewrite lookup_insert_eq. unfold server_state in *. cbn.
    rewrite Ht, sent_to_app, sent_to_one, Z.eqb_refl, length_app, Hdown. cbn. lia.
Qed.

Lemma log_in S fd name c d ib sg :
  server_ok (sys_server S) -> connected S fd c d ib sg -> token_ok name = true ->
  zsize (sbytes name) < 2 ^ 16 ->
  fd_to_name_ (sc_sessions (server_state S)) !! fd = None -> users_ (sc_users (server_state S)) !! name = None ->
  exists S' c', run [Typed fd (unwords ["/login"%string; name]); ToServer fd; ToClient fd] S = (Ok tt, S') /\
    server_ok (sys_server S') /\ online S' fd name c' d ib sg /\
    client_context c' = with_ui (cc_ui (client_context c) ++ ["Hello, " +:+ name +:+ "!"])
      (with_client (cc_client (client_context c')) (with_username (sbytes name) (client_context c))) /\
    (forall fd' c2 d2 i2 s2, fd' <> fd -> connected S fd' c2 d2 i2 s2 -> connected S' fd' c2 d2 i2 s2) /\
    (forall fd' n2 c2 d2 i2 s2, fd' <> fd -> online S fd' n2 c2 d2 i2 s2 -> online S' fd' n2 c2 d2 i2 s2) /\
    (forall fd', fd' <> fd -> fd_to_name_ (sc_sessions (server_state S')) !! fd' = fd_to_name_ (sc_sessions (server_state S)) !! fd') /\
    (forall n, n <> name -> users_ (sc_users (server_state S')) !! n = users_ (sc_users (server_state S)) !! n).
Proof.
  intros Hok Hc Hname Hsz Hfree Huser. pose proof Hc as [Hcl Hd Hui Hsp Hsm Hup Hdown Hq Hp].
  assert (Hf : fits [type_meta LOGIN; sbytes name; d; ib; sg] sg = true) by fits_small.
  destruct (typed_login now (rand fd) can_open name d ib sg c Hd Hname Hsp Hf) as (m & c1 & Hrun1 & Hm & Hc1 & Hd1).
  destruct Hm as (m' & [= <-] & Hw & Ht & Hmd & Hpl).
  destruct (login_step now fd (sys_server S) m
    {| login_username := sbytes name; login_DH_public_bytes := d; login_identity_pub_bytes := ib; login_signature := sg |}
    Hok Hw Ht Hmd) as (v & hello & Hstep & Hhello & Hchats & Hres).
  fold (server_state S) in Hres. cbn [login_username login_DH_public_bytes login_identity_pub_bytes login_signature] in Hres, Hhello.
  rewrite bstr_sbytes in Hres, Hhello. rewrite Hfree, Huser in Hres. destruct Hres as (Hfd & Hnf & Hus & Htr).
  assert (Hh : carries (Ok hello) Text [] (sbytes ("Hello, " +:+ name +:+ "!"))).
  { rewrite <- Hhello. apply Message_make_carries; [by apply hello_fits | done]. }
  destruct (text_shown hello _ (rand fd) c1 Hd1 ltac:(by rewrite Hc1) Hh) as (c2 & Hrun2 & Hc2 & Hd2).
  rewrite bstr_sbytes, Hc1 in Hc2.
  exists (exchanged fd c2 v S), c2. split_and!.
  - by apply (exchange S fd c d ib sg _ (Serializer_serialize m) c1 v (Serializer_serialize hello)); rewrite ?Hc1.
  - by apply (server_ok_step (DataReceived fd (Serializer_serialize m)) (sys_server S)).
  - constructor; try done.
    + by apply (exchanged_self S fd c _ _ _ v (Serializer_serialize hello) (Serializer_serialize m)); rewrite ?Hc2.
    + by rewrite Hc2.
    + unfold server_state. cbn. rewrite Hfd. apply lookup_insert_eq.
    + unfold server_state. cbn. rewrite Hus. apply lookup_insert_eq.
  - by rewrite Hc2.
  - intros. by eapply exchanged_other.
  - intros fd' n2 c3 d3 i3 s3 Hne [H1 H2 H3 H4 H5 H6]. constructor; try done; [by eapply exchanged_other| |];
      unfold server_state; cbn; [rewrite Hfd | rewrite Hus]; rewrite lookup_insert_ne; congruence.
  - intros fd' Hne. unfold server_state. cbn. by rewrite Hfd, lookup_insert_ne.
  - intros n Hne. unfold server_state. cbn. by rewrite Hus, lookup_insert_ne.
Qed.

(** *** A private message *)

(** Encryption for [nb] works once the keys of [nb] are cached. *)
Definition encryption_works (fd : Z) (c : ClientContext client_log) (nb d ib : bytes) : Prop :=
  forall e', caches (cc_encryption c) nb d ib e' -> can_encrypt (rand fd) nb (cc_my_username c) e'.

(** The author's side: the key of the recipient is asked for and arrives, and the
    encrypted message is under way. *)
Lemma message_prepared S fd na c d ib sg fd' nb c' d' ib' sg' w ws :
  server_ok (sys_server S) -> online S fd na c d ib sg -> online S fd' nb c' d' ib' sg' ->
  forallb token_ok (w :: ws) = true -> let text := sbytes (unwords (w :: ws)) in zsize text < 2 ^ 16 ->
  encryption_works fd (client_context c) (sbytes nb) d' ib' ->
  exists v c2 e iv rec cm raw out,
    run [Typed fd (unwords ("/pmess" :: nb :: w :: ws)%string); ToServer fd; ToClient fd] S
      = (Ok tt, exchanged fd c2 v S) /\
    server_ok v /\ sc_sessions (server_context v) = sc_sessions (server_state S) /\
    sc_users (server_context v) = sc_users (server_state S) /\
    sc_transport (server_context v) = sc_transport (server_state S) ++ [(fd, out)] /\
    carries (Ok cm) CipherMessage [sbytes nb; sbytes na] rec /\
    caches (cc_encryption (client_context c)) (sbytes nb) d' ib' e /\
    zsize iv = 12 /\ ES_encrypt_for (Some iv) e (sbytes na) (sbytes nb) text (counter_for (client_context c) (sbytes nb)) = Ok rec /\
    client_dispatcher_ok (client_dispatcher c2) /\ same_user (client_context c) (client_context c2) /\
    log_sent (cc_client (client_context c2)) = log_sent (cc_client (client_context c)) ++ [raw; Serializer_serialize cm] /\
    cc_ui (client_context c2) = cc_ui (client_context c) /\ cc_encryption (client_context c2) = e /\
    counter_for (client_context c2) (sbytes nb) = u64 (counter_for (client_context c) (sbytes nb) + 1) /\
    mq_holds (cc_mq (client_context c2)) (fun _ => []).
Proof.
  intros Hok [Hc Htok Hsz Hname Hses Hreg] [Hc' Htok' Hsz' _ _ Hreg'] Hws text Htext Henc.
  pose proof Hc as [Hcl Hd Hui Hsp Hsm Hup Hdown Hq Hp]. pose proof (con_small _ _ _ _ _ _ Hc') as Hsm'.
  destruct (typed_pmess now (rand fd) can_open nb w ws c Hd) as (m & c1 & Hrun1 & Hm & Hc1 & Hd1).
  { cbn [forallb] in *. by rewrite Htok'. } { fold text. fits_small. }
  destruct Hm as (m' & [= <-] & Hw & Ht & Hmd & Hpl). fold text in Hc1.
  destruct (pubkey_answered now fd (sys_server S) m (sbytes nb) (registered nb d' ib' sg') Hok Hw Ht Hmd)
    as (v & out & Hstep & Hout & Hvu & _ & Hvs & Hvt).
  { by apply sbytes_token. } { by rewrite bstr_sbytes. } { cbn. fits_small. }
  destruct Hout as (out' & [= <-] & Hwo & Hto & Hmo & Hpo). cbn [registered publicDHKey publicIdentityKey Models.signature] in Hmo, Hpo.
  destruct (cache_caches (cc_encryption (client_context c)) (sbytes nb) d' ib' _ _ (con_speaks _ _ _ _ _ _ Hc'))
    as (e & Hcache & Hcaches).
  destruct (Henc e Hcaches (cc_rand (client_context c)) text (counter_for (client_context c) (sbytes nb)) ltac:(lia))
    as (iv & rec & Hr & Hiv & Hrec). rewrite Hname in Hrec.
  pose proof (record_size (sbytes nb) (sbytes na) iv e text _ rec Hiv ltac:(lia) Hrec) as Hrs.
  destruct (Message_make_carries now rec 2 [sbytes nb; sbytes na] CipherMessage) as (cm & Ecm & Hcm);
    [fits_small | done |].
  destruct (key_received now (rand fd) out (sbytes nb) d' ib' sg' text
     (fun r => if decide (r = sbytes nb /\ (@length OutgoingMessage [] < queue_size - 1)%nat) then [] ++ [{| om_bytes := text |}] else [])
     iv rec cm e (client_context c1)) as (x & Hx & Hxc & Hxu & Hxe & Hxn & Hxq & Hxs);
    rewrite ?Hc1; try done; [by apply (mq_holds_push _ (fun _ => []))
      | rewrite decide_True; [done | split; [done|rewrite queue_size_eq; cbn; lia]]
      | cbn; by rewrite Hp | cbn; by rewrite Hname | cbn; by rewrite Hname|].
  destruct (receive_handled now (rand fd) can_open out ResponseMessageHandler x c1) as (c2 & Hrun2 & Hc2 & Hd2);
    try done; unfold Message_get_type; rewrite ?Hto; try done. { cbn [client_handleOutgoing]. by rewrite Hx. }
  exists v, c2, e, iv, rec, cm, (Serializer_serialize m), (Serializer_serialize out).
  rewrite Hc2. rewrite Hc1 in *. split_and!; try done.
  - by apply (exchange S fd c d ib sg _ (Serializer_serialize m) c1 v (Serializer_serialize out)); rewrite ?Hc1.
  - by apply (server_ok_step (DataReceived fd (Serializer_serialize m)) (sys_server S)).
  - by exists cm.
  - destruct Hxs. by constructor.
  - rewrite Hxc. cbn. by rewrite <- app_assoc.
  - intros r. specialize (Hxq r). cbv beta in Hxq. destruct (decide (r = sbytes nb)); [done|].
    by rewrite decide_False in Hxq by naive_solver.
Qed.

(** The recipient's side: the encrypted message reaches the server, is relayed,
    and is shown. *)
Lemma message_relayed S fd na c cm rec fd' nb c' d ib sg d' ib' sg' a iv pt k :
  server_ok (sys_server S) -> fd <> fd' ->
  fd_to_name_ (sc_sessions (server_state S)) !! fd = Some na ->
  users_ (sc_users (server_state S)) !! na = Some (registered na d ib sg) ->
  small_metas [sbytes na; d; ib; sg] = true -> next_up fd S = Some (Serializer_serialize cm) ->
  sys_clients S !! fd = Some c ->
  online S fd' nb c' d' ib' sg' -> speaks a d ib sg -> caches a (sbytes nb) d' ib' (cc_encryption (client_context c)) ->
  carries (Ok cm) CipherMessage [sbytes nb; sbytes na] rec -> zsize rec < 2 ^ 17 ->
  zsize pt < 2 ^ 16 -> zsize iv = 12 -> 0 <= k < 2 ^ 64 -> counter_for (client_context c') (sbytes na) = k ->
  ES_encrypt_for (Some iv) (cc_encryption (client_context c)) (sbytes na) (sbytes nb) pt k = Ok rec ->
  exists v c2 out, run [ToServer fd; ToClient fd'] S = (Ok tt, set_client fd' c2 (count_down fd' (set_server v (count_up fd S)))) /\
    server_ok v /\ sc_sessions (server_context v) = sc_sessions (server_state S) /\
    sc_users (server_context v) = sc_users (server_state S) /\
    sc_transport (server_context v) = sc_transport (server_state S) ++ [(fd', out)] /\
    client_dispatcher_ok (client_dispatcher c2) /\ after_message (sbytes na) (client_context c') (client_context c2) /\
    cc_ui (client_context c2) = cc_ui (client_context c') ++ [private_text (sbytes na) pt] /\
    counter_for (client_context c2) (sbytes na) = u64 (k + 1).
Proof.
  intros Hok Hne Hses Hreg Hsm Hnext Hcl [Hc' Htok' Hsz' Hname' Hses' Hreg'] Ha Hca (cm' & [= <-] & Hw & Ht & Hmd & Hpl)
    Hrs Hpt Hiv Hk Hcount Hrec.
  destruct (cipher_relay now fd (sys_server S) cm Hok Hw Ht) as (v & Hstep & Hvu & _ & Hvs & Hres).
  fold (server_state S) in Hres. rewrite Hses in Hres.
  assert (Hfd' : name_to_fd_ (sc_sessions (server_state S)) !! bstr (Message_get_meta cm 0) = Some fd').
  { unfold Message_get_meta. rewrite Hmd. cbn [lookup list_lookup]. rewrite bstr_sbytes.
    destruct Hok as [Hok _]. by apply (ok_sessions _ Hok). }
  rewrite Hfd' in Hres. destruct Hres as (us & Hus & Hres). rewrite Hreg in Hus. injection Hus as <-.
  unfold Message_get_meta in Hres. rewrite Hmd, Hpl in Hres. cbn [lookup list_lookup registered publicDHKey publicIdentityKey Models.signature] in Hres.
  destruct Hres as (out & Hout & Hvt); [fits_small|].
  destruct (Message_make_carries now rec 5 [sbytes nb; sbytes na; d; ib; sg] CipherMessage) as (out' & Eo & Hwo & Hto & Hmo & Hpo);
    [fits_small | done |]. rewrite Hout in Eo. injection Eo as <-.
  pose proof Hc' as [Hcl' Hd' Hui' Hsp' Hsm' Hup' Hdown' Hq' Hp'].
  destruct (cache_caches (cc_encryption (client_context c')) (sbytes na) d ib a sg Ha) as (e & Hcache & Hcaches).
  pose proof (caches_paired a (cc_encryption (client_context c')) (sbytes na) (sbytes nb) _ _ _ _ _ _ _ _ Ha Hsp' Hca Hcaches) as Hpair.
  pose proof (cipher_received (client_context c') out _ e iv pt rec (sbytes na) (sbytes nb) d ib sg k Hui' Hmo Hpo Hcache Hpair Hiv Hk ltac:(lia) Hrec) as Hshow.
  pose proof (cipher_frame out (client_context c')) as Hframe.
  unfold Message_get_meta in Hframe at 1. rewrite Hmo in Hframe. cbn [lookup list_lookup] in Hframe.
  destruct (CipherMessageHandler_handleIncoming out (client_context c')) as [r x] eqn:Ex. cbn [snd] in Hframe.
  destruct Hshow as [-> Hshow]. rewrite Hcount, Z.eqb_refl in Hshow. destruct Hshow as [Hxu Hxc].
  destruct (receive_handled now (rand fd') can_open out CipherMessageHandler x c') as (c2 & Hrun2 & Hc2 & Hd2);
    try done; unfold Message_get_type; rewrite ?Hto; try done. { cbn [client_handleOutgoing]. by rewrite Ex. }
  exists v, c2, (Serializer_serialize out). rewrite Hc2. split_and!; try done.
  - rewrite (run_cons _ _ _ _ (to_server_run fd _ S v Hnext Hstep)). erewrite run_cons; [done|].
    apply (to_client_run fd' (Serializer_serialize out) _ c' c2); [done| |done].
    unfold next_down. cbn [set_server count_up sys_server sys_down].
    rewrite Hvt, sent_to_app, sent_to_one, Z.eqb_refl. by apply lookup_last.
  - by apply (server_ok_step (DataReceived fd (Serializer_serialize cm)) (sys_server S)).
Qed.

(** The events of a private message: the line is typed, the server is asked for the
    key and answers, the message goes to the server and to its recipient. *)
Definition message_events (fd fd' : Z) (nb w : string) (ws : list string) : list SystemEvent :=
  [Typed fd (unwords ("/pmess" :: nb :: w :: ws)%string); ToServer fd; ToClient fd; ToServer fd; ToClient fd'].

Lemma run_app es es' S S' : run es S = (Ok tt, S') -> run (es ++ es') S = run es' S'.
Proof.
  revert S. induction es as [|e es IH]; intros S; cbn [system_run app]; [by intros [= ->]|].
  unfold mbind, M_bind. destruct (step e S) as [[[]| |] S1]; try done. apply IH.
Qed.

(** The two clients and the users are as before, with one more message. *)
Record talked (S S' : System) (fd fd' : Z) (na nb : string) (A A' B B' : MessagingClient client_log)
    (text : bytes) (k : Z) : Prop := {
  talk_server : server_ok (sys_server S');
  talk_sessions : sc_sessions (server_state S') = sc_sessions (server_state S);
  talk_users : sc_users (server_state S') = sc_users (server_state S);
  talk_shown : cc_ui (client_context B') = cc_ui (client_context B) ++ [private_text (sbytes na) text];
  talk_same : same_user (client_context A) (client_context A');
  talk_silent : cc_ui (client_context A') = cc_ui (client_context A);
  talk_counter : counter_for (client_context A') (sbytes nb) = u64 (k + 1);
  talk_counter' : counter_for (client_context B') (sbytes na) = u64 (k + 1);
}.

Lemma private_message S fd na A dA iA sA fd' nb B dB iB sB w ws k :
  server_ok (sys_server S) -> online S fd na A dA iA sA -> online S fd' nb B dB iB sB -> fd <> fd' ->
  forallb token_ok (w :: ws) = true -> let text := sbytes (unwords (w :: ws)) in zsize text < 2 ^ 16 ->
  0 <= k < 2 ^ 64 -> counter_for (client_context A) (sbytes nb) = k -> counter_for (client_context B) (sbytes na) = k ->
  encryption_works fd (client_context A) (sbytes nb) dB iB ->
  exists S' A' B', run (message_events fd fd' nb w ws) S = (Ok tt, S') /\
    talked S S' fd fd' na nb A A' B B' text k /\
    online S' fd na A' dA iA sA /\ online S' fd' nb B' dB iB sB.
Proof.
  intros Hok HA HB Hne Hws text Htext Hk HcA HcB Henc.
  destruct (message_prepared S fd na A dA iA sA fd' nb B dB iB sB w ws Hok HA HB Hws Htext Henc)
    as (v & A' & e & iv & rec & cm & raw & out & Hrun & Hokv & Hvs & Hvu & Hvt & Hcm & Hcaches & Hiv & Hrec & HdA & HsA & HlA
        & HuA & HeA & HnA & HqA).
  pose proof HA as [Hc Htok Hsz Hname Hses Hreg]. pose proof Hc as [Hcl Hd Hui Hsp Hsm Hup Hdown Hq Hp].
  pose proof (record_size (sbytes nb) (sbytes na) iv e text _ rec Hiv ltac:(lia) Hrec) as Hrs. rewrite HcA in *.
  set (S3 := exchanged fd A' v S) in *.
  assert (HB3 : online S3 fd' nb B dB iB sB).
  { apply (online_updated S _ _ _ B); try done. eapply exchanged_other; [done..|apply HB]. }
  destruct (message_relayed S3 fd na A' cm rec fd' nb B dA iA sA dB iB sB (cc_encryption (client_context A)) iv text k)
    as (v' & B' & out' & Hrun' & Hokv' & Hvs' & Hvu' & Hvt' & HdB & HaB & HuB & HnB); try done;
    [unfold server_state; cbn; congruence.. | fits_small_metas | | apply lookup_insert_eq
    | by rewrite HeA | fold text in Hrs; lia | by rewrite HeA |].
  { apply (next_up_at fd S3 A'); [apply lookup_insert_eq|]. rewrite HlA. cbn. rewrite lookup_insert_eq. cbn. rewrite Hup.
    by apply lookup_second. }
  eexists _, A', B'.
  split; [etrans; [exact (run_app _ [ToServer fd; ToClient fd'] _ _ Hrun) | exact Hrun']|].
  split; [by constructor; unfold server_state in *; cbn in *; try congruence|].
  unfold server_state in Hvs, Hvu, Hvt, Hvt', Hvs', Hvu', Hdown. cbn in Hvt', Hvs', Hvu'. destruct HaB as [HsB HlB HmB _ _]. split.
  - eapply online_updated; [exact HA| |by apply HsA|unfold server_state; cbn; congruence..].
    apply (connected_updated S _ fd A); try done; [by apply same_user_named| | |].
    + cbn. rewrite lookup_insert_ne by done. apply lookup_insert_eq.
    + cbn. rewrite !lookup_insert_eq. cbn. rewrite HlA, length_app, Hup. cbn. lia.
    + cbn. rewrite lookup_insert_ne, lookup_insert_eq by done. unfold server_state. cbn.
      rewrite Hvt', Hvt, !sent_to_app, !sent_to_one, Z.eqb_refl, (proj2 (Z.eqb_neq fd' fd)), app_nil_r, length_app, Hdown by done.
      cbn. lia.
  - pose proof (on_connected _ _ _ _ _ _ _ HB3) as HcB3. pose proof HcB3 as [_ _ _ _ _ HupB HdownB HqB _].
    eapply online_updated; [exact HB3| |by apply HsB|unfold server_state; cbn; congruence..].
    apply (connected_updated S3 _ fd' B); try done; [by apply same_user_named|by rewrite HmB|apply lookup_insert_eq| |].
    + cbn in *. rewrite HlB. by rewrite lookup_insert_ne.
    + cbn in *. rewrite lookup_insert_eq. unfold server_state in *. cbn in *.
      rewrite Hvt', sent_to_app, sent_to_one, Z.eqb_refl, length_app, HdownB. cbn. lia.
Qed.

(** *** Conversations *)

(** A message as its words. *)
Definition words_ok (l : list string) : bool :=
  match l with [] => false | _ => forallb token_ok l end && (zsize (sbytes (unwords l)) <? 2 ^ 16).

Definition events_of (fd fd' : Z) (nb : string) (l : list string) : list SystemEvent :=
  match l with [] => [] | w :: ws => message_events fd fd' nb w ws end.

(** Whether encryption works depends on the own key only. *)
Lemma encryption_works_same fd c c2 nb d ib :
  same_user c c2 -> encryption_works fd c nb d ib -> encryption_works fd c2 nb d ib.
Proof.
  intros [Hname _ _ Hdh _] H e2 (q & iq & Hq & Hiq & ->). rewrite Hname.
  assert (Hc : caches (cc_encryption c) nb d ib
    {| es_DH_key := es_DH_key (cc_encryption c); es_identity_key := es_identity_key (cc_encryption c);
       es_DH_keys := <[nb := Some q]> (es_DH_keys (cc_encryption c));
       es_identity_keys := <[nb := Some iq]> (es_identity_keys (cc_encryption c)) |}) by (by exists q, iq).
  intros r pt n Hpt. destruct (H _ Hc r pt n Hpt) as (iv & rec & Hr & Hiv & E). exists iv, rec. split_and!; try done.
  rewrite <- E. unfold ES_encrypt_for. cbn. by rewrite !lookup_insert_eq, Hdh.
Qed.

Lemma conversation fd fd' na nb dA iA sA dB iB sB msgs : forall S A B k,
  server_ok (sys_server S) -> online S fd na A dA iA sA -> online S fd' nb B dB iB sB -> fd <> fd' ->
  forallb words_ok msgs = true -> 0 <= k -> k + zsize msgs < 2 ^ 64 ->
  counter_for (client_context A) (sbytes nb) = k -> counter_for (client_context B) (sbytes na) = k ->
  encryption_works fd (client_context A) (sbytes nb) dB iB ->
  exists S' A' B', run (concat (map (events_of fd fd' nb) msgs)) S = (Ok tt, S') /\
    server_ok (sys_server S') /\ online S' fd na A' dA iA sA /\ online S' fd' nb B' dB iB sB /\
    cc_ui (client_context A') = cc_ui (client_context A) /\
    cc_ui (client_context B') = cc_ui (client_context B) ++ map (fun l => private_text (sbytes na) (sbytes (unwords l))) msgs /\
    counter_for (client_context A') (sbytes nb) = k + zsize msgs /\
    counter_for (client_context B') (sbytes na) = k + zsize msgs.
Proof.
  induction msgs as [|l msgs IH]; intros S A B k Hok HA HB Hne Hmsgs Hk Hk' HcA HcB Henc.
  - exists S, A, B. rewrite app_nil_r. cbn. rewrite HcA, HcB. unfold zsize. cbn. split_and!; try done; lia.
  - cbn [forallb] in Hmsgs. unfold words_ok at 1 in Hmsgs. bools. rewrite zsize_cons in *.
    pose proof (zsize_nonneg msgs). destruct l as [|w ws]; [done|].
    destruct (private_message S fd na A dA iA sA fd' nb B dB iB sB w ws k)
      as (S1 & A1 & B1 & Hrun & [Ht1 Ht2 Ht3 Ht4 Hts Ht5 Ht6 Ht7] & HA1 & HB1); try done.
    { lia. }
    unfold u64 in Ht6, Ht7. rewrite Z.mod_small in Ht6, Ht7 by lia.
    destruct (IH S1 A1 B1 (k + 1)) as (S' & A' & B' & Hrun' & Hok' & HA' & HB' & HuA & HuB & HnA & HnB); try done; try lia.
    { by apply (encryption_works_same fd (client_context A)). }
    exists S', A', B'. split; [cbn [map concat events_of]; by rewrite (run_app _ _ _ _ Hrun)|].
    split_and!; try done; [congruence| |lia..]. rewrite HuB, Ht4, <- app_assoc. done.
Qed.

(** ** From the start *)

(** A client that has just been made, with its keys, and its window. *)
Record fresh (c : MessagingClient client_log) (d ib sg : bytes) : Prop := {
  fresh_dispatcher : client_dispatcher c = MessagingClient_dispatcher;
  fresh_ui : cc_ui_set (client_context c) = true;
  fresh_shown : cc_ui (client_context c) = [];
  fresh_sent : log_sent (cc_client (client_context c)) = [];
  fresh_queue : cc_mq (client_context c) = MessageQueue_make;
  fresh_pending : cc_pending_messages (client_context c) = ∅;
  fresh_counters : cc_messages_counter (client_context c) = ∅;
  fresh_speaks : speaks (cc_encryption (client_context c)) d ib sg;
  fresh_small : small_metas [d; ib; sg] = true;
}.

Definition system_start (cfg : AppConfig) (fd0 : Z) (clients : gmap Z (MessagingClient client_log)) : System :=
  {| sys_server := MessagingServer_make cfg [] fd0; sys_clients := clients; sys_up := ∅; sys_down := ∅ |}.

Lemma fresh_connected cfg fd0 clients fd c d ib sg :
  clients !! fd = Some c -> fresh c d ib sg -> connected (system_start cfg fd0 clients) fd c d ib sg.
Proof.
  intros Hc [Hd Hui _ Hs Hq Hp _ Hk Hm]. constructor; try done.
  - rewrite Hd. apply MessagingClient_dispatcher_ok.
  - by rewrite Hs.
  - rewrite Hq. apply mq_holds_make.
Qed.

Definition login_events (fd : Z) (name : string) : list SystemEvent :=
  [Typed fd (unwords ["/login"%string; name]); ToServer fd; ToClient fd].

(** Two users log in on a server that has just started. *)
Lemma both_log_in cfg fd0 clients fd na A dA iA sA fd' nb B dB iB sB :
  clients !! fd = Some A -> clients !! fd' = Some B -> fd <> fd' -> na <> nb ->
  fresh A dA iA sA -> fresh B dB iB sB ->
  token_ok na = true -> token_ok nb = true -> zsize (sbytes na) < 2 ^ 16 -> zsize (sbytes nb) < 2 ^ 16 ->
  exists S A' B', run (login_events fd na ++ login_events fd' nb) (system_start cfg fd0 clients) = (Ok tt, S) /\
    server_ok (sys_server S) /\ online S fd na A' dA iA sA /\ online S fd' nb B' dB iB sB /\
    same_user (with_username (sbytes na) (client_context A)) (client_context A') /\
    cc_ui (client_context A') = ["Hello, " +:+ na +:+ "!"] /\ cc_ui (client_context B') = ["Hello, " +:+ nb +:+ "!"] /\
    cc_messages_counter (client_context A') = ∅ /\ cc_messages_counter (client_context B') = ∅.
Proof.
  intros HA HB Hne Hnames FA FB Ha Hb Hsa Hsb. set (S0 := system_start cfg fd0 clients).
  pose proof FA as [_ _ HuA _ _ _ HcA _ _]. pose proof FB as [_ _ HuB _ _ _ HcB _ _].
  destruct (log_in S0 fd na A dA iA sA) as (S1 & A' & Hrun1 & Hok1 & HA1 & HcA1 & Hcon1 & _ & Hses1 & Hus1);
    try done; [apply MessagingServer_make_ok | by apply fresh_connected|].
  destruct (log_in S1 fd' nb B dB iB sB) as (S2 & B' & Hrun2 & Hok2 & HB2 & HcB2 & _ & Hon2 & _ & _); try done.
  - apply Hcon1; [done|]. by apply fresh_connected.
  - by rewrite Hses1.
  - by rewrite Hus1.
  - exists S2, A', B'. split; [by rewrite (run_app _ _ _ _ Hrun1)|].
    rewrite HcA1, HcB2. cbn. rewrite HuA, HuB. split_and!; try done. by apply Hon2.
Qed.

(** ** The properties *)

(** C6: A private message reaches its recipient. Two users are logged in on
    different connections with nothing under way, each registered with the keys its
    client holds, and their counters for each other agree; names, keys and
    signatures are shorter than 2^16 bytes, and encryption for the recipient works
    (OpenSSL's calls succeed once its key is cached). One types [/pmess] with the
    other's name and a text of words, shorter than 2^16 bytes. The client asks the
    server for the key and queues the text, the server answers with the keys of the
    recipient, the client caches them as they are (the signature in the answer is
    not checked), encrypts the text and sends it, the server adds the author's keys
    and relays it, and the recipient's client verifies the author's signature,
    decrypts the record and shows the text. Nothing else is shown to either user,
    the counters agree again, and both users can go on. *)
Theorem private_message_delivered S fd na A dA iA sA fd' nb B dB iB sB w ws k :
  server_ok (sys_server S) -> online S fd na A dA iA sA -> online S fd' nb B dB iB sB -> fd <> fd' ->
  words_ok (w :: ws) = true -> 0 <= k < 2 ^ 64 ->
  counter_for (client_context A) (sbytes nb) = k -> counter_for (client_context B) (sbytes na) = k ->
  encryption_works fd (client_context A) (sbytes nb) dB iB ->
  exists S' A' B', run (message_events fd fd' nb w ws) S = (Ok tt, S') /\
    cc_ui (client_context B') = cc_ui (client_context B) ++ [private_text (sbytes na) (sbytes (unwords (w :: ws)))] /\
    cc_ui (client_context A') = cc_ui (client_context A) /\
    counter_for (client_context A') (sbytes nb) = u64 (k + 1) /\
    counter_for (client_context B') (sbytes na) = u64 (k + 1) /\
    server_ok (sys_server S') /\ online S' fd na A' dA iA sA /\ online S' fd' nb B' dB iB sB.
Proof.
  intros Hok HA HB Hne Hw Hk HcA HcB Henc. unfold words_ok in Hw. bools.
  destruct (private_message S fd na A dA iA sA fd' nb B dB iB sB w ws k)
    as (S' & A' & B' & Hrun & [] & HA' & HB'); try done. by exists S', A', B'.
Qed.

(** The whole system from the start. On a server that has just been made, two
    clients log in under different names, and one sends the other any number of
    private messages: every step succeeds, the author sees the greeting of the server
    and nothing else, and the recipient sees the greeting and then each text, once and
    in order. *)
Theorem messenger_end_to_end cfg fd0 clients fd na A dA iA sA fd' nb B dB iB sB msgs :
  clients !! fd = Some A -> clients !! fd' = Some B -> fd <> fd' -> na <> nb ->
  fresh A dA iA sA -> fresh B dB iB sB ->
  token_ok na = true -> token_ok nb = true -> zsize (sbytes na) < 2 ^ 16 -> zsize (sbytes nb) < 2 ^ 16 ->
  encryption_works fd (with_username (sbytes na) (client_context A)) (sbytes nb) dB iB ->
  forallb words_ok msgs = true -> zsize msgs < 2 ^ 64 ->
  exists S A' B',
    run (login_events fd na ++ login_events fd' nb ++ concat (map (events_of fd fd' nb) msgs))
      (system_start cfg fd0 clients) = (Ok tt, S) /\
    sys_clients S !! fd = Some A' /\ sys_clients S !! fd' = Some B' /\
    cc_ui (client_context A') = ["Hello, " +:+ na +:+ "!"] /\
    cc_ui (client_context B') = ("Hello, " +:+ nb +:+ "!") ::
      map (fun l => private_text (sbytes na) (sbytes (unwords l))) msgs.
Proof.
  intros HA HB Hne Hnames FA FB Ha Hb Hsa Hsb Henc Hmsgs Hlen.
  destruct (both_log_in cfg fd0 clients fd na A dA iA sA fd' nb B dB iB sB)
    as (S & A1 & B1 & Hrun & Hok & HA1 & HB1 & Hsame & HuA & HuB & HcA & HcB); try done.
  destruct (conversation fd fd' na nb dA iA sA dB iB sB msgs S A1 B1 0)
    as (S' & A' & B' & Hrun' & _ & HA' & HB' & HuA' & HuB' & _); try done; try lia.
  { unfold counter_for. by rewrite HcA. } { unfold counter_for. by rewrite HcB. }
  { by apply (encryption_works_same fd _ _ _ _ _ Hsame). }
  exists S', A', B'. rewrite app_assoc, (run_app _ _ _ _ Hrun).
  split_and!; try done; [apply HA' | apply HB' | congruence | by rewrite HuB', HuB].
Qed.

End System.

(** ** The properties on concrete clients *)

#[local] Existing Instance plain_ssl.

Definition demo_fresh (dh id : string) : MessagingClient client_log :=
  MessagingClient_make
    {| cc_config := demo_config; cc_ui_set := true; cc_ui := [];
       cc_client := {| log_sent := []; log_closed := false |}; cc_mq := MessageQueue_make;
       cc_encryption := {| es_DH_key := Some (sbytes dh); es_identity_key := Some (sbytes id);
                           es_DH_keys := ∅; es_identity_keys := ∅ |};
       cc_files := ∅; cc_pending_messages := ∅; cc_my_username := []; cc_messages_counter := ∅;
       cc_disk := ∅; cc_rand := 0 |}.

Lemma demo_fresh_ok dh id :
  small_metas [sbytes dh; sbytes id; sbytes dh] = true ->
  fresh (demo_fresh dh id) (sbytes dh) (sbytes id) (sbytes dh).
Proof. intros Hs. constructor; try done. constructor; cbn; do 2 eexists; split_and!; done. Qed.

Lemma plain_derive secret a b purpose :
  exists k, derive_for_messaging secret a b purpose = Ok k /\ zsize k = 32.
Proof.
  unfold derive_for_messaging, HKDF_derive.
  cbn [hkdf_ctx_new hkdf_init hkdf_set_md hkdf_set_key hkdf_set_salt hkdf_add_info hkdf_derive plain_ssl negb].
  rewrite !andb_false_r. eexists. split; [reflexivity|].
  unfold zsize. rewrite length_app, length_take, length_replicate. lia.
Qed.

Lemma demo_encryption_works fd c nb d ib :
  es_DH_key (cc_encryption c) <> None -> encryption_works (fun _ => demo_rand) fd c nb d ib.
Proof.
  intros Hk e' (q & iq & _ & _ & ->) r pt n _. exists (replicate 12 Byte.x01).
  destruct (cc_encryption c) as [[p|] i ks iks]; [|done]. cbn [es_DH_key es_identity_key es_DH_keys es_identity_keys].
  unfold ES_encrypt_for. cbn [es_DH_key es_DH_keys]. rewrite lookup_insert_eq.
  destruct (plain_derive (compute_shared_secret (Some p) (Some q)) (cc_my_username c) nb "encryption") as (k & -> & Hlen).
  eexists. split_and!; [reflexivity..|]. cbn [mbind outcome_bind]. unfold AES_encrypt.
  rewrite (proj2 (Z.ltb_ge _ _)) by lia. reflexivity.
Qed.

Definition demo_clients : gmap Z (MessagingClient client_log) :=
  <[5 := demo_fresh "a" "ia"]> {[6 := demo_fresh "b" "ib"]}.

Lemma messenger_end_to_end_witness :
  exists S A' B',
    system_run 0 (fun _ => demo_rand) (fun _ => true)
      (login_events 5 "ann" ++ login_events 6 "bob" ++
       concat (map (events_of 5 6 "bob") [["hello"; "bob"]; ["bye"]])%string)
      (system_start demo_config 0 demo_clients) = (Ok tt, S) /\
    sys_clients S !! 5 = Some A' /\ sys_clients S !! 6 = Some B' /\
    cc_ui (client_context A') = ["Hello, ann!"] /\
    cc_ui (client_context B') = ["Hello, bob!"; private_text (sbytes "ann") (sbytes "hello bob"); private_text (sbytes "ann") (sbytes "bye")].
Proof.
  destruct (messenger_end_to_end 0 (fun _ => demo_rand) (fun _ => true) demo_config 0 demo_clients 5 "ann"
    (demo_fresh "a" "ia") (sbytes "a") (sbytes "ia") (sbytes "a") 6 "bob"
    (demo_fresh "b" "ib") (sbytes "b") (sbytes "ib") (sbytes "b") [["hello"; "bob"]; ["bye"]]%string)
    as (S & A' & B' & Hrun & HA & HB & HuA & HuB); [reflexivity | reflexivity | lia | discriminate
      | by apply demo_fresh_ok | by apply demo_fresh_ok | reflexivity | reflexivity | reflexivity | reflexivity
      | by apply demo_encryption_works | reflexivity | reflexivity|].
  exists S, A', B'. split; [exact Hrun|]. split; [exact HA|]. split; [exact HB|]. split; [exact HuA | exact HuB].
Defined.

Lemma private_message_delivered_witness :
  exists S S' B',
    system_run 0 (fun _ => demo_rand) (fun _ => true) (login_events 5 "ann" ++ login_events 6 "bob")
      (system_start demo_config 0 demo_clients) = (Ok tt, S) /\
    system_run 0 (fun _ => demo_rand) (fun _ => true) (message_events 5 6 "bob" "hello" ["again"%string]) S = (Ok tt, S') /\
    sys_clients S' !! 6 = Some B' /\
    cc_ui (client_context B') = ["Hello, bob!"; private_text (sbytes "ann") (sbytes "hello again")].
Proof.
  destruct (both_log_in 0 (fun _ => demo_rand) (fun _ => true) demo_config 0 demo_clients 5 "ann"
    (demo_fresh "a" "ia") (sbytes "a") (sbytes "ia") (sbytes "a") 6 "bob"
    (demo_fresh "b" "ib") (sbytes "b") (sbytes "ib") (sbytes "b"))
    as (S & A & B & Hrun & Hok & HA & HB & Hsame & _ & HuB & HcA & HcB);
    [reflexivity | reflexivity | lia | discriminate | by apply demo_fresh_ok | by apply demo_fresh_ok
    | reflexivity | reflexivity | reflexivity | reflexivity|].
  destruct (private_message_delivered 0 (fun _ => demo_rand) (fun _ => true) S 5 "ann" A (sbytes "a") (sbytes "ia")
    (sbytes "a") 6 "bob" B (sbytes "b") (sbytes "ib") (sbytes "b") "hello" ["again"%string] 0)
    as (S' & A' & B' & Hrun' & HuB' & _ & _ & _ & _ & _ & HB');
    [exact Hok | exact HA | exact HB | lia | reflexivity | lia
    | unfold counter_for; rewrite HcA; reflexivity | unfold counter_for; rewrite HcB; reflexivity
    | apply demo_encryption_works; rewrite (same_dh _ _ Hsame); discriminate |].
  exists S, S', B'. split; [exact Hrun|]. split; [exact Hrun'|].
  split; [exact (con_client _ _ _ _ _ _ (on_connected _ _ _ _ _ _ _ HB'))|]. rewrite HuB', HuB. reflexivity.
Defined.
