(* ===== verification/ClientRefinement.v ===== *)
(** The client does not depend on its transport: a map between two transports
    that commutes with what the application calls commutes with everything the
    application does. What is proved of the client over the recording transport
    thus holds over every transport it maps to. *)
From S2P Require Import Prelude Message Wire Parser Commands AppService Queue Crypto ClientContext Client.

(** What a map of transports promises. *)
Class TransportMap {T T'} {cl : IClient T} {cl' : IClient T'} (g : T -> T') := {
  map_send data : natural g (client_send_to_server data) (client_send_to_server data);
  map_disconnect : natural g client_disconnect client_disconnect;
}.

Section Refinement.
  Context {ssl : OpenSSL} {T T' : Type} {cl : IClient T} {cl' : IClient T'}.
  Context (g : T -> T') {map : TransportMap g}.

Definition lower_context (c : ClientContext T) : ClientContext T' :=
  {| cc_config := cc_config c; cc_ui_set := cc_ui_set c; cc_ui := cc_ui c; cc_client := g (cc_client c);
     cc_mq := cc_mq c; cc_encryption := cc_encryption c; cc_files := cc_files c;
     cc_pending_messages := cc_pending_messages c; cc_my_username := cc_my_username c;
     cc_messages_counter := cc_messages_counter c; cc_disk := cc_disk c; cc_rand := cc_rand c |}.

Definition lower_client (s : MessagingClient T) : MessagingClient T' :=
  {| client_context := lower_context (client_context s); client_dispatcher := client_dispatcher s |}.

Lemma natural_on_client {A} (f : M T A) f' :
  natural g f f' -> natural lower_context (on_client f) (on_client f').
Proof. intros H c. unfold on_client. cbn [lower_context cc_client]. rewrite H. by destruct (f (cc_client c)). Qed.

(** Decompose an operation along its structure. *)
Ltac natural :=
  repeat (cbn [lower_context cc_config cc_ui_set cc_ui cc_mq cc_encryption cc_files cc_pending_messages
               cc_my_username cc_messages_counter cc_disk cc_rand];
    lazymatch goal with
    | |- natural _ (on_client _) _ => apply natural_on_client; first [apply map_send | apply map_disconnect]
    | |- natural _ (get ≫= _) _ => apply natural_get; intros ?
    | |- natural _ (_ ≫= _) _ => apply natural_bind; [|intros ?]
    | |- natural _ (modify _) _ => by apply natural_modify
    | |- natural _ (mret _) _ => apply natural_ret
    | |- natural _ (lift _) _ => apply natural_lift
    | |- natural _ (match ?x with _ => _ end) _ => destruct x
    | |- natural _ (let '(_, _) := ?x in _) _ => destruct x
    end).

Ltac natural_of := unfold increment_counter, counter_of, cc_encrypt_for, cc_decrypt_for, cc_cache_public_key,
  cc_keys, ui_callback, send_message, send_to_server; natural.

Variable now : Z.
Variable rand : nat -> option bytes.
Variable can_open : string -> bool.

Lemma natural_chunks r f chunks :
  natural lower_context (send_chunks now rand r f chunks) (send_chunks now rand r f chunks).
Proof. induction chunks as [|b chunks IH]; cbn [send_chunks]; natural_of; apply IH. Qed.

Lemma natural_execute_client h :
  natural lower_context (executeOnClient now rand h) (executeOnClient now rand h).
Proof.
  destruct h; cbn [executeOnClient];
    unfold Login_executeOnClient, MakeRoom_executeOnClient, Join_executeOnClient,
      SendGroupMessage_executeOnClient, GetPubkey_executeOnClient, PrivateMessage_executeOnClient,
      SendFile_executeOnClient, Exit_executeOnClient, GetPubkey_executeOnClient; natural_of.
  apply natural_chunks.
Qed.

Lemma natural_pending fuel u :
  natural lower_context (send_pending now rand fuel u) (send_pending now rand fuel u).
Proof. induction fuel as [|fuel IH]; cbn [send_pending]; natural_of; apply IH. Qed.

Lemma natural_show u l : natural lower_context (show_pending u l) (show_pending u l).
Proof. induction l as [|x l IH]; cbn [show_pending]; natural_of; apply IH. Qed.

Lemma natural_try_catch (m : M (ClientContext T) unit) m' :
  natural lower_context m m' -> natural lower_context (try_catch m) (try_catch m').
Proof. intros H s. unfold try_catch. rewrite H. by destruct (m s) as [[] s']. Qed.

Lemma natural_client_handle h msg c :
  client_handleOutgoing now rand can_open h msg (lower_context c)
  = let '(r, c', h') := client_handleOutgoing now rand can_open h msg c in (r, lower_context c', h').
Proof.
  assert (Hn : forall (m : M (ClientContext T) unit) m', natural lower_context m m' ->
    (m' (lower_context c), h) = let '(r, c', h') := (m c, h) in (r, lower_context c', h')).
  { intros m m' Hm. rewrite Hm. by destruct (m c). }
  destruct h; cbn [client_handleOutgoing]; try apply Hn.
  - unfold ClientTextHandler_handleOutgoing. natural_of.
  - unfold ClientCommandBus_dispatch. destruct (registry_find _ _) as [h|]; [|done].
    destruct (fromMessage h msg) as [[] h']; try done. rewrite natural_execute_client.
    by destruct (executeOnClient now rand h' c) as [[] ?].
  - unfold ResponseMessageHandler_handleIncoming, handle_get_pubkey_response.
    natural_of; first [apply natural_pending | apply natural_show].
  - apply natural_try_catch. natural_of.
  - unfold ClientFileStart_handleIncoming. natural_of.
  - unfold ClientFileChunk_handleIncoming. natural_of.
  - unfold ClientFileEnd_handleIncoming. natural_of.
Qed.

Lemma natural_client_dispatch msg :
  natural lower_client (client_dispatch now rand can_open msg) (client_dispatch now rand can_open msg).
Proof.
  intros s. unfold client_dispatch. cbn [lower_client client_dispatcher client_context].
  destruct (_ !! _) as [h|]; [|done]. destruct (negb _); [done|].
  rewrite natural_client_handle. by destruct (client_handleOutgoing now rand can_open h msg (client_context s)) as [[[] c'] h'].
Qed.

Lemma natural_dispatch_outgoing msg :
  natural lower_client (dispatch_outgoing now rand can_open msg) (dispatch_outgoing now rand can_open msg).
Proof. unfold dispatch_outgoing. natural. apply natural_client_dispatch. Qed.

Lemma natural_received raw :
  natural lower_client (client_on_tcp_data_received now rand can_open raw) (client_on_tcp_data_received now rand can_open raw).
Proof. unfold client_on_tcp_data_received. natural. apply (natural_dispatch_outgoing a). Qed.

Lemma natural_get_data line :
  natural lower_client (get_data now rand can_open line) (get_data now rand can_open line).
Proof. unfold get_data. natural. apply natural_dispatch_outgoing. Qed.

End Refinement.

(** ** What the application does to its transport

    It only calls [send_to_server], with serialized messages, and [disconnect]: what
    these two keep, all of it keeps. *)
Section Frame.
  Context {ssl : OpenSSL} {T : Type} {cl : IClient T} (R : T -> T -> Prop) `{!PreOrder R}.
  Hypothesis R_send : forall m t, R t (client_send_to_server (Serializer_serialize m) t).2.
  Hypothesis R_disconnect : forall t, R t (client_disconnect t).2.
  Variable now : Z.
  Variable rand : nat -> option bytes.
  Variable can_open : string -> bool.

Definition evolves {A} (m : M (ClientContext T) A) : Prop := forall c, R (cc_client c) (cc_client (m c).2).

Lemma evolves_same {A} (m : M (ClientContext T) A) : (forall c, cc_client (m c).2 = cc_client c) -> evolves m.
Proof. intros H c. by rewrite H. Qed.

Lemma evolves_bind {A B} (m : M (ClientContext T) A) (k : A -> M (ClientContext T) B) :
  evolves m -> (forall a, evolves (k a)) -> evolves (m ≫= k).
Proof.
  intros Hm Hk c.
  assert (Transitive (fun c c' : ClientContext T => R (cc_client c) (cc_client c'))) by (intros x y z; apply transitivity).
  by apply (keeps_bind (fun c c' => R (cc_client c) (cc_client c'))).
Qed.

Lemma evolves_on_client {A} (f : M T A) : (forall t, R t (f t).2) -> evolves (on_client f).
Proof. intros H c. specialize (H (cc_client c)). unfold on_client. by destruct (f (cc_client c)). Qed.

Lemma evolves_try_catch (m : M (ClientContext T) unit) : evolves m -> evolves (try_catch m).
Proof. intros H c. specialize (H c). unfold try_catch. by destruct (m c) as [[] c']. Qed.

Ltac evolves :=
  repeat (cbn beta iota zeta;
    lazymatch goal with
    | |- evolves (on_client _) => apply evolves_on_client; first [apply R_send | apply R_disconnect]
    | |- evolves (_ ≫= _) => apply evolves_bind; [|intros ?]
    | |- evolves (modify _) => by apply evolves_same
    | |- evolves (mret _) => by apply evolves_same
    | |- evolves (lift _) => by apply evolves_same
    | |- evolves get => by apply evolves_same
    | |- evolves (match ?x with _ => _ end) => destruct x
    | |- evolves (let '(_, _) := ?x in _) => destruct x
    end).

Ltac evolves_of := unfold increment_counter, counter_of, cc_encrypt_for, cc_decrypt_for, cc_cache_public_key,
  cc_keys, ui_callback, send_message, send_to_server; evolves.

Lemma evolves_chunks r f chunks : evolves (send_chunks now rand r f chunks).
Proof. induction chunks as [|b chunks IH]; cbn [send_chunks]; evolves_of; apply IH. Qed.

Lemma evolves_execute h : evolves (executeOnClient now rand h).
Proof.
  destruct h; cbn [executeOnClient];
    unfold Login_executeOnClient, MakeRoom_executeOnClient, Join_executeOnClient,
      SendGroupMessage_executeOnClient, PrivateMessage_executeOnClient, GetPubkey_executeOnClient,
      SendFile_executeOnClient, Exit_executeOnClient; evolves_of.
  apply evolves_chunks.
Qed.

Lemma evolves_pending fuel u : evolves (send_pending now rand fuel u).
Proof. induction fuel as [|fuel IH]; cbn [send_pending]; evolves_of; apply IH. Qed.

Lemma evolves_show u l : evolves (show_pending u l).
Proof. induction l as [|x l IH]; cbn [show_pending]; evolves_of; apply IH. Qed.

Lemma evolves_handle h msg c :
  R (cc_client c) (cc_client (client_handleOutgoing now rand can_open h msg c).1.2).
Proof.
  assert (Hm : forall (m : M (ClientContext T) unit), evolves m -> R (cc_client c) (cc_client (m c, h).1.2)) by done.
  destruct h; cbn [client_handleOutgoing]; try apply Hm.
  - unfold ClientTextHandler_handleOutgoing. evolves_of.
  - unfold ClientCommandBus_dispatch. destruct (registry_find _ _) as [h|]; [|done].
    destruct (fromMessage h msg) as [[] h']; try done. pose proof (evolves_execute h' c) as He.
    by destruct (executeOnClient now rand h' c) as [[] ?].
  - unfold ResponseMessageHandler_handleIncoming, handle_get_pubkey_response.
    evolves_of; first [apply evolves_pending | apply evolves_show].
  - apply evolves_try_catch. evolves_of.
  - unfold ClientFileStart_handleIncoming. evolves_of.
  - unfold ClientFileChunk_handleIncoming. evolves_of.
  - unfold ClientFileEnd_handleIncoming. evolves_of.
Qed.

Abbreviation transport s := (cc_client (client_context s)).

Lemma evolves_dispatch msg (s : MessagingClient T) :
  R (transport s) (transport (client_dispatch now rand can_open msg s).2).
Proof.
  unfold client_dispatch. destruct (_ !! _) as [h|]; [|done]. destruct (negb _); [done|].
  pose proof (evolves_handle h msg (client_context s)) as He.
  by destruct (client_handleOutgoing now rand can_open h msg (client_context s)) as [[[] c'] h'].
Qed.

Lemma evolves_received raw (s : MessagingClient T) :
  R (transport s) (transport (client_on_tcp_data_received now rand can_open raw s).2).
Proof.
  unfold client_on_tcp_data_received, dispatch_incoming, mbind, M_bind, lift, modify.
  destruct (Serializer_deserialize raw) as [m| |]; [|done..].
  match goal with |- context [client_dispatch _ _ _ m ?s1] => pose proof (evolves_dispatch m s1) as He end.
  by destruct (client_dispatch now rand can_open m _) as [[] s2].
Qed.

Lemma evolves_get_data line (s : MessagingClient T) :
  R (transport s) (transport (get_data now rand can_open line s).2).
Proof.
  unfold get_data, dispatch_outgoing, mbind, M_bind, lift, modify.
  destruct (parse now line) as [m| |]; [|done..].
  match goal with |- context [client_dispatch _ _ _ m ?s1] => pose proof (evolves_dispatch m s1) as He end.
  by destruct (client_dispatch now rand can_open m _) as [[] s2].
Qed.

End Frame.
