(* ===== verification/Sockets.v ===== *)
(** The sockets: [src/transport/raw_socket.cpp], [include/transport/raw_socket.hpp]
    and the owner of a descriptor, [Fd] of [include/transport/interface.hpp]. *)
From S2P Require Import Prelude.

(** ** System calls *)

(** The calls whose order matters, as they are made. *)
Inductive Syscall :=
| SysSocket (fd : Z)
| SysBind (fd : Z)
| SysListen (fd : Z)
| SysReuseAddr (fd : Z)
| SysNonblock (fd : Z)
| SysConnect (fd : Z)
| SysClose (fd : Z).

(** What the calls made by one operation return; each is made at most once. *)
Record SocketAnswers := {
  ans_socket : Z;
  ans_bind : Z;
  ans_listen : Z;
  ans_setsockopt : Z;
  ans_connect : Z;
  ans_errno : Z;
  ans_select : Z;
  ans_except : bool;
  ans_write : bool;
  ans_so_error : Z;
}.

Definition EINVAL : Z := 22.
Definition ETIMEDOUT : Z := 110.
Definition ECONNREFUSED : Z := 111.
Definition EALREADY : Z := 114.
Definition EINPROGRESS : Z := 115.
Definition EISCONN : Z := 106.
Definition AF_INET : Z := 2.
Definition INADDR_ANY : Z := 0.

(** [htons] on a little-endian machine. *)
Definition htons (port : Z) : Z := Z.lor (Z.land (Z.shiftl port 8) 0xFF00) (Z.shiftr port 8).

(** A field without a value has not been assigned. *)
Record sockaddr_in := {
  sin_family : option Z;
  sin_port : option Z;
  sin_addr : option Z;
}.

Definition addr_make : sockaddr_in := {| sin_family := None; sin_port := None; sin_addr := None |}.

(** [TCPSocket] and [UDPSocket], and the calls made so far. *)
Record RawSocket := {
  rs_fd : Z;
  rs_addr : sockaddr_in;
  rs_calls : list Syscall;
}.

Definition with_fd (fd : Z) (s : RawSocket) : RawSocket :=
  {| rs_fd := fd; rs_addr := rs_addr s; rs_calls := rs_calls s |}.

Definition with_addr (a : sockaddr_in) (s : RawSocket) : RawSocket :=
  {| rs_fd := rs_fd s; rs_addr := a; rs_calls := rs_calls s |}.

Definition call (c : Z -> Syscall) (s : RawSocket) : RawSocket :=
  {| rs_fd := rs_fd s; rs_addr := rs_addr s; rs_calls := rs_calls s ++ [c (rs_fd s)] |}.

(** ** [TCPSocket] and [UDPSocket] *)

Section Sockets.
  (** [inet_pton(AF_INET, ...)], which fails for what is not an address, and
      [strerror]. *)
  Variable inet_pton : string -> option Z.
  Variable strerror : Z -> string.
  Variable env : SocketAnswers.

(** The result of [create_socket()] is assigned to [fd]. *)
Definition create_socket : M RawSocket Z :=
  let fd := ans_socket env in
  if fd <? 0 then mret (-1)
  else
    _ ← modify (fun s => {| rs_fd := rs_fd s; rs_addr := rs_addr s; rs_calls := rs_calls s ++ [SysSocket fd] |});
    mret fd.

Definition set_host (port : Z) (s : RawSocket) : RawSocket :=
  with_addr {| sin_family := Some AF_INET; sin_port := Some (htons port); sin_addr := sin_addr (rs_addr s) |} s.

Definition set_ip (ip : Z) (s : RawSocket) : RawSocket :=
  with_addr {| sin_family := sin_family (rs_addr s); sin_port := sin_port (rs_addr s); sin_addr := Some ip |} s.

(** [fd = -1; throw ...]. *)
Definition fail {A} (what : string) : M RawSocket A :=
  _ ← modify (with_fd (-1));
  lift (Throw (runtime_error what)).

Definition set_server_addr (wrong : string) (ip : string) : M RawSocket unit :=
  if bool_decide (ip = "0.0.0.0"%string) then modify (set_ip INADDR_ANY)
  else
    match inet_pton ip with
    | Some a => modify (set_ip a)
    | None => fail (wrong +:+ ip)
    end.

Definition TCPSocket_server (ip : string) (port : Z) : M RawSocket unit :=
  fd ← create_socket;
  _ ← modify (with_fd fd);
  if fd <? 0 then mret tt
  else
    _ ← modify (set_host port);
    _ ← set_server_addr "Wrong IP: " ip;
    _ ← modify (call SysBind);
    if ans_bind env <? 0 then fail "bind error"
    else
      _ ← modify (call SysListen);
      if ans_listen env <? 0 then fail "listen error"
      else
        _ ← modify (call SysReuseAddr);
        if ans_setsockopt env <? 0 then fail ("setsockopt error: " +:+ strerror (ans_errno env))
        else mret tt.

Definition TCPSocket_client (ip : string) (port : Z) : M RawSocket Z :=
  fd ← create_socket;
  _ ← modify (with_fd fd);
  if fd <? 0 then mret (-1)
  else
    _ ← modify (with_addr {| sin_family := Some 0; sin_port := Some 0; sin_addr := Some 0 |});
    _ ← modify (set_host port);
    match inet_pton ip with
    | None => mret (- EINVAL)
    | Some a =>
        _ ← modify (set_ip a);
        _ ← modify (call SysNonblock);
        _ ← modify (call SysConnect);
        let errno := ans_errno env in
        if ans_connect env =? 0 then mret 0
        else if errno =? EINPROGRESS then mret 0
        else if errno =? EISCONN then mret 0
        else if errno =? EALREADY then mret 0
        else if errno =? ECONNREFUSED then mret (- ECONNREFUSED)
        else if errno =? ETIMEDOUT then mret (- ETIMEDOUT)
        else mret (- errno)
    end.

(** [FD_SET] writes outside of the set for a descriptor that is negative or not
    below [FD_SETSIZE]. *)
Definition FD_SETSIZE : Z := 1024.

Definition TCPSocket_check_connection_complete (s : RawSocket) : outcome bool :=
  if (rs_fd s <? 0) || (FD_SETSIZE <=? rs_fd s) then Undef
  else if 0 <? ans_select env then
    if ans_except env then Ok false
    else if ans_write env then Ok (ans_so_error env =? 0)
    else Ok false
  else Ok false.

(** A failing [bind] leaves [fd] as it is. *)
Definition UDPSocket_server (ip : string) (port : Z) : M RawSocket unit :=
  fd ← create_socket;
  _ ← modify (with_fd fd);
  if fd <? 0 then mret tt
  else
    _ ← modify (set_host port);
    _ ← set_server_addr "Неверный IP: " ip;
    _ ← modify (call SysBind);
    if ans_bind env <? 0 then lift (Throw (runtime_error "UDP bind failed"))
    else
      _ ← modify (call SysReuseAddr);
      if ans_setsockopt env <? 0 then fail ("setsockopt error: " +:+ strerror (ans_errno env))
      else mret tt.

Definition UDPSocket_client (ip : string) (port : Z) : M RawSocket Z :=
  _ ← modify (with_fd (-1));
  s ← get;
  if rs_fd s <? 0 then mret (-1)
  else
    _ ← modify (with_addr {| sin_family := Some 0; sin_port := Some 0; sin_addr := Some 0 |});
    _ ← modify (set_host port);
    match inet_pton ip with
    | None => mret (-1)
    | Some a =>
        _ ← modify (set_ip a);
        _ ← modify (call SysConnect);
        if ans_connect env <? 0 then mret (-2)
        else
          _ ← modify (call SysNonblock);
          mret 0
    end.

Definition UDPSocket_check_connection_complete (s : RawSocket) : outcome bool := Ok true.

(** ** [ISocket] *)

Inductive SocketType :=
| TCP
| UDP.

(** [is_fd] is without a value until it is assigned; of the members of the union
    the one of the type is used, and [~ISocket] destroys neither. *)
Record ISocket := {
  is_type : SocketType;
  is_fd : option Z;
  is_raw : RawSocket;
}.

Definition ISocket_make (t : SocketType) : ISocket :=
  {| is_type := t; is_fd := None; is_raw := {| rs_fd := -1; rs_addr := addr_make; rs_calls := [] |} |}.

(** [tcp.f(...); fd = tcp.fd]: when the call throws, [fd] is not assigned. *)
Definition on_raw {A} (f : M RawSocket A) : M ISocket A := fun s =>
  let '(r, raw) := f (is_raw s) in
  match r with
  | Ok a => (Ok a, {| is_type := is_type s; is_fd := Some (rs_fd raw); is_raw := raw |})
  | _ => (r, {| is_type := is_type s; is_fd := is_fd s; is_raw := raw |})
  end.

Definition ISocket_setup_server (ip : string) (port : Z) : M ISocket unit :=
  s ← get;
  match is_type s with
  | TCP => on_raw (TCPSocket_server ip port)
  | UDP => on_raw (UDPSocket_server ip port)
  end.

(** [tcp = TCPSocket()] copies a new socket over the old one, whose descriptor is
    not closed. *)
Definition ISocket_setup_connection (ip : string) (port : Z) : M ISocket Z :=
  _ ← modify (fun s => {| is_type := is_type s; is_fd := is_fd s;
                          is_raw := {| rs_fd := -1; rs_addr := addr_make; rs_calls := rs_calls (is_raw s) |} |});
  s ← get;
  match is_type s with
  | TCP => on_raw (TCPSocket_client ip port)
  | UDP => on_raw (UDPSocket_client ip port)
  end.

Definition ISocket_check_connection_complete (s : ISocket) : outcome bool :=
  match is_type s with
  | TCP => TCPSocket_check_connection_complete (is_raw s)
  | UDP => UDPSocket_check_connection_complete (is_raw s)
  end.

End Sockets.

(** ** [Fd] *)

(** The [Fd] objects that are alive, by address, with the descriptor each holds;
    the descriptors that are open; the calls of [::close], the last one first, and
    how many of them were made on a descriptor that was not open. *)
Record FdWorld := {
  fw_objects : gmap nat Z;
  fw_open : gset Z;
  fw_closes : list Z;
  fw_bad_closes : nat;
}.

Definition FdWorld_make : FdWorld :=
  {| fw_objects := ∅; fw_open := ∅; fw_closes := []; fw_bad_closes := 0 |}.

Definition sys_close (fd : Z) (w : FdWorld) : FdWorld :=
  {| fw_objects := fw_objects w; fw_open := fw_open w ∖ {[fd]}; fw_closes := fd :: fw_closes w;
     fw_bad_closes := if bool_decide (fd ∈ fw_open w) then fw_bad_closes w else S (fw_bad_closes w) |}.

(** A call that gives a descriptor. *)
Definition sys_open (fd : Z) (w : FdWorld) : FdWorld :=
  {| fw_objects := fw_objects w; fw_open := {[fd]} ∪ fw_open w; fw_closes := fw_closes w;
     fw_bad_closes := fw_bad_closes w |}.

Definition Fd_set (o : nat) (fd : Z) (w : FdWorld) : FdWorld :=
  {| fw_objects := <[o := fd]> (fw_objects w); fw_open := fw_open w; fw_closes := fw_closes w;
     fw_bad_closes := fw_bad_closes w |}.

Definition Fd_get_fd (o : nat) (w : FdWorld) : Z := default (-1) (fw_objects w !! o).

Definition Fd_reset_fd (o : nat) (new_fd : Z) (w : FdWorld) : FdWorld :=
  let fd := Fd_get_fd o w in
  Fd_set o new_fd (if fd =? -1 then w else sys_close fd w).

Definition Fd_make (o : nat) (fd : Z) (w : FdWorld) : FdWorld := Fd_set o fd w.

Definition Fd_move (o other : nat) (w : FdWorld) : FdWorld :=
  Fd_set other (-1) (Fd_set o (Fd_get_fd other w) w).

Definition Fd_move_assign (o other : nat) (w : FdWorld) : FdWorld :=
  if Nat.eqb o other then w
  else
    let w := Fd_reset_fd o (-1) w in
    Fd_set other (-1) (Fd_set o (Fd_get_fd other w) w).

Definition Fd_destroy (o : nat) (w : FdWorld) : FdWorld :=
  let w := Fd_reset_fd o (-1) w in
  {| fw_objects := delete o (fw_objects w); fw_open := fw_open w; fw_closes := fw_closes w;
     fw_bad_closes := fw_bad_closes w |}.

(** What a program does with [Fd] objects: any number can be put into one. *)
Inductive FdOp :=
| OpOpen (fd : Z)
| OpMake (o : nat) (fd : Z)
| OpReset (o : nat) (fd : Z)
| OpMove (o other : nat)
| OpAssign (o other : nat)
| OpDestroy (o : nat).

Definition fd_apply (op : FdOp) (w : FdWorld) : FdWorld :=
  match op with
  | OpOpen fd => sys_open fd w
  | OpMake o fd => Fd_make o fd w
  | OpReset o fd => Fd_reset_fd o fd w
  | OpMove o other => Fd_move o other w
  | OpAssign o other => Fd_move_assign o other w
  | OpDestroy o => Fd_destroy o w
  end.

(** An object is made where there is none and used while it is alive; the system
    gives descriptors that are not open. *)
Definition op_legal (op : FdOp) (w : FdWorld) : Prop :=
  match op with
  | OpOpen fd => 0 <= fd /\ fd ∉ fw_open w
  | OpMake o _ => fw_objects w !! o = None
  | OpMove o other => fw_objects w !! o = None /\ is_Some (fw_objects w !! other)
  | OpReset o _ | OpDestroy o => is_Some (fw_objects w !! o)
  | OpAssign o other => is_Some (fw_objects w !! o) /\ is_Some (fw_objects w !! other)
  end.

(** The operations done, the last one first, and what they lead to. *)
Inductive fd_run : list FdOp -> FdWorld -> Prop :=
| fd_run_nil : fd_run [] FdWorld_make
| fd_run_op ops w op : fd_run ops w -> op_legal op w -> fd_run (op :: ops) (fd_apply op w).

(** How often a descriptor was put into an object, and how many objects hold it. *)
Fixpoint given (fd : Z) (ops : list FdOp) : nat :=
  match ops with
  | [] => 0
  | OpMake _ f :: l | OpReset _ f :: l => (if f =? fd then 1 else 0) + given fd l
  | _ :: l => given fd l
  end.

Definition holders (fd : Z) (w : FdWorld) : nat :=
  size (filter (fun p : nat * Z => p.2 = fd) (fw_objects w)).

(** The discipline of an owner: a number is put into an object only when it is -1,
    or an open descriptor that no object holds. *)
Definition op_owned (op : FdOp) (w : FdWorld) : Prop :=
  match op with
  | OpMake _ fd | OpReset _ fd => fd = -1 \/ 0 <= fd /\ fd ∈ fw_open w /\ holders fd w = 0%nat
  | _ => True
  end.

Inductive fd_owned_run : list FdOp -> FdWorld -> Prop :=
| fd_owned_nil : fd_owned_run [] FdWorld_make
| fd_owned_op ops w op :
    fd_owned_run ops w -> op_legal op w -> op_owned op w -> fd_owned_run (op :: ops) (fd_apply op w).

(** ** Lemmas *)

Definition holds (fd f : Z) : nat := if f =? fd then 1 else 0.

Lemma holders_none fd o w : fw_objects w !! o = None ->
  forall f, holders fd (Fd_set o f w) = (holds fd f + holders fd w)%nat.
Proof.
  intros Ho f. unfold holders, holds. cbn. destruct (Z.eqb_spec f fd) as [->|Hne].
  - rewrite map_filter_insert_True by done. apply map_size_insert_None.
    apply map_lookup_filter_None. by left.
  - rewrite map_filter_insert_False by done. by rewrite delete_id.
Qed.

Lemma holders_delete fd o f w : fw_objects w !! o = Some f ->
  size (filter (fun p : nat * Z => p.2 = fd) (fw_objects w))
  = (holds fd f + size (filter (fun p : nat * Z => p.2 = fd) (delete o (fw_objects w))))%nat.
Proof.
  intros Ho. unfold holds. rewrite <- (insert_delete_id _ _ _ Ho) at 1.
  destruct (Z.eqb_spec f fd) as [->|Hne].
  - rewrite map_filter_insert_True by done. apply map_size_insert_None.
    apply map_lookup_filter_None. left. apply lookup_delete_eq.
  - rewrite map_filter_insert_False by done. by rewrite delete_delete_eq.
Qed.

(** Assigning to an object replaces what it held. *)
Lemma holders_set fd o f0 w : fw_objects w !! o = Some f0 ->
  forall f, (holds fd f0 + holders fd (Fd_set o f w) = holds fd f + holders fd w)%nat.
Proof.
  intros Ho f. unfold holders at 2. rewrite (holders_delete fd o f0 w Ho).
  assert (H1 : fw_objects (Fd_set o f w) !! o = Some f) by apply lookup_insert_eq.
  unfold holders. rewrite (holders_delete fd o f (Fd_set o f w) H1). cbn.
  rewrite delete_insert_eq. lia.
Qed.

Lemma count_occ_close fd f w :
  count_occ Z.eq_dec (fw_closes (sys_close f w)) fd = (holds fd f + count_occ Z.eq_dec (fw_closes w) fd)%nat.
Proof. unfold holds. cbn. destruct (Z.eq_dec f fd), (Z.eqb_spec f fd); try done. Qed.

Abbreviation closes fd w := (count_occ Z.eq_dec (fw_closes w) fd).

(** [reset_fd]: the descriptor an object held is closed. *)
Lemma reset_accounts fd o new w : fd <> -1 -> is_Some (fw_objects w !! o) ->
  (closes fd (Fd_reset_fd o new w) + holders fd (Fd_reset_fd o new w)
   = closes fd w + holders fd w + holds fd new)%nat.
Proof.
  intros Hfd [f Ho]. unfold Fd_reset_fd, Fd_get_fd. rewrite Ho. cbn [default from_option id].
  destruct (Z.eqb_spec f (-1)) as [->|Hne].
  - pose proof (holders_set fd o (-1) w Ho new). unfold holds in *. cbn [fw_closes Fd_set].
    destruct (Z.eqb_spec (-1) fd); [done|]. lia.
  - pose proof (holders_set fd o f (sys_close f w) Ho new).
    change (holders fd (sys_close f w)) with (holders fd w) in *.
    change (fw_closes (Fd_set o new (sys_close f w))) with (fw_closes (sys_close f w)).
    rewrite count_occ_close. lia.
Qed.

(** Moving keeps what is held. *)
Lemma move_accounts fd o other w : fd <> -1 -> o <> other ->
  holds fd (Fd_get_fd o w) = 0%nat -> is_Some (fw_objects w !! other) ->
  holders fd (Fd_set other (-1) (Fd_set o (Fd_get_fd other w) w)) = holders fd w.
Proof.
  intros Hfd Hne Ho [f Hother]. unfold Fd_get_fd in *. rewrite Hother. cbn [default from_option id].
  assert (Hother' : fw_objects (Fd_set o f w) !! other = Some f) by (cbn; by rewrite lookup_insert_ne).
  pose proof (holders_set fd other f _ Hother' (-1)) as H1.
  assert (H2 : holders fd (Fd_set o f w) = (holds fd f + holders fd w)%nat).
  { destruct (fw_objects w !! o) as [f0|] eqn:E; [|by apply holders_none].
    pose proof (holders_set fd o f0 w E f). cbn in Ho. lia. }
  assert (holds fd (-1) = 0%nat) by (unfold holds; by destruct (Z.eqb_spec (-1) fd)). lia.
Qed.

(** What an operation puts into an object. *)
Definition put (fd : Z) (op : FdOp) : nat := given fd [op].

Lemma op_accounts fd op w : fd <> -1 -> op_legal op w ->
  (closes fd (fd_apply op w) + holders fd (fd_apply op w) = closes fd w + holders fd w + put fd op)%nat.
Proof.
  intros Hfd Hop. assert (Hm : holds fd (-1) = 0%nat) by (unfold holds; by destruct (Z.eqb_spec (-1) fd)).
  destruct op as [f|o f|o f|o other|o other|o]; unfold put; cbn [fd_apply given]; rewrite ?Nat.add_0_r.
  - done.
  - unfold Fd_make. rewrite holders_none by done. cbn [fw_closes Fd_set]. fold (holds fd f). lia.
  - by rewrite reset_accounts.
  - destruct Hop as [Ho Hother]. unfold Fd_move. cbn [fw_closes Fd_set]. rewrite move_accounts; try done.
    + intros ->. destruct Hother; congruence.
    + unfold Fd_get_fd. by rewrite Ho.
  - destruct Hop as [Ho [f Hother]]. unfold Fd_move_assign. destruct (Nat.eqb_spec o other) as [|Hne]; [done|].
    pose proof (reset_accounts fd o (-1) w Hfd Ho) as H1.
    rewrite (move_accounts fd o other); [cbn [fw_closes Fd_set]; lia | done | done | |].
    + unfold Fd_reset_fd, Fd_get_fd. cbn. by rewrite lookup_insert_eq.
    + unfold Fd_reset_fd. cbn. rewrite lookup_insert_ne by done. case_match; cbn; eauto.
  - pose proof (reset_accounts fd o (-1) w Hfd Hop) as H1. unfold Fd_destroy, holders. cbn [fw_closes fw_objects].
    assert (Ho : fw_objects (Fd_reset_fd o (-1) w) !! o = Some (-1)) by apply lookup_insert_eq.
    unfold holders in H1 at 1. rewrite (holders_delete fd o (-1) _ Ho) in H1. unfold holders in H1. lia.
Qed.

Lemma run_accounts fd ops w : fd_run ops w -> fd <> -1 -> (closes fd w + holders fd w = given fd ops)%nat.
Proof.
  induction 1 as [|ops w op _ IH Hop]; intros Hfd; [done|]. rewrite op_accounts by done.
  rewrite IH by done. unfold put. destruct op; cbn [given]; lia.
Qed.

(** *** Owners *)

(** What is held is open, and held once. *)
Record owned (w : FdWorld) : Prop := {
  own_open : forall o fd, fw_objects w !! o = Some fd -> fd <> -1 -> fd ∈ fw_open w;
  own_once : forall fd, fd <> -1 -> (holders fd w <= 1)%nat;
  own_closes : fw_bad_closes w = 0%nat;
}.

Lemma holders_held fd w : (0 < holders fd w)%nat <-> exists o, fw_objects w !! o = Some fd.
Proof.
  unfold holders. split.
  - intros H. destruct (map_choose (filter (fun p : nat * Z => p.2 = fd) (fw_objects w))) as (o & f & Hf).
    { intros E. rewrite E, map_size_empty in H. lia. }
    apply map_lookup_filter_Some in Hf as [Ho <-]. eauto.
  - intros [o Ho]. rewrite (holders_delete fd o fd w Ho). unfold holds. rewrite Z.eqb_refl. lia.
Qed.

(** The only object that holds a descriptor lets go of it. *)
Lemma owned_release o w : owned w -> is_Some (fw_objects w !! o) -> owned (Fd_reset_fd o (-1) w).
Proof.
  intros [H1 H2 H3] [f Ho].
  assert (Hacc : forall fd, fd <> -1 -> (closes fd (Fd_reset_fd o (-1) w) + holders fd (Fd_reset_fd o (-1) w)
    = closes fd w + holders fd w)%nat).
  { intros fd Hfd. rewrite reset_accounts by eauto. unfold holds. destruct (Z.eqb_spec (-1) fd); [done | lia]. }
  assert (Hle : forall fd, fd <> -1 -> (holders fd (Fd_reset_fd o (-1) w) <= holders fd w)%nat).
  { intros fd Hfd. specialize (Hacc fd Hfd). unfold Fd_reset_fd in *. destruct (_ =? _); [cbn [fw_closes Fd_set] in *; lia|].
    cbn [fw_closes Fd_set] in Hacc. rewrite count_occ_close in Hacc. lia. }
  split.
  - intros o' fd Hf Hne. unfold Fd_reset_fd in *. cbn in Hf |- *.
    apply lookup_insert_Some in Hf as [[<- <-]|[Hoo Hf]]; [done|].
    revert Hf. unfold Fd_get_fd. rewrite Ho. cbn. destruct (Z.eqb_spec f (-1)) as [|Hf1]; cbn; intros Hf; [by eapply H1|].
    apply elem_of_difference. split; [by eapply H1|]. intros ->%elem_of_singleton.
    pose proof (H2 f Hf1) as Hx. unfold holders in Hx. rewrite (holders_delete f o f w Ho) in Hx.
    assert (Hy : delete o (fw_objects w) !! o' = Some f) by (by rewrite lookup_delete_ne).
    pose proof (holders_delete f o' f {| fw_objects := delete o (fw_objects w); fw_open := ∅; fw_closes := [];
      fw_bad_closes := 0 |} Hy) as Hz. cbn [fw_objects] in Hz. unfold holds in *. rewrite Z.eqb_refl in *. lia.
  - intros fd Hfd. specialize (Hle fd Hfd). specialize (H2 fd Hfd). lia.
  - unfold Fd_reset_fd, Fd_get_fd. rewrite Ho. cbn. destruct (Z.eqb_spec f (-1)); cbn; [done|].
    by rewrite bool_decide_true by by eapply H1.
Qed.

(** Putting a descriptor that is open and not held into an object that holds none. *)
Lemma owned_set o fd w : owned w -> Fd_get_fd o w = -1 ->
  fd = -1 \/ 0 <= fd /\ fd ∈ fw_open w /\ holders fd w = 0%nat -> owned (Fd_set o fd w).
Proof.
  intros [H1 H2 H3] Hnone Hfd. split; [| |done].
  - intros o' f Hf Hne. cbn in Hf |- *. apply lookup_insert_Some in Hf as [[-> <-]|[_ Hf]]; [naive_solver | by eapply H1].
  - intros f Hf. specialize (H2 f Hf).
    assert (Hh : holders f (Fd_set o fd w) = (holds f fd + holders f w)%nat).
    { destruct (fw_objects w !! o) as [f0|] eqn:Ho; [|by apply holders_none].
      pose proof (holders_set f o f0 w Ho fd) as Hs. unfold Fd_get_fd in Hnone. rewrite Ho in Hnone.
      assert (holds f f0 = 0%nat) by (unfold holds; destruct (Z.eqb_spec f0 f); [cbn in Hnone; congruence|done]). lia. }
    rewrite Hh. unfold holds. destruct (Z.eqb_spec fd f) as [->|]; [|lia].
    destruct Hfd as [->|(_ & _ & ->)]; [done | lia].
Qed.

(** Moving what [other] holds into an object that holds none. *)
Lemma owned_move o other w : owned w -> o <> other -> Fd_get_fd o w = -1 -> is_Some (fw_objects w !! other) ->
  owned (Fd_set other (-1) (Fd_set o (Fd_get_fd other w) w)).
Proof.
  intros [H1 H2 H3] Hne Ho Hother. split; [| |done].
  - intros o' f Hf Hf1. cbn in Hf |- *.
    apply lookup_insert_Some in Hf as [[-> <-]|[_ [[-> <-]|[_ Hf]]%lookup_insert_Some]]; [done| |by eapply H1].
    unfold Fd_get_fd in *. destruct Hother as [f E]. rewrite E in *. by eapply H1.
  - intros fd Hfd. rewrite move_accounts; [by apply H2 | done | done | | done].
    rewrite Ho. unfold holds. by destruct (Z.eqb_spec (-1) fd).
Qed.

Lemma reset_none o w : Fd_get_fd o (Fd_reset_fd o (-1) w) = -1.
Proof. unfold Fd_reset_fd, Fd_get_fd. cbn. by rewrite lookup_insert_eq. Qed.

(** [reset_fd] closes what the object holds, then sets it. *)
Lemma reset_as_set o fd w : Fd_reset_fd o fd w = Fd_set o fd (Fd_reset_fd o (-1) w).
Proof. unfold Fd_reset_fd, Fd_set. cbn. by rewrite insert_insert_eq. Qed.

Lemma owned_op op w : owned w -> op_legal op w -> op_owned op w -> owned (fd_apply op w).
Proof.
  intros Hw Hop Hown. destruct op as [f|o f|o f|o other|o other|o]; cbn [fd_apply].
  - destruct Hw as [H1 H2 H3]. split; [|done|done]. intros o' fd Hf Hne. cbn. apply elem_of_union_r. by eapply H1.
  - apply owned_set; [done| |done]. unfold Fd_get_fd. cbn in Hop. by rewrite Hop.
  - rewrite reset_as_set. apply owned_set; [by apply owned_release | apply reset_none |].
    destruct Hown as [->|(Hpos & Hf & Hh)]; [by left|]. right. split; [done|].
    assert (Hne : f <> Fd_get_fd o w).
    { intros ->. destruct Hop as [f0 E]. pose proof (proj2 (holders_held f0 w) (ex_intro _ o E)).
      unfold Fd_get_fd in Hh. rewrite E in Hh. cbn in Hh. lia. }
    split.
    + unfold Fd_reset_fd. destruct (_ =? _); cbn; [done|]. set_solver.
    + destruct (decide (holders f (Fd_reset_fd o (-1) w) = 0%nat)) as [|Hx]; [done|].
      destruct (proj1 (holders_held f (Fd_reset_fd o (-1) w))) as [o' Ho']; [lia|].
      unfold Fd_reset_fd in Ho'. cbn in Ho'. apply lookup_insert_Some in Ho' as [[<- <-]|[_ Ho']].
      * lia.
      * assert (Hy : (0 < holders f w)%nat) by (apply holders_held; exists o'; revert Ho'; by destruct (_ =? _)). lia.
  - destruct Hop as [Ho Hother]. apply owned_move; [done | | unfold Fd_get_fd; by rewrite Ho | done].
    intros ->. destruct Hother; congruence.
  - destruct Hop as [Ho [f Hother]]. unfold Fd_move_assign. destruct (Nat.eqb_spec o other) as [|Hne]; [done|].
    apply owned_move; [by apply owned_release | done | apply reset_none |].
    unfold Fd_reset_fd. cbn. rewrite lookup_insert_ne by done. case_match; cbn; eauto.
  - pose proof (owned_release o w Hw Hop) as [H1 H2 H3]. split; [| |done].
    + intros o' fd Hf Hne. cbn in Hf. apply lookup_delete_Some in Hf as [_ Hf]. by eapply (H1 o').
    + intros fd Hfd. specialize (H2 fd Hfd). unfold holders, Fd_destroy in *. cbn [fw_objects].
      assert (Ho : fw_objects (Fd_reset_fd o (-1) w) !! o = Some (-1)) by apply lookup_insert_eq.
      rewrite (holders_delete fd o (-1) _ Ho) in H2. lia.
Qed.

Lemma owned_run ops w : fd_owned_run ops w -> fd_run ops w /\ owned w.
Proof.
  induction 1 as [|ops w op _ [IH1 IH2] Hop Hown].
  - split; [constructor|]. split; [done | | done]. intros fd _. vm_compute. lia.
  - split; [by constructor | by apply owned_op].
Qed.

(** Two objects made from one descriptor. *)
Lemma shared_descriptor ops w o1 o2 fd :
  fd_run ops w -> 0 <= fd -> fd ∈ fw_open w -> o1 <> o2 ->
  fw_objects w !! o1 = None -> fw_objects w !! o2 = None ->
  exists w', fd_run (OpDestroy o2 :: OpDestroy o1 :: OpMake o2 fd :: OpMake o1 fd :: ops) w' /\
    fw_bad_closes w' = S (fw_bad_closes w).
Proof.
  intros Hr Hpos Hopen Hne H1 H2. eexists. split.
  - repeat apply fd_run_op; [exact Hr | done | cbn; by rewrite lookup_insert_ne | |]; cbn.
    + rewrite lookup_insert_ne, lookup_insert_eq by done. eauto.
    + unfold Fd_reset_fd, Fd_get_fd. cbn. rewrite lookup_insert_ne, lookup_insert_eq by done. cbn.
      case_match; cbn; rewrite lookup_delete_ne, lookup_insert_ne, lookup_insert_eq by done; eauto.
  - cbn. unfold Fd_destroy, Fd_reset_fd, Fd_get_fd, Fd_make. cbn.
    assert (Hf : (fd =? -1) = false) by (apply Z.eqb_neq; lia).
    rewrite (lookup_insert_ne _ o2 o1), lookup_insert_eq by done. cbn. rewrite Hf. cbn.
    rewrite lookup_delete_ne, lookup_insert_ne, lookup_insert_eq by done. cbn. rewrite Hf. cbn.
    rewrite bool_decide_false by set_solver. by rewrite bool_decide_true.
Qed.

Lemma tcp_server_run (pton : string -> option Z) (strerr : Z -> string) (env : SocketAnswers)
    (ip : string) (port : Z) (s : RawSocket) :
  let fd := ans_socket env in
  let addr := if bool_decide (ip = "0.0.0.0"%string) then Some INADDR_ANY else pton ip in
  let '(r, s') := TCPSocket_server pton strerr env ip port s in
  if fd <? 0 then r = Ok tt /\ rs_fd s' = -1 /\ rs_calls s' = rs_calls s
  else
    (exists cs, rs_calls s' = rs_calls s ++ SysSocket fd :: cs /\ SysClose fd ∉ cs) /\
    (r = Ok tt <-> rs_fd s' = fd) /\
    (match r with
     | Ok _ => rs_calls s' = rs_calls s ++ [SysSocket fd; SysBind fd; SysListen fd; SysReuseAddr fd] /\
         rs_addr s' = {| sin_family := Some AF_INET; sin_port := Some (htons port); sin_addr := addr |} /\
         addr <> None /\ 0 <= ans_bind env /\ 0 <= ans_listen env /\ 0 <= ans_setsockopt env
     | Throw _ => rs_fd s' = -1 /\
         (addr = None \/ ans_bind env < 0 \/ ans_listen env < 0 \/ ans_setsockopt env < 0)
     | Undef => False
     end).
Proof.
  unfold TCPSocket_server, create_socket, set_server_addr, fail.
  destruct (Z.ltb_spec (ans_socket env) 0) as [Hfd|Hfd]; [done|].
  unfold mbind, M_bind, mret, M_ret, modify, lift. cbn -[bool_decide].
  rewrite (proj2 (Z.ltb_ge _ _) Hfd).
  destruct (bool_decide (ip = "0.0.0.0"%string)); [|destruct (pton ip)]; cbn;
    destruct (Z.ltb_spec (ans_bind env) 0), (Z.ltb_spec (ans_listen env) 0), (Z.ltb_spec (ans_setsockopt env) 0);
    cbn; rewrite <- ?app_assoc; cbn; (split; [eexists; split; [done|set_solver]|]); split; try (split; [done|lia]);
    try (split; [by intros|lia]); naive_solver.
Qed.

(** ** Properties *)

(** C33: [Fd] closes a descriptor as often as it was given it. However a program
    makes, moves, assigns, resets and destroys [Fd] objects, and whatever numbers it
    puts into them: for each descriptor, the calls of [::close] and the objects that
    still hold it are together as many as the times it was put into an object; so
    when no object is left, each was closed exactly as often. When only open
    descriptors that no other object holds are put into objects, no call of [::close]
    is made on a descriptor that is not open, and what an object holds is open and
    held by no other. The class does not impose that: two objects made from one open
    descriptor (as by the acceptor of datagrams) close it twice. *)
Theorem Fd_closes_once (ops : list FdOp) (w : FdWorld) :
  (fd_run ops w -> forall fd, fd <> -1 ->
     (count_occ Z.eq_dec (fw_closes w) fd + holders fd w = given fd ops)%nat /\
     (fw_objects w = ∅ -> count_occ Z.eq_dec (fw_closes w) fd = given fd ops)) /\
  (fd_owned_run ops w ->
     fw_bad_closes w = 0%nat /\
     (forall o fd, fw_objects w !! o = Some fd -> fd <> -1 -> fd ∈ fw_open w) /\
     (forall fd, fd <> -1 -> (holders fd w <= 1)%nat)) /\
  (forall o1 o2 fd, fd_run ops w -> 0 <= fd -> fd ∈ fw_open w -> o1 <> o2 ->
     fw_objects w !! o1 = None -> fw_objects w !! o2 = None ->
     exists w', fd_run (OpDestroy o2 :: OpDestroy o1 :: OpMake o2 fd :: OpMake o1 fd :: ops) w' /\
       fw_bad_closes w' = S (fw_bad_closes w)).
Proof.
  split_and!.
  - intros Hr fd Hfd. pose proof (run_accounts fd ops w Hr Hfd) as H. split; [done|]. intros E.
    unfold holders in H. rewrite E, map_filter_empty, map_size_empty in H. lia.
  - intros [_ [H1 H2 H3]]%owned_run. done.
  - intros o1 o2 fd Hr Hpos Hopen Hne H1 H2. by apply shared_descriptor.
Qed.

(** The listening socket: when every call succeeds the socket holds the new
    descriptor, bound and listening, with the address asked for; the address is made
    reusable only after [bind] has used it. When a call after [socket()] fails,
    [server] throws and forgets the descriptor, which no call closes. When there is
    no descriptor to be had, it returns as if nothing had happened, with -1. *)
Theorem tcp_server_outcome (pton : string -> option Z) (strerr : Z -> string) (env : SocketAnswers)
    (ip : string) (port : Z) (s : RawSocket) :
  let fd := ans_socket env in
  let addr := if bool_decide (ip = "0.0.0.0"%string) then Some INADDR_ANY else pton ip in
  let '(r, s') := TCPSocket_server pton strerr env ip port s in
  if fd <? 0 then r = Ok tt /\ rs_fd s' = -1 /\ rs_calls s' = rs_calls s
  else
    (exists cs, rs_calls s' = rs_calls s ++ SysSocket fd :: cs /\ SysClose fd ∉ cs) /\
    (r = Ok tt <-> rs_fd s' = fd) /\
    (match r with
     | Ok _ => rs_calls s' = rs_calls s ++ [SysSocket fd; SysBind fd; SysListen fd; SysReuseAddr fd] /\
         rs_addr s' = {| sin_family := Some AF_INET; sin_port := Some (htons port); sin_addr := addr |} /\
         addr <> None /\ 0 <= ans_bind env /\ 0 <= ans_listen env /\ 0 <= ans_setsockopt env
     | Throw _ => rs_fd s' = -1 /\
         (addr = None \/ ans_bind env < 0 \/ ans_listen env < 0 \/ ans_setsockopt env < 0)
     | Undef => False
     end).
Proof. apply tcp_server_run. Qed.

(** An object is made and moved, and both objects are destroyed. *)
Definition demo_ops : list FdOp := [OpDestroy 1; OpDestroy 0; OpMove 1 0; OpMake 0 5; OpOpen 5]%nat.

Lemma Fd_closes_once_witness :
  exists w, fd_run demo_ops w /\ count_occ Z.eq_dec (fw_closes w) 5 = given 5 demo_ops /\
    fw_bad_closes w = 0%nat.
Proof.
  assert (Hr : fd_owned_run demo_ops (foldr fd_apply FdWorld_make demo_ops)).
  { unfold demo_ops. cbn [foldr].
    repeat (apply fd_owned_op; [| |exact I || (right; vm_compute; split; [discriminate | split; reflexivity])]).
    - constructor.
    - split; [lia | set_solver].
    - reflexivity.
    - split; [reflexivity | eexists; reflexivity].
    - eexists; reflexivity.
    - eexists; reflexivity. }
  pose proof (proj1 (owned_run _ _ Hr)) as Hr'.
  exists (foldr fd_apply FdWorld_make demo_ops). split; [exact Hr'|].
  destruct (Fd_closes_once demo_ops (foldr fd_apply FdWorld_make demo_ops)) as (H1 & H2 & _). split.
  - apply (H1 Hr' 5); [discriminate | reflexivity].
  - exact (proj1 (H2 Hr)).
Defined.
