(* ===== verification/Transport.v ===== *)
(** The transports and the connections: [src/transport/transport.cpp],
    [src/transport/connection.cpp] and the buffers of
    [include/transport/interface.hpp]. The system calls are the environment: a
    socket holds what its next calls will give. *)
From S2P Require Import Prelude Message Wire Framing.

(** ** System calls *)

(** What one [::recv] (or [SSL_read]) gives: at least one byte, the end of the
    stream, or -1 with [errno]. *)
Inductive RecvEvent :=
| RecvBytes (b : bytes)
| RecvClosed
| RecvAgain
| RecvError (errno : Z).

(** What one [::send] (or [SSL_write]) gives: the number of bytes it took, or -1
    with [errno], which is [EAGAIN] or not. *)
Inductive SendEvent :=
| SendTook (n : nat)
| SendAgain
| SendError (errno : Z).

(** The calls to come, and the bytes that went out. A socket without further
    input has no data at the moment; a call without an event takes all bytes. *)
Record Socket := {
  sk_recv : list RecvEvent;
  sk_send : list SendEvent;
  sk_wire : bytes;
}.

(** The return value of [::send], what [errno] says, and the socket after it. *)
Definition sys_send (data : bytes) (s : Socket) : Z * bool * Socket :=
  let after rest n := {| sk_recv := sk_recv s; sk_send := rest; sk_wire := sk_wire s ++ take n data |} in
  match sk_send s with
  | [] => (zsize data, false, after [] (length data))
  | SendTook n :: rest => (Z.of_nat (Nat.min n (length data)), false, after rest n)
  | SendAgain :: rest => (-1, true, after rest 0%nat)
  | SendError _ :: rest => (-1, false, after rest 0%nat)
  end.

(** ** [NetBuffer] and [ReceiveResult] *)

Definition SBO_SIZE : Z := 128.

(** The [std::variant]: the array, of which [std::memcpy] fills a prefix, or a
    vector. *)
Inductive NetStorage :=
| NetArray (a : bytes)
| NetVector (v : bytes).

Record NetBuffer := {
  nb_storage : NetStorage;
  nb_length : Z;
}.

Definition NetBuffer_make : NetBuffer :=
  {| nb_storage := NetArray (replicate (Z.to_nat SBO_SIZE) Byte.x00); nb_length := 0 |}.

(** [std::get] of the array throws when the storage is a vector. *)
Definition NetBuffer_set_data (b : NetBuffer) (src : bytes) : outcome NetBuffer :=
  if zsize src <=? SBO_SIZE then
    match nb_storage b with
    | NetArray a => Ok {| nb_storage := NetArray (src ++ drop (length src) a); nb_length := zsize src |}
    | NetVector _ => Throw bad_variant_access
    end
  else Ok {| nb_storage := NetVector src; nb_length := zsize src |}.

(** The bytes from [data()] to [data() + length]. *)
Definition NetBuffer_contents (b : NetBuffer) : outcome bytes :=
  match nb_storage b with
  | NetArray a => range a 0 (nb_length b)
  | NetVector v => range v 0 (nb_length b)
  end.

Inductive ReceiveStatus :=
| ROk
| RWouldBlock
| RClosed
| RError.

#[global] Instance ReceiveStatus_eq_dec : EqDecision ReceiveStatus.
Proof. solve_decision. Defined.

Record ReceiveResult := {
  rr_status : ReceiveStatus;
  rr_data : NetBuffer;
  rr_error_code : Z;
}.

Definition receive_result (status : ReceiveStatus) (data : bytes) (error_code : Z) :
    outcome ReceiveResult :=
  nb ← NetBuffer_set_data NetBuffer_make data;
  Ok {| rr_status := status; rr_data := nb; rr_error_code := error_code |}.

(** ** [TCPTransport]; [TLSTransport] has the same code over [SSL_read] and
    [SSL_write] *)

(** The accumulation buffer. *)
Record StreamTransport := { accumulation_buffer : bytes }.

(** One iteration of the [while (true)] of [receive] per event; without an event
    the call reports that there is nothing to read. *)
Fixpoint receive_loop (acc : bytes) (events : list RecvEvent) :
    outcome (ReceiveResult * bytes * list RecvEvent) :=
  match events with
  | [] => r ← receive_result RWouldBlock acc 0; Ok (r, acc, [])
  | RecvBytes b :: rest =>
      '(message, acc') ← extract_complete_message (acc ++ b);
      match message with
      | Some m => r ← receive_result ROk m 0; Ok (r, acc', rest)
      | None => receive_loop acc' rest
      end
  | RecvClosed :: rest => r ← receive_result RClosed acc 0; Ok (r, acc, rest)
  | RecvAgain :: rest => r ← receive_result RWouldBlock acc 0; Ok (r, acc, rest)
  | RecvError errno :: rest => r ← receive_result RError acc errno; Ok (r, acc, rest)
  end.

Definition transport_receive (t : StreamTransport) (s : Socket) :
    outcome (ReceiveResult * StreamTransport * Socket) :=
  '(r, acc, rest) ← receive_loop [] (sk_recv s);
  Ok (r, {| accumulation_buffer := acc |},
      {| sk_recv := rest; sk_send := sk_send s; sk_wire := sk_wire s |}).

(** [::send(...) - sizeof(uint32_t)]: the difference is unsigned and then a
    [ssize_t] again, so it is the signed one, also for a result below 4. *)
Definition transport_send_data (data : bytes) (s : Socket) : Z * bool * Socket :=
  let send_buffer := htonl_bytes (u32 (zsize data)) ++ data in
  let '(n, again, s) := sys_send send_buffer s in
  (n - 4, again, s).

(** ** [ClientConnection] *)

(** The framer and the transport are set by the constructors the acceptors use;
    [PeerSession] has the same buffers. *)
Record Connection := {
  cn_transport : StreamTransport;
  recv_buffer : bytes;
  send_buffer : bytes;
}.

Definition Connection_make : Connection :=
  {| cn_transport := {| accumulation_buffer := [] |}; recv_buffer := []; send_buffer := [] |}.

Definition Connection_flush (c : Connection) (s : Socket) : outcome (bool * Connection * Socket) :=
  if is_empty (send_buffer c) then Ok (true, c, s)
  else
    let '(sent, again, s) := transport_send_data (send_buffer c) s in
    if 0 <? sent then
      rest ← range (send_buffer c) sent (zsize (send_buffer c));
      Ok (is_empty rest, {| cn_transport := cn_transport c; recv_buffer := recv_buffer c;
                            send_buffer := rest |}, s)
    else Ok ((sent =? -1) && again, c, s).

(** [result.data.data()] is never null. *)
Definition Connection_try_receive (c : Connection) (s : Socket) :
    outcome (bool * Connection * Socket) :=
  '(result, t, s) ← transport_receive (cn_transport c) s;
  data ← NetBuffer_contents (rr_data result);
  Ok (bool_decide (rr_status result = ROk \/ rr_status result = RWouldBlock),
      {| cn_transport := t; recv_buffer := recv_buffer c ++ data; send_buffer := send_buffer c |}, s).

Definition Connection_has_complete_message (c : Connection) : outcome bool :=
  has_message_in_buffer (recv_buffer c).

Definition Connection_extract_message (c : Connection) : outcome (bytes * Connection) :=
  '(m, rest) ← extract_message (recv_buffer c);
  Ok (m, {| cn_transport := cn_transport c; recv_buffer := rest; send_buffer := send_buffer c |}).

Definition Connection_queue_send (data : bytes) (c : Connection) : Connection :=
  {| cn_transport := cn_transport c; recv_buffer := recv_buffer c;
     send_buffer := form_message data (send_buffer c) |}.
