(* ===== verification/TransportSpec.v ===== *)
(** Properties of the transports and the connections. *)
From S2P Require Import Prelude Message Wire Framing Transport.

(** ** Receiving *)

Lemma receive_result_run status data code :
  exists r, receive_result status data code = Ok r /\ rr_status r = status /\
    rr_error_code r = code /\ NetBuffer_contents (rr_data r) = Ok data.
Proof.
  unfold receive_result, NetBuffer_set_data, NetBuffer_make. cbn [nb_storage].
  destruct (Z.leb_spec (zsize data) SBO_SIZE); cbn [mbind outcome_bind]; eexists; split_and!; try done;
    unfold NetBuffer_contents; cbn [rr_data nb_storage nb_length].
  - by eapply (range_at _ [] data).
  - apply (range_at _ [] data []); [by rewrite app_nil_r | done..].
Qed.

Lemma extract_complete_frame m q :
  zsize m < 2 ^ 32 -> extract_complete_message (frame m ++ q) = Ok (Some m, q).
Proof.
  intros Hm. pose proof (zsize_nonneg m). pose proof (zsize_nonneg q). unfold extract_complete_message.
  destruct (Z.ltb_spec (zsize (frame m ++ q)) 4); [sizes|].
  rewrite frame_eq, u32_zsize, <- app_assoc, ntohl_prefix_write by lia. cbn [mbind outcome_bind].
  destruct (Z.ltb_spec (zsize (write_u32 (zsize m) ++ m ++ q)) (4 + zsize m)); [sizes|].
  rewrite (range_app (write_u32 (zsize m)) m q 4) by sizes. cbn [mbind outcome_bind].
  rewrite (range_at _ (write_u32 (zsize m) ++ m) q []); [done| |sizes|sizes].
  by rewrite app_nil_r, <- app_assoc.
Qed.

Lemma extract_complete_partial m p :
  zsize m < 2 ^ 32 -> p `prefix_of` frame m -> zsize p < zsize (frame m) ->
  extract_complete_message p = Ok (None, p).
Proof.
  intros Hm [q Eq] Hlt. pose proof (zsize_nonneg m). unfold extract_complete_message.
  destruct (Z.ltb_spec (zsize p) 4) as [|H4]; [done|].
  destruct (ntohl_prefix_defined p H4) as [v Hv]. rewrite Hv. cbn [mbind outcome_bind].
  apply ntohl_prefix_inv in Hv as (x & -> & Hv).
  rewrite frame_eq, u32_zsize, <- app_assoc in Eq by lia.
  assert (v = zsize m) as ->.
  { pose proof (ntohl_prefix_write v (x ++ q) Hv) as E1.
    rewrite <- Eq, ntohl_prefix_write in E1 by lia. by injection E1. }
  destruct (Z.ltb_spec (zsize (write_u32 (zsize m) ++ x)) (4 + zsize m)); [done|]. sizes.
Qed.

Lemma prefix_cut (a b f c : bytes) :
  a ++ b = f ++ c -> (length a <= length f)%nat -> a `prefix_of` f.
Proof.
  intros [(k & -> & _)|(k & -> & _)]%app_eq_inv Hl; [|by exists k].
  rewrite length_app in Hl. destruct k; [by rewrite app_nil_r|]. cbn in Hl. lia.
Qed.

(** The pieces of a frame up to the one that completes it. *)
Lemma receive_loop_frame m p extra rest : forall ps acc,
  zsize m < 2 ^ 32 -> acc ++ concat ps ++ p = frame m ++ extra ->
  zsize (acc ++ concat ps) < zsize (frame m) ->
  receive_loop acc (map RecvBytes ps ++ RecvBytes p :: rest)
  = (r ← receive_result ROk m 0; Ok (r, extra, rest)).
Proof.
  induction ps as [|x ps IH]; intros acc Hm E Hlt; cbn [map app concat receive_loop] in *.
  - by rewrite E, extract_complete_frame.
  - assert (zsize (acc ++ x) < zsize (frame m)) by sizes.
    rewrite (extract_complete_partial m); [|done| |done].
    + cbn [mbind outcome_bind]. apply IH; [done| |by rewrite <- app_assoc].
      rewrite <- E. by rewrite <- !app_assoc.
    + apply (prefix_cut _ (concat ps ++ p) _ extra); [|unfold zsize in *; lia].
      rewrite <- E. by rewrite <- !app_assoc.
Qed.

(** Input that ends inside a frame. *)
Lemma receive_loop_partial m e rest : forall ps acc q,
  zsize m < 2 ^ 32 -> acc ++ concat ps ++ q = frame m -> q <> [] ->
  (forall b, e <> RecvBytes b) ->
  receive_loop acc (map RecvBytes ps ++ e :: rest) = receive_loop (acc ++ concat ps) (e :: rest).
Proof.
  induction ps as [|x ps IH]; intros acc q Hm E Hq He; cbn [map app concat].
  - by rewrite app_nil_r.
  - cbn [receive_loop]. rewrite (extract_complete_partial m); [|done| |].
    + cbn [mbind outcome_bind]. cbn [concat] in E. rewrite (IH _ q) by (by rewrite <- ?app_assoc in E |- * ).
      by rewrite app_assoc.
    + exists (concat ps ++ q). rewrite <- E. cbn [concat]. by rewrite <- !app_assoc.
    + rewrite <- E. cbn [concat]. destruct q; [done|]. rewrite !zsize_app, zsize_cons. sizes.
Qed.

Lemma try_receive_frame c s m ps p extra rest :
  zsize m < 2 ^ 32 -> concat ps ++ p = frame m ++ extra -> zsize (concat ps) < zsize (frame m) ->
  sk_recv s = map RecvBytes ps ++ RecvBytes p :: rest ->
  exists c' s', Connection_try_receive c s = Ok (true, c', s') /\
    recv_buffer c' = recv_buffer c ++ m /\ send_buffer c' = send_buffer c /\ sk_recv s' = rest /\
    sk_wire s' = sk_wire s.
Proof.
  intros Hm E Hlt Hs. unfold Connection_try_receive, transport_receive.
  rewrite Hs, (receive_loop_frame m p extra rest ps []) by done.
  destruct (receive_result_run ROk m 0) as (r & -> & Hst & _ & Hc). cbn [mbind outcome_bind].
  rewrite Hc, Hst. cbn [mbind outcome_bind]. by eexists _, _.
Qed.

Lemma try_receive_dry c s m p q rest :
  zsize m < 2 ^ 32 -> p ++ q = frame m -> q <> [] -> sk_recv s = RecvBytes p :: RecvAgain :: rest ->
  exists c' s', Connection_try_receive c s = Ok (true, c', s') /\
    recv_buffer c' = recv_buffer c ++ p /\ sk_recv s' = rest.
Proof.
  intros Hm E Hq Hs. unfold Connection_try_receive, transport_receive. rewrite Hs.
  change (RecvBytes p :: RecvAgain :: rest) with (map RecvBytes [p] ++ RecvAgain :: rest).
  rewrite (receive_loop_partial m RecvAgain rest [p] [] q); [|done|by rewrite <- E; cbn; rewrite app_nil_r|done..].
  cbn [concat app receive_loop]. rewrite app_nil_r.
  destruct (receive_result_run RWouldBlock p 0) as (r & -> & Hst & _ & Hc). cbn [mbind outcome_bind].
  rewrite Hc, Hst. cbn [mbind outcome_bind]. by eexists _, _.
Qed.

Lemma try_receive_nothing c s :
  sk_recv s = [] -> exists c', Connection_try_receive c s = Ok (true, c', s) /\
    recv_buffer c' = recv_buffer c /\ send_buffer c' = send_buffer c.
Proof.
  intros Hs. unfold Connection_try_receive, transport_receive. rewrite Hs. cbn [receive_loop].
  destruct (receive_result_run RWouldBlock [] 0) as (r & -> & Hst & _ & Hc). cbn [mbind outcome_bind].
  rewrite Hc, Hst. cbn [mbind outcome_bind].
  eexists. split; [by destruct s; cbn in *; subst|]. cbn. by rewrite app_nil_r.
Qed.

(** ** Sending *)

Lemma queue_send_frames ms : forall c,
  send_buffer (foldl (fun c m => Connection_queue_send m c) c ms) = send_buffer c ++ frames ms.
Proof.
  induction ms as [|m ms IH]; intros c; cbn [foldl]; [by rewrite app_nil_r|].
  rewrite IH, frames_cons. cbn [Connection_queue_send send_buffer]. unfold form_message, frame, form_message.
  by rewrite <- !app_assoc.
Qed.

(** A flush whose [::send] takes [n] bytes of the frame. *)
Lemma flush_took c s n rest :
  send_buffer c <> [] -> sk_send s = SendTook n :: rest ->
  (4 < n)%nat -> (n <= length (frame (send_buffer c)))%nat ->
  Connection_flush c s
  = Ok (is_empty (drop (n - 4) (send_buffer c)),
        {| cn_transport := cn_transport c; recv_buffer := recv_buffer c;
           send_buffer := drop (n - 4) (send_buffer c) |},
        {| sk_recv := sk_recv s; sk_send := rest; sk_wire := sk_wire s ++ take n (frame (send_buffer c)) |}).
Proof.
  intros Hne Hs Hn Hlen. unfold Connection_flush, transport_send_data, sys_send. rewrite Hs.
  change (htonl_bytes (u32 (zsize (send_buffer c))) ++ send_buffer c) with (frame (send_buffer c)).
  destruct (is_empty (send_buffer c)) eqn:Ee; [by destruct (send_buffer c)|].
  rewrite Nat.min_l by lia. destruct (Z.ltb_spec 0 (Z.of_nat n - 4)); [|lia].
  pose proof (zsize_frame (send_buffer c)) as Hz.
  rewrite (range_at _ (take (n - 4) (send_buffer c)) (drop (n - 4) (send_buffer c)) []).
  - done.
  - by rewrite app_nil_r, take_drop.
  - unfold zsize in *. rewrite length_take. lia.
  - rewrite <- zsize_app, take_drop. done.
Qed.

Lemma flush_all c s :
  send_buffer c <> [] -> sk_send s = [] ->
  Connection_flush c s
  = Ok (true, {| cn_transport := cn_transport c; recv_buffer := recv_buffer c; send_buffer := [] |},
        {| sk_recv := sk_recv s; sk_send := []; sk_wire := sk_wire s ++ frame (send_buffer c) |}).
Proof.
  intros Hne Hs. unfold Connection_flush, transport_send_data, sys_send. rewrite Hs.
  change (htonl_bytes (u32 (zsize (send_buffer c))) ++ send_buffer c) with (frame (send_buffer c)).
  destruct (is_empty (send_buffer c)) eqn:Ee; [by destruct (send_buffer c)|].
  rewrite zsize_frame. assert (0 < zsize (send_buffer c)).
  { destruct (send_buffer c); [done|]. sizes. }
  destruct (Z.ltb_spec 0 (4 + zsize (send_buffer c) - 4)); [|lia].
  rewrite (range_at _ (send_buffer c) [] []) by (rewrite ?app_nil_r; done || sizes).
  cbn [mbind outcome_bind]. by rewrite take_ge by lia.
Qed.

(** ** No undefined behaviour in a connection but that of the framing *)

Lemma extract_complete_ok b : exists r, extract_complete_message b = Ok r.
Proof.
  unfold extract_complete_message. destruct (Z.ltb_spec (zsize b) 4) as [|H4]; [eauto|].
  destruct (ntohl_prefix_defined b H4) as [v Hv]. rewrite Hv. cbn [mbind outcome_bind].
  apply ntohl_prefix_inv in Hv as (_ & _ & Hv).
  destruct (Z.ltb_spec (zsize b) (4 + v)); [eauto|].
  destruct (range_defined b 4 (4 + v)) as [m ->]; [lia..|].
  destruct (range_defined b (4 + v) (zsize b)) as [r ->]; [lia..|]. eauto.
Qed.

Lemma receive_loop_ok evs : forall acc, exists r t rest d,
  receive_loop acc evs = Ok (r, t, rest) /\ NetBuffer_contents (rr_data r) = Ok d.
Proof.
  induction evs as [|e evs IH]; intros acc; cbn [receive_loop].
  - destruct (receive_result_run RWouldBlock acc 0) as (r & -> & _ & _ & Hc). eauto 10.
  - destruct e as [b| | |errno].
    + destruct (extract_complete_ok (acc ++ b)) as [[[m|] acc'] ->]; cbn [mbind outcome_bind]; [|apply IH].
      destruct (receive_result_run ROk m 0) as (r & -> & _ & _ & Hc). eauto 10.
    + destruct (receive_result_run RClosed acc 0) as (r & -> & _ & _ & Hc). eauto 10.
    + destruct (receive_result_run RWouldBlock acc 0) as (r & -> & _ & _ & Hc). eauto 10.
    + destruct (receive_result_run RError acc errno) as (r & -> & _ & _ & Hc). eauto 10.
Qed.

Lemma try_receive_ok c s : exists ok c' s', Connection_try_receive c s = Ok (ok, c', s').
Proof.
  unfold Connection_try_receive, transport_receive.
  destruct (receive_loop_ok (sk_recv s) []) as (r & t & rest & d & -> & Hd). cbn [mbind outcome_bind].
  rewrite Hd. eauto.
Qed.

Lemma flush_ok c s : exists done c' s', Connection_flush c s = Ok (done, c', s').
Proof.
  unfold Connection_flush. destruct (is_empty (send_buffer c)); [eauto|].
  unfold transport_send_data, sys_send.
  change (htonl_bytes (u32 (zsize (send_buffer c))) ++ send_buffer c) with (frame (send_buffer c)).
  pose proof (zsize_frame (send_buffer c)) as Hz.
  destruct (sk_send s) as [|[n| |e] rest]; cbn beta iota zeta;
    match goal with |- context [0 <? ?z] => destruct (Z.ltb_spec 0 z) end; eauto; try lia.
  - destruct (range_defined (send_buffer c) (zsize (frame (send_buffer c)) - 4) (zsize (send_buffer c)))
      as [x ->]; [lia..|]. cbn. eauto.
  - unfold zsize in Hz.
    destruct (range_defined (send_buffer c) (Z.of_nat (n `min` length (frame (send_buffer c))) - 4)
                (zsize (send_buffer c))) as [x ->]; [unfold zsize; lia..|]. cbn. eauto.
Qed.

(** The header of a buffer announces so much that the 32-bit size test wraps. *)
Definition wraps (b : bytes) : Prop := exists len q, b = write_u32 len ++ q /\ 2 ^ 32 - 4 <= len < 2 ^ 32.

Lemma has_message_ok b : exists r, has_message_in_buffer b = Ok r.
Proof.
  unfold has_message_in_buffer. destruct (Z.ltb_spec (zsize b) 4) as [|H4]; [eauto|].
  destruct (ntohl_prefix_defined b H4) as [v ->]. cbn. eauto.
Qed.

Lemma extract_after_has b :
  has_message_in_buffer b = Ok true ->
  (exists m q, extract_message b = Ok (m, q)) \/ (extract_message b = Undef /\ wraps b).
Proof.
  unfold has_message_in_buffer, extract_message.
  destruct (Z.ltb_spec (zsize b) 4) as [|H4]; [done|].
  destruct (ntohl_prefix_defined b H4) as [v Hv]. rewrite Hv. cbn [mbind outcome_bind].
  apply ntohl_prefix_inv in Hv as (q & Hb & Hv). intros [= Hle%Z.leb_le].
  destruct (Z.lt_ge_cases (zsize b) (4 + v)) as [Hlt|Hge].
  - right. rewrite (range_out b 4 (4 + v)) by lia. split; [done|]. exists v, q. split; [done|].
    destruct (Z.lt_ge_cases v (2 ^ 32 - 4)); [|lia].
    unfold u32 in Hle. rewrite Z.mod_small in Hle by lia. lia.
  - left. destruct (range_defined b 4 (4 + v)) as [m ->]; [lia..|]. cbn [mbind outcome_bind].
    destruct (range_defined b (4 + v) (zsize b)) as [r ->]; [lia..|]. eauto.
Qed.

(** ** Properties *)

(** A connection delivers: messages queued on one side and flushed at once
    arrive on the other side, whatever pieces the network cuts them into as long
    as the receiver does not run dry in between: the two layers of framing are
    undone, and taking the complete messages out of the receive buffer gives
    exactly the messages queued, in order. *)
Theorem connection_delivers (a b : Connection) (sa sb : Socket) (ms pieces : list bytes) :
  send_buffer a = [] -> recv_buffer b = [] -> sk_send sa = [] -> ms <> [] ->
  forallb frame_ok ms = true -> zsize (frames ms) < 2 ^ 32 -> Forall (fun p => p <> []) pieces ->
  exists a' sa', Connection_flush (foldl (fun c m => Connection_queue_send m c) a ms) sa = Ok (true, a', sa') /\
    send_buffer a' = [] /\
    (sk_wire sa' = sk_wire sa ++ concat pieces -> sk_recv sb = map RecvBytes pieces ->
     exists b' sb', Connection_try_receive b sb = Ok (true, b', sb') /\ sk_recv sb' = [] /\
       drain (recv_buffer b') = Ok (ms, [])).
Proof.
  intros Ha Hb Hsa Hne Hok Hsize Hps.
  pose proof (queue_send_frames ms a) as Hq. rewrite Ha in Hq. cbn [app] in Hq.
  set (a1 := foldl _ a ms) in *.
  assert (send_buffer a1 <> []).
  { rewrite Hq. destruct ms; [done|]. rewrite frames_cons, frame_eq. done. }
  rewrite flush_all by done. eexists _, _. split; [done|]. split; [done|]. cbn [sk_wire]. rewrite Hq.
  intros Hw%app_inv_head Hsb.
  destruct pieces as [|p ps _] using rev_ind; [by rewrite frame_eq in Hw|].
  apply Forall_app in Hps as [_ Hp]. apply Forall_cons_iff in Hp as [Hp _].
  rewrite concat_app in Hw. cbn [concat] in Hw. rewrite app_nil_r in Hw.
  destruct (try_receive_frame b sb (frames ms) ps p [] []) as (b' & sb' & E & Hr & _ & Hs & _).
  - done.
  - by rewrite app_nil_r.
  - rewrite Hw. rewrite zsize_app. destruct p as [|z p0]; [exfalso; by apply Hp|]. rewrite zsize_cons. sizes.
  - by rewrite Hsb, map_app.
  - exists b', sb'. split_and!; try done. rewrite Hr, Hb. cbn [app].
    rewrite <- (app_nil_r (frames ms)). apply drain_concat; [|done].
    rewrite forallb_forall in Hok. by apply Stdlib.Lists.List.Forall_forall.
Qed.

(** Bytes behind a frame are lost: when the system call that completes a frame
    also returns bytes of the next one, [receive] hands over the frame and the
    next call starts with an empty accumulation buffer; the rest never reaches
    the connection. *)
Theorem coalesced_bytes_lost (c : Connection) (s : Socket) (m extra : bytes) :
  zsize m < 2 ^ 32 -> sk_recv s = [RecvBytes (frame m ++ extra)] ->
  exists c1 s1 c2, Connection_try_receive c s = Ok (true, c1, s1) /\ sk_recv s1 = [] /\
    accumulation_buffer (cn_transport c1) = extra /\ recv_buffer c1 = recv_buffer c ++ m /\
    Connection_try_receive c1 s1 = Ok (true, c2, s1) /\ recv_buffer c2 = recv_buffer c ++ m.
Proof.
  intros Hm Hs.
  assert (Hacc : exists c1 s1, Connection_try_receive c s = Ok (true, c1, s1) /\ sk_recv s1 = [] /\
            accumulation_buffer (cn_transport c1) = extra /\ recv_buffer c1 = recv_buffer c ++ m).
  { unfold Connection_try_receive, transport_receive. rewrite Hs.
    pose proof (receive_loop_frame m (frame m ++ extra) extra [] [] [] Hm eq_refl) as E.
    cbn [map app] in E. rewrite E by (cbn; sizes).
    destruct (receive_result_run ROk m 0) as (r & -> & Hst & _ & Hc). cbn [mbind outcome_bind].
    rewrite Hc, Hst. by eexists _, _. }
  destruct Hacc as (c1 & s1 & E1 & Hs1 & Ha & Hr).
  destruct (try_receive_nothing c1 s1 Hs1) as (c2 & E2 & Hr2 & _).
  exists c1, s1, c2. by rewrite Hr2.
Qed.

(** A frame that arrives in two bursts is not reassembled: when the input runs
    dry inside a frame, the bytes read so far, the length prefix of the transport
    included, are handed over as they are and count as a successful receive. *)
Theorem interrupted_frame_raw (c : Connection) (s : Socket) (m p q : bytes) (rest : list RecvEvent) :
  zsize m < 2 ^ 32 -> p ++ q = frame m -> q <> [] -> sk_recv s = RecvBytes p :: RecvAgain :: rest ->
  exists c' s', Connection_try_receive c s = Ok (true, c', s') /\
    recv_buffer c' = recv_buffer c ++ p /\ sk_recv s' = rest.
Proof. apply try_receive_dry. Qed.

(** A partial write damages the stream: when [::send] takes only [n] bytes of
    the frame of the send buffer [x], the rest of [x] is framed again by the next
    flush; the receiver takes the new length prefix for part of the message and
    loses the last bytes. *)
Theorem partial_write_corrupts (c : Connection) (s : Socket) (n : nat) :
  let x := send_buffer c in
  sk_send s = [SendTook n] -> (4 < n < 4 + length x)%nat -> zsize x < 2 ^ 32 ->
  exists c1 s1 c2 s2 rest, Connection_flush c s = Ok (false, c1, s1) /\
    Connection_flush c1 s1 = Ok (true, c2, s2) /\
    sk_wire s2 = sk_wire s ++ take n (frame x) ++ frame (drop (n - 4) x) /\
    extract_complete_message (take n (frame x) ++ frame (drop (n - 4) x))
    = Ok (Some (take (length x) (take (n - 4) x ++ frame (drop (n - 4) x))), rest).
Proof.
  intros x Hs Hn Hx.
  assert (Hlen : length (frame x) = (4 + length x)%nat).
  { pose proof (zsize_frame x). unfold zsize in *. lia. }
  assert (Hne : drop (n - 4) x <> []).
  { intros E%(f_equal length). rewrite length_drop in E. cbn in E. lia. }
  rewrite (flush_took c s n []); [|by destruct (send_buffer c); [cbn in Hn; lia|]|done|lia|by fold x; lia].
  fold x. assert (is_empty (drop (n - 4) x) = false) as -> by by destruct (drop (n - 4) x).
  eexists _, _, _, _, _. split; [done|].
  split; [apply flush_all; [exact Hne | done]|]. cbn [sk_wire send_buffer].
  split; [by rewrite <- app_assoc|].
  set (y := frame (drop (n - 4) x)). set (m := take (length x) (take (n - 4) x ++ y)).
  assert (Hm : length m = length x).
  { unfold m, y. rewrite length_take, length_app, length_take.
    pose proof (zsize_frame (drop (n - 4) x)). unfold zsize in *. rewrite length_drop in *. lia. }
  assert (E : take n (frame x) ++ y = frame m ++ drop (length x) (take (n - 4) x ++ y)).
  { rewrite !frame_eq. unfold zsize. rewrite Hm, <- app_assoc. unfold m. rewrite take_drop.
    rewrite take_app_ge by (cbn; lia). by rewrite <- app_assoc. }
  rewrite E. apply extract_complete_frame. unfold zsize in *. by rewrite Hm.
Qed.

(** ** The properties on concrete connections *)

Definition demo_socket (r : list RecvEvent) (w : list SendEvent) : Socket :=
  {| sk_recv := r; sk_send := w; sk_wire := [] |}.

Definition demo_pieces : list bytes :=
  let w := frame (frames [sbytes "hi"; sbytes "all"]) in [take 3 w; drop 3 w].

Lemma connection_delivers_witness :
  exists b' sb', Connection_try_receive Connection_make (demo_socket (map RecvBytes demo_pieces) [])
                 = Ok (true, b', sb') /\
    drain (recv_buffer b') = Ok ([sbytes "hi"; sbytes "all"], []).
Proof.
  destruct (connection_delivers Connection_make Connection_make (demo_socket [] [])
              (demo_socket (map RecvBytes demo_pieces) []) [sbytes "hi"; sbytes "all"] demo_pieces)
    as (a' & sa' & Hf & _ & H); [reflexivity | reflexivity | reflexivity | discriminate | reflexivity
    | vm_compute; reflexivity | repeat constructor; discriminate |].
  destruct H as (b' & sb' & E & _ & Hd).
  - vm_compute in Hf. injection Hf as _ <-. vm_compute. reflexivity.
  - reflexivity.
  - exists b', sb'. split; [exact E | exact Hd].
Defined.

Lemma coalesced_bytes_lost_witness :
  exists c1 s1 c2,
    Connection_try_receive Connection_make (demo_socket [RecvBytes (frame (sbytes "a") ++ frame (sbytes "b"))] [])
    = Ok (true, c1, s1) /\
    Connection_try_receive c1 s1 = Ok (true, c2, s1) /\ recv_buffer c2 = sbytes "a".
Proof.
  destruct (coalesced_bytes_lost Connection_make
              (demo_socket [RecvBytes (frame (sbytes "a") ++ frame (sbytes "b"))] []) (sbytes "a")
              (frame (sbytes "b"))) as (c1 & s1 & c2 & E1 & _ & _ & _ & E2 & Hr);
    [vm_compute; reflexivity | reflexivity |].
  exists c1, s1, c2. split; [exact E1|]. split; [exact E2 | exact Hr].
Defined.

Lemma interrupted_frame_raw_witness :
  exists c' s',
    Connection_try_receive Connection_make
      (demo_socket [RecvBytes (take 2 (frame (sbytes "a"))); RecvAgain] []) = Ok (true, c', s') /\
    recv_buffer c' = take 2 (frame (sbytes "a")).
Proof.
  destruct (interrupted_frame_raw Connection_make
              (demo_socket [RecvBytes (take 2 (frame (sbytes "a"))); RecvAgain] []) (sbytes "a")
              (take 2 (frame (sbytes "a"))) (drop 2 (frame (sbytes "a"))) []) as (c' & s' & E & Hr & _);
    [vm_compute; reflexivity | reflexivity | discriminate | reflexivity |].
  exists c', s'. split; [exact E | exact Hr].
Defined.

Lemma partial_write_corrupts_witness :
  let c := Connection_queue_send (sbytes "hi") Connection_make in
  exists c1 s1 c2 s2, Connection_flush c (demo_socket [] [SendTook 6]) = Ok (false, c1, s1) /\
    Connection_flush c1 s1 = Ok (true, c2, s2) /\
    sk_wire s2 = map z2b [0; 0; 0; 6; 0; 0; 0; 0; 0; 4; 0; 2; 104; 105].
Proof.
  intros c.
  destruct (partial_write_corrupts c (demo_socket [] [SendTook 6]) 6) as (c1 & s1 & c2 & s2 & rest & E1 & E2 & Hw & _);
    [reflexivity | cbn; lia | vm_compute; reflexivity |].
  exists c1, s1, c2, s2. split; [exact E1|]. split; [exact E2|]. rewrite Hw. vm_compute. reflexivity.
Defined.
