(* ===== verification/Stack.v ===== *)
(** The server on its sockets: [ConnectionManager]
    ([src/transport/connection.cpp]), [Server] ([src/transport/server.cpp]),
    [ServerHandler] and [AcceptHandler] ([src/transport/handling.cpp]), the
    bookkeeping of [EventLoop] ([src/transport/event_loop.cpp]), with
    [MessagingServer] on top. *)
From S2P Require Import Prelude Message Framing Models Services AppService Server Transport.

(** ** The environment *)

(** What one [SSL_accept] gives. *)
Inductive HandshakeEvent :=
| HsDone
| HsWant
| HsFailed.

#[global] Instance HandshakeEvent_eq_dec : EqDecision HandshakeEvent.
Proof. solve_decision. Defined.

(** The bits of an epoll event; [ev_err] is [EPOLLERR | EPOLLHUP | EPOLLRDHUP]. *)
Record EventMask := {
  ev_in : bool;
  ev_out : bool;
  ev_err : bool;
}.

(** ** [Server] *)

(** [sv_connections] is the map of the [ConnectionManager]; [sv_clients] has the
    keys of [ServerHandler::clients], whose weak pointers point to those
    connections; [sv_tls] holds [handshake_done_] of each wrapper; [sv_epoll]
    has the descriptors of the event loop, with whether [EPOLLOUT] is asked
    for. *)
Record TcpServer := {
  sv_connections : gmap Z Connection;
  sv_clients : gset Z;
  sv_tls : gmap Z bool;
  sv_epoll : gmap Z bool;
  sv_sockets : gmap Z Socket;
}.

Definition TcpServer_make : TcpServer :=
  {| sv_connections := ∅; sv_clients := ∅; sv_tls := ∅; sv_epoll := ∅; sv_sockets := ∅ |}.

Definition with_connections (f : gmap Z Connection -> gmap Z Connection) (t : TcpServer) : TcpServer :=
  {| sv_connections := f (sv_connections t); sv_clients := sv_clients t; sv_tls := sv_tls t;
     sv_epoll := sv_epoll t; sv_sockets := sv_sockets t |}.

Definition with_clients (f : gset Z -> gset Z) (t : TcpServer) : TcpServer :=
  {| sv_connections := sv_connections t; sv_clients := f (sv_clients t); sv_tls := sv_tls t;
     sv_epoll := sv_epoll t; sv_sockets := sv_sockets t |}.

Definition with_tls (f : gmap Z bool -> gmap Z bool) (t : TcpServer) : TcpServer :=
  {| sv_connections := sv_connections t; sv_clients := sv_clients t; sv_tls := f (sv_tls t);
     sv_epoll := sv_epoll t; sv_sockets := sv_sockets t |}.

Definition with_epoll (f : gmap Z bool -> gmap Z bool) (t : TcpServer) : TcpServer :=
  {| sv_connections := sv_connections t; sv_clients := sv_clients t; sv_tls := sv_tls t;
     sv_epoll := f (sv_epoll t); sv_sockets := sv_sockets t |}.

Definition with_sockets (f : gmap Z Socket -> gmap Z Socket) (t : TcpServer) : TcpServer :=
  {| sv_connections := sv_connections t; sv_clients := sv_clients t; sv_tls := sv_tls t;
     sv_epoll := sv_epoll t; sv_sockets := f (sv_sockets t) |}.

(** *** [EventLoop] *)

Definition EventLoop_add_fd (fd : Z) (out : bool) : TcpServer -> TcpServer := with_epoll <[fd := out]>.

Definition EventLoop_remove_fd (fd : Z) : TcpServer -> TcpServer := with_epoll (delete fd).

(** [EPOLL_CTL_MOD] fails, which is not looked at, for a descriptor that was not
    added. *)
Definition EventLoop_enable_write (fd : Z) : TcpServer -> TcpServer :=
  with_epoll (alter (fun _ => true) fd).

Definition EventLoop_disable_write (fd : Z) : TcpServer -> TcpServer :=
  with_epoll (alter (fun _ => false) fd).

(** *** [ConnectionManager] *)

Definition ConnectionManager_add_connection (fd : Z) (conn : Connection) : TcpServer -> TcpServer :=
  with_connections <[fd := conn]>.

Definition ConnectionManager_remove_connection (fd : Z) : TcpServer -> TcpServer :=
  with_connections (delete fd).

Definition ConnectionManager_get_connection (fd : Z) (t : TcpServer) : option Connection :=
  sv_connections t !! fd.

Definition ConnectionManager_send_to_buffer (fd : Z) (data : bytes) (t : TcpServer) : TcpServer :=
  match ConnectionManager_get_connection fd t with
  | None => t
  | Some c => with_connections <[fd := Connection_queue_send data c]> t
  end.

(** *** What the application calls *)

Definition Server_send (fd : Z) (raw_data : bytes) (t : TcpServer) : TcpServer :=
  EventLoop_enable_write fd (ConnectionManager_send_to_buffer fd raw_data t).

#[global] Instance tcp_server : IServer TcpServer := Server_send.

(** ** With the application on top *)

Section Stack.
  Context {ord : IterOrder}.
  Variable now : Z.

Definition tcp (s : MessagingServer TcpServer) : TcpServer := sc_transport (server_context s).

Definition on_tcp (f : TcpServer -> TcpServer) (s : MessagingServer TcpServer) : MessagingServer TcpServer :=
  {| server_context := set_transport (f (tcp s)) (server_context s);
     server_dispatcher := server_dispatcher s |}.

Definition socket_of (fd : Z) (t : TcpServer) : Socket :=
  default {| sk_recv := []; sk_send := []; sk_wire := [] |} (sv_sockets t !! fd).

(** [tls_wrapper_[fd]->tls_handshake()]: for a descriptor without a wrapper the
    pointer is null. *)
Definition Server_tls_handshake (fd : Z) (hs : HandshakeEvent) : M (MessagingServer TcpServer) unit :=
  s ← get;
  match sv_tls (tcp s) !! fd with
  | None => lift Undef
  | Some _ =>
      match hs with
      | HsDone => modify (on_tcp (with_tls <[fd := true]>))
      | HsWant => mret tt
      | HsFailed => lift (Throw (runtime_error "TLS SSL accept error"))
      end
  end.

(** The constructor of the wrapper starts the handshake; when it throws, the
    assignment to [tls_wrapper_] is not done. *)
Definition Server_on_client_connected (fd : Z) (conn : Connection) (hs : HandshakeEvent) :
    M (MessagingServer TcpServer) unit :=
  _ ← modify (on_tcp (ConnectionManager_add_connection fd conn));
  _ ← modify (on_tcp (with_clients (fun cs => {[fd]} ∪ cs)));
  _ ← modify (on_tcp (EventLoop_add_fd fd true));
  done ← lift (match hs with
               | HsDone => Ok true
               | HsWant => Ok false
               | HsFailed => Throw (runtime_error "TLS SSL accept error")
               end);
  _ ← modify (on_tcp (with_tls <[fd := done]>));
  modify (on_tcp (with_connections (alter (fun c => {| cn_transport := {| accumulation_buffer := [] |};
                                                      recv_buffer := recv_buffer c;
                                                      send_buffer := send_buffer c |}) fd))).

(** [on_disconnected_callback] is the one [MessagingServer::start_server] sets. *)
Definition Server_on_client_disconnected (fd : Z) : M (MessagingServer TcpServer) unit :=
  _ ← modify (on_tcp (EventLoop_remove_fd fd));
  _ ← on_disconnected now fd;
  _ ← modify (on_tcp (ConnectionManager_remove_connection fd));
  modify (on_tcp (with_tls (delete fd))).

Definition Server_on_client_message (fd : Z) (data : bytes) : M (MessagingServer TcpServer) unit :=
  if is_empty data then mret tt
  else if bool_decide (bstr data = "/exit"%string) then mret tt
  else on_tcp_data_received now fd data.

Definition Server_on_client_writable (fd : Z) : M (MessagingServer TcpServer) unit :=
  s ← get;
  match ConnectionManager_get_connection fd (tcp s) with
  | None => mret tt
  | Some c =>
      '(done, c, sock) ← lift (Connection_flush c (socket_of fd (tcp s)));
      _ ← modify (on_tcp (with_connections <[fd := c]>));
      _ ← modify (on_tcp (with_sockets <[fd := sock]>));
      if done : bool then modify (on_tcp (EventLoop_disable_write fd)) else mret tt
  end.

Definition ServerHandler_remove_client (fd : Z) : TcpServer -> TcpServer :=
  with_clients (fun cs => cs ∖ {[fd]}).

(** The branch for [EPOLLIN]; whether the handler goes on to [EPOLLOUT]. *)
Definition ServerHandler_on_readable (fd : Z) : M (MessagingServer TcpServer) bool :=
  s ← get;
  if negb (bool_decide (fd ∈ sv_clients (tcp s))) then mret false
  else
    match sv_connections (tcp s) !! fd with
    | None => lift Undef
    | Some c =>
        '(ok, c, sock) ← lift (Connection_try_receive c (socket_of fd (tcp s)));
        _ ← modify (on_tcp (with_connections <[fd := c]>));
        _ ← modify (on_tcp (with_sockets <[fd := sock]>));
        if ok : bool then
          has ← lift (Connection_has_complete_message c);
          if negb has then mret false
          else
            '(msg, c) ← lift (Connection_extract_message c);
            _ ← modify (on_tcp (with_connections <[fd := c]>));
            _ ← Server_on_client_message fd msg;
            mret true
        else
          _ ← modify (on_tcp (ServerHandler_remove_client fd));
          _ ← Server_on_client_disconnected fd;
          mret true
    end.

Definition ServerHandler_on_writable (fd : Z) : M (MessagingServer TcpServer) unit :=
  s ← get;
  if negb (bool_decide (fd ∈ sv_clients (tcp s))) then mret tt
  else Server_on_client_writable fd.

Definition ServerHandler_handle_event (fd : Z) (mask : EventMask) (hs : HandshakeEvent) :
    M (MessagingServer TcpServer) unit :=
  if ev_err mask then
    _ ← modify (on_tcp (ServerHandler_remove_client fd));
    Server_on_client_disconnected fd
  else
    s ← get;
    match sv_tls (tcp s) !! fd with
    | None => lift Undef
    | Some false => if ev_in mask || ev_out mask then Server_tls_handshake fd hs else mret tt
    | Some true =>
        go_on ← (if ev_in mask then ServerHandler_on_readable fd else mret true);
        if (go_on : bool) && ev_out mask then ServerHandler_on_writable fd else mret tt
    end.

(** What happens to the running server: a connection is accepted, or the event
    loop reports a descriptor as ready, with what the system calls made while
    handling it give. *)
Inductive StackEvent :=
| Accepted (fd : Z) (hs : HandshakeEvent)
| Ready (fd : Z) (mask : EventMask) (recvs : list RecvEvent) (sends : list SendEvent) (hs : HandshakeEvent).

(** [EventLoop::run_once] for one event: descriptors without a handler are
    skipped. *)
Definition stack_step (e : StackEvent) : M (MessagingServer TcpServer) unit :=
  match e with
  | Accepted fd hs => Server_on_client_connected fd Connection_make hs
  | Ready fd mask recvs sends hs =>
      s ← get;
      match sv_epoll (tcp s) !! fd with
      | None => mret tt
      | Some _ =>
          _ ← modify (on_tcp (with_sockets <[fd := {| sk_recv := recvs; sk_send := sends;
                                                     sk_wire := sk_wire (socket_of fd (tcp s)) |}]>));
          ServerHandler_handle_event fd mask hs
      end
  end.

End Stack.

(** The states of a running server. Nothing catches an exception that leaves a
    handler: the thread of the event loop, and with it the program, ends. *)
Inductive stack_reachable {ord : IterOrder} (s0 : MessagingServer TcpServer) :
    MessagingServer TcpServer -> Prop :=
| stack_reach_init : stack_reachable s0 s0
| stack_reach_step s now e s' :
    stack_reachable s0 s -> stack_step now e s = (Ok tt, s') -> stack_reachable s0 s'.

Definition Stack_make (cfg : AppConfig) (fd0 : Z) : MessagingServer TcpServer :=
  MessagingServer_make cfg TcpServer_make fd0.
