(* ===== verification/StackSpec.v ===== *)
(** Properties of the server on its sockets: the invariants of the application
    and of the transport together, over everything epoll can report. *)
From S2P Require Import Prelude Message Wire Framing Parser Models Services AppService Commands Server ServerInvariant ServerRefinement ServerSpec Transport TransportSpec Stack.

(** ** What the application does to the transport *)

(** Sending leaves everything but send buffers and the interest in writing. *)
Record tcp_frame (t t' : TcpServer) : Prop := {
  frame_clients : sv_clients t' = sv_clients t;
  frame_tls : sv_tls t' = sv_tls t;
  frame_sockets : sv_sockets t' = sv_sockets t;
  frame_connections : dom (sv_connections t') = dom (sv_connections t);
  frame_epoll : dom (sv_epoll t') = dom (sv_epoll t);
}.

#[global] Instance tcp_frame_preorder : PreOrder tcp_frame.
Proof.
  split; [by constructor|]. intros t1 t2 t3 [] []. constructor; congruence.
Qed.

Lemma dom_insert_in {V} (k : Z) (v w : V) (m : gmap Z V) : m !! k = Some w -> dom (<[k := v]> m) = dom m.
Proof. intros H. apply elem_of_dom_2 in H. rewrite dom_insert_L. set_solver. Qed.

Lemma Server_send_frame fd data t : tcp_frame t (Server_send fd data t).
Proof.
  unfold Server_send, ConnectionManager_send_to_buffer, ConnectionManager_get_connection.
  constructor; destruct (sv_connections t !! fd) eqn:E; cbn; try done; try apply dom_alter.
  by apply (dom_insert_in _ _ _ _ E).
Qed.

Lemma replay_frame t log : tcp_frame t (replay t log).
Proof.
  induction log as [|[fd data] log IH] using rev_ind; [by cbn|].
  unfold replay. rewrite foldl_app. cbn. etrans; [apply IH | apply Server_send_frame].
Qed.

Section Stack.
  Context {ord : IterOrder}.

(** The same server with a record of what it sends. *)
Definition recorded {T} (s : MessagingServer T) : MessagingServer sent_log :=
  let c := server_context s in
  {| server_context := {| sc_config := sc_config c; sc_transport := []; sc_users := sc_users c;
       sc_chats := sc_chats c; sc_sessions := sc_sessions c; sc_app_service := sc_app_service c;
       sc_fd := sc_fd c |};
     server_dispatcher := server_dispatcher s |}.

Lemma lower_recorded {T} {srv : IServer T} (s : MessagingServer T) :
  lower_server (sc_transport (server_context s)) (recorded s) = s.
Proof. by destruct s as [[]]. Qed.

Lemma step_frame now e s : wp (server_step now e) (fun _ s' => tcp_frame (tcp s) (tcp s')) s.
Proof.
  unfold wp. rewrite <- (lower_recorded s) at 2. rewrite natural_step.
  destruct (server_step now e (recorded s)) as [r s']. cbn. apply replay_frame.
Qed.

(** ** Sessions belong to connections *)

Definition has_session {T} (s : MessagingServer T) (f : Z) : Prop :=
  is_Some (fd_to_name_ (sc_sessions (server_context s)) !! f).

(** Between [c] and [c'] no connection but the current one got a session. *)
Definition sessions_grow {T} (c c' : ServerContext T) : Prop :=
  forall f, is_Some (fd_to_name_ (sc_sessions c') !! f) -> f = sc_fd c \/ is_Some (fd_to_name_ (sc_sessions c) !! f).

Lemma sessions_grow_same {T} (c c' : ServerContext T) : sc_sessions c' = sc_sessions c -> sessions_grow c c'.
Proof. intros E f. rewrite E. by right. Qed.

Lemma send_to_members_sessions {T} {srv : IServer T} data ms : forall c : ServerContext T,
  sc_sessions (send_to_members data ms c).2 = sc_sessions c.
Proof.
  induction ms as [|u ms IH]; intros c; cbn [send_to_members]; [done|].
  unfold mbind, M_bind, get. destruct (SessionManager_get_fd _ u); cbn; by rewrite IH.
Qed.

Ltac sessions :=
  wp_go; unfold transport_send; wp_go; try done; try (by apply sessions_grow_same).

Lemma execute_sessions {T} {srv : IServer T} now h (c : ServerContext T) :
  wp (execeuteOnServer now h) (fun _ c' => sessions_grow c c') c.
Proof.
  destruct h; exec_unfold;
    unfold AppService_login, AppService_create_room, AppService_join_room,
      AppService_send_group_message, AppService_send_pubkey, AppService_exit_current_session,
      SendFile_execeuteOnServer, send_text; sessions.
  1-3: intros f; cbn; destruct (decide (f = sc_fd c)) as [->|]; [by left|];
    rewrite lookup_insert_ne by done; by right.
  - apply sessions_grow_same. by rewrite send_to_members_sessions.
  - intros f. cbn. unfold SessionManager_unbind. destruct (_ !! sc_fd c); cbn; [|by right].
    intros [x Hx]. apply lookup_delete_Some in Hx as [_ Hx]. right. eauto.
Qed.

Lemma handle_sessions {T} {srv : IServer T} now h msg (c : ServerContext T) :
  let '(_, c', _) := server_handleMessage now h msg c in sessions_grow c c'.
Proof.
  destruct h; cbn [server_handleMessage]; [by apply sessions_grow_same|..].
  1: { unfold ServerCommandBus_dispatch.
    destruct (registry_find _ _) as [h|]; [|by apply sessions_grow_same].
    destruct (fromMessage h msg) as [[] h']; try by apply sessions_grow_same.
    pose proof (execute_sessions now h' c) as Hx. unfold wp in Hx.
    by destruct (execeuteOnServer now h' c). }
  1: { assert (Hx : wp (ServerCipherHandler_handleMessage now msg) (fun _ c' => sessions_grow c c') c)
      by (unfold ServerCipherHandler_handleMessage, AppService_deliver_cipher_message; sessions).
    unfold wp in Hx. by destruct (ServerCipherHandler_handleMessage now msg c). }
  all: assert (Hx : wp (forward_to_recipient msg) (fun _ c' => sessions_grow c c') c)
      by (unfold forward_to_recipient; sessions);
    unfold wp in Hx; by destruct (forward_to_recipient msg c).
Qed.

Lemma dispatch_sessions {T} {srv : IServer T} now msg (s : MessagingServer T) :
  wp (server_dispatch now msg) (fun _ s' => sessions_grow (server_context s) (server_context s')) s.
Proof.
  unfold wp, server_dispatch.
  destruct (_ !! _) as [h|]; [|by apply sessions_grow_same].
  destruct (negb _); [by apply sessions_grow_same|].
  pose proof (handle_sessions now h msg (server_context s)) as Hx.
  by destruct (server_handleMessage now h msg (server_context s)) as [[[] c'] h'].
Qed.

(** What the application guarantees of an event, whatever the transport. *)
Lemma app_data now fd raw s :
  server_ok s ->
  wp (on_tcp_data_received now fd raw) (fun r s' => server_ok s' /\ r <> Undef /\
    tcp_frame (tcp s) (tcp s') /\ forall f, has_session s' f -> f = fd \/ has_session s f) s.
Proof.
  intros Hs. pose proof (server_step_safe now (DataReceived fd raw) s Hs) as H1.
  pose proof (step_frame now (DataReceived fd raw) s) as H2. unfold wp in *. cbn [server_step] in *.
  destruct H1 as [H1 Hr]. split_and!; [done | destruct Hr as [->|(? & ? & ? & ? & ? & -> & ?)]; done | done |].
  intros f. unfold on_tcp_data_received, mbind, M_bind, lift, modify.
  destruct (Serializer_deserialize raw) as [m| |]; [|by right..].
  pose proof (dispatch_sessions now m (server_enter fd s)) as Hx. unfold wp in Hx.
  destruct (server_dispatch now m (server_enter fd s)) as [[] s']; apply Hx.
Qed.

Lemma app_disconnect now fd s :
  server_ok s ->
  wp (on_disconnected now fd) (fun r s' => server_ok s' /\ r = Ok tt /\
    tcp_frame (tcp s) (tcp s') /\ forall f, has_session s' f -> f <> fd /\ has_session s f) s.
Proof.
  intros Hs. pose proof (server_step_safe now (ClientDisconnected fd) s Hs) as H1.
  pose proof (step_frame now (ClientDisconnected fd) s) as H2. unfold wp in *. cbn [server_step] in *.
  destruct (server_disconnect now fd s Hs) as (s' & E & Hc). cbn [server_step] in E. rewrite E in *.
  cbn [fst snd] in *. destruct H1 as [H1 _]. split_and!; try done.
  intros f. unfold has_session. rewrite Hc. destruct Hs as [Hc0 _].
  unfold AppService_exit_current_session, mbind, M_bind, get, modify.
  cbn [set_fd sc_app_service]. rewrite (ok_app _ Hc0). cbn [fd_ref_ negb set_fd sc_sessions sc_fd].
  unfold SessionManager_get_username. destruct (_ !! fd) eqn:Ef; cbn.
  - unfold SessionManager_unbind. rewrite Ef. cbn. intros [x Hx].
    apply lookup_delete_Some in Hx as [? Hx]. split; [done | eauto].
  - intros [x Hx]. split; [congruence | eauto].
Qed.

(** ** The invariant *)

(** The four tables of the transport have the same descriptors. *)
Record tcp_ok (t : TcpServer) : Prop := {
  tcp_connections : dom (sv_connections t) = sv_clients t;
  tcp_tls : dom (sv_tls t) = sv_clients t;
  tcp_epoll : dom (sv_epoll t) = sv_clients t;
}.

Definition stack_ok (s : MessagingServer TcpServer) : Prop :=
  server_ok s /\ tcp_ok (tcp s) /\ forall f, has_session s f -> f ∈ sv_clients (tcp s).

Lemma tcp_ok_frame t t' : tcp_frame t t' -> tcp_ok t -> tcp_ok t'.
Proof. intros [] []. constructor; congruence. Qed.

Lemma server_ok_on_tcp f s : server_ok s -> server_ok (on_tcp f s).
Proof. intros [Hc Hd]. split; [by apply context_ok_transport | done]. Qed.

(** A change of connections, sockets or interest that keeps the descriptors. *)
Lemma stack_ok_frame f s : tcp_frame (tcp s) (f (tcp s)) -> stack_ok s -> stack_ok (on_tcp f s).
Proof.
  intros Hf (Hs & Ht & Hss). split_and!; [by apply server_ok_on_tcp | by eapply tcp_ok_frame |].
  intros g Hg. cbn. rewrite (frame_clients _ _ Hf). by apply Hss.
Qed.

Lemma stack_ok_sockets g s : stack_ok s -> stack_ok (on_tcp (with_sockets g) s).
Proof. intros (Hs & [] & Hss). split_and!; [by apply server_ok_on_tcp | by constructor | done]. Qed.

Lemma stack_ok_connection fd c s :
  fd ∈ sv_clients (tcp s) -> stack_ok s -> stack_ok (on_tcp (with_connections <[fd := c]>) s).
Proof.
  intros Hfd. intros H. apply stack_ok_frame; [|done]. destruct H as (_ & [] & _).
  assert (is_Some (sv_connections (tcp s) !! fd)) as [w Hw] by (apply elem_of_dom; set_solver).
  constructor; try done. by eapply dom_insert_in.
Qed.

Lemma disconnected_ok now fd s :
  server_ok s -> dom (sv_connections (tcp s)) ∖ {[fd]} = sv_clients (tcp s) ∖ {[fd]} ->
  dom (sv_tls (tcp s)) ∖ {[fd]} = sv_clients (tcp s) ∖ {[fd]} ->
  dom (sv_epoll (tcp s)) ∖ {[fd]} = sv_clients (tcp s) ∖ {[fd]} -> fd ∉ sv_clients (tcp s) ->
  (forall f, has_session s f -> f = fd \/ f ∈ sv_clients (tcp s)) ->
  wp (Server_on_client_disconnected now fd) (fun r s' => r = Ok tt /\ stack_ok s') s.
Proof.
  intros Hs H1 H2 H3 Hfd Hss. unfold Server_on_client_disconnected. wp_go.
  eapply wp_mono; [apply app_disconnect, server_ok_on_tcp, Hs|].
  intros r s' (Hs' & -> & Hf & Hg). wp_go. split; [done|]. split_and!.
  - by apply server_ok_on_tcp, server_ok_on_tcp.
  - destruct Hf as [Hc Ht Hsk Hcn He]. cbn in *. constructor; cbn; rewrite ?dom_delete_L, ?Hcn, ?Ht, ?He, ?Hc.
    + set_solver.
    + set_solver.
    + cbn. rewrite ?dom_delete_L. set_solver.
  - intros f Hx. destruct Hf as [Hc _ _ _ _]. cbn. rewrite Hc. cbn.
    destruct (Hg f Hx) as [Hne Hx']. destruct (Hss f Hx'); [done|done].
Qed.

Definition overflowing (fd : Z) (s : MessagingServer TcpServer) : Prop :=
  exists c, sv_connections (tcp s) !! fd = Some c /\ wraps (recv_buffer c).

(** What a handler may end in. *)
Definition handled {A} (fd : Z) (r : outcome A) (s' : MessagingServer TcpServer) : Prop :=
  match r with
  | Ok _ => stack_ok s'
  | Throw _ => True
  | Undef => overflowing fd s'
  end.

Lemma stack_disconnect now fd s :
  stack_ok s ->
  wp (Server_on_client_disconnected now fd) (fun r s' => r = Ok tt /\ stack_ok s')
    (on_tcp (ServerHandler_remove_client fd) s).
Proof.
  intros (Hs & [H1 H2 H3] & Hss). apply disconnected_ok; cbn.
  - by apply server_ok_on_tcp.
  - rewrite H1. clear. set_solver.
  - rewrite H2. clear. set_solver.
  - rewrite H3. clear. set_solver.
  - clear. set_solver.
  - intros f Hf%Hss. cbn. destruct (decide (f = fd)); [by left | right]. clear Hss Hs. set_solver.
Qed.

Lemma message_ok now fd data s :
  stack_ok s -> fd ∈ sv_clients (tcp s) ->
  wp (Server_on_client_message now fd data) (handled fd) s.
Proof.
  intros (Hs & Ht & Hss) Hfd. unfold Server_on_client_message. wp_go; [by split_and!..|].
  eapply wp_mono; [by apply app_data|]. intros r s' (Hs' & Hr & Hf & Hg).
  destruct r; try done. cbn. split_and!; [done | by eapply tcp_ok_frame |].
  intros f Hx. rewrite (frame_clients _ _ Hf). destruct (Hg f Hx) as [->|Hx']; [done | by apply Hss].
Qed.

Lemma readable_ok now fd s :
  stack_ok s -> wp (ServerHandler_on_readable now fd) (handled fd) s.
Proof.
  intros Hok. pose proof Hok as (_ & [Hcn _ _] & _). unfold ServerHandler_on_readable.
  apply wp_bind, wp_get. case_bool_decide as Hfd; cbn [negb]; [|by apply wp_ret].
  assert (is_Some (sv_connections (tcp s) !! fd)) as [c Hc] by (apply elem_of_dom; by rewrite Hcn).
  rewrite Hc. destruct (try_receive_ok c (socket_of fd (tcp s))) as (ok & c1 & sock & ->).
  apply wp_bind, wp_lift. apply wp_bind, wp_modify. apply wp_bind, wp_modify.
  pose proof (stack_ok_sockets <[fd := sock]> _ (stack_ok_connection fd c1 s Hfd Hok)) as Hok1.
  set (s1 := on_tcp _ (on_tcp _ s)) in *.
  assert (Hfd1 : fd ∈ sv_clients (tcp s1)) by done.
  destruct ok.
  - unfold Connection_has_complete_message. destruct (has_message_ok (recv_buffer c1)) as [has Hhas].
    rewrite Hhas. apply wp_bind, wp_lift. destruct has; cbn [negb]; [|by apply wp_ret].
    unfold Connection_extract_message.
    destruct (extract_after_has _ Hhas) as [(m & q & ->)|[-> Hw]]; cbn [mbind outcome_bind];
      apply wp_bind, wp_lift.
    + apply wp_bind, wp_modify, wp_bind.
      eapply wp_mono; [apply message_ok; [by apply stack_ok_connection | done]|].
      by intros [] s2.
    + exists c1. split; [|done]. cbn. by rewrite lookup_insert_eq.
  - apply wp_bind, wp_modify, wp_bind. eapply wp_mono; [by apply stack_disconnect|].
    intros r s2 [-> H2]. by apply wp_ret.
Qed.

Lemma writable_ok fd s : stack_ok s -> wp (ServerHandler_on_writable fd) (handled fd) s.
Proof.
  intros Hok. unfold ServerHandler_on_writable, Server_on_client_writable, ConnectionManager_get_connection.
  apply wp_bind, wp_get. case_bool_decide as Hfd; cbn [negb]; [|by apply wp_ret].
  apply wp_bind, wp_get. destruct (sv_connections (tcp s) !! fd) as [c|] eqn:Hc; [|by apply wp_ret].
  destruct (flush_ok c (socket_of fd (tcp s))) as (d & c1 & sock & ->).
  apply wp_bind, wp_lift. apply wp_bind, wp_modify. apply wp_bind, wp_modify.
  pose proof (stack_ok_sockets <[fd := sock]> _ (stack_ok_connection fd c1 s Hfd Hok)) as Hok1.
  destruct d; [|by apply wp_ret]. apply wp_modify. apply stack_ok_frame; [|done].
  constructor; try done. cbn. apply dom_alter.
Qed.

Lemma handle_event_ok now fd mask hs s :
  stack_ok s -> fd ∈ sv_clients (tcp s) -> wp (ServerHandler_handle_event now fd mask hs) (handled fd) s.
Proof.
  intros Hok Hfd. pose proof Hok as (Hs & [Hcn Htls Hep] & Hss). unfold ServerHandler_handle_event.
  destruct (ev_err mask).
  - apply wp_bind, wp_modify. eapply wp_mono; [by apply stack_disconnect|]. by intros r s' [-> ?].
  - apply wp_bind, wp_get.
    assert (is_Some (sv_tls (tcp s) !! fd)) as [d Hd] by (apply elem_of_dom; by rewrite Htls).
    rewrite Hd. destruct d.
    + apply wp_bind. destruct (ev_in mask); [eapply wp_mono; [by apply readable_ok|]|apply wp_ret].
      * intros [b| |] s' H'; try done. destruct (b && ev_out mask); [by apply writable_ok | by apply wp_ret].
      * destruct (true && ev_out mask); [by apply writable_ok | by apply wp_ret].
    + destruct (ev_in mask || ev_out mask); [|by apply wp_ret]. unfold Server_tls_handshake.
      apply wp_bind, wp_get. rewrite Hd. destruct hs; wp_go; try done.
      split_and!; [by apply server_ok_on_tcp | | done].
      constructor; cbn; try done. by rewrite (dom_insert_in _ _ _ _ Hd).
Qed.

Lemma connected_ok fd c hs s : stack_ok s -> wp (Server_on_client_connected fd c hs) (handled fd) s.
Proof.
  intros (Hs & [Hcn Htls Hep] & Hss). unfold Server_on_client_connected.
  repeat (apply wp_bind, wp_modify). apply wp_bind, wp_lift.
  destruct hs; try done; apply wp_bind, wp_modify, wp_modify;
    (split_and!; [by repeat apply server_ok_on_tcp
                 | constructor; cbn; rewrite ?dom_alter, ?dom_insert_L; set_solver
                 | intros f Hf%Hss; cbn; set_solver]).
Qed.

Definition stack_event_fd (e : StackEvent) : Z := match e with Accepted fd _ | Ready fd _ _ _ _ => fd end.

Lemma stack_step_ok now e s : stack_ok s -> wp (stack_step now e) (handled (stack_event_fd e)) s.
Proof.
  intros Hok. destruct e as [fd hs|fd mask recvs sends hs]; cbn [stack_step stack_event_fd].
  - by apply connected_ok.
  - apply wp_bind, wp_get. destruct (sv_epoll (tcp s) !! fd) eqn:E; [|by apply wp_ret].
    apply wp_bind, wp_modify. apply handle_event_ok; [by apply stack_ok_sockets|].
    destruct Hok as (_ & [_ _ Hep] & _). apply elem_of_dom_2 in E. by rewrite Hep in E.
Qed.

Lemma Stack_make_ok cfg fd0 : stack_ok (Stack_make cfg fd0).
Proof.
  split_and!; [apply MessagingServer_make_ok | by constructor |].
  intros f [x Hx]. cbn in Hx. by rewrite lookup_empty in Hx.
Qed.

Lemma stack_reachable_ok cfg fd0 s : stack_reachable (Stack_make cfg fd0) s -> stack_ok s.
Proof.
  induction 1 as [|s now e s' _ IH E]; [apply Stack_make_ok|].
  apply (wp_run _ _ _ _ _ E (stack_step_ok now e s IH)).
Qed.

(** ** One message from the wire *)

Definition readable : EventMask := {| ev_in := true; ev_out := false; ev_err := false |}.

Lemma tcp_on_tcp f s : tcp (on_tcp f s) = f (tcp s).
Proof. done. Qed.

Lemma on_tcp_on_tcp f g s : on_tcp g (on_tcp f s) = on_tcp (fun _ => g (f (tcp s))) s.
Proof. done. Qed.

(** Receiving one message that completes the receive buffer. *)
Lemma readable_run now fd s c c1 sock1 raw :
  fd ∈ sv_clients (tcp s) -> sv_connections (tcp s) !! fd = Some c ->
  Connection_try_receive c (socket_of fd (tcp s)) = Ok (true, c1, sock1) ->
  recv_buffer c1 = frame raw -> frame_ok raw = true ->
  let c2 := {| cn_transport := cn_transport c1; recv_buffer := []; send_buffer := send_buffer c1 |} in
  ServerHandler_on_readable now fd s
  = (_ ← Server_on_client_message now fd raw; mret true)
      (on_tcp (fun t => with_connections <[fd := c2]> (with_sockets <[fd := sock1]>
                 (with_connections <[fd := c1]> t))) s).
Proof.
  intros Hfd Hc E1 Hr1 Hok c2. unfold ServerHandler_on_readable.
  rewrite run_get, bool_decide_true, Hc, E1 by done. cbn [negb].
  rewrite run_lift, !run_modify, !on_tcp_on_tcp.
  unfold Connection_has_complete_message, Connection_extract_message.
  rewrite Hr1, <- (app_nil_r (frame raw)), has_frame, run_lift by done. cbn [negb].
  rewrite extract_frame by (unfold frame_ok in Hok; bools; lia).
  cbn [mbind outcome_bind]. by rewrite run_lift, run_modify.
Qed.

(** The pieces of the bytes written for one message. *)
Lemma try_receive_message c sock raw pieces :
  sk_recv sock = map RecvBytes pieces -> recv_buffer c = [] -> zsize (frame raw) < 2 ^ 32 ->
  concat pieces = frame (frame raw) -> Forall (fun p => p <> []) pieces ->
  exists c1 sock1, Connection_try_receive c sock = Ok (true, c1, sock1) /\
    recv_buffer c1 = frame raw /\ send_buffer c1 = send_buffer c /\ sk_wire sock1 = sk_wire sock.
Proof.
  intros Hs Hb Hok Hp Hps. destruct pieces as [|p ps _] using rev_ind; [by rewrite frame_eq in Hp|].
  apply Forall_app in Hps as [_ Hpe]. apply Forall_cons_iff in Hpe as [Hpe _].
  rewrite concat_app in Hp. cbn [concat] in Hp. rewrite app_nil_r in Hp.
  destruct (try_receive_frame c sock (frame raw) ps p [] []) as (c1 & k1 & E & Hr1 & Hs1 & _ & Hw1).
  - done.
  - by rewrite Hp, app_nil_r.
  - rewrite <- Hp, zsize_app. destruct p; [exfalso; by apply Hpe|]. rewrite zsize_cons. sizes.
  - by rewrite Hs, map_app.
  - exists c1, k1. by rewrite Hr1, Hb.
Qed.

Lemma stack_delivers_run (now fd : Z) (s : MessagingServer TcpServer) (c : Connection)
    (raw : bytes) (pieces : list bytes) (sends : list SendEvent) (hs : HandshakeEvent) :
  stack_ok s -> sv_tls (tcp s) !! fd = Some true ->
  sv_connections (tcp s) !! fd = Some c -> recv_buffer c = [] ->
  frame_ok (frame raw) = true -> raw <> [] -> bstr raw <> "/exit"%string ->
  concat pieces = frame (frame raw) -> Forall (fun p => p <> []) pieces ->
  exists t c', stack_step now (Ready fd readable (map RecvBytes pieces) sends hs) s
    = server_step now (DataReceived fd raw) (on_tcp (fun _ => t) s) /\
    sv_connections t = <[fd := c']> (sv_connections (tcp s)) /\
    recv_buffer c' = [] /\ send_buffer c' = send_buffer c /\
    sv_clients t = sv_clients (tcp s) /\ sv_tls t = sv_tls (tcp s) /\ sv_epoll t = sv_epoll (tcp s) /\
    forall g, sk_wire (socket_of g t) = sk_wire (socket_of g (tcp s)).
Proof.
  intros (_ & [Hcn Ht Hep] & _) Htls Hc Hb Hok Hne Hexit Hp Hps.
  assert (Hfd : fd ∈ sv_clients (tcp s)) by (rewrite <- Hcn; by eapply elem_of_dom_2).
  assert (is_Some (sv_epoll (tcp s) !! fd)) as [w Hw] by (apply elem_of_dom; by rewrite Hep).
  assert (Hsz : zsize (frame raw) < 2 ^ 32 /\ frame_ok raw = true).
  { unfold frame_ok in *. bools. rewrite zsize_frame in *. split; [|apply Z.ltb_lt]; lia. }
  destruct Hsz as [Hsz Hok'].
  set (sock := {| sk_recv := map RecvBytes pieces; sk_send := sends; sk_wire := sk_wire (socket_of fd (tcp s)) |}).
  destruct (try_receive_message c sock raw pieces eq_refl Hb Hsz Hp Hps) as (c1 & sock1 & E1 & Hr1 & Hs1 & Hw1).
  set (c2 := {| cn_transport := cn_transport c1; recv_buffer := []; send_buffer := send_buffer c1 |}).
  exists (with_connections <[fd := c2]> (with_sockets <[fd := sock1]> (with_connections <[fd := c1]>
            (with_sockets <[fd := sock]> (tcp s))))), c2.
  split; [|cbn; rewrite insert_insert_eq; split_and!; try done; intros g; unfold socket_of; cbn;
    rewrite insert_insert_eq; destruct (decide (g = fd)) as [->|]; [by rewrite lookup_insert_eq | by rewrite lookup_insert_ne]].
  cbn [stack_step server_step]. rewrite run_get, Hw, run_modify. fold sock.
  unfold ServerHandler_handle_event. cbn [readable ev_err ev_in ev_out]. rewrite run_get, tcp_on_tcp.
  cbn [with_sockets sv_tls]. rewrite Htls. unfold mbind at 1, M_bind.
  rewrite (readable_run now fd _ c c1 sock1 raw); [| done | done | |done..].
  2: { rewrite tcp_on_tcp. unfold socket_of at 1. cbn [with_sockets sv_sockets].
       by rewrite lookup_insert_eq. }
  rewrite on_tcp_on_tcp. unfold mbind at 1, M_bind, Server_on_client_message.
  destruct (is_empty raw) eqn:Ee; [by destruct raw|]. rewrite bool_decide_false by done.
  by destruct (on_tcp_data_received now fd raw _) as [[[]| |] s2].
Qed.

(** Queueing messages for a connection. *)
Lemma Server_send_run fd m t c : sv_connections t !! fd = Some c ->
  Server_send fd m t = EventLoop_enable_write fd (with_connections <[fd := Connection_queue_send m c]> t).
Proof.
  intros Hc. unfold Server_send, ConnectionManager_send_to_buffer, ConnectionManager_get_connection. by rewrite Hc.
Qed.

Lemma send_all fd ms : forall t c, sv_connections t !! fd = Some c ->
  let t' := foldl (fun t m => Server_send fd m t) t ms in
  exists c', sv_connections t' = <[fd := c']> (sv_connections t) /\
    send_buffer c' = send_buffer c ++ frames ms /\ recv_buffer c' = recv_buffer c /\
    sv_clients t' = sv_clients t /\ sv_tls t' = sv_tls t /\ sv_sockets t' = sv_sockets t /\
    dom (sv_epoll t') = dom (sv_epoll t).
Proof.
  induction ms as [|m ms IH]; intros t c Hc t'; subst t'; cbn [foldl].
  - exists c. rewrite insert_id, app_nil_r by done. by split_and!.
  - rewrite (Server_send_run _ _ _ _ Hc).
    destruct (IH (EventLoop_enable_write fd (with_connections <[fd := Connection_queue_send m c]> t))
                (Connection_queue_send m c)) as (c' & H1 & H2 & H3 & H4 & H5 & H6 & H7).
    { apply lookup_insert_eq. }
    exists c'. rewrite H1, H2, H3, H4, H5, H6, H7; cbn [sv_connections EventLoop_enable_write with_connections].
    rewrite frames_cons. split_and!; try done.
    + apply insert_insert_eq.
    + cbn [send_buffer Connection_queue_send]. unfold form_message. by rewrite frame_eq, <- !app_assoc.
    + apply dom_alter_L.
Qed.

Definition writable : EventMask := {| ev_in := false; ev_out := true; ev_err := false |}.

Definition flushed (c : Connection) : Connection :=
  {| cn_transport := cn_transport c; recv_buffer := recv_buffer c; send_buffer := [] |}.

Lemma flush_taken c sock : sk_send sock = [] ->
  exists sock', Connection_flush c sock = Ok (true, flushed c, sock') /\
    sk_wire sock' = sk_wire sock ++ (if is_empty (send_buffer c) then [] else frame (send_buffer c)).
Proof.
  intros Hs. destruct (is_empty (send_buffer c)) eqn:E.
  - exists sock. unfold Connection_flush. rewrite E, app_nil_r. split; [|done].
    destruct c as [? ? []]; [done|done].
  - assert (send_buffer c <> []) by (by destruct (send_buffer c)). rewrite flush_all by done. eauto.
Qed.

(** A writable connection whose socket takes everything is flushed, and nothing else
    changes. *)
Lemma writable_run now fd s c hs :
  stack_ok s -> sv_tls (tcp s) !! fd = Some true -> sv_connections (tcp s) !! fd = Some c ->
  exists t, stack_step now (Ready fd writable [] [] hs) s = (Ok tt, on_tcp (fun _ => t) s) /\
    sk_wire (socket_of fd t)
      = sk_wire (socket_of fd (tcp s)) ++ (if is_empty (send_buffer c) then [] else frame (send_buffer c)) /\
    sv_connections t = <[fd := flushed c]> (sv_connections (tcp s)) /\
    sv_clients t = sv_clients (tcp s) /\ sv_tls t = sv_tls (tcp s) /\ dom (sv_epoll t) = dom (sv_epoll (tcp s)) /\
    forall g, g <> fd -> socket_of g t = socket_of g (tcp s).
Proof.
  intros (_ & [Hcn Ht Hep] & _) Htls Hc.
  assert (Hfd : fd ∈ sv_clients (tcp s)) by (rewrite <- Hcn; by eapply elem_of_dom_2).
  assert (is_Some (sv_epoll (tcp s) !! fd)) as [w Hw] by (apply elem_of_dom; by rewrite Hep).
  cbn [stack_step]. rewrite run_get, Hw, run_modify. unfold ServerHandler_handle_event. cbn [writable ev_err ev_in ev_out].
  rewrite run_get, tcp_on_tcp. cbn [with_sockets sv_tls]. rewrite Htls. unfold mbind at 1, M_bind. cbn [mret M_ret andb].
  unfold ServerHandler_on_writable. rewrite run_get, tcp_on_tcp. cbn [with_sockets sv_clients].
  rewrite bool_decide_true by done. cbn [negb]. unfold Server_on_client_writable, ConnectionManager_get_connection.
  rewrite run_get, tcp_on_tcp. cbn [with_sockets sv_connections]. rewrite Hc.
  unfold socket_of at 1. cbn [sv_sockets with_sockets]. rewrite lookup_insert_eq. cbn [default from_option id].
  destruct (flush_taken c {| sk_recv := []; sk_send := []; sk_wire := sk_wire (socket_of fd (tcp s)) |} eq_refl)
    as (sock' & -> & Hwire).
  rewrite run_lift, !run_modify. eexists. split; [reflexivity|]. unfold socket_of at 1. cbn.
  rewrite lookup_insert_eq. split_and!; try done.
  - apply dom_alter_L.
  - intros g Hg. unfold socket_of. cbn. by rewrite !lookup_insert_ne.
Qed.

(** ** Properties *)

(** The running server: whatever epoll reports and whatever the system calls
    give, in every state the server reaches the invariants of the application
    hold, the connection table, the handler, the TLS table and the event loop
    know the same descriptors, and only connected descriptors have sessions. *)
Theorem stack_invariant (cfg : AppConfig) (fd0 : Z) (s : MessagingServer TcpServer) :
  stack_reachable (Stack_make cfg fd0) s ->
  server_ok s /\ tcp_ok (tcp s) /\ forall f, has_session s f -> f ∈ sv_clients (tcp s).
Proof. apply stack_reachable_ok. Qed.

(** C15: where the running server can go wrong: from a reachable state an event has
    undefined behaviour only when the receive buffer of its connection starts
    with a length prefix of at least 2^32 - 4; null wrappers, expired
    connections and ranges outside buffers are otherwise never used. *)
Theorem stack_undefined_only_by_overflow (cfg : AppConfig) (fd0 now : Z) (s s' : MessagingServer TcpServer)
    (e : StackEvent) :
  stack_reachable (Stack_make cfg fd0) s -> stack_step now e s = (Undef, s') ->
  exists c len q, sv_connections (tcp s') !! stack_event_fd e = Some c /\
    recv_buffer c = write_u32 len ++ q /\ 2 ^ 32 - 4 <= len < 2 ^ 32.
Proof.
  intros Hr E. apply stack_reachable_ok in Hr.
  destruct (wp_run _ _ _ _ _ E (stack_step_ok now e s Hr)) as (c & Hc & len & q & Hb & Hl).
  by exists c, len, q.
Qed.

(** From the wire to the application: when the bytes a client writes for a
    message arrive within one event on a connection that has finished its
    handshake and has nothing buffered, handling the event is exactly the
    application's step for that message; before it, the transport has taken the
    message out of its buffers and changed nothing else. *)
Theorem stack_delivers (cfg : AppConfig) (fd0 now fd : Z) (s : MessagingServer TcpServer) (c : Connection)
    (raw : bytes) (pieces : list bytes) (sends : list SendEvent) (hs : HandshakeEvent) :
  stack_reachable (Stack_make cfg fd0) s -> sv_tls (tcp s) !! fd = Some true ->
  sv_connections (tcp s) !! fd = Some c -> recv_buffer c = [] ->
  frame_ok (frame raw) = true -> raw <> [] -> bstr raw <> "/exit"%string ->
  concat pieces = frame (frame raw) -> Forall (fun p => p <> []) pieces ->
  exists t c', stack_step now (Ready fd readable (map RecvBytes pieces) sends hs) s
    = server_step now (DataReceived fd raw) (on_tcp (fun _ => t) s) /\
    sv_connections t = <[fd := c']> (sv_connections (tcp s)) /\
    recv_buffer c' = [] /\ send_buffer c' = send_buffer c /\
    sv_clients t = sv_clients (tcp s) /\ sv_tls t = sv_tls (tcp s) /\ sv_epoll t = sv_epoll (tcp s) /\
    forall g, sk_wire (socket_of g t) = sk_wire (socket_of g (tcp s)).
Proof. intros Hr. by apply stack_delivers_run, (stack_reachable_ok cfg fd0). Qed.

End Stack.

(** ** The properties on a concrete server *)

(** One connection was accepted and has finished its handshake. *)
Definition demo_stack : MessagingServer TcpServer :=
  (stack_step 0 (Accepted 5 HsDone) (Stack_make demo_config 0)).2.

Lemma demo_stack_reachable : stack_reachable (Stack_make demo_config 0) demo_stack.
Proof.
  eapply (stack_reach_step _ _ 0 (Accepted 5 HsDone)); [constructor|].
  unfold demo_stack. rewrite (surjective_pairing (stack_step _ _ _)) at 1. f_equal.
Qed.

Lemma stack_invariant_witness : server_ok demo_stack /\ 5 ∈ sv_clients (tcp demo_stack).
Proof.
  pose proof (stack_invariant demo_config 0 demo_stack demo_stack_reachable) as (Hs & _ & _).
  split; [exact Hs | by apply (bool_decide_unpack _); vm_compute].
Defined.

Definition demo_overflow : StackEvent :=
  Ready 5 readable [RecvBytes (frame (map z2b [255; 255; 255; 255]))] [] HsWant.

Lemma stack_undefined_only_by_overflow_witness :
  (stack_step 0 demo_overflow demo_stack).1 = Undef /\
  exists c len q, sv_connections (tcp (stack_step 0 demo_overflow demo_stack).2) !! 5 = Some c /\
    recv_buffer c = write_u32 len ++ q /\ 2 ^ 32 - 4 <= len < 2 ^ 32.
Proof.
  assert (E : (stack_step 0 demo_overflow demo_stack).1 = Undef) by (vm_compute; reflexivity).
  split; [exact E|].
  apply (stack_undefined_only_by_overflow demo_config 0 0 demo_stack _ demo_overflow demo_stack_reachable).
  rewrite <- E. apply surjective_pairing.
Defined.

Definition demo_raw : bytes :=
  match demo_login 5 "ann" with DataReceived _ raw => raw | _ => [] end.

Lemma stack_delivers_witness :
  exists t, stack_step 0 (Ready 5 readable
              (map RecvBytes [take 7 (frame (frame demo_raw)); drop 7 (frame (frame demo_raw))]) [] HsWant) demo_stack
    = server_step 0 (demo_login 5 "ann") (on_tcp (fun _ => t) demo_stack).
Proof.
  destruct (stack_delivers demo_config 0 0 5 demo_stack Connection_make demo_raw
    [take 7 (frame (frame demo_raw)); drop 7 (frame (frame demo_raw))] [] HsWant demo_stack_reachable)
    as (t & c' & E & _); [vm_compute; reflexivity | vm_compute; reflexivity | reflexivity
    | vm_compute; reflexivity | vm_compute; discriminate | vm_compute; discriminate
    | cbn [concat]; rewrite app_nil_r; apply take_drop | repeat constructor; vm_compute; discriminate |].
  exists t. exact E.
Defined.
