(* ===== verification/Tls.v ===== *)
(** TLS: [TLSTransport] of [src/transport/transport.cpp], and the lifetimes of
    the [SSL] objects that [ServerTLSWrapper] and [ClientTLSWrapper]
    ([src/transport/tls.cpp]) own and the transports point to, together with the
    descriptors they write to. *)
From S2P Require Import Prelude Message Wire Framing Transport Stack.

(** ** [TLSTransport] *)

(** What one [SSL_read] or [SSL_write] returns: a positive number of bytes, zero,
    or a negative number, after which the code looks at [errno]. *)
Inductive SslRead :=
| ReadBytes (b : bytes)
| ReadZero
| ReadFailed (errno : Z).

Inductive SslWrite :=
| WroteAll
| WriteFailed (errno : Z).

(** [EAGAIN] and [EWOULDBLOCK], which are the same number on Linux. *)
Definition EAGAIN : Z := 11.

(** The [while (true)] of [TLSTransport::receive], an iteration per [SSL_read].
    Without a further result there is nothing to read. *)
Fixpoint TLSTransport_receive_loop (acc : bytes) (events : list SslRead) :
    outcome (ReceiveResult * bytes * list SslRead) :=
  match events with
  | [] => r ← receive_result RWouldBlock acc 0; Ok (r, acc, [])
  | ReadBytes b :: rest =>
      '(message, acc') ← extract_complete_message (acc ++ b);
      match message with
      | Some m => r ← receive_result ROk m 0; Ok (r, acc', rest)
      | None => TLSTransport_receive_loop acc' rest
      end
  | ReadZero :: rest => r ← receive_result RClosed acc 0; Ok (r, acc, rest)
  | ReadFailed errno :: rest =>
      if errno =? EAGAIN then r ← receive_result RWouldBlock acc 0; Ok (r, acc, rest)
      else r ← receive_result RError acc errno; Ok (r, acc, rest)
  end.

Definition TLSTransport_receive (t : StreamTransport) (events : list SslRead) :
    outcome (ReceiveResult * StreamTransport * list SslRead) :=
  '(r, acc, rest) ← TLSTransport_receive_loop [] events;
  Ok (r, {| accumulation_buffer := acc |}, rest).

(** [SSL_write] of [num] bytes, which takes all of them or none: what it returns,
    whether [errno] is [EAGAIN], and the plain text given to the connection. A
    length that is not positive is refused. *)
Definition sys_ssl_write (data : bytes) (num : Z) (w : SslWrite) : Z * bool * bytes :=
  match w with
  | WroteAll => if 0 <? num then (num, false, take (Z.to_nat num) data) else (-1, false, [])
  | WriteFailed errno => (-1, errno =? EAGAIN, [])
  end.

(** [SSL_write(ssl_, send_buffer.data(), send_buffer.size())]: the length is an
    [int]. *)
Definition TLSTransport_send (data : bytes) (w : SslWrite) : Z * bool * bytes :=
  let send_buffer := htonl_bytes (u32 (zsize data)) ++ data in
  let '(n, again, out) := sys_ssl_write send_buffer (i32 (zsize send_buffer)) w in
  (n - 4, again, out).

(** ** [SSL] objects and descriptors *)

(** The calls that make, use and end an [SSL] object (known by its address) or a
    descriptor. [SslHandshaken] stands for an [SSL_accept] or [SSL_connect] that
    finishes the handshake, [SslUse] for one that does not, and for [SSL_read] and
    [SSL_write]. *)
Inductive SslCall :=
| FdOpen (fd : Z)
| FdClose (fd : Z)
| SslNew (p fd : Z)
| SslUse (p : Z)
| SslHandshaken (p : Z)
| SslShutdown (p : Z)
| SslFree (p : Z).

(** The functions below look at a list of calls with the last one first. An
    address may be given out again after [SSL_free], a descriptor after
    [close]. *)
Fixpoint live (p : Z) (calls : list SslCall) : bool :=
  match calls with
  | [] => false
  | SslNew q _ :: l => (q =? p) || live p l
  | SslFree q :: l => negb (q =? p) && live p l
  | _ :: l => live p l
  end.

Fixpoint fd_open (fd : Z) (calls : list SslCall) : bool :=
  match calls with
  | [] => false
  | FdOpen f :: l => (f =? fd) || fd_open fd l
  | FdClose f :: l => negb (f =? fd) && fd_open fd l
  | _ :: l => fd_open fd l
  end.

(** The descriptor the object at an address writes to. *)
Fixpoint ssl_fd (p : Z) (calls : list SslCall) : option Z :=
  match calls with
  | [] => None
  | SslNew q fd :: l => if q =? p then Some fd else ssl_fd p l
  | _ :: l => ssl_fd p l
  end.

(** Whether the handshake of the object at an address is finished. *)
Fixpoint handshaken (p : Z) (calls : list SslCall) : bool :=
  match calls with
  | [] => false
  | SslNew q _ :: l => negb (q =? p) && handshaken p l
  | SslHandshaken q :: l => (q =? p) || handshaken p l
  | _ :: l => handshaken p l
  end.

(** Objects and descriptors are used, and ended, only while they exist. *)
Definition call_legal (c : SslCall) (before : list SslCall) : bool :=
  match c with
  | FdOpen fd => negb (fd_open fd before)
  | FdClose fd => fd_open fd before
  | SslNew p _ => negb (live p before)
  | SslUse p | SslHandshaken p | SslShutdown p | SslFree p => live p before
  end.

Fixpoint calls_legal (calls : list SslCall) : bool :=
  match calls with
  | [] => true
  | c :: l => call_legal c l && calls_legal l
  end.

(** ** The wrappers *)

Record TlsWrapper := {
  tw_ssl : Z;
  tw_handshake_done : bool;
}.

(** A component that makes such calls. *)
Class HasCalls (S : Type) := with_calls : (list SslCall -> list SslCall) -> S -> S.

Definition call {S} {hc : HasCalls S} (c : SslCall) : M S unit := modify (with_calls (cons c)).

Section Wrapper.
  Context {S : Type} {hc : HasCalls S}.

(** [ServerTLSWrapper::tls_handshake], with [SSL_accept], and
    [ClientTLSWrapper::tls_handshake], with [SSL_connect]. *)
Definition wrapper_tls_handshake (hs : HandshakeEvent) (w : TlsWrapper) : M S TlsWrapper :=
  _ ← call (match hs with HsDone => SslHandshaken (tw_ssl w) | _ => SslUse (tw_ssl w) end);
  lift (match hs with
        | HsDone => Ok {| tw_ssl := tw_ssl w; tw_handshake_done := true |}
        | HsWant => Ok w
        | HsFailed => Throw (runtime_error "TLS SSL accept error")
        end).

(** The constructors. [p] is what [SSL_new] gives. When the handshake throws there
    is no wrapper, and no destructor that runs. *)
Definition wrapper_make (p fd : Z) (hs : HandshakeEvent) : M S TlsWrapper :=
  _ ← call (SslNew p fd);
  wrapper_tls_handshake hs {| tw_ssl := p; tw_handshake_done := false |}.

(** The destructors. *)
Definition wrapper_destroy (w : TlsWrapper) : M S unit :=
  _ ← call (SslShutdown (tw_ssl w));
  call (SslFree (tw_ssl w)).

End Wrapper.

(** ** The server *)

(** [ts_connections] has the [SSL] pointer of the transport of each connection,
    once [init_transport] has set it; the [ConnectionManager] holds the only lasting
    reference to a connection, whose [Fd] closes the descriptor. *)
Record TlsServer := {
  ts_connections : gmap Z (option Z);
  ts_clients : gset Z;
  ts_wrappers : gmap Z TlsWrapper;
  ts_epoll : gset Z;
  ts_calls : list SslCall;
}.

Definition TlsServer_make : TlsServer :=
  {| ts_connections := ∅; ts_clients := ∅; ts_wrappers := ∅; ts_epoll := ∅; ts_calls := [] |}.

#[global] Instance server_calls : HasCalls TlsServer := fun f t =>
  {| ts_connections := ts_connections t; ts_clients := ts_clients t; ts_wrappers := ts_wrappers t;
     ts_epoll := ts_epoll t; ts_calls := f (ts_calls t) |}.

Definition with_ts_connections (f : gmap Z (option Z) -> gmap Z (option Z)) (t : TlsServer) : TlsServer :=
  {| ts_connections := f (ts_connections t); ts_clients := ts_clients t; ts_wrappers := ts_wrappers t;
     ts_epoll := ts_epoll t; ts_calls := ts_calls t |}.

Definition with_ts_clients (f : gset Z -> gset Z) (t : TlsServer) : TlsServer :=
  {| ts_connections := ts_connections t; ts_clients := f (ts_clients t); ts_wrappers := ts_wrappers t;
     ts_epoll := ts_epoll t; ts_calls := ts_calls t |}.

Definition with_ts_wrappers (f : gmap Z TlsWrapper -> gmap Z TlsWrapper) (t : TlsServer) : TlsServer :=
  {| ts_connections := ts_connections t; ts_clients := ts_clients t; ts_wrappers := f (ts_wrappers t);
     ts_epoll := ts_epoll t; ts_calls := ts_calls t |}.

Definition with_ts_epoll (f : gset Z -> gset Z) (t : TlsServer) : TlsServer :=
  {| ts_connections := ts_connections t; ts_clients := ts_clients t; ts_wrappers := ts_wrappers t;
     ts_epoll := f (ts_epoll t); ts_calls := ts_calls t |}.

(** The connection of a descriptor, if any, is destroyed. *)
Definition release_connection (fd : Z) : M TlsServer unit :=
  t ← get;
  match ts_connections t !! fd with
  | None => mret tt
  | Some _ => call (FdClose fd)
  end.

(** [connections[fd] = conn]. *)
Definition tls_add_connection (fd : Z) : M TlsServer unit :=
  _ ← release_connection fd;
  modify (with_ts_connections <[fd := None]>).

Definition tls_remove_connection (fd : Z) : M TlsServer unit :=
  _ ← release_connection fd;
  modify (with_ts_connections (delete fd)).

Definition release_wrapper (fd : Z) : M TlsServer unit :=
  t ← get;
  match ts_wrappers t !! fd with
  | None => mret tt
  | Some w => wrapper_destroy w
  end.

(** [tls_wrapper_.erase(fd)]. *)
Definition tls_erase_wrapper (fd : Z) : M TlsServer unit :=
  _ ← release_wrapper fd;
  modify (with_ts_wrappers (delete fd)).

(** [TCPAcceptor::accept], then [Server::on_client_connected]: the old wrapper of
    the descriptor, if any, goes when the new one is made. *)
Definition tls_on_client_connected (fd p : Z) (hs : HandshakeEvent) : M TlsServer unit :=
  _ ← tls_add_connection fd;
  _ ← modify (with_ts_clients (fun cs => {[fd]} ∪ cs));
  _ ← modify (with_ts_epoll (fun es => {[fd]} ∪ es));
  w ← wrapper_make p fd hs;
  _ ← release_wrapper fd;
  _ ← modify (with_ts_wrappers <[fd := w]>);
  modify (with_ts_connections <[fd := Some (tw_ssl w)]>).

(** [on_disconnected_callback] makes none of these calls: what it sends is put into
    the buffers of connections. *)
Definition tls_on_client_disconnected (fd : Z) : M TlsServer unit :=
  _ ← modify (with_ts_epoll (fun es => es ∖ {[fd]}));
  _ ← tls_remove_connection fd;
  tls_erase_wrapper fd.

Definition tls_server_handshake (fd : Z) (hs : HandshakeEvent) : M TlsServer unit :=
  t ← get;
  match ts_wrappers t !! fd with
  | None => lift Undef
  | Some w =>
      w ← wrapper_tls_handshake hs w;
      modify (with_ts_wrappers <[fd := w]>)
  end.

Fixpoint use_ssl {S} {hc : HasCalls S} (n : nat) (p : Z) : M S unit :=
  match n with
  | O => mret tt
  | Datatypes.S n => _ ← call (SslUse p); use_ssl n p
  end.

(** A call of a member of the transport of a connection, which is null before
    [init_transport]. *)
Definition use_transport (n : nat) (fd : Z) : M TlsServer unit :=
  t ← get;
  match ts_connections t !! fd with
  | None | Some None => lift Undef
  | Some (Some p) => use_ssl n p
  end.

(** What happens while an event is handled: [try_receive] calls [SSL_read] once and
    [ac_reads] times more and gives [ac_received]; [ac_complete] tells whether a whole
    message is in the buffer then, and [ac_message] what comes of taking it out and of
    [on_client_message], which makes none of these calls: the extraction may be
    undefined, and the application may throw; [ac_pending] tells whether there is
    something to flush. *)
Record Activity := {
  ac_reads : nat;
  ac_received : bool;
  ac_complete : bool;
  ac_message : outcome unit;
  ac_pending : bool;
}.

(** The branch for [EPOLLIN]; whether the handler goes on to [EPOLLOUT]. *)
Definition tls_on_readable (fd : Z) (a : Activity) : M TlsServer bool :=
  t ← get;
  if negb (bool_decide (fd ∈ ts_clients t)) then mret false
  else
    _ ← use_transport (Datatypes.S (ac_reads a)) fd;
    if ac_received a then
      if ac_complete a then _ ← lift (ac_message a); mret true else mret false
    else
      _ ← modify (with_ts_clients (fun cs => cs ∖ {[fd]}));
      _ ← tls_on_client_disconnected fd;
      mret true.

(** [flush] of an empty buffer writes nothing. *)
Definition tls_on_writable (fd : Z) (a : Activity) : M TlsServer unit :=
  t ← get;
  if negb (bool_decide (fd ∈ ts_clients t)) then mret tt
  else
    match ts_connections t !! fd with
    | None => mret tt
    | Some _ => if ac_pending a then use_transport 1 fd else mret tt
    end.

Definition tls_handle_event (fd : Z) (mask : EventMask) (hs : HandshakeEvent) (a : Activity) : M TlsServer unit :=
  if ev_err mask then
    _ ← modify (with_ts_clients (fun cs => cs ∖ {[fd]}));
    tls_on_client_disconnected fd
  else
    t ← get;
    match ts_wrappers t !! fd with
    | None => lift Undef
    | Some w =>
        if tw_handshake_done w then
          go_on ← (if ev_in mask then tls_on_readable fd a else mret true);
          if (go_on : bool) && ev_out mask then tls_on_writable fd a else mret tt
        else if ev_in mask || ev_out mask then tls_server_handshake fd hs else mret tt
    end.

Inductive TlsEvent :=
| TlsAccepted (fd p : Z) (hs : HandshakeEvent)
| TlsReady (fd : Z) (mask : EventMask) (hs : HandshakeEvent) (a : Activity).

Definition tls_step (e : TlsEvent) : M TlsServer unit :=
  match e with
  | TlsAccepted fd p hs => _ ← call (FdOpen fd); tls_on_client_connected fd p hs
  | TlsReady fd mask hs a =>
      t ← get;
      if bool_decide (fd ∈ ts_epoll t) then tls_handle_event fd mask hs a else mret tt
  end.

(** The members of [Server] are destroyed in the reverse order of their
    declaration, the wrappers before the connections; each table in some order of
    its keys. *)
Fixpoint each (f : Z -> M TlsServer unit) (fds : list Z) : M TlsServer unit :=
  match fds with
  | [] => mret tt
  | fd :: fds => _ ← f fd; each f fds
  end.

Definition Server_destroy (wrappers connections : list Z) : M TlsServer unit :=
  _ ← each tls_erase_wrapper wrappers;
  each tls_remove_connection connections.

(** [accept] gives a descriptor that is not open, [SSL_new] the address of no
    existing object. *)
Definition environment_ok (t : TlsServer) (e : TlsEvent) : Prop :=
  match e with
  | TlsAccepted fd p _ => fd_open fd (ts_calls t) = false /\ live p (ts_calls t) = false
  | TlsReady _ _ _ _ => True
  end.

Inductive tls_reachable : TlsServer -> Prop :=
| tls_reach_init : tls_reachable TlsServer_make
| tls_reach_step t e t' :
    tls_reachable t -> environment_ok t e -> tls_step e t = (Ok tt, t') -> tls_reachable t'.

(** ** The client *)

(** [tc_fd] is [socket_visitor->fd], which no constructor sets; [tc_ctx] tells
    whether [ssl_ctx_] is not null; [tc_transport] has the [SSL] pointer of the
    transport. *)
Record TlsClient := {
  tc_fd : option Z;
  tc_ctx : bool;
  tc_wrapper : option TlsWrapper;
  tc_transport : option Z;
  tc_calls : list SslCall;
}.

Definition TlsClient_make (ctx : bool) : TlsClient :=
  {| tc_fd := None; tc_ctx := ctx; tc_wrapper := None; tc_transport := None; tc_calls := [] |}.

#[global] Instance client_calls : HasCalls TlsClient := fun f c =>
  {| tc_fd := tc_fd c; tc_ctx := tc_ctx c; tc_wrapper := tc_wrapper c; tc_transport := tc_transport c;
     tc_calls := f (tc_calls c) |}.

Definition with_tc_fd (fd : Z) (c : TlsClient) : TlsClient :=
  {| tc_fd := Some fd; tc_ctx := tc_ctx c; tc_wrapper := tc_wrapper c; tc_transport := tc_transport c;
     tc_calls := tc_calls c |}.

Definition with_tc_wrapper (w : option TlsWrapper) (c : TlsClient) : TlsClient :=
  {| tc_fd := tc_fd c; tc_ctx := tc_ctx c; tc_wrapper := w; tc_transport := tc_transport c; tc_calls := tc_calls c |}.

Definition with_tc_transport (p : Z) (c : TlsClient) : TlsClient :=
  {| tc_fd := tc_fd c; tc_ctx := tc_ctx c; tc_wrapper := tc_wrapper c; tc_transport := Some p; tc_calls := tc_calls c |}.

(** [tls_wrapper_] gives up what it owns: the destructor of [ClientTLSWrapper]. *)
Definition tls_client_release : M TlsClient unit :=
  c ← get;
  match tc_wrapper c with
  | None => mret tt
  | Some w => wrapper_destroy w
  end.

(** The constructor of [ClientTLSWrapper]. *)
Definition ClientTLSWrapper_make (p fd : Z) (hs : HandshakeEvent) : M TlsClient TlsWrapper := wrapper_make p fd hs.

(** [connected] tells whether [setup_connection] succeeded; it sets the descriptor,
    to [fd], in either case. [SSL_new] of a null context gives a null pointer, which
    [SSL_set_fd] follows. *)
Definition tls_client_connect (connected : bool) (fd p : Z) (hs : HandshakeEvent) : M TlsClient bool :=
  _ ← modify (with_tc_fd fd);
  if negb connected then mret false
  else
    c ← get;
    if negb (tc_ctx c) then lift Undef
    else
      w ← ClientTLSWrapper_make p fd hs;
      _ ← tls_client_release;
      _ ← modify (with_tc_wrapper (Some w));
      _ ← modify (with_tc_transport (tw_ssl w));
      mret true.

Definition tls_client_handshake (hs : HandshakeEvent) : M TlsClient unit :=
  c ← get;
  match tc_wrapper c with
  | None => lift Undef
  | Some w => w ← wrapper_tls_handshake hs w; modify (with_tc_wrapper (Some w))
  end.

(** [send_to_server] calls [SSL_write] once, [on_server_message] calls [SSL_read] at
    least once. *)
Definition tls_client_use (n : nat) : M TlsClient unit :=
  c ← get;
  match tc_transport c with
  | None => lift Undef
  | Some p => use_ssl n p
  end.

(** [socket_visitor->fd] is read first, and a descriptor is replaced by -1; then
    [SSL_CTX_free]. The [SSL] object stays. *)
Definition tls_client_disconnect : M TlsClient unit :=
  c ← get;
  match tc_fd c with
  | None => lift Undef
  | Some _ =>
      modify (fun c => {| tc_fd := Some (-1); tc_ctx := false; tc_wrapper := tc_wrapper c;
                          tc_transport := tc_transport c; tc_calls := tc_calls c |})
  end.

(** [~Client], then its members. *)
Definition Client_destroy : M TlsClient unit :=
  _ ← tls_client_disconnect;
  _ ← tls_client_release;
  modify (with_tc_wrapper None).

Inductive TlsClientCall :=
| CConnect (connected : bool) (fd p : Z) (hs : HandshakeEvent)
| CHandshake (hs : HandshakeEvent)
| CUse (n : nat)
| CDisconnect.

Definition tls_client_step (e : TlsClientCall) : M TlsClient unit :=
  match e with
  | CConnect connected fd p hs => _ ← tls_client_connect connected fd p hs; mret tt
  | CHandshake hs => tls_client_handshake hs
  | CUse n => tls_client_use n
  | CDisconnect => tls_client_disconnect
  end.

Definition client_environment_ok (c : TlsClient) (e : TlsClientCall) : Prop :=
  match e with
  | CConnect _ _ p _ => live p (tc_calls c) = false
  | _ => True
  end.

Inductive tls_client_reachable : TlsClient -> Prop :=
| tls_client_init ctx : tls_client_reachable (TlsClient_make ctx)
| tls_client_next c e c' :
    tls_client_reachable c -> client_environment_ok c e -> tls_client_step e c = (Ok tt, c') ->
    tls_client_reachable c'.
