(* ===== verification/TlsSpec.v ===== *)
(** Properties of TLS: [TLSTransport] and [TCPTransport] agree; no [SSL] object is
    used after it was freed, and none is left over; the tables of [Stack] are those
    of this model. *)
From S2P Require Import Prelude Message Wire Framing Models Services AppService Server ServerInvariant Transport TransportSpec Stack StackSpec Tls.

(** ** [TLSTransport] as [TCPTransport] *)

(** What [::recv] and [::send] give in the place of [SSL_read] and [SSL_write]. *)
Definition as_recv (e : SslRead) : RecvEvent :=
  match e with
  | ReadBytes b => RecvBytes b
  | ReadZero => RecvClosed
  | ReadFailed errno => if errno =? EAGAIN then RecvAgain else RecvError errno
  end.

Definition as_send (n : nat) (w : SslWrite) : SendEvent :=
  match w with
  | WroteAll => SendTook n
  | WriteFailed errno => if errno =? EAGAIN then SendAgain else SendError errno
  end.

Lemma receive_loop_tls events : forall acc,
  receive_loop acc (map as_recv events) =
  ('(r, acc, rest) ← TLSTransport_receive_loop acc events; Ok (r, acc, map as_recv rest)).
Proof.
  induction events as [|[b| |errno] events IH]; intros acc; cbn [map as_recv receive_loop TLSTransport_receive_loop].
  - by destruct (receive_result _ _ _).
  - destruct (extract_complete_message (acc ++ b)) as [[[m|] acc']| |]; try done.
    + cbn. by destruct (receive_result _ _ _).
    + apply IH.
  - by destruct (receive_result _ _ _).
  - destruct (errno =? EAGAIN); cbn; by destruct (receive_result _ _ _).
Qed.

(** ** Lists of calls *)

Lemma calls_legal_cons c l : calls_legal (c :: l) = true <-> call_legal c l = true /\ calls_legal l = true.
Proof. apply andb_true_iff. Qed.

(** [SSL_shutdown] of the object at [p] can tell its peer that the connection ends:
    the descriptor is open, and the handshake is finished (before that it sends
    nothing). *)
Definition notifies (p : Z) (calls : list SslCall) : bool :=
  match ssl_fd p calls with
  | Some fd => fd_open fd calls && handshaken p calls
  | None => false
  end.

(** The calls of [SSL_shutdown], and those that tell the peer nothing. *)
Fixpoint shutdowns (calls : list SslCall) : nat :=
  match calls with
  | [] => 0
  | SslShutdown _ :: l => S (shutdowns l)
  | _ :: l => shutdowns l
  end.

Fixpoint silent_shutdowns (calls : list SslCall) : nat :=
  match calls with
  | [] => 0
  | SslShutdown p :: l => if notifies p l then silent_shutdowns l else S (silent_shutdowns l)
  | _ :: l => silent_shutdowns l
  end.

(** ** The invariant of the server *)

Record tls_ok (t : TlsServer) : Prop := {
  ok_legal : calls_legal (ts_calls t) = true;
  ok_transports : ts_connections t = (fun w => Some (tw_ssl w)) <$> ts_wrappers t;
  ok_clients : ts_clients t = dom (ts_wrappers t);
  ok_epoll : ts_epoll t = dom (ts_wrappers t);
  ok_live p : live p (ts_calls t) = true <-> exists fd w, ts_wrappers t !! fd = Some w /\ tw_ssl w = p;
  ok_owner a b v w : ts_wrappers t !! a = Some v -> ts_wrappers t !! b = Some w -> tw_ssl v = tw_ssl w -> a = b;
  ok_open fd : fd_open fd (ts_calls t) = true <-> is_Some (ts_wrappers t !! fd);
  ok_fd fd w : ts_wrappers t !! fd = Some w -> ssl_fd (tw_ssl w) (ts_calls t) = Some fd;
  ok_shaken fd w : ts_wrappers t !! fd = Some w -> handshaken (tw_ssl w) (ts_calls t) = tw_handshake_done w;
  ok_silent : silent_shutdowns (ts_calls t) = shutdowns (ts_calls t);
}.

Lemma tls_ok_make : tls_ok TlsServer_make.
Proof.
  split; try done; cbn.
  - intros p. split; [done | by intros (fd & w & H & _)].
  - intros fd. split; [done | by intros []].
Qed.

Lemma tls_ok_use t fd w :
  tls_ok t -> ts_wrappers t !! fd = Some w -> tls_ok (with_calls (cons (SslUse (tw_ssl w))) t).
Proof.
  intros [] Hw. split; try done. cbn. rewrite ok_legal0, andb_true_r. apply ok_live0. eauto.
Qed.

(** A step of the handshake. *)
Definition shake (done : bool) (p : Z) : SslCall := if done then SslHandshaken p else SslUse p.

Definition shaken (done : bool) (w : TlsWrapper) : TlsWrapper :=
  {| tw_ssl := tw_ssl w; tw_handshake_done := done || tw_handshake_done w |}.

Lemma tls_ok_shake t fd w done :
  tls_ok t -> ts_wrappers t !! fd = Some w ->
  tls_ok (with_ts_wrappers <[fd := shaken done w]> (with_calls (cons (shake done (tw_ssl w))) t)).
Proof.
  intros [] Hw. set (w' := shaken done w). assert (E : tw_ssl w' = tw_ssl w) by done.
  assert (Hlive : live (tw_ssl w) (ts_calls t) = true) by (apply ok_live0; eauto).
  assert (Hd : dom (<[fd := w']> (ts_wrappers t)) = dom (ts_wrappers t)) by by eapply dom_insert_in.
  assert (Hl : forall a v, <[fd := w']> (ts_wrappers t) !! a = Some v ->
                           exists v0, ts_wrappers t !! a = Some v0 /\ tw_ssl v = tw_ssl v0).
  { intros a v [[-> <-]|[_ H]]%lookup_insert_Some; eauto. }
  assert (Hx : forall p l, live p (shake done (tw_ssl w) :: l) = live p l) by (by destruct done).
  assert (Hf : forall f l, fd_open f (shake done (tw_ssl w) :: l) = fd_open f l) by (by destruct done).
  assert (Hs : forall p l, ssl_fd p (shake done (tw_ssl w) :: l) = ssl_fd p l) by (by destruct done).
  split; unfold with_ts_wrappers, with_calls, server_calls;
    cbn [ts_connections ts_clients ts_wrappers ts_epoll ts_calls]; rewrite ?Hd; try done.
  - rewrite calls_legal_cons. split; [by destruct done | done].
  - rewrite ok_transports0, fmap_insert, E. symmetry. apply insert_id. by rewrite lookup_fmap, Hw.
  - intros p. rewrite Hx, ok_live0. split.
    + intros (a & v & Ha & <-). destruct (decide (a = fd)) as [->|Hne].
      * exists fd, w'. rewrite lookup_insert_eq. split; congruence.
      * exists a, v. by rewrite lookup_insert_ne by done.
    + intros (a & v & (v0 & Ha & Ev)%Hl & <-). exists a, v0. by split.
  - intros a b v v' (v0 & Ha & Ev)%Hl (v1 & Hb & Ev')%Hl He. apply (ok_owner0 a b v0 v1 Ha Hb). congruence.
  - intros f. rewrite Hf, ok_open0, lookup_insert_is_Some'. split; [eauto | intros [<-|]; eauto].
  - intros f v (v0 & Ha & ->)%Hl. rewrite Hs. by apply ok_fd0.
  - intros f v [[-> <-]|[Hne Hv]]%lookup_insert_Some.
    + unfold w', shaken, shake. destruct done; cbn; [by rewrite Z.eqb_refl | by apply (ok_shaken0 f)].
    + unfold shake. destruct done; cbn; [|by apply (ok_shaken0 f)].
      destruct (Z.eqb_spec (tw_ssl w) (tw_ssl v)) as [Ev|_]; [|by apply (ok_shaken0 f)].
      by destruct Hne; apply (ok_owner0 fd f w v).
  - by destruct done.
Qed.

(** A disconnected client: the calls made, and the tables without it. *)
Definition forgotten (fd p : Z) (t : TlsServer) : TlsServer :=
  {| ts_connections := delete fd (ts_connections t); ts_clients := ts_clients t ∖ {[fd]};
     ts_wrappers := delete fd (ts_wrappers t); ts_epoll := ts_epoll t ∖ {[fd]};
     ts_calls := SslFree p :: SslShutdown p :: FdClose fd :: ts_calls t |}.

Lemma tls_ok_forgotten t fd w : tls_ok t -> ts_wrappers t !! fd = Some w -> tls_ok (forgotten fd (tw_ssl w) t).
Proof.
  intros [] Hw. assert (Hlive : live (tw_ssl w) (ts_calls t) = true) by (apply ok_live0; eauto).
  split; cbn.
  - by rewrite Hlive, ok_legal0, (proj2 (ok_open0 fd)) by eauto.
  - by rewrite ok_transports0, fmap_delete.
  - by rewrite ok_clients0, dom_delete_L.
  - by rewrite ok_epoll0, dom_delete_L.
  - intros p. rewrite andb_true_iff, negb_true_iff, Z.eqb_neq, ok_live0. split.
    + intros (Hne & a & v & Ha & <-). exists a, v. rewrite lookup_delete_Some. split_and!; congruence.
    + intros (a & v & [Hne Ha]%lookup_delete_Some & <-). split; [|eauto].
      intros E. by apply Hne, (ok_owner0 fd a w v).
  - intros a b v v' [_ Ha]%lookup_delete_Some [_ Hb]%lookup_delete_Some. by apply ok_owner0.
  - intros f. rewrite andb_true_iff, negb_true_iff, Z.eqb_neq, ok_open0, lookup_delete_is_Some. done.
  - intros f v [_ Hf]%lookup_delete_Some. by apply ok_fd0.
  - intros f v [_ Hf]%lookup_delete_Some. by apply (ok_shaken0 f).
  - unfold notifies. cbn. rewrite (ok_fd0 fd w Hw), Z.eqb_refl. cbn. congruence.
Qed.

Lemma forgotten_run t fd w :
  tls_ok t -> ts_wrappers t !! fd = Some w ->
  tls_on_client_disconnected fd (with_ts_clients (fun cs => cs ∖ {[fd]}) t) = (Ok tt, forgotten fd (tw_ssl w) t).
Proof.
  intros [] Hw. unfold tls_on_client_disconnected, tls_remove_connection, tls_erase_wrapper, release_connection,
    release_wrapper, mbind, M_bind, modify, get.
  cbn [ts_connections with_ts_epoll with_ts_clients]. rewrite ok_transports0, lookup_fmap, Hw.
  cbn. rewrite Hw. cbn. unfold forgotten, wrapper_destroy, mbind, M_bind, call, modify, with_calls, server_calls. cbn.
  by rewrite ok_transports0.
Qed.

(** A new client. *)
Definition welcomed (fd p : Z) (done : bool) (t : TlsServer) : TlsServer :=
  {| ts_connections := <[fd := Some p]> (ts_connections t); ts_clients := {[fd]} ∪ ts_clients t;
     ts_wrappers := <[fd := {| tw_ssl := p; tw_handshake_done := done |}]> (ts_wrappers t);
     ts_epoll := {[fd]} ∪ ts_epoll t;
     ts_calls := shake done p :: SslNew p fd :: FdOpen fd :: ts_calls t |}.

Lemma tls_ok_welcomed t fd p done :
  tls_ok t -> fd_open fd (ts_calls t) = false -> live p (ts_calls t) = false -> tls_ok (welcomed fd p done t).
Proof.
  intros [] Hfd Hp.
  assert (Hn : ts_wrappers t !! fd = None).
  { destruct (ts_wrappers t !! fd) eqn:E; [|done]. by rewrite (proj2 (ok_open0 fd)) in Hfd by eauto. }
  assert (Hfresh : forall a v, ts_wrappers t !! a = Some v -> tw_ssl v <> p).
  { intros a v Ha <-. by rewrite (proj2 (ok_live0 _)) in Hp by eauto. }
  assert (Hx : forall q l, live q (shake done p :: l) = live q l) by (by destruct done).
  assert (Hf : forall f l, fd_open f (shake done p :: l) = fd_open f l) by (by destruct done).
  assert (Hs : forall q l, ssl_fd q (shake done p :: l) = ssl_fd q l) by (by destruct done).
  split; unfold welcomed; cbn [ts_connections ts_clients ts_wrappers ts_epoll ts_calls]; rewrite ?Hs.
  - rewrite !calls_legal_cons. cbn. rewrite Hp, Hfd, ok_legal0. destruct done; cbn; by rewrite Z.eqb_refl.
  - by rewrite ok_transports0, fmap_insert.
  - by rewrite ok_clients0, dom_insert_L.
  - by rewrite ok_epoll0, dom_insert_L.
  - intros q. rewrite Hx. cbn. rewrite orb_true_iff, Z.eqb_eq, ok_live0. split.
    + intros [<-|(a & v & Ha & <-)].
      * exists fd, {| tw_ssl := p; tw_handshake_done := done |}. by rewrite lookup_insert_eq.
      * exists a, v. rewrite lookup_insert_ne by congruence. done.
    + intros (a & v & [[-> <-]|[_ Ha]]%lookup_insert_Some & <-); [by left | right; eauto].
  - intros a b v v' [[-> <-]|[_ Ha]]%lookup_insert_Some [[-> <-]|[_ Hb]]%lookup_insert_Some; cbn; intros E; [done|..].
    + by destruct (Hfresh b v' Hb).
    + by destruct (Hfresh a v Ha).
    + by apply (ok_owner0 a b v v').
  - intros f. rewrite Hf. cbn. rewrite orb_true_iff, Z.eqb_eq, ok_open0, lookup_insert_is_Some'. done.
  - intros f v. rewrite Hs. intros [[-> <-]|[_ Hv]]%lookup_insert_Some; cbn; [by rewrite Z.eqb_refl|].
    destruct (Z.eqb_spec p (tw_ssl v)) as [->|_]; [|by apply ok_fd0]. by destruct (Hfresh f v Hv).
  - intros f v [[-> <-]|[_ Hv]]%lookup_insert_Some; unfold shake.
    + destruct done; cbn; by rewrite Z.eqb_refl.
    + assert (Hq : (p =? tw_ssl v) = false) by (apply Z.eqb_neq; intros ->; by destruct (Hfresh f v Hv)).
      destruct done; cbn; rewrite Hq; by apply (ok_shaken0 f).
  - by destruct done.
Qed.

Lemma connected_run fd p hs t :
  tls_ok t -> fd_open fd (ts_calls t) = false ->
  wp (tls_step (TlsAccepted fd p hs)) (fun r t' =>
    match hs with
    | HsDone => r = Ok tt /\ t' = welcomed fd p true t
    | HsWant => r = Ok tt /\ t' = welcomed fd p false t
    | HsFailed => r = Throw (runtime_error "TLS SSL accept error")
    end) t.
Proof.
  intros [] Hfd.
  assert (Hn : ts_wrappers t !! fd = None).
  { destruct (ts_wrappers t !! fd) eqn:E; [|done]. by rewrite (proj2 (ok_open0 fd)) in Hfd by eauto. }
  assert (Hc : ts_connections t !! fd = None) by by rewrite ok_transports0, lookup_fmap, Hn.
  unfold tls_step, tls_on_client_connected, tls_add_connection, release_connection, wrapper_make,
    wrapper_tls_handshake, release_wrapper.
  unfold call. destruct hs; wp_go; cbn in *; try congruence; subst; cbn; try done.
  all: split; [done|]; unfold welcomed, with_ts_connections, with_calls, server_calls; cbn; by rewrite insert_insert_eq.
Qed.

(** ** Every event *)

Lemma use_ssl_ok n : forall t fd w, tls_ok t -> ts_wrappers t !! fd = Some w ->
  wp (use_ssl n (tw_ssl w)) (fun r t' => r = Ok tt /\ tls_ok t' /\ ts_wrappers t' = ts_wrappers t) t.
Proof.
  induction n as [|n IH]; intros t fd w Ht Hw; cbn; [by apply wp_ret|].
  apply wp_bind, wp_modify. eapply wp_mono; [by eapply (IH _ fd w); [apply (tls_ok_use t fd w)|]|].
  by intros r t' (-> & ? & ?).
Qed.

Lemma use_transport_ok n t fd w : tls_ok t -> ts_wrappers t !! fd = Some w ->
  wp (use_transport n fd) (fun r t' => r = Ok tt /\ tls_ok t' /\ ts_wrappers t' = ts_wrappers t) t.
Proof.
  intros Ht Hw. unfold use_transport. apply wp_bind, wp_get.
  rewrite (ok_transports t Ht), lookup_fmap, Hw. by eapply use_ssl_ok.
Qed.

(** The result of a handler: it succeeds, the handshake fails, or what is done with
    a message does not succeed. *)
Definition tls_handled {A} (m : outcome unit) (r : outcome A) (t : TlsServer) : Prop :=
  match r with
  | Ok _ => tls_ok t
  | Throw e => e = runtime_error "TLS SSL accept error" \/ m = Throw e
  | Undef => m = Undef
  end.

(** What is done with a message in an event. *)
Definition message_of (e : TlsEvent) : outcome unit :=
  match e with
  | TlsAccepted _ _ _ => Ok tt
  | TlsReady _ _ _ a => ac_message a
  end.

Lemma tls_forget_ok m fd w t : tls_ok t -> ts_wrappers t !! fd = Some w ->
  wp (tls_on_client_disconnected fd) (tls_handled m) (with_ts_clients (fun cs => cs ∖ {[fd]}) t).
Proof. intros Ht Hw. unfold wp. rewrite (forgotten_run t fd w Ht Hw). by apply tls_ok_forgotten. Qed.

Lemma received_wrappers fd a w t : tls_ok t -> ts_wrappers t !! fd = Some w -> ac_received a = true ->
  wp (tls_on_readable fd a) (fun r t' =>
    r = (if ac_complete a then _ ← ac_message a; Ok true else Ok false) /\
    tls_ok t' /\ ts_wrappers t' = ts_wrappers t) t.
Proof.
  intros Ht Hw Ha. unfold tls_on_readable. apply wp_bind, wp_get. rewrite Ha.
  rewrite bool_decide_true by (rewrite (ok_clients t Ht); by apply elem_of_dom_2 in Hw). cbn [negb].
  apply wp_bind. eapply wp_mono; [by eapply use_transport_ok|]. intros r t' (-> & ? & ?).
  destruct (ac_complete a); [|by apply wp_ret]. apply wp_bind, wp_lift. by destruct (ac_message a); [apply wp_ret|..].
Qed.

Lemma ended_wrappers fd a w t : tls_ok t -> ts_wrappers t !! fd = Some w -> ac_received a = false ->
  wp (tls_on_readable fd a) (fun r t' => r = Ok true /\ tls_ok t' /\ ts_wrappers t' = delete fd (ts_wrappers t)) t.
Proof.
  intros Ht Hw Ha. unfold tls_on_readable. apply wp_bind, wp_get. rewrite Ha.
  rewrite bool_decide_true by (rewrite (ok_clients t Ht); by apply elem_of_dom_2 in Hw). cbn [negb].
  apply wp_bind. eapply wp_mono; [by eapply use_transport_ok|]. intros r t1 (-> & H1 & E1).
  apply wp_bind, wp_modify, wp_bind. rewrite <- E1 in Hw. unfold wp at 1. rewrite (forgotten_run t1 fd w H1 Hw).
  apply wp_ret. split_and!; [done | by apply tls_ok_forgotten | cbn; by rewrite E1].
Qed.

Lemma writable_wrappers fd a t : tls_ok t ->
  wp (tls_on_writable fd a) (fun r t' => r = Ok tt /\ tls_ok t' /\ ts_wrappers t' = ts_wrappers t) t.
Proof.
  intros Ht. unfold tls_on_writable. apply wp_bind, wp_get. destruct (negb _); [by apply wp_ret|].
  rewrite (ok_transports t Ht), lookup_fmap. destruct (ts_wrappers t !! fd) as [w|] eqn:Hw; [|by apply wp_ret].
  cbn. destruct (ac_pending a); [by eapply use_transport_ok | by apply wp_ret].
Qed.

Lemma tls_readable_ok fd a w t : tls_ok t -> ts_wrappers t !! fd = Some w ->
  wp (tls_on_readable fd a) (tls_handled (ac_message a)) t.
Proof.
  intros Ht Hw. destruct (ac_received a) eqn:Ha; eapply wp_mono;
    [by eapply received_wrappers| |by eapply ended_wrappers|]; intros r t' (-> & ? & _); [|done].
  destruct (ac_complete a); [|done]. destruct (ac_message a); cbn; auto.
Qed.

Lemma tls_writable_ok m fd a t : tls_ok t -> wp (tls_on_writable fd a) (tls_handled m) t.
Proof. intros Ht. eapply wp_mono; [by apply writable_wrappers|]. by intros r t' (-> & ? & _). Qed.

Lemma shaken_want w : shaken false w = w.
Proof. by destruct w. Qed.

Lemma tls_server_handshake_ok m fd hs w t : tls_ok t -> ts_wrappers t !! fd = Some w ->
  wp (tls_server_handshake fd hs) (tls_handled m) t.
Proof.
  intros Ht Hw. unfold tls_server_handshake, wrapper_tls_handshake. apply wp_bind, wp_get. rewrite Hw.
  apply wp_bind, wp_bind, wp_modify, wp_lift. destruct hs; [apply wp_modify.. | by left].
  - exact (tls_ok_shake t fd w true Ht Hw).
  - pose proof (tls_ok_shake t fd w false Ht Hw) as H. by rewrite shaken_want in H.
Qed.

Lemma tls_step_ok e t : tls_ok t -> environment_ok t e -> wp (tls_step e) (tls_handled (message_of e)) t.
Proof.
  intros Ht He. destruct e as [fd p hs|fd mask hs a]; [|clear He].
  - destruct He as [Hfd Hp]. eapply wp_mono; [by apply connected_run|].
    destruct hs; cbn; [intros ? ? [-> ->]; by apply tls_ok_welcomed..|]. intros ? ? ->. by left.
  - unfold tls_step. apply wp_bind, wp_get. case_bool_decide as Hfd; [|by apply wp_ret].
    rewrite (ok_epoll t Ht), elem_of_dom in Hfd. destruct Hfd as [w Hw].
    unfold tls_handle_event. cbn [message_of]. destruct (ev_err mask).
    { apply wp_bind, wp_modify. by eapply tls_forget_ok. }
    apply wp_bind, wp_get. rewrite Hw. destruct (tw_handshake_done w).
    + apply wp_bind. destruct (ev_in mask); [eapply wp_mono; [by eapply tls_readable_ok|]|apply wp_ret].
      * intros [b| |] t' H'; [|done..]. destruct (b && _); [by apply tls_writable_ok | by apply wp_ret].
      * destruct (true && _); [by apply tls_writable_ok | by apply wp_ret].
    + destruct (_ || _); [by eapply tls_server_handshake_ok | by apply wp_ret].
Qed.

Lemma tls_reachable_ok t : tls_reachable t -> tls_ok t.
Proof.
  induction 1 as [|t e t' _ IH He E]; [apply tls_ok_make|].
  apply (wp_run _ _ _ _ _ E (tls_step_ok e t IH He)).
Qed.

(** ** The end of the server *)

(** How many handshakes are not finished. *)
Definition unfinished (ws : gmap Z TlsWrapper) : nat :=
  size (filter (fun p : Z * TlsWrapper => tw_handshake_done p.2 = false) ws).

Lemma unfinished_delete fd w ws : ws !! fd = Some w ->
  unfinished ws = ((if tw_handshake_done w then 0 else 1) + unfinished (delete fd ws))%nat.
Proof.
  intros Hw. unfold unfinished. rewrite <- (insert_delete_id _ _ _ Hw) at 1.
  destruct (tw_handshake_done w) eqn:Hd.
  - rewrite map_filter_insert_False by (cbn; by rewrite Hd). by rewrite delete_delete_eq.
  - rewrite map_filter_insert_True by done. apply map_size_insert_None.
    apply map_lookup_filter_None. left. apply lookup_delete_eq.
Qed.

(** While the members are destroyed the wrappers go first. *)
Record ending (t0 t : TlsServer) : Prop := {
  end_legal : calls_legal (ts_calls t) = true;
  end_live p : live p (ts_calls t) = true <-> exists fd w, ts_wrappers t !! fd = Some w /\ tw_ssl w = p;
  end_owner a b v w : ts_wrappers t !! a = Some v -> ts_wrappers t !! b = Some w -> tw_ssl v = tw_ssl w -> a = b;
  end_open fd : fd_open fd (ts_calls t) = true <-> is_Some (ts_connections t !! fd);
  end_fd fd w : ts_wrappers t !! fd = Some w ->
    ssl_fd (tw_ssl w) (ts_calls t) = Some fd /\ is_Some (ts_connections t !! fd);
  end_shaken fd w : ts_wrappers t !! fd = Some w -> handshaken (tw_ssl w) (ts_calls t) = tw_handshake_done w;
  end_silent : (silent_shutdowns (ts_calls t) + unfinished (ts_wrappers t)
                = silent_shutdowns (ts_calls t0) + unfinished (ts_wrappers t0))%nat;
}.

Lemma ending_start t : tls_ok t -> ending t t.
Proof.
  intros []. assert (Hc : forall fd, is_Some (ts_connections t !! fd) <-> is_Some (ts_wrappers t !! fd)).
  { intros fd. rewrite ok_transports0, lookup_fmap. apply fmap_is_Some. }
  split; try done; [intros fd; by rewrite Hc|]. intros fd w Hw. rewrite Hc. eauto.
Qed.

Lemma ending_wrapper t0 fd t : ending t0 t ->
  wp (tls_erase_wrapper fd) (fun r t' => r = Ok tt /\ ending t0 t' /\
    ts_wrappers t' = delete fd (ts_wrappers t) /\ ts_connections t' = ts_connections t) t.
Proof.
  intros []. unfold tls_erase_wrapper, release_wrapper, wrapper_destroy, call. wp_go; cbn in *; (split; [done|]);
    (split; [|by split]); last by (unfold with_ts_wrappers; rewrite delete_id by done; destruct t; split).
  destruct (end_fd0 fd _ Heqo) as [Hfd Hc]. split; cbn.
  - rewrite (proj2 (end_live0 _)) by eauto. done.
  - intros p. rewrite andb_true_iff, negb_true_iff, Z.eqb_neq, end_live0. split.
    + intros (Hne & a & v & Ha & <-). exists a, v. rewrite lookup_delete_Some. split_and!; congruence.
    + intros (a & v & [Hne Ha]%lookup_delete_Some & <-). split; [|eauto].
      intros E. apply Hne. by eapply end_owner0.
  - intros a b v v' [_ Ha]%lookup_delete_Some [_ Hb]%lookup_delete_Some. by apply end_owner0.
  - apply end_open0.
  - intros f v [_ Hf]%lookup_delete_Some. by apply end_fd0.
  - intros f v [_ Hf]%lookup_delete_Some. by apply (end_shaken0 f).
  - unfold notifies. rewrite Hfd, (proj2 (end_open0 fd)), (end_shaken0 _ _ Heqo) by done.
    rewrite (unfinished_delete _ _ _ Heqo) in end_silent0. destruct (tw_handshake_done _); cbn in *; lia.
Qed.

Lemma ending_connection t0 fd t : ending t0 t -> ts_wrappers t = ∅ ->
  wp (tls_remove_connection fd) (fun r t' => r = Ok tt /\ ending t0 t' /\
    ts_wrappers t' = ∅ /\ ts_connections t' = delete fd (ts_connections t)) t.
Proof.
  intros [] Hw. unfold tls_remove_connection, release_connection, call. wp_go; cbn in *; (split; [done|]);
    (split; [|by split]); split; cbn; try done.
  - by rewrite end_legal0, (proj2 (end_open0 fd)) by eauto.
  - intros f. by rewrite andb_true_iff, negb_true_iff, Z.eqb_neq, end_open0, lookup_delete_is_Some.
  - intros f w. rewrite Hw. by rewrite lookup_empty.
  - intros f. by rewrite delete_id.
  - intros f w. rewrite Hw. by rewrite lookup_empty.
Qed.

Lemma ending_wrappers t0 ws : forall t, ending t0 t ->
  wp (each tls_erase_wrapper ws) (fun r t' => r = Ok tt /\ ending t0 t' /\
    ts_wrappers t' = foldl (fun m fd => delete fd m) (ts_wrappers t) ws /\ ts_connections t' = ts_connections t) t.
Proof.
  induction ws as [|fd ws IH]; intros t Ht; cbn; [by apply wp_ret|].
  apply wp_bind. eapply wp_mono; [by apply ending_wrapper|]. intros r t1 (-> & H1 & Hw1 & Hc1).
  eapply wp_mono; [by apply IH|]. intros r t2 (-> & H2 & Hw2 & Hc2). by rewrite Hw2, Hc2, Hw1, Hc1.
Qed.

Lemma ending_connections t0 cs : forall t, ending t0 t -> ts_wrappers t = ∅ ->
  wp (each tls_remove_connection cs) (fun r t' => r = Ok tt /\ ending t0 t' /\ ts_wrappers t' = ∅ /\
    ts_connections t' = foldl (fun m fd => delete fd m) (ts_connections t) cs) t.
Proof.
  induction cs as [|fd cs IH]; intros t Ht Hw; cbn; [by apply wp_ret|].
  apply wp_bind. eapply wp_mono; [by apply ending_connection|]. intros r t1 (-> & H1 & Hw1 & Hc1).
  eapply wp_mono; [by apply IH|]. intros r t2 (-> & H2 & Hw2 & Hc2). by rewrite Hw2, Hc2, Hc1.
Qed.

Lemma delete_keys {V} (ks : list Z) : forall m : gmap Z V,
  (forall k, is_Some (m !! k) -> k ∈ ks) -> foldl (fun m k => delete k m) m ks = ∅.
Proof.
  induction ks as [|k ks IH]; intros m H; cbn.
  - apply map_empty. intros i. destruct (m !! i) eqn:E; [|done]. destruct (not_elem_of_nil i). apply H. eauto.
  - apply IH. intros i [Hne Hi]%lookup_delete_is_Some. apply H in Hi. set_solver.
Qed.

Lemma destroy_run ws cs t : tls_ok t ->
  (forall fd, is_Some (ts_wrappers t !! fd) -> fd ∈ ws) -> (forall fd, is_Some (ts_connections t !! fd) -> fd ∈ cs) ->
  wp (Server_destroy ws cs) (fun r t' => r = Ok tt /\ ending t t' /\ ts_wrappers t' = ∅ /\ ts_connections t' = ∅) t.
Proof.
  intros Ht Hws Hcs. unfold Server_destroy. apply wp_bind.
  eapply wp_mono; [by apply ending_wrappers, ending_start|]. intros r t1 (-> & H1 & Hw1 & Hc1).
  rewrite delete_keys in Hw1 by done. eapply wp_mono; [by apply ending_connections|].
  intros r t2 (-> & H2 & Hw2 & Hc2). split_and!; try done. rewrite Hc2, Hc1. by apply delete_keys.
Qed.

(** ** The tables of [Stack] *)

Abbreviation tables := (gset Z * gmap Z bool * gset Z * gset Z)%type.

Definition stack_tables (t : TcpServer) : tables :=
  (sv_clients t, sv_tls t, dom (sv_connections t), dom (sv_epoll t)).

Definition tls_tables (t : TlsServer) : tables :=
  (ts_clients t, tw_handshake_done <$> ts_wrappers t, dom (ts_connections t), ts_epoll t).

Definition wrapper_tables (ws : gmap Z TlsWrapper) : tables :=
  (dom ws, tw_handshake_done <$> ws, dom ws, dom ws).

Lemma tables_of_wrappers t : tls_ok t -> tls_tables t = wrapper_tables (ts_wrappers t).
Proof.
  intros []. unfold tls_tables, wrapper_tables. rewrite ok_transports0, ok_clients0, ok_epoll0.
  by rewrite dom_fmap_L.
Qed.

Lemma tables_frame t t' : tcp_frame t t' -> stack_tables t' = stack_tables t.
Proof. intros []. unfold stack_tables. congruence. Qed.

Lemma tables_connection fd c c0 s : sv_connections (tcp s) !! fd = Some c0 ->
  stack_tables (tcp (on_tcp (with_connections <[fd := c]>) s)) = stack_tables (tcp s).
Proof. intros Hc. unfold stack_tables. cbn. by rewrite (dom_insert_in _ _ _ _ Hc). Qed.

(** An address that [SSL_new] may give. *)
Fixpoint addresses (calls : list SslCall) : gset Z :=
  match calls with
  | [] => ∅
  | SslNew p _ :: l => {[p]} ∪ addresses l
  | _ :: l => addresses l
  end.

Lemma live_address p calls : live p calls = true -> p ∈ addresses calls.
Proof.
  induction calls as [|[] calls IH]; cbn; try done; try apply IH.
  - rewrite orb_true_iff, Z.eqb_eq. set_solver.
  - rewrite andb_true_iff. intros [_ H]. by apply IH.
Qed.

Lemma fresh_address calls : exists p, live p calls = false.
Proof.
  exists (fresh (addresses calls)). destruct (live _ calls) eqn:E; [|done].
  by apply live_address, is_fresh in E.
Qed.

Section Simulation.
  Context {ord : IterOrder}.

(** *** What the handlers of [Stack] do to the tables *)

Lemma message_tables now fd data s :
  wp (Server_on_client_message now fd data) (fun _ s' => stack_tables (tcp s') = stack_tables (tcp s)) s.
Proof.
  unfold Server_on_client_message. destruct (is_empty data); [by apply wp_ret|].
  case_bool_decide; [by apply wp_ret|].
  eapply wp_mono; [apply (step_frame now (DataReceived fd data))|]. intros r s' H'. by apply tables_frame.
Qed.

Lemma disconnect_tables now fd s ws : stack_tables (tcp s) = wrapper_tables ws ->
  wp (Server_on_client_disconnected now fd) (fun r s' => r = Ok tt ->
    stack_tables (tcp s') = wrapper_tables (delete fd ws)) (on_tcp (ServerHandler_remove_client fd) s).
Proof.
  intros E. unfold Server_on_client_disconnected. apply wp_bind, wp_modify, wp_bind.
  eapply wp_mono; [apply (step_frame now (ClientDisconnected fd))|]. intros r s1 H1.
  destruct r; [|done..]. apply tables_frame in H1. wp_go. intros _. revert H1 E.
  unfold stack_tables, wrapper_tables. cbn. rewrite fmap_delete, !dom_delete_L.
  intros [= -> -> -> ->] [= -> -> -> ->]. by rewrite ?dom_delete_L.
Qed.

(** An activity is what [Stack] does for the descriptor: what [try_receive] gives
    with what is on the socket, and whether a message is complete then. *)
Definition agrees (t : TcpServer) (fd : Z) (a : Activity) : Prop :=
  ac_message a = Ok tt /\
  forall c ok c1 sock, sv_connections t !! fd = Some c ->
    Connection_try_receive c (socket_of fd t) = Ok (ok, c1, sock) ->
    ac_received a = ok /\ (ok = true -> forall b, Connection_has_complete_message c1 = Ok b -> ac_complete a = b).

Definition activity (t : TcpServer) (fd : Z) : Activity :=
  let made ok complete :=
    {| ac_reads := 0; ac_received := ok; ac_complete := complete; ac_message := Ok tt; ac_pending := false |} in
  match sv_connections t !! fd with
  | None => made true true
  | Some c =>
      match Connection_try_receive c (socket_of fd t) with
      | Ok (ok, c1, _) =>
          made ok (match Connection_has_complete_message c1 with Ok b => b | _ => true end)
      | _ => made true true
      end
  end.

Lemma activity_agrees t fd : agrees t fd (activity t fd).
Proof.
  unfold activity. split; [by repeat case_match|]. intros c ok c1 sock Hc Hr. rewrite Hc, Hr. cbn.
  split; [done|]. intros _ b Hb. by rewrite Hb.
Qed.

(** Either everything stays, or the connection is at its end. *)
Lemma readable_tables now fd s ws : stack_tables (tcp s) = wrapper_tables ws -> is_Some (ws !! fd) ->
  wp (ServerHandler_on_readable now fd) (fun r s' => forall go_on a, r = Ok go_on -> agrees (tcp s) fd a ->
    if ac_received a then go_on = ac_complete a /\ stack_tables (tcp s') = wrapper_tables ws
    else go_on = true /\ stack_tables (tcp s') = wrapper_tables (delete fd ws)) s.
Proof.
  intros E Hws. unfold ServerHandler_on_readable. apply wp_bind, wp_get.
  assert (Hin : fd ∈ sv_clients (tcp s)) by (injection E as -> _ _ _; by apply elem_of_dom).
  rewrite bool_decide_true by done. cbn [negb].
  destruct (sv_connections (tcp s) !! fd) as [c|] eqn:Hc; [|by apply wp_lift].
  apply wp_bind, wp_lift. destruct (Connection_try_receive _ _) as [[[ok c1] sock]| |] eqn:Hr; [|done..].
  assert (Ha : forall a, agrees (tcp s) fd a -> ac_received a = ok /\
    (ok = true -> forall b, Connection_has_complete_message c1 = Ok b -> ac_complete a = b)).
  { intros a [_ Ha]. by apply (Ha c ok c1 sock). }
  apply wp_bind, wp_modify, wp_bind, wp_modify.
  rewrite <- (tables_connection fd c1 c s Hc) in E.
  set (s1 := on_tcp _ (on_tcp _ s)).
  assert (E1 : stack_tables (tcp s1) = wrapper_tables ws) by done.
  assert (Hc1 : sv_connections (tcp s1) !! fd = Some c1) by apply lookup_insert_eq.
  clearbody s1. clear E Hc. destruct ok.
  - apply wp_bind, wp_lift. destruct (Connection_has_complete_message c1) as [b| |] eqn:Hm; [|done..].
    destruct b; cbn [negb].
    + apply wp_bind, wp_lift. destruct (Connection_extract_message c1) as [[m c2]| |]; [|done..].
      apply wp_bind, wp_modify, wp_bind. eapply wp_mono; [apply message_tables|]. intros r s2 H2.
      rewrite (tables_connection fd c2 c1 s1 Hc1) in H2. destruct r as [[]| |]; [|done..]. apply wp_ret.
      intros b a [= <-] [-> Hcm]%Ha. split; [by rewrite (Hcm eq_refl true) | congruence].
    + apply wp_ret. intros b a [= <-] [-> Hcm]%Ha. split; [by rewrite (Hcm eq_refl false) | congruence].
  - apply wp_bind, wp_modify, wp_bind. eapply wp_mono; [by apply disconnect_tables|]. intros r s2 H2.
    destruct r as [[]| |]; [|done..]. apply wp_ret. intros b a [= <-] [-> _]%Ha. split; [done|]. by apply H2.
Qed.

Lemma writable_tables fd s :
  wp (ServerHandler_on_writable fd) (fun r s' => stack_tables (tcp s') = stack_tables (tcp s)) s.
Proof.
  unfold ServerHandler_on_writable, Server_on_client_writable, ConnectionManager_get_connection.
  apply wp_bind, wp_get. destruct (negb _); [by apply wp_ret|]. apply wp_bind, wp_get.
  destruct (sv_connections (tcp s) !! fd) as [c|] eqn:Hc; [|by apply wp_ret].
  apply wp_bind, wp_lift. destruct (Connection_flush _ _) as [[[d c1] sock]| |]; [|done..].
  apply wp_bind, wp_modify, wp_bind, wp_modify. rewrite <- (tables_connection fd c1 c s Hc).
  destruct d; [|by apply wp_ret]. apply wp_modify. unfold stack_tables. cbn. by rewrite dom_alter_L.
Qed.

(** *** The simulation *)

(** The server of this model follows to the state [s'] of [Stack]. *)
Definition follows {A} (m : M TlsServer A) (t : TlsServer) (r0 : outcome A) (s' : MessagingServer TcpServer) : Prop :=
  wp m (fun r t' => r = r0 /\ tls_ok t' /\ stack_tables (tcp s') = wrapper_tables (ts_wrappers t')) t.

Lemma readable_follows now fd w a s t :
  tls_ok t -> ts_wrappers t !! fd = Some w -> stack_tables (tcp s) = wrapper_tables (ts_wrappers t) ->
  agrees (tcp s) fd a ->
  wp (ServerHandler_on_readable now fd) (fun r s' => forall go_on, r = Ok go_on ->
    follows (tls_on_readable fd a) t (Ok go_on) s') s.
Proof.
  intros Ht Hw E Ha. eapply wp_mono; [by eapply readable_tables|]. intros r s1 H1 go_on ->.
  specialize (H1 go_on a eq_refl Ha). destruct (ac_received a) eqn:Hr; destruct H1 as [-> E1].
  - eapply wp_mono; [by eapply received_wrappers|]. intros r t1 (-> & ? & ->). rewrite (proj1 Ha).
    by destruct (ac_complete a).
  - eapply wp_mono; [by eapply ended_wrappers|]. intros r t1 (-> & ? & ->). done.
Qed.

Lemma writable_follows fd a s t :
  tls_ok t -> stack_tables (tcp s) = wrapper_tables (ts_wrappers t) ->
  wp (ServerHandler_on_writable fd) (fun r s' => r = Ok tt -> follows (tls_on_writable fd a) t (Ok tt) s') s.
Proof.
  intros Ht E. eapply wp_mono; [apply writable_tables|]. intros r s1 H1 _.
  eapply wp_mono; [by apply writable_wrappers|]. intros r1 t1 (-> & ? & ->). split_and!; congruence.
Qed.

Lemma handshake_follows fd hs w s t :
  tls_ok t -> ts_wrappers t !! fd = Some w -> stack_tables (tcp s) = wrapper_tables (ts_wrappers t) ->
  wp (Server_tls_handshake fd hs) (fun r s' => r = Ok tt -> follows (tls_server_handshake fd hs) t (Ok tt) s') s.
Proof.
  intros Ht Hw E. unfold Server_tls_handshake. apply wp_bind, wp_get.
  destruct (sv_tls (tcp s) !! fd); [|by apply wp_lift].
  destruct hs; [apply wp_modify|apply wp_ret|by apply wp_lift]; intros _;
    unfold follows, tls_server_handshake, wrapper_tls_handshake;
    apply wp_bind, wp_get; rewrite Hw; apply wp_bind, wp_bind, wp_modify, wp_lift, wp_modify.
  - split_and!; [done | exact (tls_ok_shake t fd w true Ht Hw) |]. cbn.
    revert E. unfold stack_tables, wrapper_tables. cbn.
    rewrite fmap_insert, (dom_insert_in _ _ _ _ Hw). by intros [= -> -> -> ->].
  - pose proof (tls_ok_shake t fd w false Ht Hw) as H. rewrite shaken_want in H.
    split_and!; [done | exact H |]. cbn. by rewrite insert_id.
Qed.

Lemma handle_event_follows now fd mask hs w a s t :
  tls_ok t -> ts_wrappers t !! fd = Some w -> stack_tables (tcp s) = wrapper_tables (ts_wrappers t) ->
  agrees (tcp s) fd a ->
  wp (ServerHandler_handle_event now fd mask hs) (fun r s' => r = Ok tt ->
    follows (tls_handle_event fd mask hs a) t (Ok tt) s') s.
Proof.
  intros Ht Hw E Ha. unfold ServerHandler_handle_event, tls_handle_event. destruct (ev_err mask).
  { apply wp_bind, wp_modify. eapply wp_mono; [by apply disconnect_tables|]. intros r s1 H1 ->.
    apply wp_bind, wp_modify. unfold wp. rewrite (forgotten_run t fd w Ht Hw).
    split_and!; [done | by apply tls_ok_forgotten | by apply H1]. }
  apply wp_bind, wp_get.
  assert (Hd : sv_tls (tcp s) !! fd = Some (tw_handshake_done w)).
  { injection E as _ -> _ _. by rewrite lookup_fmap, Hw. }
  rewrite Hd. destruct (tw_handshake_done w) eqn:Hdone.
  - apply wp_bind.
    eapply (wp_mono _ (fun r s' => forall go_on, r = Ok go_on ->
       follows (if ev_in mask then tls_on_readable fd a else mret true) t (Ok go_on) s')).
    { destruct (ev_in mask); [by eapply readable_follows|]. apply wp_ret. intros b [= <-]. by apply wp_ret. }
    intros [go_on| |] s1 H1; [|done..]. specialize (H1 go_on eq_refl). unfold follows in H1.
    destruct (go_on && ev_out mask) eqn:Eg.
    + unfold wp in H1. destruct H1 as (Er & Ht1 & E1).
      eapply wp_mono; [by eapply (writable_follows fd a)|]. intros r s2 H2 Hr.
      apply wp_bind, wp_get. rewrite Hw, Hdone. apply wp_bind. unfold wp at 1. rewrite Er, Eg. by apply H2.
    + apply wp_ret. intros _. apply wp_bind, wp_get. rewrite Hw, Hdone. apply wp_bind.
      eapply wp_mono; [apply H1|]. intros r t1 (-> & H1' & E1). rewrite Eg. by apply wp_ret.
  - destruct (ev_in mask || ev_out mask) in |- *.
    + eapply wp_mono; [by eapply handshake_follows|]. intros r s1 H1 ->.
      apply wp_bind, wp_get. rewrite Hw, Hdone. by apply H1.
    + apply wp_ret. intros _. apply wp_bind, wp_get. rewrite Hw, Hdone. by apply wp_ret.
Qed.

Lemma accepted_follows fd p hs s t :
  tls_ok t -> stack_tables (tcp s) = wrapper_tables (ts_wrappers t) ->
  fd_open fd (ts_calls t) = false -> live p (ts_calls t) = false ->
  wp (Server_on_client_connected fd Connection_make hs) (fun r s' => r = Ok tt ->
    follows (tls_step (TlsAccepted fd p hs)) t (Ok tt) s') s.
Proof.
  intros Ht E Hfd Hp. unfold Server_on_client_connected.
  repeat (apply wp_bind, wp_modify). apply wp_bind, wp_lift.
  destruct hs; [..|done]; apply wp_bind, wp_modify, wp_modify; intros _;
    (eapply wp_mono; [by apply connected_run|]); intros r t1 [-> ->];
    (split_and!; [done | by apply tls_ok_welcomed |]);
    revert E; unfold stack_tables, wrapper_tables; cbn;
    rewrite dom_alter_L, fmap_insert, !dom_insert_L; by intros [= -> -> -> ->].
Qed.

(** The same event in both models: an accepted descriptor with the same result of
    the handshake; a ready descriptor with the same mask and the same result of the
    handshake, and an activity that is what [Stack] does. *)
Definition same_event (t : TcpServer) (e : StackEvent) (te : TlsEvent) : Prop :=
  match e, te with
  | Accepted fd hs, TlsAccepted fd' _ hs' => fd' = fd /\ hs' = hs
  | Ready fd mask recvs sends hs, TlsReady fd' mask' hs' a =>
      fd' = fd /\ mask' = mask /\ hs' = hs /\
      agrees (with_sockets <[fd := {| sk_recv := recvs; sk_send := sends;
                                      sk_wire := sk_wire (socket_of fd t) |}]> t) fd a
  | _, _ => False
  end.

(** [accept] gives descriptors that are not open. *)
Definition accept_fresh (t : TcpServer) (e : StackEvent) : Prop :=
  match e with
  | Accepted fd _ => fd ∉ sv_clients t
  | Ready _ _ _ _ _ => True
  end.

Lemma accept_fresh_fd fd s t : tls_ok t -> stack_tables (tcp s) = wrapper_tables (ts_wrappers t) ->
  fd ∉ sv_clients (tcp s) -> fd_open fd (ts_calls t) = false.
Proof.
  intros Ht E He. destruct (fd_open fd (ts_calls t)) eqn:Ho; [|done]. apply (ok_open t Ht) in Ho.
  injection E as Ec _ _ _. by rewrite Ec, elem_of_dom in He.
Qed.

Lemma stack_step_follows now e te s s' t :
  tls_ok t -> stack_tables (tcp s) = wrapper_tables (ts_wrappers t) -> accept_fresh (tcp s) e ->
  same_event (tcp s) e te -> environment_ok t te -> stack_step now e s = (Ok tt, s') ->
  follows (tls_step te) t (Ok tt) s'.
Proof.
  intros Ht E He Hsame Henv Hrun.
  destruct e as [fd hs|fd mask recvs sends hs], te as [fd' p hs'|fd' mask' hs' a]; try done; cbn [stack_step] in Hrun.
  - destruct Hsame as [-> ->]. destruct Henv as [Hfd Hp].
    exact (wp_run _ _ _ _ _ Hrun (accepted_follows fd p hs s t Ht E Hfd Hp) eq_refl).
  - destruct Hsame as (-> & -> & -> & Ha).
    pose proof (wp_run _ (fun r s' => r = Ok tt -> follows (tls_step (TlsReady fd mask hs a)) t (Ok tt) s') _ _ _ Hrun) as Hgo.
    apply Hgo; [|done]. clear Hgo Hrun. apply wp_bind, wp_get. pose proof E as [= E1 E2 E3 E4].
    destruct (sv_epoll (tcp s) !! fd) eqn:Ee.
    + apply elem_of_dom_2 in Ee. rewrite E4 in Ee. pose proof Ee as [w Hw]%elem_of_dom.
      apply wp_bind, wp_modify. eapply wp_mono; [by eapply (handle_event_follows now fd mask hs w a)|].
      intros r s1 H1 ->. apply wp_bind, wp_get. rewrite bool_decide_true by by rewrite (ok_epoll t Ht). by apply H1.
    + apply wp_ret. intros _. apply not_elem_of_dom in Ee. apply wp_bind, wp_get.
      rewrite bool_decide_false by (rewrite (ok_epoll t Ht); by rewrite <- E4). by apply wp_ret.
Qed.

(** The runs of both models on the same events. *)
Inductive matched_run (s0 : MessagingServer TcpServer) : MessagingServer TcpServer -> TlsServer -> Prop :=
| matched_init : matched_run s0 s0 TlsServer_make
| matched_step s t now e te s' t' :
    matched_run s0 s t -> accept_fresh (tcp s) e -> stack_step now e s = (Ok tt, s') ->
    same_event (tcp s) e te -> environment_ok t te -> tls_step te t = (Ok tt, t') ->
    matched_run s0 s' t'.

Lemma matched_tables cfg fd0 s t : matched_run (Stack_make cfg fd0) s t ->
  tls_ok t /\ stack_tables (tcp s) = wrapper_tables (ts_wrappers t).
Proof.
  induction 1 as [|s t now e te s' t' _ [Ht E] He Hrun Hsame Henv Et]; [split; [apply tls_ok_make | done]|].
  pose proof (stack_step_follows now e te s s' t Ht E He Hsame Henv Hrun) as Hf. unfold follows, wp in Hf.
  rewrite Et in Hf. by destruct Hf as (_ & ? & ?).
Qed.

End Simulation.

(** ** The client *)

Record tls_client_ok (c : TlsClient) : Prop := {
  cok_legal : calls_legal (tc_calls c) = true;
  cok_transport : tc_transport c = tw_ssl <$> tc_wrapper c;
  cok_live p : live p (tc_calls c) = true <-> tc_transport c = Some p;
  cok_fd : is_Some (tc_wrapper c) -> is_Some (tc_fd c);
}.

Lemma client_use_ok n : forall c p, tls_client_ok c -> tc_transport c = Some p ->
  wp (use_ssl n p) (fun r c' => r = Ok tt /\ tls_client_ok c' /\ tc_transport c' = Some p) c.
Proof.
  induction n as [|n IH]; intros c p Hc Hp; cbn; [by apply wp_ret|].
  apply wp_bind, wp_modify. apply IH; [|done]. destruct Hc. split; try done.
  cbn. by rewrite cok_legal0, (proj2 (cok_live0 p) Hp).
Qed.

(** Making a wrapper when the old one goes. *)
Lemma client_connect_ok connected fd p hs c :
  tls_client_ok c -> live p (tc_calls c) = false ->
  wp (tls_client_connect connected fd p hs) (fun r c' => forall b, r = Ok b -> tls_client_ok c') c.
Proof.
  intros Hc Hp. unfold tls_client_connect. apply wp_bind, wp_modify.
  assert (Hc' : tls_client_ok (with_tc_fd fd c)) by (destruct Hc; by split).
  clear Hc. assert (Hp' : live p (tc_calls (with_tc_fd fd c)) = false) by done. clear Hp.
  assert (Hfd : is_Some (tc_fd (with_tc_fd fd c))) by eauto.
  generalize dependent (with_tc_fd fd c). clear c. intros c Hc Hp Hfd.
  destruct (negb connected); [by apply wp_ret|].
  apply wp_bind, wp_get. destruct (negb (tc_ctx c)); [by apply wp_lift|]. destruct Hc.
  unfold ClientTLSWrapper_make, wrapper_make, wrapper_tls_handshake, tls_client_release, wrapper_destroy, call.
  cbn in cok_transport0.
  assert (Hend : forall done c', tc_wrapper c' = Some {| tw_ssl := p; tw_handshake_done := done |} ->
    tc_transport c' = Some p -> is_Some (tc_fd c') ->
    tc_calls c' = from_option (fun w => [SslFree (tw_ssl w); SslShutdown (tw_ssl w)]) [] (tc_wrapper c) ++
                  shake done p :: SslNew p fd :: tc_calls c -> tls_client_ok c').
  { intros done c' Hw Ht Hf Hl. split; rewrite ?Hl, ?Ht, ?Hw; [| done | |done].
    - destruct (tc_wrapper c) as [w|]; destruct done; cbn; rewrite Z.eqb_refl, Hp, cok_legal0; try done;
        by rewrite (proj2 (cok_live0 _) cok_transport0), orb_true_r.
    - intros q. destruct (tc_wrapper c) as [w|]; destruct done; cbn in *.
      1,2: rewrite andb_true_iff, negb_true_iff, orb_true_iff, Z.eqb_neq, Z.eqb_eq, cok_live0, cok_transport0;
        (split; [naive_solver|]); intros [= <-]; (split; [|by left]); intros E;
        by rewrite (proj2 (cok_live0 p)) in Hp by congruence.
      all: rewrite orb_true_iff, Z.eqb_eq, cok_live0, cok_transport0; naive_solver. }
  destruct (tc_wrapper c) as [w|] eqn:Ew; destruct hs; wp_go; cbn in *; simplify_eq; intros b [=].
  1,3: by apply (Hend true).
  all: by apply (Hend false).
Qed.

Lemma client_step_ok e c : tls_client_ok c -> client_environment_ok c e ->
  wp (tls_client_step e) (fun r c' => r = Ok tt -> tls_client_ok c') c.
Proof.
  intros Hc He. destruct e as [connected fd p hs|hs|n|]; cbn [tls_client_step].
  - apply wp_bind. eapply wp_mono; [by apply client_connect_ok|]. intros [] c' H'; try done.
    apply wp_ret. intros _. by eapply H'.
  - unfold tls_client_handshake, wrapper_tls_handshake. apply wp_bind, wp_get. destruct Hc.
    destruct (tc_wrapper c) as [w|] eqn:Ew; [|by apply wp_lift].
    apply wp_bind, wp_bind, wp_modify, wp_lift. destruct hs; try done; apply wp_modify; intros _;
      (split; cbn; [|done|done|by intros _; apply cok_fd0]); by rewrite cok_legal0, (proj2 (cok_live0 _) cok_transport0).
  - unfold tls_client_use. apply wp_bind, wp_get. destruct (tc_transport c) as [p|] eqn:Ep; [|by apply wp_lift].
    eapply wp_mono; [by apply client_use_ok|]. by intros r c' (-> & ? & _).
  - unfold tls_client_disconnect. apply wp_bind, wp_get. destruct (tc_fd c); [|by apply wp_lift].
    apply wp_modify. intros _. destruct Hc. split; cbn; eauto.
Qed.

Lemma tls_client_reachable_ok c : tls_client_reachable c -> tls_client_ok c.
Proof.
  induction 1 as [ctx|c e c' _ IH He E]; [split; try done; by intros []|].
  by apply (wp_run _ _ _ _ _ E (client_step_ok e c IH He)).
Qed.

Lemma client_destroy_ok c : tls_client_ok c -> tc_fd c <> None ->
  exists c', Client_destroy c = (Ok tt, c') /\ calls_legal (tc_calls c') = true /\
    forall p, live p (tc_calls c') = false.
Proof.
  intros [Hl Ht Hv _] Hfd.
  unfold Client_destroy, tls_client_release, tls_client_disconnect, wrapper_destroy, mbind, M_bind, modify, get.
  destruct (tc_fd c); [|done]. cbn.
  destruct (tc_wrapper c) as [w|] eqn:Ew; cbn in *; eexists; (split; [reflexivity|]); cbn.
  - rewrite (proj2 (Hv _) Ht), Hl. split; [done|]. intros p.
    destruct (Z.eqb_spec (tw_ssl w) p) as [E|Hne]; cbn; [done|].
    apply not_true_iff_false. rewrite Hv, Ht. congruence.
  - split; [done|]. intros p. apply not_true_iff_false. rewrite Hv, Ht. done.
Qed.

(** ** The theorems *)

(** C23: [TLSTransport] behaves as [TCPTransport] does: for every sequence of results
    of [SSL_read], [receive] gives the same result, leaves the same bytes in the
    accumulation buffer and makes the same number of calls as
    [TCPTransport::receive] when [::recv] gives the corresponding results; and [send]
    of a message of less than 2^31 - 4 bytes returns the same value and puts the same
    bytes on the connection, whether [SSL_write] takes them or fails. From that size
    on they differ: [SSL_write] is given the size as an [int], and not all bytes are
    ever put on the connection. *)
Theorem tls_transport_agrees (t : StreamTransport) (events : list SslRead) (s : Socket) (data : bytes) (w : SslWrite) :
  transport_receive t {| sk_recv := map as_recv events; sk_send := sk_send s; sk_wire := sk_wire s |} =
    ('(r, t', rest) ← TLSTransport_receive t events;
     Ok (r, t', {| sk_recv := map as_recv rest; sk_send := sk_send s; sk_wire := sk_wire s |})) /\
  (zsize data + 4 < 2 ^ 31 ->
   transport_send_data data {| sk_recv := sk_recv s; sk_send := as_send (4 + length data) w :: sk_send s;
                               sk_wire := sk_wire s |} =
     let '(n, again, out) := TLSTransport_send data w in
     (n, again, {| sk_recv := sk_recv s; sk_send := sk_send s; sk_wire := sk_wire s ++ out |})) /\
  (2 ^ 31 <= zsize data + 4 -> zsize (TLSTransport_send data w).2 < zsize data + 4).
Proof.
  split_and!.
  - unfold transport_receive, TLSTransport_receive. cbn. rewrite receive_loop_tls.
    by destruct (TLSTransport_receive_loop [] events) as [[[r acc] rest]| |].
  - intros Hs. unfold transport_send_data, TLSTransport_send, sys_send, sys_ssl_write.
    set (b := htonl_bytes (u32 (zsize data)) ++ data).
    assert (Hb : length b = (4 + length data)%nat) by done.
    assert (Hz : zsize b = 4 + zsize data) by (unfold zsize; lia). pose proof (zsize_nonneg data).
    clearbody b. rewrite i32_small by lia. destruct w as [|errno]; cbn [as_send sk_recv sk_send sk_wire].
    + rewrite (proj2 (Z.ltb_lt _ _)) by lia. unfold zsize. rewrite Nat2Z.id, <- Hb, Nat.min_id, !firstn_all. done.
    + by destruct (errno =? EAGAIN).
  - intros Hs. unfold TLSTransport_send, sys_ssl_write.
    set (b := htonl_bytes (u32 (zsize data)) ++ data).
    assert (Hz : zsize b = 4 + zsize data) by (unfold zsize; cbn; lia). clearbody b.
    assert (i32 (zsize b) < 2 ^ 31) by (unfold i32; pose proof (Z.mod_pos_bound (zsize b + 2 ^ 31) (2 ^ 32)); lia).
    destruct w as [|errno]; [destruct (Z.ltb_spec 0 (i32 (zsize b)))|]; cbn [snd]; try (unfold zsize at 1; cbn; lia).
    unfold zsize at 1. rewrite length_take. lia.
Qed.

(** C16: For a running server, whatever epoll and the handshakes report: every [SSL]
    object and every descriptor is used, shut down, freed and closed only while it
    exists, and once; the existing objects are those the transports of the
    connections point to, the open descriptors those of the connections. The [SSL]
    objects add no undefined behaviour and no exception of their own but that of a
    failed handshake: an event is undefined only when taking the message out of the
    buffer is (by the framing), and throws otherwise only what the application throws.
    A disconnection closes the descriptor first and calls [SSL_shutdown] on the object
    after that, so that no client is ever told that its session ends. The destructor
    of the server shuts down each object while its descriptor is open, which tells
    the clients whose handshake is finished, and only those; it leaves no object and
    no descriptor behind. *)
Theorem ssl_lifetimes (t : TlsServer) :
  tls_reachable t ->
  calls_legal (ts_calls t) = true /\
  (forall p, live p (ts_calls t) = true <-> exists fd, ts_connections t !! fd = Some (Some p)) /\
  (forall fd, fd_open fd (ts_calls t) = true <-> is_Some (ts_connections t !! fd)) /\
  (forall e, environment_ok t e ->
     ((tls_step e t).1 = Undef -> message_of e = Undef) /\
     (forall x, (tls_step e t).1 = Throw x ->
        x = runtime_error "TLS SSL accept error" \/ message_of e = Throw x)) /\
  (forall fd mask hs a, fd ∈ ts_epoll t -> ev_err mask = true ->
     exists p t', tls_step (TlsReady fd mask hs a) t = (Ok tt, t') /\ ts_connections t !! fd = Some (Some p) /\
       ts_calls t' = SslFree p :: SslShutdown p :: FdClose fd :: ts_calls t) /\
  silent_shutdowns (ts_calls t) = shutdowns (ts_calls t) /\
  forall ws cs, (forall fd, is_Some (ts_wrappers t !! fd) -> fd ∈ ws) ->
    (forall fd, is_Some (ts_connections t !! fd) -> fd ∈ cs) ->
    exists t', Server_destroy ws cs t = (Ok tt, t') /\ calls_legal (ts_calls t') = true /\
      (forall p, live p (ts_calls t') = false) /\ (forall fd, fd_open fd (ts_calls t') = false) /\
      silent_shutdowns (ts_calls t') = (silent_shutdowns (ts_calls t) + unfinished (ts_wrappers t))%nat.
Proof.
  intros Hr. pose proof (tls_reachable_ok t Hr) as Ht.
  assert (Hc : forall fd x, ts_connections t !! fd = Some x <-> exists w, ts_wrappers t !! fd = Some w /\ x = Some (tw_ssl w)).
  { intros fd x. rewrite (ok_transports t Ht), lookup_fmap, fmap_Some. naive_solver. }
  split_and!; [apply Ht | | | | | apply Ht |].
  - intros p. rewrite (ok_live t Ht). setoid_rewrite Hc. naive_solver.
  - intros fd. rewrite (ok_open t Ht), (ok_transports t Ht), lookup_fmap. symmetry. apply fmap_is_Some.
  - intros e He. pose proof (tls_step_ok e t Ht He) as H. unfold wp in H.
    split; [|intros x]; intros E; by rewrite E in H.
  - intros fd mask hs a Hfd Herr. pose proof Hfd as Hfd'. rewrite (ok_epoll t Ht), elem_of_dom in Hfd'.
    destruct Hfd' as [w Hw]. exists (tw_ssl w), (forgotten fd (tw_ssl w) t). split_and!; [| apply Hc; eauto | done].
    unfold tls_step, tls_handle_event, mbind, M_bind, get, modify. rewrite bool_decide_true, Herr by done.
    by rewrite (forgotten_run t fd w Ht Hw).
  - intros ws cs Hws Hcs. pose proof (destroy_run ws cs t Ht Hws Hcs) as H. unfold wp in H.
    destruct (Server_destroy ws cs t) as [r t']. cbn in H. destruct H as (-> & [] & Hw' & Hc').
    exists t'. split_and!; try done.
    + intros p. apply not_true_iff_false. rewrite end_live0. intros (fd & v & H & _). by rewrite Hw', lookup_empty in H.
    + intros fd. apply not_true_iff_false. rewrite end_open0, Hc', lookup_empty. by intros [].
    + rewrite Hw' in end_silent0. change (unfinished ∅) with 0%nat in end_silent0. lia.
Qed.

(** C17: The server of [Stack], application included, and the model of its [SSL]
    objects go together, event by event. Whenever both have handled the same events
    (the same descriptors, masks and results of the handshakes, with [SSL_read]s that
    give what [Stack] received), they have the same clients, connections, descriptors
    in the event loop and finished handshakes; every connection has its own [SSL]
    object, which exists, and no other object exists; all objects and descriptors
    were used legally. And whenever [Stack] handles a further event and returns, with
    [accept] giving a descriptor that is not open, the other model handles the same
    event, whatever free address [SSL_new] gives, and returns too. *)
Theorem stack_refines_tls {ord : IterOrder} (cfg : AppConfig) (fd0 : Z) (s : MessagingServer TcpServer) (t : TlsServer) :
  matched_run (Stack_make cfg fd0) s t ->
  stack_tables (tcp s) = tls_tables t /\
  calls_legal (ts_calls t) = true /\
  (forall fd, is_Some (sv_connections (tcp s) !! fd) <->
     exists p, ts_connections t !! fd = Some (Some p) /\ live p (ts_calls t) = true) /\
  (forall p, live p (ts_calls t) = true ->
     exists fd, is_Some (sv_connections (tcp s) !! fd) /\ ts_connections t !! fd = Some (Some p)) /\
  (forall now e s' p, accept_fresh (tcp s) e -> stack_step now e s = (Ok tt, s') -> live p (ts_calls t) = false ->
     exists te t', same_event (tcp s) e te /\ (forall fd hs, e = Accepted fd hs -> te = TlsAccepted fd p hs) /\
       tls_step te t = (Ok tt, t') /\ matched_run (Stack_make cfg fd0) s' t').
Proof.
  intros H. destruct (matched_tables _ _ _ _ H) as [Ht E].
  assert (Hc : forall fd, is_Some (sv_connections (tcp s) !! fd) <-> is_Some (ts_wrappers t !! fd)).
  { intros fd. injection E as _ _ Ec _. by rewrite <- !elem_of_dom, Ec. }
  split_and!; [by rewrite tables_of_wrappers | apply Ht | | |].
  - intros fd. rewrite Hc, (ok_transports t Ht), lookup_fmap. split.
    + intros [w Hw]. exists (tw_ssl w). rewrite Hw. split; [done|]. apply (ok_live t Ht). eauto.
    + intros (p & Hp & _). by destruct (ts_wrappers t !! fd).
  - intros p (fd & w & Hw & <-)%(ok_live t Ht). exists fd. rewrite Hc, (ok_transports t Ht), lookup_fmap, Hw. eauto.
  - intros now e s' p He Hrun Hp.
    assert (Hx : exists te, same_event (tcp s) e te /\ (forall fd hs, e = Accepted fd hs -> te = TlsAccepted fd p hs) /\
      environment_ok t te).
    { destruct e as [fd hs|fd mask recvs sends hs].
      - exists (TlsAccepted fd p hs). split; [done|]. split; [by intros ? ? [= -> ->]|].
        split; [by eapply accept_fresh_fd | done].
      - eexists (TlsReady fd mask hs _). split; [split_and!; [done..|apply activity_agrees]|]. done. }
    destruct Hx as (te & Hsame & Hacc & Henv).
    pose proof (stack_step_follows now e te s s' t Ht E He Hsame Henv Hrun) as Hf. unfold follows, wp in Hf.
    destruct (tls_step te t) as [r t'] eqn:Et. cbn in Hf. destruct Hf as (-> & _ & _).
    exists te, t'. split_and!; [done..|]. by eapply matched_step.
Qed.

(** C29: The [SSL] object of a client, after any calls of [connect], [disconnect], the
    handshake and the transport that all returned: the transport points to the only
    object that exists, also after a second [connect], which frees the first object; it
    is used only while it exists, also after [disconnect]. [~Client] leaves none, once
    [connect] has been called; before that it is undefined, since [disconnect] reads a
    descriptor that was never set. [disconnect] frees the context, so that [connect]
    after it follows a null pointer. The object of a handshake that fails in [connect]
    belongs to nobody: it still exists after [~Client]; that of a handshake that fails
    later is freed by it. *)
Theorem client_ssl_lifetimes (c : TlsClient) :
  tls_client_reachable c ->
  calls_legal (tc_calls c) = true /\
  (forall p, live p (tc_calls c) = true <-> tc_transport c = Some p) /\
  (tc_fd c <> None ->
     exists c', Client_destroy c = (Ok tt, c') /\ calls_legal (tc_calls c') = true /\
       forall p, live p (tc_calls c') = false) /\
  (tc_fd c = None -> (Client_destroy c).1 = Undef /\ tc_transport c = None) /\
  (forall c', tls_client_disconnect c = (Ok tt, c') ->
     forall fd p hs, (tls_client_connect true fd p hs c').1 = Undef) /\
  (forall fd p c' e, live p (tc_calls c) = false -> tls_client_connect true fd p HsFailed c = (Throw e, c') ->
     tc_transport c' = tc_transport c /\
     exists c'', Client_destroy c' = (Ok tt, c'') /\ live p (tc_calls c'') = true) /\
  (forall c' e, tls_client_handshake HsFailed c = (Throw e, c') ->
     exists c'', Client_destroy c' = (Ok tt, c'') /\ forall p, live p (tc_calls c'') = false).
Proof.
  intros Hc%tls_client_reachable_ok. pose proof Hc as [Hl Ht Hv Hf]. split_and!; [done | done | | | | |].
  - intros Hfd. by apply client_destroy_ok.
  - intros Hfd. split; [unfold Client_destroy, tls_client_disconnect, mbind, M_bind, get; by rewrite Hfd|].
    rewrite Ht. destruct (tc_wrapper c); [|done]. destruct Hf as [fd E]; eauto. congruence.
  - intros c' Hd. unfold tls_client_disconnect, mbind, M_bind, get in Hd.
    destruct (tc_fd c); [|done]. injection Hd as <-. done.
  - intros fd p c' e Hp. unfold tls_client_connect, mbind, M_bind, get, modify. cbn.
    destruct (tc_ctx c); cbn; [|done]. intros [= <- <-]. split; [done|].
    unfold Client_destroy, tls_client_release, tls_client_disconnect, wrapper_destroy, mbind, M_bind, modify, get. cbn.
    destruct (tc_wrapper c) as [w|] eqn:Ew; cbn in *; eexists; (split; [reflexivity|]); cbn; rewrite Z.eqb_refl; [|done].
    destruct (Z.eqb_spec (tw_ssl w) p) as [E|]; [|done]. exfalso. subst p. by rewrite (proj2 (Hv _) Ht) in Hp.
  - intros c' e. unfold tls_client_handshake, wrapper_tls_handshake, mbind, M_bind, get. cbn.
    destruct (tc_wrapper c) as [w|] eqn:Ew; [|done]. cbn. intros [= <- <-].
    destruct (client_destroy_ok (with_calls (cons (SslUse (tw_ssl w))) c)) as (c'' & E & _ & H).
    + split; cbn; rewrite ?Ew; try done. by rewrite Hl, (proj2 (Hv _) Ht).
    + cbn. destruct Hf as [fd Efd]; [eauto|]. by rewrite Efd.
    + by exists c''.
Qed.

(** ** Examples *)

Definition demo_tls : TlsServer := (tls_step (TlsAccepted 5 1000 HsDone) TlsServer_make).2.

Lemma demo_tls_reachable : tls_reachable demo_tls.
Proof.
  apply (tls_reach_step TlsServer_make (TlsAccepted 5 1000 HsDone)); [constructor | done |].
  unfold demo_tls. by rewrite (surjective_pairing (tls_step _ _)) at 1.
Qed.

Lemma demo_keys {V} (v : V) fd : is_Some ((<[5 := v]> ∅ : gmap Z V) !! fd) -> fd ∈ [5].
Proof. rewrite lookup_insert_is_Some'. intros [<-|[? H]]; [set_solver | by rewrite lookup_empty in H]. Qed.

Lemma ssl_lifetimes_witness :
  live 1000 (ts_calls demo_tls) = true /\
  exists t', Server_destroy [5] [5] demo_tls = (Ok tt, t') /\ forall p, live p (ts_calls t') = false.
Proof.
  split; [by vm_compute|].
  destruct (ssl_lifetimes demo_tls demo_tls_reachable) as (_ & _ & _ & _ & _ & _ & Hd).
  destruct (Hd [5] [5]) as (t' & E & _ & Hl & _); [| | by exists t'].
  - exact (demo_keys {| tw_ssl := 1000; tw_handshake_done := true |}).
  - exact (demo_keys (Some 1000)).
Defined.

(** The server that has accepted a client, and the model of its objects. *)
Lemma demo_matched : matched_run (Stack_make demo_config 0) demo_stack demo_tls.
Proof.
  eapply (matched_step _ _ _ 0 (Accepted 5 HsDone) (TlsAccepted 5 1000 HsDone)); [constructor | cbn; set_solver | | done | done |].
  - unfold demo_stack. rewrite (surjective_pairing (stack_step _ _ _)) at 1. f_equal.
  - unfold demo_tls. by rewrite (surjective_pairing (tls_step _ _)) at 1.
Qed.

Lemma stack_refines_tls_witness :
  stack_tables (tcp demo_stack) = tls_tables demo_tls /\
  exists p, ts_connections demo_tls !! 5 = Some (Some p) /\ live p (ts_calls demo_tls) = true.
Proof.
  destruct (stack_refines_tls demo_config 0 demo_stack demo_tls demo_matched) as (E & _ & Hl & _).
  split; [exact E|]. apply Hl. eexists. vm_compute. reflexivity.
Defined.

(** A client that has connected, and has connected again. *)
Definition demo_tls_client1 : TlsClient := (tls_client_step (CConnect true 3 1000 HsDone) (TlsClient_make true)).2.
Definition demo_tls_client : TlsClient := (tls_client_step (CConnect true 4 2000 HsDone) demo_tls_client1).2.

Lemma demo_tls_client_reachable : tls_client_reachable demo_tls_client.
Proof.
  apply (tls_client_next demo_tls_client1 (CConnect true 4 2000 HsDone)); [|reflexivity..].
  apply (tls_client_next (TlsClient_make true) (CConnect true 3 1000 HsDone)); [constructor|reflexivity..].
Qed.

Lemma client_ssl_lifetimes_witness :
  tc_transport demo_tls_client = Some 2000 /\ live 1000 (tc_calls demo_tls_client) = false /\
  live 2000 (tc_calls demo_tls_client) = true /\
  exists c', Client_destroy demo_tls_client = (Ok tt, c') /\ live 2000 (tc_calls c') = false.
Proof.
  destruct (client_ssl_lifetimes demo_tls_client demo_tls_client_reachable) as (_ & Hl & Hd & _).
  split; [reflexivity|]. split; [reflexivity|]. split; [by apply Hl|].
  destruct Hd as (c' & E & _ & Hn); [discriminate|]. exists c'. split; [exact E | apply Hn].
Defined.

Lemma tls_transport_agrees_witness :
  transport_send_data (sbytes "hi") {| sk_recv := []; sk_send := [SendTook 6]; sk_wire := [] |}
  = (2, false, {| sk_recv := []; sk_send := []; sk_wire := frame (sbytes "hi") |}).
Proof.
  exact (proj1 (proj2 (tls_transport_agrees {| accumulation_buffer := [] |} [] {| sk_recv := []; sk_send := []; sk_wire := [] |}
    (sbytes "hi") WroteAll)) eq_refl).
Defined.
