(* ===== verification/Udp.v ===== *)
(** Datagrams: [UDPTransport] of [src/transport/transport.cpp]. *)
From S2P Require Import Prelude Message Wire Framing Sockets Transport TransportSpec.

(** ** System calls *)

(** The fields of [sockaddr_in] that are compared. *)
Record UdpAddress := {
  ua_ip : Z;
  ua_port : Z;
}.

#[global] Instance UdpAddress_eq_dec : EqDecision UdpAddress.
Proof. solve_decision. Defined.

(** What [::connect] and [::sendto] give: [::connect] fails, the datagram goes out
    whole, or [::sendto] fails. *)
Inductive UdpSendEvent :=
| UdpConnectFailed
| UdpSent
| UdpSendFailed.

(** What [::recvfrom] gives: the next datagram and where it is from, or -1 with
    [errno]. *)
Inductive UdpRecvEvent :=
| UdpDatagram (from : UdpAddress) (data : bytes)
| UdpAgain
| UdpError (errno : Z).

Definition EBADMSG : Z := 74.

(** ** [UDPTransport] *)

Record UDPTransport := {
  udp_addr : UdpAddress;
}.

(** The return value, and the datagram that went out. *)
Definition UDPTransport_send (data : bytes) (ev : UdpSendEvent) : Z * option bytes :=
  match ev with
  | UdpConnectFailed => (0, None)
  | UdpSent =>
      let send_buffer := htonl_bytes (u32 (zsize data)) ++ data in
      let sent := zsize send_buffer in
      (if 0 <? sent then sent - 4 else sent, Some send_buffer)
  | UdpSendFailed => (-1, None)
  end.

(** [sizeof(temp)]: a longer datagram is cut. *)
Definition udp_temp_size : nat := 4096.

Definition udp_error (code : Z) : outcome ReceiveResult :=
  Ok {| rr_status := RError; rr_data := NetBuffer_make; rr_error_code := code |}.

Definition UDPTransport_receive (t : UDPTransport) (ev : UdpRecvEvent) : outcome ReceiveResult :=
  match ev with
  | UdpDatagram from data =>
      let temp := take udp_temp_size data in
      let bytes := zsize temp in
      if 0 <? bytes then
        if negb (ua_ip from =? ua_ip (udp_addr t)) || negb (ua_port from =? ua_port (udp_addr t))
        then udp_error EINVAL
        else if bytes <? 4 then udp_error EBADMSG
        else
          declared_len ← ntohl_prefix temp;
          if negb (bytes =? 4 + declared_len) then udp_error EBADMSG
          else
            message ← range temp 4 (4 + declared_len);
            receive_result ROk message 0
      else Ok {| rr_status := RClosed; rr_data := NetBuffer_make; rr_error_code := 0 |}
  | UdpAgain => Ok {| rr_status := RWouldBlock; rr_data := NetBuffer_make; rr_error_code := 0 |}
  | UdpError errno => udp_error errno
  end.

(** ** Lemmas *)

(** The test of the header is that the datagram is a frame. *)
Lemma declared_frame temp len :
  ntohl_prefix temp = Ok len -> zsize temp = 4 + len -> temp = frame (drop 4 temp) /\ range temp 4 (4 + len) = Ok (drop 4 temp).
Proof.
  intros (q & -> & Hv)%ntohl_prefix_inv Hz.
  assert (Hq : zsize q = len) by (revert Hz; sizes).
  change (drop 4 (write_u32 len ++ q)) with q. split.
  - rewrite frame_eq, Hq. unfold u32. by rewrite Z.mod_small by lia.
  - rewrite <- (app_nil_r q) at 1. apply range_app; sizes.
Qed.

Lemma frame_declared m : zsize m < 2 ^ 32 -> ntohl_prefix (frame m) = Ok (zsize m).
Proof.
  intros Hm. pose proof (zsize_nonneg m). rewrite frame_eq, u32_zsize by done. by apply ntohl_prefix_write; lia.
Qed.

(** ** Properties *)

(** What a datagram gives, on every branch: a message is taken only from the
    address of the transport, only when the datagram is exactly one frame of at most
    4096 bytes, and then it is the message that was framed; an empty datagram counts
    as the end of the connection; everything else is an error, and nothing is
    undefined. *)
Theorem udp_datagram_outcome (t : UDPTransport) (from : UdpAddress) (data : bytes) :
  exists r, UDPTransport_receive t (UdpDatagram from data) = Ok r /\
    (rr_status r = ROk <-> from = udp_addr t /\ exists m, take udp_temp_size data = frame m) /\
    (forall m, take udp_temp_size data = frame m -> rr_status r = ROk -> NetBuffer_contents (rr_data r) = Ok m) /\
    (rr_status r = RClosed <-> data = []) /\
    (rr_status r = ROk \/ rr_status r = RClosed \/ rr_status r = RError).
Proof.
  set (temp := take udp_temp_size data).
  assert (Hmax : zsize temp <= 4096) by (unfold temp, zsize, udp_temp_size; rewrite length_take; lia).
  assert (Hnil : temp = [] <-> data = []) by (unfold temp, udp_temp_size; by destruct data).
  assert (Hframe : forall m, temp = frame m -> ntohl_prefix temp = Ok (zsize m) /\ zsize temp = 4 + zsize m).
  { intros m E. rewrite E in Hmax |- *. rewrite zsize_frame in *. split; [apply frame_declared; lia | done]. }
  unfold UDPTransport_receive, udp_error. fold temp.
  destruct (Z.ltb_spec 0 (zsize temp)) as [Hpos|Hpos].
  2: { assert (temp = []) as E by (apply zsize_zero; pose proof (zsize_nonneg temp); lia).
       eexists. split; [done|]. cbn. split_and!; [|done|by rewrite <- Hnil|by right; left].
       split; [done|]. intros [_ [m Hm]]. destruct (Hframe m Hm) as [_ Hz]. pose proof (zsize_nonneg m). lia. }
  assert (Hne : data <> []) by (rewrite <- Hnil; intros E; rewrite E in Hpos; done).
  assert (Herr : forall code, ~ (from = udp_addr t /\ exists m, temp = frame m) -> exists r,
    Ok {| rr_status := RError; rr_data := NetBuffer_make; rr_error_code := code |} = Ok r /\
    (rr_status r = ROk <-> from = udp_addr t /\ exists m, temp = frame m) /\
    (forall m, temp = frame m -> rr_status r = ROk -> NetBuffer_contents (rr_data r) = Ok m) /\
    (rr_status r = RClosed <-> data = []) /\
    (rr_status r = ROk \/ rr_status r = RClosed \/ rr_status r = RError)).
  { intros code Hn. eexists. split; [done|]. cbn [rr_status].
    split_and!; [by split; [|intros Hx; destruct Hn] | done | by split | by right; right]. }
  destruct (Z.eqb_spec (ua_ip from) (ua_ip (udp_addr t))) as [Hip|Hip]; cbn [negb orb]; [|apply Herr; intros [-> _]; done].
  destruct (Z.eqb_spec (ua_port from) (ua_port (udp_addr t))) as [Hport|Hport]; cbn [negb]; [|apply Herr; intros [-> _]; done].
  assert (Hfrom : from = udp_addr t) by (destruct from, (udp_addr t); cbn in *; congruence).
  destruct (Z.ltb_spec (zsize temp) 4) as [H4|H4].
  { apply Herr. intros [_ [m Hm]]. destruct (Hframe m Hm) as [_ Hz]. pose proof (zsize_nonneg m). lia. }
  destruct (ntohl_prefix_defined temp H4) as [len Hlen]. rewrite Hlen. cbn [mbind outcome_bind].
  destruct (Z.eqb_spec (zsize temp) (4 + len)) as [Hz|Hz]; cbn [negb].
  - destruct (declared_frame temp len Hlen Hz) as [Hf ->]. cbn [mbind outcome_bind].
    destruct (receive_result_run ROk (drop 4 temp) 0) as (r & -> & Hst & _ & Hc).
    exists r. rewrite Hst. split_and!; [done|by split; [split; [|eexists]|]| |by split|by left].
    intros m Hm _. rewrite Hc, Hm. done.
  - apply Herr. intros [_ [m Hm]]. destruct (Hframe m Hm) as [Hl Hz']. rewrite Hlen in Hl. injection Hl as ->. lia.
Qed.

(** Datagrams round trip: a message of at most 4092 bytes that went out is
    received as it was sent, by a transport with the address of the sender, and the
    sender is told its size; a longer one is refused by the receiver although the
    sender is told that it was sent. *)
Theorem udp_roundtrip (t : UDPTransport) (m : bytes) :
  zsize m < 2 ^ 32 ->
  exists d r, UDPTransport_send m UdpSent = (zsize m, Some d) /\
    UDPTransport_receive t (UdpDatagram (udp_addr t) d) = Ok r /\
    if zsize m <=? 4092 then rr_status r = ROk /\ NetBuffer_contents (rr_data r) = Ok m
    else rr_status r = RError /\ rr_error_code r = EBADMSG.
Proof.
  intros Hm. pose proof (zsize_nonneg m). unfold UDPTransport_send.
  change (htonl_bytes (u32 (zsize m)) ++ m) with (frame m). rewrite zsize_frame.
  rewrite (proj2 (Z.ltb_lt 0 _)) by lia. replace (4 + zsize m - 4) with (zsize m) by lia.
  exists (frame m). unfold UDPTransport_receive. rewrite !Z.eqb_refl. cbn [negb orb].
  destruct (Z.leb_spec (zsize m) 4092) as [Hs|Hs].
  - rewrite take_ge by (pose proof (zsize_frame m); unfold zsize, udp_temp_size in *; lia).
    rewrite zsize_frame, frame_declared, (proj2 (Z.ltb_lt 0 _)), (proj2 (Z.ltb_ge _ 4)) by lia. cbn [mbind outcome_bind].
    rewrite Z.eqb_refl. cbn [negb].
    destruct (declared_frame (frame m) (zsize m)) as [_ ->]; [by apply frame_declared | apply zsize_frame |].
    cbn [mbind outcome_bind]. destruct (receive_result_run ROk (drop 4 (frame m)) 0) as (r & -> & Hst & _ & Hc).
    by exists r.
  - assert (Hlen : length (take udp_temp_size (frame m)) = 4096%nat).
    { pose proof (zsize_frame m). rewrite length_take. unfold zsize, udp_temp_size in *. lia. }
    assert (Hp : ntohl_prefix (take udp_temp_size (frame m)) = Ok (zsize m)).
    { rewrite frame_eq, u32_zsize by done. unfold udp_temp_size.
      rewrite take_app_ge by (cbn; lia). apply ntohl_prefix_write; lia. }
    assert (Hz : zsize (take udp_temp_size (frame m)) = 4096) by (unfold zsize; lia).
    eexists. split; [done|]. rewrite Hz, Hp. cbn -[Z.eqb Z.add].
    rewrite (proj2 (Z.eqb_neq _ _)) by lia. done.
Qed.

Lemma udp_roundtrip_witness :
  exists d r, UDPTransport_send (sbytes "hi") UdpSent = (2, Some d) /\
    UDPTransport_receive {| udp_addr := {| ua_ip := 1; ua_port := 80 |} |}
      (UdpDatagram {| ua_ip := 1; ua_port := 80 |} d) = Ok r /\
    rr_status r = ROk /\ NetBuffer_contents (rr_data r) = Ok (sbytes "hi").
Proof.
  destruct (udp_roundtrip {| udp_addr := {| ua_ip := 1; ua_port := 80 |} |} (sbytes "hi")) as (d & r & H1 & H2 & H3);
    [reflexivity|]. exists d, r. split; [exact H1|]. split; [exact H2 | exact H3].
Defined.
