(* ===== verification/Startup.v ===== *)
(** How the objects of the transport are made and destroyed: [EventLoop]
    ([src/transport/event_loop.cpp]), the constructors and the destructor of [Server]
    and of [Client], [ServerFactory], and the acceptors ([src/transport/acceptor.cpp])
    with the descriptors their connections own. *)
From S2P Require Import Prelude Message Wire Framing Sockets Transport TransportSpec Udp Stack Tls.

(** ** What the constructors hold *)

(** The calls that get and give back a descriptor or an [SSL_CTX]; the last one
    first. *)
Inductive SetupCall :=
| Opened (fd : Z)
| Registered (epfd fd : Z)
| Woken (fd : Z)
| Deregistered (epfd fd : Z)
| ShutDown (fd : Z)
| Closed (fd : Z)
| ContextMade
| ContextFreed.

Fixpoint held_fds (calls : list SetupCall) : list Z :=
  match calls with
  | [] => []
  | Opened fd :: l => fd :: held_fds l
  | Closed fd :: l => list_difference (held_fds l) [fd]
  | _ :: l => held_fds l
  end.

Fixpoint contexts (calls : list SetupCall) : Z :=
  match calls with
  | [] => 0
  | ContextMade :: l => contexts l + 1
  | ContextFreed :: l => contexts l - 1
  | _ :: l => contexts l
  end.

Definition did (c : SetupCall) : M (list SetupCall) unit := modify (cons c).

(** A call that gives a descriptor, or -1. *)
Definition opens (fd : Z) : M (list SetupCall) unit := if fd =? -1 then mret tt else did (Opened fd).

(** The destructor of an [Fd]. *)
Definition Fd_closes (fd : Z) : M (list SetupCall) unit := if fd =? -1 then mret tt else did (Closed fd).

(** ** [EventLoop] *)

Record EventLoopFds := {
  el_epollfd : Z;
  el_wakeup_fd : Z;
}.

(** What [epoll_create1] and [eventfd] give. When the constructor throws, the members
    that are made are destroyed: both [Fd]s, of which one or none holds a descriptor. *)
Definition EventLoop_make (epollfd wakeup_fd : Z) : M (list SetupCall) EventLoopFds :=
  _ ← opens epollfd;
  if epollfd =? -1 then lift (Throw (runtime_error "epoll_create1 failed"))
  else
    _ ← opens wakeup_fd;
    if wakeup_fd =? -1 then
      _ ← Fd_closes wakeup_fd;
      _ ← Fd_closes epollfd;
      lift (Throw (runtime_error "eventfd failed"))
    else
      _ ← did (Registered epollfd wakeup_fd);
      mret {| el_epollfd := epollfd; el_wakeup_fd := wakeup_fd |}.

Definition EventLoop_destroy (l : EventLoopFds) : M (list SetupCall) unit :=
  _ ← did (Woken (el_wakeup_fd l));
  _ ← Fd_closes (el_wakeup_fd l);
  Fd_closes (el_epollfd l).

(** ** [Server] and [Client] *)

Record SetupAnswers := {
  sa_epollfd : Z;
  sa_wakeup_fd : Z;
  sa_context : bool;
  sa_certificate : bool;
  sa_private_key : bool;
}.

(** [so_context] tells whether [ssl_ctx_] is not null; [so_fd] is the [fd] of the
    socket, which its constructor does not set. *)
Record SetupObject := {
  so_event_loop : EventLoopFds;
  so_context : bool;
  so_socket : SocketType;
  so_fd : option Z;
}.

(** When the body of the constructor throws, its members are destroyed, the event loop
    with them; [ssl_ctx_] is a plain pointer. *)
Definition Server_construct (env : SetupAnswers) (t : SocketType) : M (list SetupCall) SetupObject :=
  event_loop ← EventLoop_make (sa_epollfd env) (sa_wakeup_fd env);
  if negb (sa_context env) then
    _ ← EventLoop_destroy event_loop;
    lift (Throw (runtime_error "TLS context initialization failed!"))
  else
    _ ← did ContextMade;
    if negb (sa_certificate env) || negb (sa_private_key env) then
      _ ← EventLoop_destroy event_loop;
      lift (Throw (runtime_error "TLS certificate load failed!"))
    else mret {| so_event_loop := event_loop; so_context := true; so_socket := t; so_fd := is_fd (ISocket_make t) |}.

(** [~Server]: [stop] wakes the event loop of a running server. *)
Definition Server_destruct (running : bool) (s : SetupObject) : M (list SetupCall) unit :=
  _ ← (if so_context s then did ContextFreed else mret tt);
  _ ← (if running then did (Woken (el_wakeup_fd (so_event_loop s))) else mret tt);
  EventLoop_destroy (so_event_loop s).

(** [ServerFactory::tcp_server] and [udp_server] give the server its kind of socket. *)
Definition ServerFactory_tcp_server (env : SetupAnswers) : M (list SetupCall) SetupObject := Server_construct env TCP.
Definition ServerFactory_udp_server (env : SetupAnswers) : M (list SetupCall) SetupObject := Server_construct env UDP.

(** [Client] does not look at what [SSL_CTX_new] gives. *)
Definition Client_construct (env : SetupAnswers) (t : SocketType) : M (list SetupCall) SetupObject :=
  event_loop ← EventLoop_make (sa_epollfd env) (sa_wakeup_fd env);
  _ ← (if sa_context env then did ContextMade else mret tt);
  mret {| so_event_loop := event_loop; so_context := sa_context env; so_socket := t; so_fd := is_fd (ISocket_make t) |}.

(** [setup_connection] sets the descriptor of the socket, to -1 when there is none to
    be had. *)
Definition Client_socket_set (fd : Z) (c : SetupObject) : M (list SetupCall) SetupObject :=
  _ ← opens fd;
  mret {| so_event_loop := so_event_loop c; so_context := so_context c; so_socket := so_socket c; so_fd := Some fd |}.

(** [~Client] calls [disconnect], which reads the descriptor of the socket and, when
    it is not -1, takes it out of the event loop and shuts it down; it frees the
    context. The members go after that, the event loop with them; [~ISocket] closes
    nothing. *)
Definition Client_destruct (c : SetupObject) : M (list SetupCall) unit :=
  match so_fd c with
  | None => lift Undef
  | Some fd =>
      _ ← (if fd =? -1 then mret tt
           else
             _ ← did (Deregistered (el_epollfd (so_event_loop c)) fd);
             _ ← did (ShutDown fd);
             did (Woken (el_wakeup_fd (so_event_loop c))));
      _ ← (if so_context c then did ContextFreed else mret tt);
      EventLoop_destroy (so_event_loop c)
  end.

(** ** The acceptors of datagrams *)

(** [UDPAcceptor::accept] only peeks at the next datagram, and gives a connection that
    owns the socket of the server. *)
Definition UDPAcceptor_accept (server_fd : Z) (peeked : option UdpAddress) : option (Z * UDPTransport) :=
  match peeked with
  | None => None
  | Some addr => Some (server_fd, {| udp_addr := addr |})
  end.

(** [AcceptHandler::handle_event] with this acceptor. *)
Definition udp_accepted (server_fd : Z) (peeked : option UdpAddress) (p : Z) (hs : HandshakeEvent) : M TlsServer unit :=
  match UDPAcceptor_accept server_fd peeked with
  | None => mret tt
  | Some (fd, _) => tls_on_client_connected fd p hs
  end.

(** ** [ITransport] *)

(** The [std::variant] of the three transports. *)
Inductive ITransport :=
| ITcp (t : StreamTransport)
| IUdp (t : UDPTransport)
| ITls (t : StreamTransport).

(** What the calls of each kind of transport give. *)
Record TransportCalls := {
  tc_socket : Socket;
  tc_udp_send : UdpSendEvent;
  tc_udp_recv : UdpRecvEvent;
  tc_ssl_write : SslWrite;
  tc_ssl_reads : list SslRead;
}.

(** [std::visit] of [send] and of [receive]. [send] gives its result and what went
    out. *)
Definition ITransport_send (data : bytes) (env : TransportCalls) (t : ITransport) : Z * bytes :=
  match t with
  | ITcp _ =>
      let '(n, _, s) := transport_send_data data (tc_socket env) in
      (n, drop (length (sk_wire (tc_socket env))) (sk_wire s))
  | IUdp _ => let '(n, out) := UDPTransport_send data (tc_udp_send env) in (n, default [] out)
  | ITls _ => let '(n, _, out) := TLSTransport_send data (tc_ssl_write env) in (n, out)
  end.

Definition ITransport_receive (env : TransportCalls) (t : ITransport) : outcome (ReceiveResult * ITransport) :=
  match t with
  | ITcp t => '(r, t, _) ← transport_receive t (tc_socket env); Ok (r, ITcp t)
  | IUdp t => r ← UDPTransport_receive t (tc_udp_recv env); Ok (r, IUdp t)
  | ITls t => '(r, t, _) ← TLSTransport_receive t (tc_ssl_reads env); Ok (r, ITls t)
  end.

(** ** The properties *)

Lemma close_both (wk ep : Z) : list_difference (list_difference [wk; ep] [wk]) [ep] = [].
Proof. apply elem_of_nil_inv. intros x. rewrite !list_elem_of_difference. set_solver. Qed.

Lemma close_both_keeps (fd wk ep : Z) : fd <> wk -> fd <> ep ->
  list_difference (list_difference [fd; wk; ep] [wk]) [ep] = [fd].
Proof.
  intros Hw He. assert (H2 : forall (x y : Z) l, x <> y -> list_difference (x :: l) [y] = x :: list_difference l [y]).
  { intros x y l Hxy. cbn. destruct (decide_rel _ x [y]) as [H|]; [|done]. by apply list_elem_of_singleton in H. }
  rewrite !H2 by done. f_equal. apply close_both.
Qed.

Lemma event_loop_run ep wk calls :
  EventLoop_make ep wk calls =
  if ep =? -1 then (Throw (runtime_error "epoll_create1 failed"), calls)
  else if wk =? -1 then (Throw (runtime_error "eventfd failed"), Closed ep :: Opened ep :: calls)
  else (Ok {| el_epollfd := ep; el_wakeup_fd := wk |}, Registered ep wk :: Opened wk :: Opened ep :: calls).
Proof.
  unfold EventLoop_make, opens, Fd_closes, did. destruct (ep =? -1) eqn:Ep; [done|].
  by destruct (wk =? -1) eqn:Ew.
Qed.

Lemma event_loop_end ep wk calls : (ep =? -1) = false -> (wk =? -1) = false ->
  EventLoop_destroy {| el_epollfd := ep; el_wakeup_fd := wk |} calls =
  (Ok tt, Closed ep :: Closed wk :: Woken wk :: calls).
Proof. intros Ep Ew. unfold EventLoop_destroy, Fd_closes. cbn. rewrite Ew, Ep. done. Qed.

(** C36: What making and destroying a [Server] or a [Client] holds and gives back. A
    [Server] that is made holds the two descriptors of its event loop and its context,
    and its destructor gives them back; when its constructor throws (for each of its
    reasons), no descriptor is left open, but the [SSL_CTX] is not freed when the
    certificate or the key cannot be loaded. The constructor of [Client] throws for
    its event loop only, and goes on without a context. Destroying a [Client] whose
    [connect] was never called is undefined, since the descriptor of its socket is
    read without having been set; after [setup_connection] has set it, the destructor
    gives back the descriptors of the event loop and the context, and shuts down the
    descriptor of the socket without closing it: that one stays open. *)
Theorem setup_resources (env : SetupAnswers) (t : SocketType) :
  (let '(r, calls) := Server_construct env t [] in
   match r with
   | Ok s => so_context s = true /\ held_fds calls = [sa_wakeup_fd env; sa_epollfd env] /\ contexts calls = 1 /\
       forall running, let '(r', calls') := Server_destruct running s calls in
         r' = Ok tt /\ held_fds calls' = [] /\ contexts calls' = 0
   | Throw e =>
       held_fds calls = [] /\
       (sa_epollfd env = -1 /\ e = runtime_error "epoll_create1 failed" /\ contexts calls = 0 \/
        sa_wakeup_fd env = -1 /\ e = runtime_error "eventfd failed" /\ contexts calls = 0 \/
        sa_context env = false /\ e = runtime_error "TLS context initialization failed!" /\ contexts calls = 0 \/
        sa_certificate env && sa_private_key env = false /\ e = runtime_error "TLS certificate load failed!" /\
          contexts calls = 1)
   | Undef => False
   end) /\
  (let '(r, calls) := Client_construct env t [] in
   match r with
   | Ok c => so_context c = sa_context env /\ held_fds calls = [sa_wakeup_fd env; sa_epollfd env] /\
       (Client_destruct c calls).1 = Undef /\
       (forall fd, fd <> sa_epollfd env -> fd <> sa_wakeup_fd env ->
          let '(r', calls') := (c' ← Client_socket_set fd c; Client_destruct c') calls in
          r' = Ok tt /\ held_fds calls' = (if fd =? -1 then [] else [fd]) /\ contexts calls' = 0 /\
          (fd <> -1 -> ShutDown fd ∈ calls'))
   | Throw _ => held_fds calls = [] /\ contexts calls = 0 /\ (sa_epollfd env = -1 \/ sa_wakeup_fd env = -1)
   | Undef => False
   end).
Proof.
  destruct env as [ep wk ctx cert key]. unfold Server_construct, Client_construct, Server_destruct, Client_destruct,
    Client_socket_set, opens, mbind, M_bind, did, modify, lift, mret, M_ret.
  cbn [sa_epollfd sa_wakeup_fd sa_context sa_certificate sa_private_key]. rewrite event_loop_run.
  destruct (ep =? -1) eqn:Ep; [apply Z.eqb_eq in Ep; subst; split; [split; [done | by left] | by auto]|].
  destruct (wk =? -1) eqn:Ew.
  { apply Z.eqb_eq in Ew. subst. assert (held_fds [Closed ep; Opened ep] = []) by (apply elem_of_nil_inv; intros x; cbn [held_fds]; rewrite list_elem_of_difference; set_solver).
    split; [split; [done | by right; left] | by auto]. }
  pose proof (close_both wk ep) as Hc. split.
  - destruct ctx; cbn [negb]; [destruct cert, key; cbn [negb orb]|]; rewrite ?event_loop_end by done.
    1: split_and!; [done..|]; intros running; destruct running; cbn [so_event_loop so_context];
      rewrite event_loop_end by done; split_and!; done.
    all: split; [exact Hc | auto 10].
  - destruct ctx; cbn [so_context so_fd ISocket_make is_fd fst]; (split_and!; [done..|]); intros fd Hep Hwk;
      pose proof (close_both_keeps fd wk ep Hwk Hep) as Hk;
      (destruct (Z.eqb_spec fd (-1)) as [->|Hfd]; cbn -[EventLoop_destroy held_fds contexts Z.eqb];
       [change (-1 =? -1) with true | rewrite (proj2 (Z.eqb_neq fd (-1)) Hfd)];
       cbn -[EventLoop_destroy held_fds contexts Z.eqb]; rewrite event_loop_end by done;
       (split_and!; [done | exact Hc || exact Hk | done | set_solver])).
Qed.

(** *** Any transport *)

(** Calls that take everything at once, and calls that give what went out. *)
Definition all_taken : TransportCalls :=
  {| tc_socket := {| sk_recv := []; sk_send := []; sk_wire := [] |}; tc_udp_send := UdpSent; tc_udp_recv := UdpAgain;
     tc_ssl_write := WroteAll; tc_ssl_reads := [] |}.

Definition arriving (out : bytes) (from : UdpAddress) : TransportCalls :=
  {| tc_socket := {| sk_recv := [RecvBytes out]; sk_send := []; sk_wire := [] |}; tc_udp_send := UdpSent;
     tc_udp_recv := UdpDatagram from out; tc_ssl_write := WroteAll; tc_ssl_reads := [ReadBytes out] |}.

Definition same_kind (t t' : ITransport) : bool :=
  match t, t' with
  | ITcp _, ITcp _ | IUdp _, IUdp _ | ITls _, ITls _ => true
  | _, _ => false
  end.

(** A message of a size the other side takes, and that [SSL_write] takes; datagrams carry at most 4092 bytes, from
    the address the transport has. *)
Definition carries (data : bytes) (from : UdpAddress) (t : ITransport) : bool :=
  match t with
  | ITcp _ => zsize data <? 2 ^ 32
  | ITls _ => zsize data <? 2 ^ 31 - 4
  | IUdp u => (zsize data <=? 4092) && bool_decide (from = udp_addr u)
  end.

Lemma tls_receive_frame m acc rest : zsize m < 2 ^ 32 ->
  TLSTransport_receive_loop [] (ReadBytes (frame m ++ acc) :: rest) =
  (r ← receive_result ROk m 0; Ok (r, acc, rest)).
Proof. intros Hm. cbn [TLSTransport_receive_loop app]. by rewrite extract_complete_frame. Qed.

Lemma send_all_taken data t :
  match t with ITls _ => zsize data < 2 ^ 31 - 4 | _ => True end ->
  ITransport_send data all_taken t = (zsize data, frame data).
Proof.
  intros Hsize. pose proof (zsize_nonneg data).
  assert (Hi : match t with ITls _ => i32 (zsize (frame data)) = zsize (frame data) | _ => True end)
    by (destruct t; [done..|]; apply i32_small; rewrite zsize_frame; lia). clear Hsize.
  assert (Hz : zsize (frame data) - 4 = zsize data) by (rewrite zsize_frame; lia).
  assert (0 < zsize (frame data)) by (rewrite zsize_frame; pose proof (zsize_nonneg data); lia).
  unfold ITransport_send, transport_send_data, UDPTransport_send, TLSTransport_send.
  change (htonl_bytes (u32 (zsize data)) ++ data) with (frame data). generalize dependent (frame data). intros f Hi Hz Hf.
  destruct t; cbn [all_taken tc_socket tc_udp_send tc_ssl_write sys_send sys_ssl_write sk_send sk_wire sk_recv length drop app default].
  - by rewrite Hz, firstn_all.
  - by rewrite (proj2 (Z.ltb_lt _ _) Hf), Hz.
  - rewrite Hi, (proj2 (Z.ltb_lt _ _) Hf), Hz. unfold zsize. by rewrite Nat2Z.id, firstn_all.
Qed.

(** Whatever the transport behind [ITransport] is, [send] reports the size of the
    message, and [receive] of a transport of the same kind, given the bytes that went
    out, reports success and hands out the message as it was sent. *)
Theorem itransport_roundtrip (data : bytes) (from : UdpAddress) (t t' : ITransport) :
  same_kind t t' = true -> carries data from t' = true ->
  let '(n, out) := ITransport_send data all_taken t in
  n = zsize data /\
  exists r t'', ITransport_receive (arriving out from) t' = Ok (r, t'') /\ same_kind t' t'' = true /\
    rr_status r = ROk /\ NetBuffer_contents (rr_data r) = Ok data.
Proof.
  intros Hk Hc. rewrite send_all_taken by (destruct t, t'; try done; by apply Z.ltb_lt in Hc). split; [done|].
  destruct (receive_result_run ROk data 0) as (r & Hr & Hst & _ & Hcon).
  destruct t as [t|t|t], t' as [u|u|u]; try done; cbn [carries] in Hc; unfold ITransport_receive; cbn [arriving tc_socket tc_udp_recv tc_ssl_reads].
  - apply Z.ltb_lt in Hc. unfold transport_receive.
    pose proof (receive_loop_frame data (frame data) [] [] [] []) as E. cbn [map app concat] in E. cbn [sk_recv].
    rewrite E, Hr; [|done|by rewrite app_nil_r|rewrite zsize_frame; sizes]. by eexists _, _.
  - apply andb_true_iff in Hc as [Hs%Z.leb_le ->%bool_decide_eq_true_1].
    destruct (udp_roundtrip u data) as (d & r' & E & Hrun & Ho); [lia|]. rewrite (proj2 (Z.leb_le _ _) Hs) in Ho.
    assert (d = frame data) as -> by exact (eq_sym (inj Some _ _ (f_equal snd E))). rewrite Hrun. by eexists _, _.
  - apply Z.ltb_lt in Hc. unfold TLSTransport_receive.
    rewrite <- (app_nil_r (frame data)), tls_receive_frame, Hr by lia. by eexists _, _.
Qed.

Lemma setup_certificate_missing :
  contexts (Server_construct {| sa_epollfd := 3; sa_wakeup_fd := 4; sa_context := true; sa_certificate := false;
                                sa_private_key := true |} TCP []).2 = 1.
Proof. done. Qed.

(** A server of datagrams: the first datagram makes a connection that owns the socket
    of the server, and the second one closes it, while its descriptor stays in every
    table. *)
Theorem udp_server_closes_its_socket (fd p q : Z) (a b : UdpAddress) (t : TlsServer) :
  ts_connections t !! fd = None -> ts_wrappers t !! fd = None -> fd_open fd (ts_calls t) = true ->
  let t1 := (udp_accepted fd (Some a) p HsWant t).2 in
  let t2 := (udp_accepted fd (Some b) q HsWant t1).2 in
  ts_connections t1 !! fd = Some (Some p) /\ fd_open fd (ts_calls t1) = true /\
  ts_connections t2 !! fd = Some (Some q) /\ fd ∈ ts_clients t2 /\ fd ∈ ts_epoll t2 /\
  fd_open fd (ts_calls t2) = false.
Proof.
  intros Hc Hw Ho. unfold udp_accepted, UDPAcceptor_accept.
  assert (H1 : tls_on_client_connected fd p HsWant t = (Ok tt,
    {| ts_connections := <[fd := Some p]> (<[fd := None]> (ts_connections t)); ts_clients := {[fd]} ∪ ts_clients t;
       ts_wrappers := <[fd := {| tw_ssl := p; tw_handshake_done := false |}]> (ts_wrappers t);
       ts_epoll := {[fd]} ∪ ts_epoll t; ts_calls := SslUse p :: SslNew p fd :: ts_calls t |})).
  { unfold tls_on_client_connected, tls_add_connection, release_connection, release_wrapper, wrapper_destroy, wrapper_make,
      wrapper_tls_handshake, call, mbind, M_bind, get, modify, lift.
    rewrite Hc. cbn. rewrite Hw. done. }
  rewrite H1. cbn [snd]. split_and!; [by cbn; rewrite lookup_insert_eq | exact Ho | ..];
    unfold tls_on_client_connected, tls_add_connection, release_connection, release_wrapper, wrapper_destroy, wrapper_make,
      wrapper_tls_handshake, call, mbind, M_bind, get, modify, lift;
    cbn; rewrite !lookup_insert_eq; cbn; rewrite ?lookup_insert_eq; cbn.
  - apply lookup_insert_eq.
  - set_solver.
  - set_solver.
  - by rewrite Z.eqb_refl.
Qed.

(** ** The properties on concrete inputs *)

Lemma itransport_roundtrip_witness :
  let a := {| ua_ip := 1; ua_port := 80 |} in
  let '(n, out) := ITransport_send (sbytes "hi") all_taken (IUdp {| udp_addr := a |}) in
  n = 2 /\ exists r t'', ITransport_receive (arriving out a) (IUdp {| udp_addr := a |}) = Ok (r, t'') /\ rr_status r = ROk.
Proof.
  intros a.
  pose proof (itransport_roundtrip (sbytes "hi") a (IUdp {| udp_addr := a |}) (IUdp {| udp_addr := a |}) eq_refl eq_refl) as H.
  destruct (ITransport_send _ _ _) as [n out]. destruct H as (Hn & r & t'' & Hr & _ & Hst & _).
  split; [exact Hn|]. exists r, t''. split; [exact Hr | exact Hst].
Defined.
