(* ===== verification/Runtime.v ===== *)
(** The server process: [Server::start], [stop] and [run_event_loop]
    ([src/transport/server.cpp]), the loop itself ([src/transport/event_loop.cpp]),
    the accepting of connections ([src/transport/acceptor.cpp],
    [src/transport/handling.cpp]), and the two threads of [start_server]
    ([src/application/runtime/runtime.cpp]). *)
From S2P Require Import Prelude Message Framing Models Services AppService Server Sockets Transport Stack.

(** ** The process *)

(** [sp_app] is the application over its connections ([Stack.v]); [sp_acceptor] is
    whether [acceptor] still holds the acceptor, which [start] moves into the accept
    handler, and [sp_accept_handler] whether that has it; [sp_listen] is the listening
    descriptor once the event loop has it; [sp_wakeup] is the counter of [wakeup_fd]. *)
Record ServerProcess := {
  sp_app : MessagingServer TcpServer;
  sp_socket : ISocket;
  sp_running : bool;
  sp_acceptor : bool;
  sp_accept_handler : bool;
  sp_listen : option Z;
  sp_wakeup : Z;
}.

Definition ServerProcess_make (cfg : AppConfig) (fd0 : Z) : ServerProcess :=
  {| sp_app := Stack_make cfg fd0; sp_socket := ISocket_make TCP; sp_running := false; sp_acceptor := true;
     sp_accept_handler := false; sp_listen := None; sp_wakeup := 0 |}.

Definition with_app (v : MessagingServer TcpServer) (p : ServerProcess) : ServerProcess :=
  {| sp_app := v; sp_socket := sp_socket p; sp_running := sp_running p; sp_acceptor := sp_acceptor p;
     sp_accept_handler := sp_accept_handler p; sp_listen := sp_listen p; sp_wakeup := sp_wakeup p |}.

Definition with_running (v : bool) (p : ServerProcess) : ServerProcess :=
  {| sp_app := sp_app p; sp_socket := sp_socket p; sp_running := v; sp_acceptor := sp_acceptor p;
     sp_accept_handler := sp_accept_handler p; sp_listen := sp_listen p; sp_wakeup := sp_wakeup p |}.

Definition with_wakeup (v : Z) (p : ServerProcess) : ServerProcess :=
  {| sp_app := sp_app p; sp_socket := sp_socket p; sp_running := sp_running p; sp_acceptor := sp_acceptor p;
     sp_accept_handler := sp_accept_handler p; sp_listen := sp_listen p; sp_wakeup := v |}.

(** *** Starting and stopping *)

(** [std::runtime_error("...")] in the last branch makes an exception but does not
    throw it. *)
Definition Server_start (pton : string -> option Z) (strerr : Z -> string) (env : SocketAnswers)
    (ip : string) (port : Z) : M ServerProcess unit := fun p =>
  let '(r, sock) := ISocket_setup_server pton strerr env ip (u16 port) (sp_socket p) in
  let p := {| sp_app := sp_app p; sp_socket := sock; sp_running := sp_running p; sp_acceptor := sp_acceptor p;
              sp_accept_handler := sp_accept_handler p; sp_listen := sp_listen p; sp_wakeup := sp_wakeup p |} in
  match r with
  | Ok _ =>
      match is_fd sock with
      | None => (Undef, p)
      | Some fd =>
          if negb (fd =? -1) then
            (Ok tt, {| sp_app := sp_app p; sp_socket := sock; sp_running := true; sp_acceptor := false;
                       sp_accept_handler := sp_acceptor p; sp_listen := Some fd; sp_wakeup := sp_wakeup p |})
          else (Ok tt, p)
      end
  | _ => (r, p)
  end.

(** The write adds 1 to the counter of the eventfd, which does not block: at the
    largest value it fails, which is not looked at. *)
Definition EventLoop_stop (p : ServerProcess) : ServerProcess :=
  if sp_wakeup p + 1 <? 2 ^ 64 - 1 then with_wakeup (sp_wakeup p + 1) p else p.

Definition Server_stop (p : ServerProcess) : ServerProcess :=
  if negb (sp_running p) then p else EventLoop_stop (with_running false p).

Definition Server_is_running (p : ServerProcess) : bool := sp_running p.

Definition MessagingServer_start_server (pton : string -> option Z) (strerr : Z -> string)
    (env : SocketAnswers) : M ServerProcess unit := fun p =>
  let config := sc_config (server_context (sp_app p)) in
  Server_start pton strerr env (server_host config) (server_port config) p.

Definition MessagingServer_stop_server (p : ServerProcess) : ServerProcess := Server_stop p.

(** *** The event loop *)

(** One event [epoll_wait] reports: on [wakeup_fd], on the listening socket, with what
    [::accept] gives, or on a connection, with the time at which it is handled. *)
Inductive LoopEvent :=
| Wakeup
| ListenReady (mask : EventMask) (accepted : option Z) (hs : HandshakeEvent)
| SocketReady (now fd : Z) (mask : EventMask) (recvs : list RecvEvent) (sends : list SendEvent) (hs : HandshakeEvent).

Inductive WaitResult :=
| WaitInterrupted
| WaitFailed (errno : Z)
| WaitEvents (es : list LoopEvent).

Definition MAX_EVENTS : nat := 10.

Section Loop.
  Context {ord : IterOrder}.
  Variable strerror : Z -> string.

(** A step of the application in the process. *)
Definition at_app (f : M (MessagingServer TcpServer) unit) : M ServerProcess unit := fun p =>
  let '(r, app) := f (sp_app p) in (r, with_app app p).

(** The new connection is non-blocking and has a TCP transport. *)
Definition TCPAcceptor_accept (accepted : option Z) : option (Z * Connection) :=
  match accepted with
  | None => None
  | Some client_fd => Some (client_fd, Connection_make)
  end.

Definition AcceptHandler_handle_event (mask : EventMask) (accepted : option Z) (hs : HandshakeEvent) :
    M ServerProcess unit :=
  if ev_in mask then
    p ← get;
    if negb (sp_accept_handler p) then lift Undef
    else
      match TCPAcceptor_accept accepted with
      | None => mret tt
      | Some (fd, conn) => at_app (Server_on_client_connected fd conn hs)
      end
  else mret tt.

(** One iteration of the [for] of [run_once]. *)
Definition handle_loop_event (e : LoopEvent) : M ServerProcess unit :=
  match e with
  | Wakeup => modify (with_wakeup 0)
  | ListenReady mask accepted hs =>
      p ← get;
      match sp_listen p with
      | None => mret tt
      | Some _ => AcceptHandler_handle_event mask accepted hs
      end
  | SocketReady now fd mask recvs sends hs => at_app (stack_step now (Ready fd mask recvs sends hs))
  end.

Fixpoint handle_loop_events (es : list LoopEvent) : M ServerProcess unit :=
  match es with
  | [] => mret tt
  | e :: es => _ ← handle_loop_event e; handle_loop_events es
  end.

Definition EventLoop_run_once (w : WaitResult) : M ServerProcess unit :=
  match w with
  | WaitInterrupted => mret tt
  | WaitFailed errno => lift (Throw (runtime_error ("ошибка epoll_wait" +:+ strerror errno)))
  | WaitEvents es => handle_loop_events (take MAX_EVENTS es)
  end.

(** [process_pending_messages] is empty. The result is whether the loop ended, for
    the rounds given. *)
Fixpoint Server_run_event_loop (rounds : list WaitResult) : M ServerProcess bool :=
  p ← get;
  if sp_running p then
    match rounds with
    | [] => mret false
    | w :: rounds => _ ← EventLoop_run_once w; Server_run_event_loop rounds
    end
  else mret true.

(** ** The threads of [start_server] *)

(** Where the main thread is: in the loop that waits for the signal, in [stop] before
    [running] is tested, between that and waking the loop, in [join], or past it. *)
Inductive MainPc :=
| MainPoll
| MainStop
| MainWake
| MainJoin
| MainDone.

(** Where the thread of the event loop is: before the test of [running], in
    [run_once], past the loop; or an exception has left it, which ends the program, or
    an event was undefined, after which nothing is known. *)
Inductive LoopPc :=
| LoopTest
| LoopBody
| LoopDone
| LoopDied
| LoopUndef.

Record Threads := {
  th_process : ServerProcess;
  th_main : MainPc;
  th_loop : LoopPc;
  th_shutdown : bool;
}.

(** The signal arrives, or a thread makes a step; the one of the loop with what
    [epoll_wait] gives, should it call it. *)
Inductive Turn :=
| TSignal
| TMain
| TLoop (w : WaitResult).

Definition main_step (t : Threads) : Threads :=
  let go pc p := {| th_process := p; th_main := pc; th_loop := th_loop t; th_shutdown := th_shutdown t |} in
  match th_main t with
  | MainPoll => if th_shutdown t then go MainStop (th_process t) else t
  | MainStop =>
      if negb (sp_running (th_process t)) then go MainJoin (th_process t)
      else go MainWake (with_running false (th_process t))
  | MainWake => go MainJoin (EventLoop_stop (th_process t))
  | MainJoin => match th_loop t with LoopDone => go MainDone (th_process t) | _ => t end
  | MainDone => t
  end.

Definition loop_step (w : WaitResult) (t : Threads) : Threads :=
  let go pc p := {| th_process := p; th_main := th_main t; th_loop := pc; th_shutdown := th_shutdown t |} in
  match th_loop t with
  | LoopTest => go (if sp_running (th_process t) then LoopBody else LoopDone) (th_process t)
  | LoopBody =>
      match EventLoop_run_once w (th_process t) with
      | (Ok _, p) => go LoopTest p
      | (Throw _, p) => go LoopDied p
      | (Undef, p) => go LoopUndef p
      end
  | LoopDone | LoopDied | LoopUndef => t
  end.

(** When an exception has left a thread, there is nothing more to run; after
    undefined behaviour, nothing is said of what runs. *)
Definition turn (x : Turn) (t : Threads) : Threads :=
  match th_loop t with
  | LoopDied | LoopUndef => t
  | _ =>
      match x with
      | TSignal => {| th_process := th_process t; th_main := th_main t; th_loop := th_loop t; th_shutdown := true |}
      | TMain => main_step t
      | TLoop w => loop_step w t
      end
  end.

Definition run_turns (xs : list Turn) (t : Threads) : Threads := foldl (fun t x => turn x t) t xs.

(** [start_server] once the server has started and the thread has been made. *)
Definition start_server_threads (p : ServerProcess) : Threads :=
  {| th_process := p; th_main := MainPoll; th_loop := LoopTest; th_shutdown := false |}.

End Loop.
