(* ===== verification/RuntimeSpec.v ===== *)
(** The server process: it starts or does not, its invariant holds round after round,
    and it shuts down when it is asked to. *)
From S2P Require Import Prelude Message Framing Models Services AppService Server ServerInvariant Sockets Transport Stack StackSpec Runtime.

Section Loop.
  Context {ord : IterOrder}.
  Variable strerror : Z -> string.

(** ** The loop *)

(** The application is as it should be, and a listening socket has its handler. *)
Definition process_ok (p : ServerProcess) : Prop :=
  stack_ok (sp_app p) /\ (is_Some (sp_listen p) -> sp_accept_handler p = true).

(** What a round may end in: it goes on, an exception ends the program, or a
    connection has been sent a length prefix of at least 2^32 - 4. *)
Definition round_ok {A} (r : outcome A) (p : ServerProcess) : Prop :=
  match r with
  | Ok _ => process_ok p
  | Throw _ => True
  | Undef => exists fd, overflowing fd (sp_app p)
  end.

Lemma at_app_ok f fd p :
  process_ok p -> wp f (handled fd) (sp_app p) -> wp (at_app f) round_ok p.
Proof.
  intros [Hok Hl] Hf. unfold wp, at_app in *. destruct (f (sp_app p)) as [[[]| |] app]; cbn in *; try done. by exists fd.
Qed.

Lemma loop_event_ok e p : process_ok p -> wp (handle_loop_event e) round_ok p.
Proof.
  intros Hp. pose proof Hp as [Hok Hl]. destruct e as [|mask a hs|now fd mask rs ss hs]; cbn [handle_loop_event].
  - by apply wp_modify.
  - apply wp_bind, wp_get. destruct (sp_listen p) as [l|]; [|by apply wp_ret].
    unfold AcceptHandler_handle_event. destruct (ev_in mask); [|by apply wp_ret].
    apply wp_bind, wp_get. rewrite Hl by done. cbn [negb].
    destruct a as [fd|]; cbn [TCPAcceptor_accept]; [|by apply wp_ret].
    by apply (at_app_ok _ fd), connected_ok.
  - by apply (at_app_ok _ fd), (stack_step_ok now (Ready fd mask rs ss hs)).
Qed.

Lemma loop_events_ok es : forall p, process_ok p -> wp (handle_loop_events es) round_ok p.
Proof.
  induction es as [|e es IH]; intros p Hp; cbn [handle_loop_events]; [by apply wp_ret|].
  apply wp_bind. eapply wp_mono; [by apply loop_event_ok|]. intros [[]| |] p' H'; [by apply IH | done..].
Qed.

Lemma run_once_ok w p : process_ok p -> wp (EventLoop_run_once strerror w) round_ok p.
Proof. intros Hp. destruct w; cbn [EventLoop_run_once]; [by apply wp_ret | by apply wp_lift | by apply loop_events_ok]. Qed.

(** A round does not touch [running]. *)
Lemma at_app_running f p r p' : at_app f p = (r, p') -> sp_running p' = sp_running p.
Proof. unfold at_app. destruct (f (sp_app p)). by intros [= _ <-]. Qed.

Lemma run_once_running w p r p' :
  EventLoop_run_once strerror w p = (r, p') -> sp_running p' = sp_running p.
Proof.
  destruct w as [|errno|es]; cbn [EventLoop_run_once]; [by intros [= _ <-]..|].
  generalize (take MAX_EVENTS es). clear es. intros es. revert p r.
  induction es as [|e es IH]; intros p r; cbn [handle_loop_events]; [by intros [= _ <-]|].
  unfold mbind, M_bind. destruct (handle_loop_event e p) as [r1 p1] eqn:E.
  assert (Hr : sp_running p1 = sp_running p).
  { destruct e as [|mask a hs|now fd mask rs ss hs]; cbn [handle_loop_event] in E.
    - by injection E as _ <-.
    - rewrite run_get in E. destruct (sp_listen p); [|by injection E as _ <-].
      unfold AcceptHandler_handle_event in E. destruct (ev_in mask); [|by injection E as _ <-].
      rewrite run_get in E. destruct (sp_accept_handler p); [|by injection E as _ <-].
      destruct a; cbn [negb TCPAcceptor_accept] in E; [by eapply at_app_running | by injection E as _ <-].
    - by eapply at_app_running. }
  destruct r1 as [[]| |]; [|by intros [= _ <-]..]. intros Hrun. rewrite <- Hr. by eapply IH.
Qed.

Lemma run_event_loop_ok rounds : forall p, process_ok p -> wp (Server_run_event_loop strerror rounds) round_ok p.
Proof.
  induction rounds as [|w rounds IH]; intros p Hp; cbn [Server_run_event_loop]; apply wp_bind, wp_get;
    (destruct (sp_running p); [|by apply wp_ret]); [by apply wp_ret|].
  apply wp_bind. eapply wp_mono; [by apply run_once_ok|]. intros [[]| |] p' H'; [by apply IH | done..].
Qed.

(** ** The threads *)

Definition main_rank (pc : MainPc) : nat :=
  match pc with MainPoll => 0 | MainStop => 1 | MainWake => 2 | MainJoin => 3 | MainDone => 4 end.

Definition loop_rank (pc : LoopPc) : nat :=
  match pc with LoopBody => 0 | LoopTest => 1 | LoopDone | LoopDied | LoopUndef => 2 end.

(** The program goes on. *)
Definition alive (pc : LoopPc) : bool := match pc with LoopDied | LoopUndef => false | _ => true end.

Definition is_main (x : Turn) : bool := match x with TMain => true | _ => false end.
Definition is_loop (x : Turn) : bool := match x with TLoop _ => true | _ => false end.

Definition turns_of (who : Turn -> bool) (xs : list Turn) : nat := length (List.filter who xs).

(** Past the test in [stop], [running] is false; past [join], the loop is done. *)
Record threads_ok (t : Threads) : Prop := {
  ok_stopped : (2 <= main_rank (th_main t))%nat -> sp_running (th_process t) = false;
  ok_joined : th_main t = MainDone -> th_loop t = LoopDone;
  ok_asked : th_main t <> MainPoll -> th_shutdown t = true;
}.

Abbreviation turn := (turn strerror).
Abbreviation run_turns := (run_turns strerror).

(** What a turn keeps, and what it brings forward. *)
Record forward (x : Turn) (t t' : Threads) : Prop := {
  fw_main : (main_rank (th_main t) <= main_rank (th_main t'))%nat;
  fw_shutdown : th_shutdown t = true -> th_shutdown t' = true;
  fw_ended : alive (th_loop t) = false -> t' = t;
  fw_done : th_loop t = LoopDone -> th_loop t' = LoopDone;
  fw_stopped : sp_running (th_process t) = false -> sp_running (th_process t') = false /\
    (loop_rank (th_loop t) <= loop_rank (th_loop t'))%nat;
  fw_step_main : is_main x = true -> th_shutdown t = true -> alive (th_loop t) = true ->
    (3 <= main_rank (th_main t) \/ main_rank (th_main t) < main_rank (th_main t'))%nat;
  fw_step_join : is_main x = true -> th_main t = MainJoin -> th_loop t = LoopDone -> th_main t' = MainDone;
  fw_step_loop : is_loop x = true -> sp_running (th_process t) = false ->
    (2 <= loop_rank (th_loop t) \/ loop_rank (th_loop t) < loop_rank (th_loop t'))%nat;
}.

Ltac fw := constructor; cbn; try lia; try done; try (intros; split; [congruence|lia]); intros; auto with lia; congruence.

Lemma turn_forward x t : forward x t (turn x t).
Proof.
  destruct t as [p m l sd]. unfold Runtime.turn. cbn [th_loop].
  destruct l, x as [| |w]; unfold main_step, loop_step; cbn [th_main th_shutdown th_process th_loop];
    try (destruct (EventLoop_run_once strerror w p) as [[[]| |] p'] eqn:E; apply run_once_running in E);
    try destruct m; try destruct sd; try (destruct (sp_running p) eqn:Hrun); cbn [negb];
    unfold EventLoop_stop; try destruct (_ <? _); try (fw; fail).
Qed.

Lemma main_step_ok t : threads_ok t -> threads_ok (main_step t).
Proof.
  intros [H1 H2 H3]. destruct t as [p m l sd]. cbn in *. unfold main_step. cbn.
  destruct m; cbn in *.
  - destruct sd; constructor; cbn; try done; lia.
  - destruct (sp_running p) eqn:Hr; constructor; cbn; auto; done.
  - constructor; cbn; auto; [|done]. intros _. unfold EventLoop_stop. destruct (_ <? _); cbn; apply H1; lia.
  - destruct l; constructor; cbn; auto; done.
  - by constructor.
Qed.

Lemma loop_step_ok w t : threads_ok t -> threads_ok (loop_step strerror w t).
Proof.
  intros [H1 H2 H3]. destruct t as [p m l sd]. cbn in *. unfold loop_step. cbn.
  destruct l; cbn in *; try by constructor.
  - constructor; cbn; auto. intros ->. by specialize (H2 eq_refl).
  - destruct (EventLoop_run_once strerror w p) as [r p'] eqn:E. apply run_once_running in E.
    destruct r; constructor; cbn; auto; rewrite ?E; auto; intros ->; by specialize (H2 eq_refl).
Qed.

Lemma turn_ok x t : threads_ok t -> threads_ok (turn x t).
Proof.
  intros Ht. unfold Runtime.turn. assert (Hs : threads_ok match x with
    | TSignal => {| th_process := th_process t; th_main := th_main t; th_loop := th_loop t; th_shutdown := true |}
    | TMain => main_step t | TLoop w => loop_step strerror w t end).
  { destruct x; [|by apply main_step_ok | by apply loop_step_ok]. destruct Ht. by constructor. }
  by destruct (th_loop t).
Qed.

Lemma run_turns_cons x xs t : run_turns (x :: xs) t = run_turns xs (turn x t).
Proof. done. Qed.

Lemma run_turns_ok xs : forall t, threads_ok t -> threads_ok (run_turns xs t).
Proof. induction xs as [|x xs IH]; intros t Ht; [done|]. rewrite run_turns_cons. apply IH, turn_ok, Ht. Qed.

Lemma run_turns_app xs ys t : run_turns (xs ++ ys) t = run_turns ys (run_turns xs t).
Proof. unfold Runtime.run_turns. by rewrite foldl_app. Qed.

Lemma turns_cons who x xs : turns_of who (x :: xs) = ((if who x then 1 else 0) + turns_of who xs)%nat.
Proof. unfold turns_of. cbn. by destruct (who x). Qed.

(** What holds after any number of turns. *)
Lemma run_ended xs : forall t, alive (th_loop t) = false -> run_turns xs t = t.
Proof.
  induction xs as [|x xs IH]; intros t Ht; [done|]. rewrite run_turns_cons.
  by rewrite (fw_ended x t _ (turn_forward x t) Ht), IH.
Qed.

Lemma run_done xs : forall t, th_loop t = LoopDone -> th_loop (run_turns xs t) = LoopDone.
Proof. induction xs as [|x xs IH]; intros t Ht; [done|]. rewrite run_turns_cons. apply IH, (fw_done x t), Ht. apply turn_forward. Qed.

Lemma run_main xs : forall t, (main_rank (th_main t) <= main_rank (th_main (run_turns xs t)))%nat.
Proof.
  induction xs as [|x xs IH]; intros t; [done|]. rewrite run_turns_cons. etrans; [apply (fw_main x t), turn_forward|]. apply IH.
Qed.

(** Once the signal has come, the main thread gets to [join]. *)
Lemma main_progress xs : forall t,
  th_shutdown t = true -> alive (th_loop (run_turns xs t)) = true ->
  (Nat.min 3 (main_rank (th_main t) + turns_of is_main xs) <= main_rank (th_main (run_turns xs t)))%nat.
Proof.
  induction xs as [|x xs IH]; intros t Hs Hl; [rewrite Nat.add_0_r; apply Nat.le_min_r|]. pose proof (turn_forward x t) as [F1 F2 _ _ _ F6 _ _].
  specialize (IH (turn x t) (F2 Hs) Hl). rewrite turns_cons, run_turns_cons. destruct (is_main x) eqn:Hx; [|lia].
  assert (Hal : alive (th_loop t) = true).
  { apply not_false_is_true. intros E. by rewrite (run_ended (x :: xs) t E), E in Hl. }
  specialize (F6 eq_refl Hs Hal). lia.
Qed.

(** Once [running] is false, the loop ends. *)
Lemma loop_progress xs : forall t,
  sp_running (th_process t) = false ->
  (Nat.min 2 (loop_rank (th_loop t) + turns_of is_loop xs) <= loop_rank (th_loop (run_turns xs t)))%nat.
Proof.
  induction xs as [|x xs IH]; intros t Hs; [rewrite Nat.add_0_r; apply Nat.le_min_r|]. pose proof (turn_forward x t) as [_ _ _ _ F5 _ _ F8].
  destruct (F5 Hs) as [Hs' Hr]. specialize (IH (turn x t) Hs'). rewrite turns_cons, run_turns_cons.
  destruct (is_loop x) eqn:Hx; [|lia]. specialize (F8 eq_refl Hs). lia.
Qed.

(** Once the loop is done, [join] returns. *)
Lemma join_progress xs : forall t,
  th_main t = MainJoin -> th_loop t = LoopDone -> (1 <= turns_of is_main xs)%nat ->
  th_main (run_turns xs t) = MainDone.
Proof.
  induction xs as [|x xs IH]; intros t Hm Hl Hn; [apply Nat.nle_succ_0 in Hn; done|]. rewrite turns_cons in Hn. rewrite run_turns_cons.
  pose proof (turn_forward x t) as [F1 _ _ F4 _ _ F7 _]. rewrite Hm in F1. cbn in F1.
  destruct (th_main (turn x t)) eqn:E; cbn in F1; try lia.
  - apply IH; [done | by apply F4 |]. destruct (is_main x) eqn:Hx; [|lia].
    specialize (F7 eq_refl Hm Hl). congruence.
  - pose proof (run_main xs (turn x t)) as Hr. rewrite E in Hr.
    by destruct (th_main (run_turns xs (turn x t))) eqn:E2; cbn in Hr; try lia.
Qed.

(** The two steps of the main thread are [stop]. *)
Lemma main_stops t :
  th_main t = MainStop -> alive (th_loop t) = true ->
  exists n, run_turns (replicate n TMain) t
    = {| th_process := Server_stop (th_process t); th_main := MainJoin; th_loop := th_loop t; th_shutdown := th_shutdown t |}.
Proof.
  intros Hm Hl. destruct t as [p m l sd]. cbn in *. subst m. unfold Server_stop.
  destruct (sp_running p) eqn:Hr; [exists 2%nat | exists 1%nat]; unfold Runtime.run_turns, Runtime.turn, main_step; cbn;
    rewrite Hr; by destruct l.
Qed.

(** While the program goes on the process is as it should be, and undefined behaviour
    comes from a length prefix. *)
Definition app_ok (t : Threads) : Prop :=
  match th_loop t with
  | LoopDied => True
  | LoopUndef => exists fd, overflowing fd (sp_app (th_process t))
  | _ => process_ok (th_process t)
  end.

Lemma turn_app_ok x t : app_ok t -> app_ok (turn x t).
Proof.
  destruct t as [p m l sd]. unfold app_ok, Runtime.turn. cbn [th_loop th_process].
  assert (Hstop : process_ok p -> process_ok (EventLoop_stop p)) by (unfold EventLoop_stop; destruct (_ <? _); by intros []).
  destruct l; try done; intros Hp; destruct x as [| |w]; try done; unfold main_step, loop_step;
    cbn [th_main th_shutdown th_process th_loop].
  1,3,5: destruct m; try destruct sd; try (destruct (sp_running p)); cbn; auto.
  - by destruct (sp_running p).
  - pose proof (run_once_ok w p Hp) as H. unfold wp in H.
    by destruct (EventLoop_run_once strerror w p) as [[[]| |] p'].
Qed.

Lemma run_turns_app_ok xs : forall t, app_ok t -> app_ok (run_turns xs t).
Proof. induction xs as [|x xs IH]; intros t Ht; [done|]. rewrite run_turns_cons. apply IH, turn_app_ok, Ht. Qed.

Lemma start_process_ok pton strerr env cfg fd0 p :
  MessagingServer_start_server pton strerr env (ServerProcess_make cfg fd0) = (Ok tt, p) -> process_ok p.
Proof.
  unfold MessagingServer_start_server, Server_start.
  destruct (ISocket_setup_server _ _ _ _ _ _) as [[[]| |] sk]; [|done..].
  destruct (is_fd sk) as [fd|]; [|done]. destruct (negb (fd =? -1)); intros [= <-];
    split; cbn; first [apply Stack_make_ok | by intros [? ?]].
Qed.

(** The turns after SIGINT, for a program that goes on. *)
Lemma shutdown_progress t0 s1 s2 s3 s4 :
  threads_ok t0 ->
  (3 <= turns_of is_main s2)%nat -> (2 <= turns_of is_loop s3)%nat -> (1 <= turns_of is_main s4)%nat ->
  let t := run_turns (s1 ++ TSignal :: s2 ++ s3 ++ s4) t0 in
  alive (th_loop t) = true ->
  th_main t = MainDone /\ th_loop t = LoopDone /\ sp_running (th_process t) = false.
Proof.
  intros Hinit H2 H3 H4 t. unfold t. rewrite run_turns_app, run_turns_cons, !run_turns_app. clear t. intros Hal.
  pose proof (run_turns_ok s1 _ Hinit) as Ht1. set (t1 := run_turns s1 _) in *.
  pose proof (turn_ok TSignal t1 Ht1) as Ht1'. set (t1' := turn TSignal t1) in *.
  pose proof (run_turns_ok s2 t1' Ht1') as Ht2. set (t2 := run_turns s2 t1') in *.
  pose proof (run_turns_ok s3 t2 Ht2) as Ht3. set (t3 := run_turns s3 t2) in *.
  pose proof (run_turns_ok s4 t3 Ht3) as Ht4.
  assert (Hback : forall xs t, alive (th_loop (run_turns xs t)) = true -> alive (th_loop t) = true).
  { intros xs t H. apply not_false_is_true. intros E. by rewrite (run_ended xs t E), E in H. }
  pose proof (Hback _ _ Hal) as Hal3. pose proof (Hback _ _ Hal3) as Hal2. pose proof (Hback _ _ Hal2) as Hal1.
  assert (Hsh : th_shutdown t1' = true).
  { pose proof (Hback [TSignal] t1 Hal1) as Ha. unfold t1', Runtime.turn. by destruct (th_loop t1). }
  pose proof (main_progress s2 t1' Hsh Hal2) as Hm2. fold t2 in Hm2.
  pose proof (loop_progress s3 t2 (ok_stopped _ Ht2 ltac:(lia))) as Hl3. fold t3 in Hl3.
  pose proof (run_main s3 t2) as Hm3. fold t3 in Hm3.
  destruct (th_loop t3) eqn:El3; cbn [loop_rank] in Hl3; try done; try lia.
  assert (Hm4 : th_main (run_turns s4 t3) = MainDone).
  { destruct (th_main t3) eqn:Em3; cbn [main_rank] in Hm3; try lia; [by apply join_progress|].
    pose proof (run_main s4 t3) as Hr. rewrite Em3 in Hr. by destruct (th_main (run_turns s4 t3)); cbn in Hr; try lia. }
  split_and!; [done | by apply run_done |]. apply (ok_stopped _ Ht4). rewrite Hm4. cbn. lia.
Qed.

(** ** Properties *)

(** C13: the server process goes on round after round. Started as it is made and run for
    any rounds of the event loop, whatever [epoll_wait], [::accept] and the other system
    calls give, it is in a state where the invariants of the application and of the
    connections hold, unless an exception has ended it; it has undefined behaviour only
    when a connection has been sent a length prefix of at least 2^32 - 4. *)
Theorem server_process_invariant pton strerr env (cfg : AppConfig) (fd0 : Z) (rounds : list WaitResult)
    (p1 p2 : ServerProcess) (r : outcome bool) :
  MessagingServer_start_server pton strerr env (ServerProcess_make cfg fd0) = (Ok tt, p1) ->
  Server_run_event_loop strerror rounds p1 = (r, p2) ->
  match r with
  | Ok _ => server_ok (sp_app p2) /\ tcp_ok (tcp (sp_app p2)) /\
      forall f, has_session (sp_app p2) f -> f ∈ sv_clients (tcp (sp_app p2))
  | Throw _ => True
  | Undef => exists fd, overflowing fd (sp_app p2)
  end.
Proof.
  intros Hstart Hrun. pose proof (start_process_ok _ _ _ _ _ _ Hstart) as Hp.
  pose proof (wp_run _ _ _ _ _ Hrun (run_event_loop_ok rounds p1 Hp)) as H. by destruct r as [b| |]; [apply H|..].
Qed.

(** C14: the server shuts down. From the start of its two threads, once the server has
    started, whatever they do before SIGINT arrives: once it has, three turns of the
    main thread, then two of the loop, then one more of the main thread are enough,
    with any other turns in between, for [start_server] to return with the loop ended.
    There are two other ways out: an exception in the loop, which ends the program,
    and undefined behaviour, which happens only when a connection has been sent a
    length prefix of at least 2^32 - 4. Before SIGINT, and before the loop has ended,
    [start_server] does not return. *)
Theorem shutdown_terminates pton strerr env (cfg : AppConfig) (fd0 : Z) (p : ServerProcess) (s1 s2 s3 s4 : list Turn) :
  MessagingServer_start_server pton strerr env (ServerProcess_make cfg fd0) = (Ok tt, p) ->
  (3 <= turns_of is_main s2)%nat -> (2 <= turns_of is_loop s3)%nat -> (1 <= turns_of is_main s4)%nat ->
  let t := run_turns (s1 ++ TSignal :: s2 ++ s3 ++ s4) (start_server_threads p) in
  (th_loop t = LoopDied \/
   th_loop t = LoopUndef /\ (exists fd, overflowing fd (sp_app (th_process t))) \/
   th_main t = MainDone /\ th_loop t = LoopDone /\ sp_running (th_process t) = false) /\
  (forall xs, th_main (run_turns xs (start_server_threads p)) = MainDone ->
     th_shutdown (run_turns xs (start_server_threads p)) = true /\
     th_loop (run_turns xs (start_server_threads p)) = LoopDone).
Proof.
  intros Hstart H2 H3 H4 t. pose proof (start_process_ok _ _ _ _ _ _ Hstart) as Hp.
  assert (Hinit : threads_ok (start_server_threads p)) by (constructor; cbn; [lia|done..]).
  split.
  2: { intros xs Hd. destruct (run_turns_ok xs _ Hinit) as [_ Hj Ha]. split; [apply Ha; congruence | by apply Hj]. }
  pose proof (run_turns_app_ok (s1 ++ TSignal :: s2 ++ s3 ++ s4) _ (Hp : app_ok (start_server_threads p))) as Happ.
  fold t in Happ. destruct (alive (th_loop t)) eqn:Hal.
  - right; right. by apply shutdown_progress.
  - unfold app_ok in Happ. destruct (th_loop t); try done; [by left | right; left; by split].
Qed.

End Loop.

(** Starting the server, on every branch. With a descriptor and calls that succeed,
    the server is running, the listening socket is in the event loop, and its handler has
    the acceptor. When the address is none, or [bind], [listen] or [setsockopt] fail,
    [start_server] throws and the server is not running. When [socket()] fails, nothing
    is reported: [start_server] returns, the server is not running, and its event loop
    ends at once. *)
Theorem server_start_outcome {ord : IterOrder} pton strerr env (cfg : AppConfig) (fd0 : Z) :
  let fd := ans_socket env in
  let addr := if bool_decide (server_host cfg = "0.0.0.0"%string) then Some INADDR_ANY else pton (server_host cfg) in
  let '(r, p) := MessagingServer_start_server pton strerr env (ServerProcess_make cfg fd0) in
  if fd <? 0 then r = Ok tt /\ sp_listen p = None /\
    forall rounds, Server_run_event_loop strerr rounds p = (Ok true, p)
  else if bool_decide (is_Some addr /\ 0 <= ans_bind env /\ 0 <= ans_listen env /\ 0 <= ans_setsockopt env)
  then r = Ok tt /\ sp_running p = true /\ sp_listen p = Some fd /\ sp_accept_handler p = true
  else (exists e, r = Throw e) /\ sp_running p = false /\ sp_listen p = None.
Proof.
  intros fd addr. unfold MessagingServer_start_server, Server_start, ISocket_setup_server.
  cbn [ServerProcess_make sp_app sp_socket]. rewrite run_get. cbn [ISocket_make is_type].
  change (sc_config (server_context (Stack_make cfg fd0))) with cfg. unfold on_raw. cbn [is_raw].
  match goal with |- context [TCPSocket_server pton strerr env (server_host cfg) ?port ?s] =>
    pose proof (tcp_server_run pton strerr env (server_host cfg) port s) as H;
    destruct (TCPSocket_server pton strerr env (server_host cfg) port s) as [r raw] end.
  cbv zeta in H. fold fd addr in H. destruct (Z.ltb_spec fd 0) as [Hfd|Hfd].
  - destruct H as (-> & Hr & _). cbn. rewrite Hr. cbn. split_and!; try done. by intros [|].
  - destruct H as (_ & [Hok _] & H). destruct r as [[]|e|]; [| |done].
    + destruct H as (_ & _ & Ha & Hb). rewrite Hok by done. cbn.
      rewrite (proj2 (Z.eqb_neq fd (-1))), bool_decide_true by (try (destruct addr; [naive_solver|done]); lia). done.
    + destruct H as (_ & H). rewrite bool_decide_false; [cbn; by split; [exists e|]|].
      intros (? & ? & ? & ?). destruct H as [H|[H|[H|H]]]; try lia. rewrite H in *. by destruct H0.
Qed.

(** ** The properties on a concrete process *)

Definition demo_env : SocketAnswers :=
  {| ans_socket := 3; ans_bind := 0; ans_listen := 0; ans_setsockopt := 0; ans_connect := 0; ans_errno := 0;
     ans_select := 0; ans_except := false; ans_write := false; ans_so_error := 0 |}.

Definition demo_process : ServerProcess :=
  (MessagingServer_start_server (fun _ => Some 1) (fun _ => EmptyString) demo_env (ServerProcess_make demo_config 0)).2.

Definition demo_round : WaitResult :=
  WaitEvents [ListenReady {| ev_in := true; ev_out := false; ev_err := false |} (Some 5) HsDone; Wakeup].

(** A connection is accepted. *)
Lemma server_process_invariant_witness :
  let '(r, p) := Server_run_event_loop (fun _ => EmptyString) [demo_round; WaitInterrupted] demo_process in
  r = Ok false /\ server_ok (sp_app p) /\ 5 ∈ sv_clients (tcp (sp_app p)).
Proof.
  assert (Hr : let '(r, p) := Server_run_event_loop (fun _ => EmptyString) [demo_round; WaitInterrupted] demo_process in
    r = Ok false /\ 5 ∈ sv_clients (tcp (sp_app p))) by (vm_compute; split; reflexivity).
  destruct (Server_run_event_loop (fun _ => EmptyString) [demo_round; WaitInterrupted] demo_process) as [r p] eqn:E.
  destruct Hr as [Hr H5].
  pose proof (server_process_invariant (fun _ => EmptyString) (fun _ => Some 1) (fun _ => EmptyString) demo_env
    demo_config 0 [demo_round; WaitInterrupted] demo_process p r eq_refl E) as H.
  subst r. split; [reflexivity|]. split; [exact (proj1 H) | exact H5].
Defined.

(** SIGINT arrives while a connection is being accepted. *)
Lemma shutdown_terminates_witness :
  let t := run_turns (fun _ => EmptyString)
    ([TLoop demo_round; TMain] ++ TSignal :: [TMain; TMain; TMain] ++ [TLoop demo_round; TLoop demo_round] ++ [TMain])
    (start_server_threads demo_process) in
  th_main t = MainDone /\ th_loop t = LoopDone.
Proof.
  intros t.
  destruct (shutdown_terminates (fun _ => EmptyString) (fun _ => Some 1) (fun _ => EmptyString) demo_env demo_config 0
    demo_process [TLoop demo_round; TMain] [TMain; TMain; TMain]
    [TLoop demo_round; TLoop demo_round] [TMain]) as [H _]; [reflexivity | vm_compute; lia..|].
  destruct H as [H|[[H _]|(H1 & H2 & _)]]; [vm_compute in H; discriminate H..|]. split; [exact H1 | exact H2].
Defined.
