(* ===== verification/ClientStack.v ===== *)
(** The client on its socket: [Client] ([src/transport/client.cpp]),
    [ClientTLSWrapper] ([src/transport/tls.cpp]), [ClientHandler]
    ([src/transport/handling.cpp]), with [MessagingClient] on top. *)
From S2P Require Import Prelude Message Wire Framing Parser Commands AppService Queue Crypto ClientContext Client Sockets Transport Stack.

(** ** [Client] *)

(** [cl_socket_fd] is [socket_visitor->fd], [cl_framer] whether [framer] points to
    a framer, [cl_transport] the transport, [cl_callback] whether
    [on_data_callback] is set, [cl_tls] holds [handshake_done_] of the wrapper;
    [cl_epoll] has the descriptors of the event loop and [cl_wakeups] counts the
    calls of its [stop]. [cl_calls] is what the socket has been used for, and
    [cl_shutdown] the descriptors that were shut down. *)
Record TcpClient := {
  cl_socket : ISocket;
  cl_framer : bool;
  cl_transport : option StreamTransport;
  cl_callback : bool;
  cl_recv_buffer : bytes;
  cl_ssl_ctx : bool;
  cl_tls : option bool;
  cl_epoll : gset Z;
  cl_wakeups : nat;
  cl_shutdown : gset Z;
  cl_wire : Socket;
}.

(** The constructor gives [framer] no value: it is null. *)
Definition Client_make (t : SocketType) (ctx : bool) : TcpClient :=
  {| cl_socket := ISocket_make t; cl_framer := false; cl_transport := None; cl_callback := false;
     cl_recv_buffer := []; cl_ssl_ctx := ctx; cl_tls := None; cl_epoll := ∅; cl_wakeups := 0;
     cl_shutdown := ∅; cl_wire := {| sk_recv := []; sk_send := []; sk_wire := [] |} |}.

Definition with_cl_socket (v : ISocket) (c : TcpClient) : TcpClient :=
  {| cl_socket := v; cl_framer := cl_framer c; cl_transport := cl_transport c; cl_callback := cl_callback c;
     cl_recv_buffer := cl_recv_buffer c; cl_ssl_ctx := cl_ssl_ctx c; cl_tls := cl_tls c; cl_epoll := cl_epoll c;
     cl_wakeups := cl_wakeups c; cl_shutdown := cl_shutdown c; cl_wire := cl_wire c |}.

Definition with_cl_transport (v : StreamTransport) (w : Socket) (c : TcpClient) : TcpClient :=
  {| cl_socket := cl_socket c; cl_framer := cl_framer c; cl_transport := Some v; cl_callback := cl_callback c;
     cl_recv_buffer := cl_recv_buffer c; cl_ssl_ctx := cl_ssl_ctx c; cl_tls := cl_tls c; cl_epoll := cl_epoll c;
     cl_wakeups := cl_wakeups c; cl_shutdown := cl_shutdown c; cl_wire := w |}.

Definition with_cl_callback (v : bool) (c : TcpClient) : TcpClient :=
  {| cl_socket := cl_socket c; cl_framer := cl_framer c; cl_transport := cl_transport c; cl_callback := v;
     cl_recv_buffer := cl_recv_buffer c; cl_ssl_ctx := cl_ssl_ctx c; cl_tls := cl_tls c; cl_epoll := cl_epoll c;
     cl_wakeups := cl_wakeups c; cl_shutdown := cl_shutdown c; cl_wire := cl_wire c |}.

Definition with_cl_buffer (v : bytes) (c : TcpClient) : TcpClient :=
  {| cl_socket := cl_socket c; cl_framer := cl_framer c; cl_transport := cl_transport c; cl_callback := cl_callback c;
     cl_recv_buffer := v; cl_ssl_ctx := cl_ssl_ctx c; cl_tls := cl_tls c; cl_epoll := cl_epoll c;
     cl_wakeups := cl_wakeups c; cl_shutdown := cl_shutdown c; cl_wire := cl_wire c |}.

Definition with_cl_tls (v : bool) (c : TcpClient) : TcpClient :=
  {| cl_socket := cl_socket c; cl_framer := cl_framer c; cl_transport := cl_transport c; cl_callback := cl_callback c;
     cl_recv_buffer := cl_recv_buffer c; cl_ssl_ctx := cl_ssl_ctx c; cl_tls := Some v; cl_epoll := cl_epoll c;
     cl_wakeups := cl_wakeups c; cl_shutdown := cl_shutdown c; cl_wire := cl_wire c |}.

Definition with_cl_epoll (v : gset Z) (c : TcpClient) : TcpClient :=
  {| cl_socket := cl_socket c; cl_framer := cl_framer c; cl_transport := cl_transport c; cl_callback := cl_callback c;
     cl_recv_buffer := cl_recv_buffer c; cl_ssl_ctx := cl_ssl_ctx c; cl_tls := cl_tls c; cl_epoll := v;
     cl_wakeups := cl_wakeups c; cl_shutdown := cl_shutdown c; cl_wire := cl_wire c |}.

Definition with_cl_wire (v : Socket) (c : TcpClient) : TcpClient :=
  {| cl_socket := cl_socket c; cl_framer := cl_framer c; cl_transport := cl_transport c; cl_callback := cl_callback c;
     cl_recv_buffer := cl_recv_buffer c; cl_ssl_ctx := cl_ssl_ctx c; cl_tls := cl_tls c; cl_epoll := cl_epoll c;
     cl_wakeups := cl_wakeups c; cl_shutdown := cl_shutdown c; cl_wire := v |}.

Definition Client_set_data_callback (c : TcpClient) : TcpClient := with_cl_callback true c.

(** [SSL_connect] in [ClientTLSWrapper::tls_handshake]. *)
Definition ClientTLSWrapper_tls_handshake (hs : HandshakeEvent) (handshake_done : bool) : outcome bool :=
  match hs with
  | HsDone => Ok true
  | HsWant => Ok handshake_done
  | HsFailed => Throw (runtime_error "TLS SSL accept error")
  end.

(** [fd] of a socket that was never set up has no value. *)
Definition Client_fd (c : TcpClient) : outcome Z :=
  match is_fd (cl_socket c) with
  | Some fd => Ok fd
  | None => Undef
  end.

Definition Client_isConnected (c : TcpClient) : outcome bool :=
  fd ← Client_fd c;
  Ok (negb (fd =? -1)).

Definition Client_get_fd (c : TcpClient) : outcome Z := Client_fd c.

(** [tls_handshake] and [tls_handshake_done] follow a null pointer before
    [connect]. *)
Definition Client_tls_handshake (hs : HandshakeEvent) : M TcpClient unit :=
  c ← get;
  match cl_tls c with
  | None => lift Undef
  | Some handshake_done =>
      d ← lift (ClientTLSWrapper_tls_handshake hs handshake_done);
      modify (with_cl_tls d)
  end.

Definition Client_tls_handshake_done (c : TcpClient) : outcome bool :=
  match cl_tls c with
  | None => Undef
  | Some handshake_done => Ok handshake_done
  end.

Section Connect.
  Variable inet_pton : string -> option Z.
  Variable env : SocketAnswers.

(** The constructor of the wrapper starts the handshake. [SSL_new] of a null context
    gives a null pointer, which [SSL_set_fd] follows. *)
Definition Client_connect (server_ip : string) (port : Z) (hs : HandshakeEvent) : M TcpClient bool :=
  c ← get;
  let '(r, sock) := ISocket_setup_connection inet_pton env server_ip (u16 port) (cl_socket c) in
  _ ← modify (with_cl_socket sock);
  r ← lift r;
  if r <? 0 then mret false
  else
    c ← get;
    fd ← lift (Client_fd c);
    _ ← modify (with_cl_epoll ({[fd]} ∪ cl_epoll c));
    d ← lift (if cl_ssl_ctx c then ClientTLSWrapper_tls_handshake hs false else Undef);
    _ ← modify (with_cl_tls d);
    _ ← modify (fun c => with_cl_transport {| accumulation_buffer := [] |} (cl_wire c) c);
    mret true.

End Connect.

(** The descriptor is taken out of the event loop and shut down, but not closed. *)
Definition close_socket (fd : Z) (c : TcpClient) : TcpClient :=
  {| cl_socket := {| is_type := is_type (cl_socket c); is_fd := Some (-1); is_raw := is_raw (cl_socket c) |};
     cl_framer := cl_framer c; cl_transport := cl_transport c; cl_callback := cl_callback c;
     cl_recv_buffer := cl_recv_buffer c; cl_ssl_ctx := cl_ssl_ctx c; cl_tls := cl_tls c;
     cl_epoll := cl_epoll c ∖ {[fd]}; cl_wakeups := S (cl_wakeups c);
     cl_shutdown := {[fd]} ∪ cl_shutdown c; cl_wire := cl_wire c |}.

Definition free_ssl_ctx (c : TcpClient) : TcpClient :=
  {| cl_socket := cl_socket c; cl_framer := cl_framer c; cl_transport := cl_transport c;
     cl_callback := cl_callback c; cl_recv_buffer := cl_recv_buffer c; cl_ssl_ctx := false; cl_tls := cl_tls c;
     cl_epoll := cl_epoll c; cl_wakeups := cl_wakeups c; cl_shutdown := cl_shutdown c; cl_wire := cl_wire c |}.

Definition Client_disconnect : M TcpClient unit :=
  c ← get;
  fd ← lift (Client_fd c);
  _ ← (if fd =? -1 then mret tt else modify (close_socket fd));
  modify free_ssl_ctx.

(** [framer] is never given a value, and calling a member function through a null
    pointer is undefined. The functions of [FramerMessage], which is not virtual and
    has no members, run all the same where the call is compiled as written. Which of
    the two it is is left open here: [null_call_runs] is a parameter of the model, and
    where it is false the operations below that go through [framer] are [Undef]. The
    theorems that need the calls to run say so, as [framer_works]. *)
Class NullCalls := {
  null_call_runs : bool;
}.

Definition framer_works {nc : NullCalls} (c : TcpClient) : bool := cl_framer c || null_call_runs.

(** What [transport->send] returns is not looked at. *)
Definition Client_send_to_server {nc : NullCalls} (data : bytes) : M TcpClient unit :=
  c ← get;
  if negb (framer_works c) then lift Undef
  else
    let packet := form_message data [] in
    match cl_transport c with
    | None => lift Undef
    | Some _ =>
        let '(_, _, w) := transport_send_data packet (cl_wire c) in
        modify (with_cl_wire w)
    end.

#[global] Instance tcp_client {nc : NullCalls} : IClient TcpClient := {|
  client_send_to_server := Client_send_to_server;
  client_disconnect := Client_disconnect;
|}.

(** ** With the application on top *)

Section ClientStack.
  Context {ssl : OpenSSL} {nc : NullCalls}.
  Variable now : Z.
  Variable rand : nat -> option bytes.
  Variable can_open : string -> bool.

Definition tcpc (s : MessagingClient TcpClient) : TcpClient := cc_client (client_context s).

Definition on_tcpc {A} (f : M TcpClient A) : M (MessagingClient TcpClient) A := fun s =>
  let '(r, ctx) := on_client f (client_context s) in
  (r, {| client_context := ctx; client_dispatcher := client_dispatcher s |}).

(** [on_data_callback], once [MessagingClient::init_client] has set it. *)
Definition on_data_callback (raw_bytes : bytes) : M (MessagingClient TcpClient) unit :=
  s ← get;
  if cl_callback (tcpc s) then client_on_tcp_data_received now rand can_open raw_bytes
  else lift (Throw bad_function_call).

Definition MessagingClient_init_client : M (MessagingClient TcpClient) Z :=
  _ ← on_tcpc (modify Client_set_data_callback);
  mret 1.

(** The [while] of [on_server_message]; each iteration takes a header at least out
    of the buffer. *)
Fixpoint handle_messages (fuel : nat) : M (MessagingClient TcpClient) unit :=
  match fuel with
  | O => mret tt
  | S fuel' =>
      s ← get;
      has ← lift (has_message_in_buffer (cl_recv_buffer (tcpc s)));
      if has : bool then
        '(raw_bytes, rest) ← lift (extract_message (cl_recv_buffer (tcpc s)));
        _ ← on_tcpc (modify (with_cl_buffer rest));
        _ ← on_data_callback raw_bytes;
        handle_messages fuel'
      else mret tt
  end.

(** [on_disconnected] writes to the log. *)
Definition Client_on_disconnected : M (MessagingClient TcpClient) unit := mret tt.

Definition Client_on_server_message : M (MessagingClient TcpClient) unit :=
  s ← get;
  match cl_transport (tcpc s) with
  | None => lift Undef
  | Some t =>
      '(result, t, w) ← lift (transport_receive t (cl_wire (tcpc s)));
      _ ← on_tcpc (modify (with_cl_transport t w));
      if bool_decide (rr_status result = ROk) then
        data ← lift (NetBuffer_contents (rr_data result));
        _ ← on_tcpc (modify (fun c => with_cl_buffer (cl_recv_buffer c ++ data) c));
        s ← get;
        if negb (framer_works (tcpc s)) then lift Undef
        else handle_messages (S (length (cl_recv_buffer (tcpc s))))
      else if bool_decide (rr_status result = RClosed) then Client_on_disconnected
      else mret tt
  end.

Definition ClientHandler_handle_event (mask : EventMask) (hs : HandshakeEvent) :
    M (MessagingClient TcpClient) unit :=
  s ← get;
  d ← lift (Client_tls_handshake_done (tcpc s));
  if negb d then
    if ev_in mask || ev_out mask then on_tcpc (Client_tls_handshake hs) else mret tt
  else if ev_err mask then on_tcpc Client_disconnect
  else if ev_in mask then Client_on_server_message
  else mret tt.

(** One event of [EventLoop::run_once], with what the system calls made while
    handling it give; [ClientHandler] holds a weak pointer to the client, which is
    alive while its event loop runs. *)
Record ClientEvent := {
  ce_fd : Z;
  ce_mask : EventMask;
  ce_recvs : list RecvEvent;
  ce_sends : list SendEvent;
  ce_hs : HandshakeEvent;
}.

Definition client_event (e : ClientEvent) : M (MessagingClient TcpClient) unit :=
  s ← get;
  if bool_decide (ce_fd e ∈ cl_epoll (tcpc s)) then
    _ ← on_tcpc (modify (fun c => with_cl_wire {| sk_recv := ce_recvs e; sk_send := ce_sends e;
                                                  sk_wire := sk_wire (cl_wire c) |} c));
    ClientHandler_handle_event (ce_mask e) (ce_hs e)
  else mret tt.

Fixpoint client_events (es : list ClientEvent) : M (MessagingClient TcpClient) unit :=
  match es with
  | [] => mret tt
  | e :: es => _ ← client_event e; client_events es
  end.

(** [run_event_loop]: each element of [rounds] is what one [epoll_wait] reports. *)
Fixpoint Client_run_event_loop (rounds : list (list ClientEvent)) : M (MessagingClient TcpClient) bool :=
  s ← get;
  connected ← lift (Client_isConnected (tcpc s));
  if connected : bool then
    match rounds with
    | [] => mret true
    | es :: rounds => _ ← client_events es; Client_run_event_loop rounds
    end
  else mret false.

End ClientStack.
