(* ===== verification/ClientStackSpec.v ===== *)
(** The client on its socket does what the client over the recording transport does:
    what it sends reaches the server as it was sent, what the server sends is handled
    message by message, and its event loop ends when the connection does. *)
From S2P Require Import Prelude Message Wire Framing Parser Commands AppService Queue Crypto ClientContext Client ClientRefinement Sockets Transport TransportSpec Stack ClientStack.

(** ** The transport *)

Section Transport.
  Context {nc : NullCalls}.

(** What one message is on the wire. *)
Definition packet (data : bytes) : bytes := frame (frame data).

(** A client that is connected, over a socket that takes what it is given. *)
Record usable (c : TcpClient) : Prop := {
  us_framer : framer_works c = true;
  us_transport : is_Some (cl_transport c);
  us_fd : is_Some (is_fd (cl_socket c));
  us_takes : sk_send (cl_wire c) = [];
}.

Definition append_wire (b : bytes) (c : TcpClient) : TcpClient :=
  with_cl_wire {| sk_recv := sk_recv (cl_wire c); sk_send := sk_send (cl_wire c);
                  sk_wire := sk_wire (cl_wire c) ++ b |} c.

Lemma send_run data c :
  usable c -> Client_send_to_server data c = (Ok tt, append_wire (packet data) c).
Proof.
  intros [Hf [t Ht] _ Hs]. unfold Client_send_to_server. rewrite run_get, Hf, Ht. cbn [negb].
  unfold transport_send_data, sys_send. rewrite Hs. rewrite firstn_all. unfold append_wire. by rewrite Hs.
Qed.

Definition closed (c : TcpClient) : TcpClient :=
  match is_fd (cl_socket c) with
  | Some fd => free_ssl_ctx (if fd =? -1 then c else close_socket fd c)
  | None => c
  end.

Lemma disconnect_run c : is_Some (is_fd (cl_socket c)) -> Client_disconnect c = (Ok tt, closed c).
Proof.
  intros [fd Hfd]. unfold Client_disconnect, closed, Client_fd. rewrite run_get, Hfd, run_lift.
  by destruct (fd =? -1).
Qed.

Lemma closed_closed c : closed (closed c) = closed c.
Proof.
  unfold closed. destruct (is_fd (cl_socket c)) as [fd|] eqn:Hfd; [|by rewrite Hfd].
  destruct (Z.eqb_spec fd (-1)) as [->|Hne]; cbn; [rewrite Hfd|]; done.
Qed.

Lemma append_closed b c : append_wire b (closed c) = closed (append_wire b c).
Proof. unfold closed. cbn. by destruct (is_fd (cl_socket c)) as [fd|]; [destruct (fd =? -1)|]. Qed.

Lemma append_app a b c : append_wire b (append_wire a c) = append_wire (a ++ b) c.
Proof. unfold append_wire. cbn. by rewrite <- app_assoc. Qed.

Lemma usable_append b c : usable c -> usable (append_wire b c).
Proof. by intros []. Qed.

Lemma usable_closed c : usable c -> usable (closed c).
Proof.
  intros [Hf Ht [fd Hfd] Hs]. unfold closed. rewrite Hfd. destruct (fd =? -1); constructor; cbn; done.
Qed.

(** *** The recording transport as one *)

Definition packets (ms : list bytes) : bytes := concat (map packet ms).

(** The connection [c], after what the record says has been done. *)
Definition replay_client (c : TcpClient) (l : client_log) : TcpClient :=
  let c := append_wire (packets (log_sent l)) c in
  if log_closed l then closed c else c.

Lemma usable_replay c l : usable c -> usable (replay_client c l).
Proof. intros H. unfold replay_client. destruct (log_closed l); [apply usable_closed|]; by apply usable_append. Qed.

Lemma replay_map c : usable c -> TransportMap (replay_client c).
Proof.
  intros Hc. constructor.
  - intros data l. etrans; [apply send_run, usable_replay, Hc|]. cbn. f_equal.
    unfold replay_client. cbn. unfold packets. rewrite map_app, concat_app. cbn. rewrite app_nil_r, <- append_app.
    destruct (log_closed l); [apply append_closed|done].
  - intros l. etrans; [apply disconnect_run, (us_fd _ (usable_replay c l Hc))|]. cbn. f_equal.
    unfold replay_client. cbn. destruct (log_closed l); [apply closed_closed|done].
Qed.

(** *** The receive buffer *)

Lemma buffer_map b : TransportMap (with_cl_buffer b).
Proof.
  constructor.
  - intros data c. cbn. unfold Client_send_to_server. rewrite !run_get.
    change (framer_works (with_cl_buffer b c)) with (framer_works c).
    destruct (framer_works c); [|done]. cbn. destruct (cl_transport c); [|done].
    by destruct (transport_send_data _ _) as [[? ?] ?].
  - intros c. cbn. unfold Client_disconnect, Client_fd. rewrite !run_get. cbn.
    destruct (is_fd (cl_socket c)) as [fd|]; [|done]. unfold mbind, M_bind, lift. by destruct (fd =? -1).
Qed.

End Transport.

(** What the application cannot change. *)
Record same_setup (c c' : TcpClient) : Prop := {
  ss_buffer : cl_recv_buffer c' = cl_recv_buffer c;
  ss_callback : cl_callback c' = cl_callback c;
  ss_framer : cl_framer c' = cl_framer c;
}.

#[local] Instance same_setup_preorder : PreOrder same_setup.
Proof. split; [done|]. intros x y z [] []. constructor; congruence. Qed.

Section Spec.
  Context {ssl : OpenSSL} {nc : NullCalls}.
  Variable now : Z.
  Variable rand : nat -> option bytes.
  Variable can_open : string -> bool.

Abbreviation received := (client_on_tcp_data_received now rand can_open).

Lemma received_setup raw (s : MessagingClient TcpClient) : same_setup (tcpc s) (tcpc (received raw s).2).
Proof.
  apply (evolves_received same_setup).
  - intros data c. cbn. unfold Client_send_to_server, mbind, M_bind, get, lift, modify.
    destruct (framer_works c); [|done]. cbn. destruct (cl_transport c); [|done].
    by destruct (transport_send_data _ _) as [[? ?] ?].
  - intros c. cbn. unfold Client_disconnect, Client_fd, mbind, M_bind, get, lift, modify.
    destruct (is_fd (cl_socket c)) as [fd|]; [|done]. by destruct (fd =? -1).
Qed.

(** Messages handed over one after the other. *)
Fixpoint receive_all {T} `{!IClient T} (ms : list bytes) : M (MessagingClient T) unit :=
  match ms with
  | [] => mret tt
  | m :: ms => _ ← received m; receive_all ms
  end.

Definition set_buffer (b : bytes) (s : MessagingClient TcpClient) : MessagingClient TcpClient :=
  lower_client (with_cl_buffer b) s.

Lemma set_buffer_set a b s : set_buffer a (set_buffer b s) = set_buffer a s.
Proof. done. Qed.

Lemma buffer_step b s : on_tcpc (modify (with_cl_buffer b)) s = (Ok tt, set_buffer b s).
Proof. done. Qed.

Lemma callback_run b m s : cl_callback (tcpc s) = true ->
  on_data_callback now rand can_open m (set_buffer b s) = ((received m s).1, set_buffer b (received m s).2).
Proof.
  intros Hcb. unfold on_data_callback. rewrite run_get.
  cbn [tcpc set_buffer lower_client lower_context client_context cc_client with_cl_buffer cl_callback].
  fold (tcpc s). rewrite Hcb. apply (natural_received _ (map := buffer_map _) now rand can_open m).
Qed.

(** The loop hands the messages of the buffer over, in order, until one fails. *)
Lemma handle_messages_frames q ms : forall fuel s,
  forallb frame_ok ms = true -> has_message_in_buffer q = Ok false -> cl_callback (tcpc s) = true ->
  (length ms < fuel)%nat ->
  let '(r, s') := receive_all ms s in
  exists s2, handle_messages now rand can_open fuel (set_buffer (frames ms ++ q) s) = (r, s2) /\
    (r = Ok tt -> s2 = set_buffer q s').
Proof.
  induction ms as [|m ms IH]; intros [|fuel] s Hms Hq Hcb Hfuel; cbn [length] in Hfuel; try lia.
  - cbn [receive_all mret M_ret handle_messages]. rewrite run_get. cbn. rewrite Hq. by eexists.
  - cbn [forallb] in Hms. bools. cbn [handle_messages]. rewrite run_get.
    change (cl_recv_buffer (tcpc (set_buffer (frames (m :: ms) ++ q) s))) with (frames (m :: ms) ++ q).
    rewrite frames_cons, <- app_assoc, has_frame, run_lift by done.
    rewrite extract_frame by (unfold frame_ok in *; bools; lia). rewrite run_lift.
    rewrite (run_bind _ _ _ _ _ (buffer_step (frames ms ++ q) _)), set_buffer_set.
    cbn [receive_all]. unfold mbind, M_bind. rewrite callback_run by done.
    pose proof (received_setup m s) as [_ Hc _]. destruct (received m s) as [[[]| |] s1]; cbn in Hc |- *.
    + apply IH; [done..|congruence|lia].
    + by eexists.
    + by eexists.
Qed.

(** *** A readable connection *)

(** The connection is up and nothing is half received. *)
Record ready (c : TcpClient) (fd : Z) : Prop := {
  rd_usable : usable c;
  rd_fd : is_fd (cl_socket c) = Some fd;
  rd_open : fd <> -1;
  rd_epoll : fd ∈ cl_epoll c;
  rd_tls : cl_tls c = Some true;
  rd_callback : cl_callback c = true;
  rd_buffer : cl_recv_buffer c = [];
}.

(** What the network delivers of [raw], in [pieces]. *)
Definition readable_event (fd : Z) (pieces : list bytes) : ClientEvent :=
  {| ce_fd := fd; ce_mask := {| ev_in := true; ev_out := false; ev_err := false |};
     ce_recvs := map RecvBytes pieces; ce_sends := []; ce_hs := HsWant |}.

Lemma natural_receive_all {T T'} {cl : IClient T} {cl' : IClient T'} (g : T -> T') {mp : TransportMap g} ms :
  natural (lower_client g) (receive_all ms) (receive_all ms).
Proof.
  induction ms as [|m ms IH]; cbn [receive_all]; [apply natural_ret|].
  apply natural_bind; [by apply natural_received | intros _; apply IH].
Qed.

(** The pieces of one frame are read in one go. *)
Lemma receive_pieces t w m pieces :
  zsize m < 2 ^ 32 -> Forall (fun p => p <> []) pieces -> concat pieces = frame m ->
  sk_recv w = map RecvBytes pieces ->
  exists r, transport_receive t w = Ok (r, {| accumulation_buffer := [] |},
      {| sk_recv := []; sk_send := sk_send w; sk_wire := sk_wire w |}) /\
    rr_status r = ROk /\ NetBuffer_contents (rr_data r) = Ok m.
Proof.
  intros Hm Hne Hc Hw. destruct (exists_last (l := pieces)) as (ps & p & ->).
  { intros ->. by rewrite frame_eq in Hc. }
  rewrite concat_app in Hc. cbn [concat] in Hc. rewrite app_nil_r in Hc.
  apply Forall_app in Hne as [_ Hp]. apply Forall_inv in Hp.
  unfold transport_receive. rewrite Hw, map_app. cbn [map].
  rewrite (receive_loop_frame m p [] []); [|done| |].
  - destruct (receive_result_run ROk m 0) as (r & -> & Hst & _ & Hco). cbn [mbind outcome_bind]. by exists r.
  - by rewrite app_nil_r.
  - cbn [app]. rewrite <- Hc, zsize_app. assert (zsize p <> 0) by (by rewrite zsize_zero).
    pose proof (zsize_nonneg p). lia.
Qed.

Definition after_reading (w : Socket) (c : TcpClient) : TcpClient :=
  with_cl_transport {| accumulation_buffer := [] |} {| sk_recv := []; sk_send := []; sk_wire := sk_wire w |} c.

Lemma ready_after fd c : ready c fd -> ready (after_reading (cl_wire c) c) fd.
Proof. intros [[] ? ? ? ? ? ?]. by constructor. Qed.

Lemma same_buffer c : cl_recv_buffer c = [] -> with_cl_buffer [] c = c.
Proof. destruct c. cbn. by intros ->. Qed.

Lemma replay_buffer c l : cl_recv_buffer (replay_client c l) = cl_recv_buffer c.
Proof.
  unfold replay_client, closed. destruct (log_closed l); [|done]. cbn.
  destruct (is_fd (cl_socket c)) as [fd|]; [|done]. by destruct (fd =? -1).
Qed.

Lemma modify_run f s : on_tcpc (modify f) s = (Ok tt, lower_client f s).
Proof. done. Qed.

Lemma tcpc_lower f (s : MessagingClient TcpClient) : tcpc (lower_client f s) = f (tcpc s).
Proof. done. Qed.

(** One readable event goes to the loop with the messages in the buffer. *)
Lemma client_readable_reads c fd ms pieces (l : MessagingClient client_log) :
  ready c fd -> log_closed (cc_client (client_context l)) = false -> zsize (frames ms) < 2 ^ 32 ->
  Forall (fun p => p <> []) pieces -> concat pieces = frame (frames ms) ->
  client_event now rand can_open (readable_event fd pieces) (lower_client (replay_client c) l)
  = handle_messages now rand can_open (S (length (frames ms ++ [])))
      (set_buffer (frames ms ++ []) (lower_client (replay_client (after_reading (cl_wire c) c)) l)).
Proof.
  intros Hc Hop Hsz Hne Hcat. pose proof Hc as [[Hfr [t Ht] _ Hsn] Hfd Hfo Hep Htls Hcb Hbuf].
  set (s := lower_client (replay_client c) l).
  set (s1 := lower_client (replay_client (after_reading (cl_wire c) c)) l).
  assert (Htc : tcpc s = append_wire (packets (log_sent (cc_client (client_context l)))) c).
  { unfold s, tcpc, replay_client. cbn. by rewrite Hop. }
  unfold client_event. rewrite run_get, Htc. cbn [readable_event ce_fd append_wire with_cl_wire cl_epoll].
  rewrite bool_decide_true by done. rewrite (run_bind _ _ _ _ _ (modify_run _ s)).
  unfold ClientHandler_handle_event, Client_tls_handshake_done. rewrite run_get, tcpc_lower, Htc.
  cbn [append_wire with_cl_wire cl_tls ce_mask readable_event ev_in ev_out ev_err]. rewrite Htls, run_lift. cbn [negb].
  unfold Client_on_server_message. rewrite run_get, tcpc_lower, Htc. cbn [append_wire with_cl_wire cl_transport cl_wire].
  rewrite Ht. cbn [readable_event ce_recvs ce_sends sk_wire].
  destruct (receive_pieces t {| sk_recv := map RecvBytes pieces; sk_send := []; sk_wire := sk_wire (cl_wire c) ++ packets (log_sent (cc_client (client_context l))) |}
    (frames ms) pieces Hsz Hne Hcat eq_refl) as (r & -> & Hst & Hco).
  rewrite run_lift, (run_bind _ _ _ _ _ (modify_run _ _)).
  rewrite Hst, bool_decide_true, Hco, run_lift by done. rewrite (run_bind _ _ _ _ _ (modify_run _ _)), run_get.
  match goal with |- (if _ then _ else _) ?x = _ => assert (Hx : x = set_buffer (frames ms ++ []) s1) end.
  { unfold set_buffer, s1, s, lower_client, lower_context, replay_client. cbn. rewrite Hop.
    unfold append_wire, after_reading, with_cl_buffer, with_cl_transport, with_cl_wire. cbn. by rewrite Hbuf, app_nil_r. }
  rewrite Hx. unfold set_buffer at 1 2. rewrite tcpc_lower. cbn [with_cl_buffer cl_recv_buffer].
  replace (framer_works (with_cl_buffer (frames ms ++ []) (tcpc s1))) with true
    by (unfold s1, tcpc, replay_client; cbn; rewrite Hop; by rewrite <- Hfr). done.
Qed.

(** One readable event, over the record. *)
Lemma client_readable_run c fd ms pieces (l : MessagingClient client_log) :
  ready c fd -> log_closed (cc_client (client_context l)) = false ->
  forallb frame_ok ms = true -> zsize (frames ms) < 2 ^ 32 ->
  Forall (fun p => p <> []) pieces -> concat pieces = frame (frames ms) ->
  let '(r, l') := receive_all ms l in
  exists s', client_event now rand can_open (readable_event fd pieces) (lower_client (replay_client c) l) = (r, s') /\
    (r = Ok tt -> s' = lower_client (replay_client (after_reading (cl_wire c) c)) l').
Proof.
  intros Hc Hop Hms Hsz Hne Hcat. pose proof (ready_after fd c Hc) as Ha.
  rewrite (client_readable_reads c fd ms pieces l) by done.
  set (s1 := lower_client (replay_client (after_reading (cl_wire c) c)) l).
  pose proof (handle_messages_frames [] ms (S (length (frames ms ++ []))) s1 Hms eq_refl) as Hx.
  pose proof (natural_receive_all _ (mp := replay_map _ (rd_usable _ _ Ha)) ms l) as Hn. fold s1 in Hn. rewrite Hn in Hx.
  destruct (receive_all ms l) as [r l']. destruct Hx as (s2 & Hs2 & Hr).
  - unfold s1, tcpc, replay_client. cbn. rewrite Hop. apply (rd_callback _ _ Hc).
  - pose proof (length_frames ms []). lia.
  - exists s2. split; [exact Hs2|]. intros ->. rewrite Hr by done.
    unfold set_buffer, lower_client, lower_context. cbn. by rewrite same_buffer by (rewrite replay_buffer; apply (rd_buffer _ _ Hc)).
Qed.

(** *** The loop over the buffer *)

Lemma extract_shrinks b m rest : extract_message b = Ok (m, rest) -> (length rest < length b)%nat.
Proof.
  unfold extract_message. destruct (ntohl_prefix b) as [len| |] eqn:E; [|done..].
  apply ntohl_prefix_inv in E as (q & -> & Hlen). cbn [mbind outcome_bind].
  destruct (range _ 4 _) as [x| |]; [|done..]. cbn [mbind outcome_bind].
  unfold range. destruct (_ && _) eqn:Hb; [|done]. cbn [mbind outcome_bind]. intros [= _ <-]. bools.
  rewrite length_take, length_drop. unfold zsize in *. rewrite length_app in *. cbn [length write_u32] in *. lia.
Qed.

Lemma callback_buffer raw s r s' :
  on_data_callback now rand can_open raw s = (r, s') -> cl_recv_buffer (tcpc s') = cl_recv_buffer (tcpc s).
Proof.
  unfold on_data_callback. rewrite run_get. destruct (cl_callback (tcpc s)); [|by intros [= _ <-]].
  intros E. pose proof (received_setup raw s) as [Hb _ _]. by rewrite E in Hb.
Qed.

Lemma handle_messages_fuel fuel : forall fuel' s,
  (length (cl_recv_buffer (tcpc s)) < fuel <= fuel')%nat ->
  handle_messages now rand can_open fuel' s = handle_messages now rand can_open fuel s.
Proof.
  induction fuel as [|fuel IH]; intros [|fuel'] s Hf; [lia..|]. cbn [handle_messages]. rewrite !run_get.
  unfold lift, mbind, M_bind. destruct (has_message_in_buffer _) as [[]| |]; try done.
  destruct (extract_message _) as [[raw rest]| |] eqn:E; try done. apply extract_shrinks in E.
  rewrite modify_run. destruct (on_data_callback now rand can_open raw _) as [[[]| |] s1] eqn:Ec; try done.
  apply callback_buffer in Ec. rewrite tcpc_lower in Ec. cbn in Ec. apply IH. rewrite Ec. lia.
Qed.

Lemma handle_messages_done fuel : forall s s',
  (length (cl_recv_buffer (tcpc s)) < fuel)%nat -> handle_messages now rand can_open fuel s = (Ok tt, s') ->
  has_message_in_buffer (cl_recv_buffer (tcpc s')) = Ok false.
Proof.
  induction fuel as [|fuel IH]; intros s s' Hf; [lia|]. cbn [handle_messages]. rewrite run_get.
  unfold lift, mbind, M_bind. destruct (has_message_in_buffer _) as [[]| |] eqn:Hh; try done; [|by intros [= <-]].
  destruct (extract_message _) as [[raw rest]| |] eqn:E; try done. apply extract_shrinks in E.
  rewrite modify_run. destruct (on_data_callback now rand can_open raw _) as [[[]| |] s1] eqn:Ec; try done.
  apply callback_buffer in Ec. rewrite tcpc_lower in Ec. cbn in Ec. apply IH. rewrite Ec. lia.
Qed.

(** *** A hang-up during the handshake *)

(** The same client, with what the last event gave its socket. *)
Definition same_but_wire (c c' : TcpClient) : Prop := exists w, c' = with_cl_wire w c.

Lemma hang_up_ignored e n : forall s,
  is_fd (cl_socket (tcpc s)) = Some (ce_fd e) -> ce_fd e <> -1 -> cl_epoll (tcpc s) = {[ce_fd e]} ->
  cl_tls (tcpc s) = Some false -> ev_in (ce_mask e) = false -> ev_out (ce_mask e) = false ->
  exists s', Client_run_event_loop now rand can_open (repeat [e] n) s = (Ok true, s') /\
    same_but_wire (tcpc s) (tcpc s').
Proof.
  induction n as [|n IH]; intros s Hfd Hne Hep Htls Hin Hout; cbn [repeat Client_run_event_loop]; rewrite run_get;
    unfold Client_isConnected, Client_fd; rewrite Hfd; cbn [mbind outcome_bind]; rewrite (proj2 (Z.eqb_neq _ _)), run_lift by done;
    cbn [negb].
  - exists s. split; [done|]. exists (cl_wire (tcpc s)). by destruct (tcpc s).
  - set (f := fun c => with_cl_wire {| sk_recv := ce_recvs e; sk_send := ce_sends e; sk_wire := sk_wire (cl_wire c) |} c).
    assert (Hev : client_events now rand can_open [e] s = (Ok tt, lower_client f s)).
    { cbn [client_events]. etrans; [apply run_bind | done]. unfold client_event. rewrite run_get, Hep, bool_decide_true by set_solver.
      rewrite (run_bind _ _ _ _ _ (modify_run _ s)). unfold ClientHandler_handle_event, Client_tls_handshake_done.
      rewrite run_get, tcpc_lower. cbn [with_cl_wire cl_tls]. by rewrite Htls, run_lift, Hin, Hout. }
    rewrite (run_bind _ _ _ _ _ Hev). destruct (IH (lower_client f s)) as (s' & Hrun & w & Hw); [done..|].
    exists s'. split; [exact Hrun|]. exists w. rewrite Hw, tcpc_lower. done.
Qed.

(** ** Properties *)

(** A readable connection that has the first part of a frame, and then nothing more. *)
Definition interrupted_event (fd : Z) (p : bytes) : ClientEvent :=
  {| ce_fd := fd; ce_mask := {| ev_in := true; ev_out := false; ev_err := false |};
     ce_recvs := [RecvBytes p; RecvAgain]; ce_sends := []; ce_hs := HsWant |}.

(** What has been read of it stays in the accumulation buffer, which the next call of
    [receive] empties. *)
Lemma client_interrupted_run c fd m p q (l : MessagingClient client_log) :
  ready c fd -> log_closed (cc_client (client_context l)) = false ->
  zsize m < 2 ^ 32 -> p ++ q = frame m -> q <> [] ->
  exists c', ready c' fd /\
    client_event now rand can_open (interrupted_event fd p) (lower_client (replay_client c) l)
    = (Ok tt, lower_client (replay_client c') l).
Proof.
  intros Hc Hop Hm Hp Hq. pose proof Hc as [[Hfr [t Ht] ? Hsn] Hfd Hfo Hep Htls Hcb Hbuf].
  exists (with_cl_transport {| accumulation_buffer := p |} {| sk_recv := []; sk_send := []; sk_wire := sk_wire (cl_wire c) |} c).
  split; [by constructor|]. set (s := lower_client (replay_client c) l).
  assert (Htc : tcpc s = append_wire (packets (log_sent (cc_client (client_context l)))) c).
  { unfold s, tcpc, replay_client. cbn. by rewrite Hop. }
  unfold client_event. rewrite run_get, Htc. cbn [interrupted_event ce_fd append_wire with_cl_wire cl_epoll].
  rewrite bool_decide_true by done. rewrite (run_bind _ _ _ _ _ (modify_run _ s)).
  unfold ClientHandler_handle_event, Client_tls_handshake_done. rewrite run_get, tcpc_lower, Htc.
  cbn [append_wire with_cl_wire cl_tls ce_mask interrupted_event ev_in ev_out ev_err]. rewrite Htls, run_lift. cbn [negb].
  unfold Client_on_server_message. rewrite run_get, tcpc_lower, Htc. cbn [append_wire with_cl_wire cl_transport cl_wire].
  rewrite Ht. cbn [interrupted_event ce_recvs ce_sends sk_wire]. unfold transport_receive. cbn [sk_recv sk_send sk_wire].
  pose proof (receive_loop_partial m RecvAgain [] [p] [] q Hm) as E. cbn [map app concat] in E. rewrite E by (rewrite ?app_nil_r; done).
  destruct (receive_result_run RWouldBlock p 0) as (r & Hr & Hst & _). cbn [app concat receive_loop]; rewrite ?app_nil_r, Hr. cbn [mbind outcome_bind].
  rewrite run_lift, (run_bind _ _ _ _ _ (modify_run _ _)), Hst. rewrite !bool_decide_false by done.
  unfold mret, M_ret, s, lower_client, lower_context, replay_client. cbn. by rewrite Hop.
Qed.

(** C18: the client on its socket refines the client over the recording transport, and
    the limits of this. It holds for a connection that is [ready]: the descriptor is in
    the event loop, the handshake is done, nothing is half received, every write is
    taken whole by the socket, and the calls through [framer], a null pointer in every
    client, run as if there were a framer ([framer_works]; the standard leaves them
    undefined). The state is then the recording client's, with the transport
    in the state it reaches when what was recorded has been done to the connection [c].
    A line the user types has the same outcome on both and leads to such a state again.
    When one event delivers one whole frame of the transport, of less than 2^32 bytes,
    with the messages [ms] in it, by any number of [recv] calls and no byte of the next
    frame, and handling the messages one after the other succeeds, the event does just
    that, nothing is left in the buffer and the connection is ready for the next event.
    The limits are real. When an event ends inside a frame, what was read of it is
    lost: the client and its receive buffer are as if nothing had arrived. A message
    the socket does not take is lost too, and [send_to_server] does not tell. And
    where the call through the null [framer] does not run, sending is undefined. *)
Theorem client_stack_refines (c : TcpClient) (fd : Z) (l : MessagingClient client_log) :
  ready c fd ->
  (forall line, get_data now rand can_open line (lower_client (replay_client c) l)
     = let '(r, l') := get_data now rand can_open line l in (r, lower_client (replay_client c) l')) /\
  (forall ms pieces l', log_closed (cc_client (client_context l)) = false ->
     forallb frame_ok ms = true -> zsize (frames ms) < 2 ^ 32 ->
     Forall (fun p => p <> []) pieces -> concat pieces = frame (frames ms) ->
     receive_all ms l = (Ok tt, l') ->
     exists c', ready c' fd /\
       client_event now rand can_open (readable_event fd pieces) (lower_client (replay_client c) l)
       = (Ok tt, lower_client (replay_client c') l')) /\
  (forall m p q, log_closed (cc_client (client_context l)) = false ->
     zsize m < 2 ^ 32 -> p ++ q = frame m -> q <> [] ->
     exists c', ready c' fd /\
       client_event now rand can_open (interrupted_event fd p) (lower_client (replay_client c) l)
       = (Ok tt, lower_client (replay_client c') l)) /\
  (forall rest data, exists c',
     Client_send_to_server data (with_cl_wire {| sk_recv := sk_recv (cl_wire c); sk_send := SendAgain :: rest;
                                                 sk_wire := sk_wire (cl_wire c) |} c) = (Ok tt, c') /\
     sk_wire (cl_wire c') = sk_wire (cl_wire c)) /\
  (forall c0 data, framer_works c0 = false -> Client_send_to_server data c0 = (Undef, c0)).
Proof.
  intros Hc. split_and!.
  - intros line. rewrite (natural_get_data _ (map := replay_map c (rd_usable _ _ Hc)) now rand can_open line l).
    by destruct (get_data now rand can_open line l).
  - intros ms pieces l' Hop Hms Hsz Hne Hcat Hrun. eexists. split; [by apply ready_after|].
    pose proof (client_readable_run c fd ms pieces l Hc Hop Hms Hsz Hne Hcat) as Hx. rewrite Hrun in Hx.
    destruct Hx as (s' & -> & Hs'). by rewrite Hs'.
  - intros m p q. by apply client_interrupted_run.
  - intros rest data. destruct Hc as [[Hf [t Ht] _ _] _ _ _ _ _ _]. eexists. unfold Client_send_to_server. rewrite run_get.
    change (framer_works (with_cl_wire _ c)) with (framer_works c). rewrite Hf. cbn [negb with_cl_wire cl_transport cl_wire].
    rewrite Ht. split; [reflexivity|]. cbn. by rewrite app_nil_r.
  - intros c0 data Hf. unfold Client_send_to_server. by rewrite run_get, Hf.
Qed.

(** C24: the loop of [on_server_message] ends: however the application behaves, a fuel
    of the size of the buffer is enough, since every iteration takes a header out of
    it and the application cannot put anything in; and when the loop ends without an
    exception, no complete message is left in the buffer. *)
Theorem on_server_message_terminates (s : MessagingClient TcpClient) (fuel : nat) :
  (length (cl_recv_buffer (tcpc s)) < fuel)%nat ->
  handle_messages now rand can_open fuel s
  = handle_messages now rand can_open (S (length (cl_recv_buffer (tcpc s)))) s /\
  (forall s', handle_messages now rand can_open fuel s = (Ok tt, s') ->
     has_message_in_buffer (cl_recv_buffer (tcpc s')) = Ok false).
Proof. intros Hf. split; [apply handle_messages_fuel; lia | intros s'; by apply handle_messages_done]. Qed.

(** C25: the event loop ends with the connection, once the handshake is done. When
    [epoll_wait] then reports an error or a hang-up, the handler takes the descriptor
    out of the event loop, shuts it down and frees the TLS context; the other events of
    the same round are ignored, and the loop ends at its next test, whatever would have
    come. The descriptor is not closed. Before the handshake is done the handler does
    not look for an error or a hang-up: an event that reports only that leaves the
    client as it was, connected and in the event loop, and however many rounds of them
    come the loop goes on. *)
Theorem client_loop_ends (s : MessagingClient TcpClient) (fd : Z) (e : ClientEvent) (es : list ClientEvent)
    (rounds : list (list ClientEvent)) :
  is_fd (cl_socket (tcpc s)) = Some fd -> fd <> -1 -> cl_epoll (tcpc s) = {[fd]} ->
  ce_fd e = fd -> ev_err (ce_mask e) = true ->
  (cl_tls (tcpc s) = Some true ->
   exists s', Client_run_event_loop now rand can_open ((e :: es) :: rounds) s = (Ok false, s') /\
    cl_epoll (tcpc s') = ∅ /\ fd ∈ cl_shutdown (tcpc s') /\ cl_ssl_ctx (tcpc s') = false /\
    rs_calls (is_raw (cl_socket (tcpc s'))) = rs_calls (is_raw (cl_socket (tcpc s))) /\
    on_tcpc Client_disconnect s' = (Ok tt, s')) /\
  (cl_tls (tcpc s) = Some false -> ev_in (ce_mask e) = false -> ev_out (ce_mask e) = false ->
   forall n, exists s', Client_run_event_loop now rand can_open (repeat [e] n) s = (Ok true, s') /\
     same_but_wire (tcpc s) (tcpc s')).
Proof.
  intros Hfd Hne Hep He Herr. split; [|intros Htls Hin Hout n; subst fd; by apply hang_up_ignored]. intros Htls.
  set (f := fun c => closed (with_cl_wire {| sk_recv := ce_recvs e; sk_send := ce_sends e; sk_wire := sk_wire (cl_wire c) |} c)).
  exists (lower_client f s).
  assert (Hev : client_event now rand can_open e s = (Ok tt, lower_client f s)).
  { unfold client_event. rewrite run_get, He, Hep, bool_decide_true by set_solver.
    rewrite (run_bind _ _ _ _ _ (modify_run _ s)). unfold ClientHandler_handle_event, Client_tls_handshake_done.
    rewrite run_get, tcpc_lower. cbn [with_cl_wire cl_tls]. rewrite Htls, run_lift, Herr. cbn [negb].
    unfold on_tcpc, on_client. cbn [lower_client lower_context client_context cc_client].
    rewrite disconnect_run by (cbn; fold (tcpc s); by rewrite Hfd). done. }
  assert (Htc : tcpc (lower_client f s) = free_ssl_ctx (close_socket fd (with_cl_wire
    {| sk_recv := ce_recvs e; sk_send := ce_sends e; sk_wire := sk_wire (cl_wire (tcpc s)) |} (tcpc s)))).
  { rewrite tcpc_lower. unfold f, closed. cbn [with_cl_wire cl_socket]. by rewrite Hfd, (proj2 (Z.eqb_neq _ _)) by done. }
  assert (Hempty : cl_epoll (tcpc (lower_client f s)) = ∅) by (rewrite Htc; cbn; rewrite Hep; set_solver).
  assert (Hrest : forall es, client_events now rand can_open es (lower_client f s) = (Ok tt, lower_client f s)).
  { clear es. induction es as [|e' es IH]; [done|]. cbn [client_events].
    etrans; [apply run_bind | apply IH]. unfold client_event. by rewrite run_get, Hempty, bool_decide_false by set_solver. }
  split_and!; [|done|rewrite Htc; cbn; set_solver|by rewrite Htc..|].
  - cbn [Client_run_event_loop]. rewrite run_get. unfold Client_isConnected at 1, Client_fd at 1. rewrite Hfd.
    cbn [mbind outcome_bind]. rewrite (proj2 (Z.eqb_neq _ _)), run_lift by done. cbn [negb client_events].
    erewrite run_bind; [|rewrite (run_bind _ _ _ _ _ Hev); apply Hrest].
    destruct rounds; cbn [Client_run_event_loop]; by rewrite run_get, Htc.
  - unfold on_tcpc, on_client. fold (tcpc (lower_client f s)). rewrite disconnect_run by (by rewrite Htc).
    rewrite tcpc_lower. unfold f at 1. rewrite closed_closed. done.
Qed.

End Spec.

(** What a client sends reaches the server. [send_to_server] puts the framed
    message, framed again by the transport, on the wire; a connection of the server
    that gets these bytes within one event then has a complete message, and it is
    the one that was sent. What [transport->send] returns is not looked at: when the
    socket takes nothing, the message is lost and the caller does not learn of it. *)
Theorem client_message_reaches_server {nc : NullCalls} (c : TcpClient) (data : bytes) (pieces : list bytes) (sc : Connection) (ss : Socket) :
  framer_works c = true -> is_Some (cl_transport c) -> frame_ok data = true ->
  (sk_send (cl_wire c) = [] -> Forall (fun p => p <> []) pieces -> recv_buffer sc = [] ->
   sk_recv ss = map RecvBytes pieces ->
   exists c', Client_send_to_server data c = (Ok tt, c') /\
     (sk_wire (cl_wire c') = sk_wire (cl_wire c) ++ concat pieces ->
      exists sc1 ss' sc2, Connection_try_receive sc ss = Ok (true, sc1, ss') /\
        Connection_has_complete_message sc1 = Ok true /\
        Connection_extract_message sc1 = Ok (data, sc2) /\ recv_buffer sc2 = [])) /\
  (forall rest, sk_send (cl_wire c) = SendAgain :: rest ->
     exists c', Client_send_to_server data c = (Ok tt, c') /\ sk_wire (cl_wire c') = sk_wire (cl_wire c)).
Proof.
  intros Hf [t Ht] Hd. assert (Hd' : zsize data < 2 ^ 32 - 4) by (unfold frame_ok in Hd; bools; lia). split.
  - intros Hs Hne Hb Hr. exists (append_wire (packet data) c). split.
    { unfold Client_send_to_server. rewrite run_get, Hf, Ht. cbn [negb].
      unfold transport_send_data, sys_send. rewrite Hs, firstn_all. unfold append_wire. by rewrite Hs. }
    cbn [append_wire with_cl_wire cl_wire sk_wire]. intros Hw. apply app_inv_head in Hw.
    destruct (receive_pieces (cn_transport sc) ss (frame data) pieces) as (r & Hrecv & Hst & Hco); try done.
    { rewrite zsize_frame. lia. }
    unfold Connection_try_receive. rewrite Hrecv. cbn [mbind outcome_bind]. rewrite Hco. cbn [mbind outcome_bind].
    rewrite Hst, bool_decide_true by (by left). eexists _, _, _. split; [done|].
    unfold Connection_has_complete_message, Connection_extract_message. cbn [recv_buffer]. rewrite Hb. cbn [app].
    pose proof (has_frame data [] Hd) as Hh. pose proof (extract_frame data [] ltac:(lia)) as Hx.
    rewrite app_nil_r in Hh, Hx. by rewrite Hh, Hx.
  - intros rest Hs. eexists. split.
    { unfold Client_send_to_server. rewrite run_get, Hf, Ht. cbn [negb].
      unfold transport_send_data, sys_send. rewrite Hs. done. }
    cbn. by rewrite app_nil_r.
Qed.

(** ** [connect] *)

Lemma tcp_client_run pton env ip port s :
  0 < ans_errno env ->
  TCPSocket_client pton env ip port s
  = let fd := ans_socket env in
    let calls := rs_calls s ++ [SysSocket fd] in
    let addr a := {| sin_family := Some AF_INET; sin_port := Some (htons port); sin_addr := Some a |} in
    if fd <? 0 then (Ok (-1), with_fd (-1) s)
    else
      match pton ip with
      | None => (Ok (- EINVAL), {| rs_fd := fd; rs_addr := addr 0; rs_calls := calls |})
      | Some a =>
          (Ok (if bool_decide (ans_connect env = 0 \/ ans_errno env = EINPROGRESS \/ ans_errno env = EISCONN \/
                               ans_errno env = EALREADY) then 0 else - ans_errno env),
           {| rs_fd := fd; rs_addr := addr a; rs_calls := calls ++ [SysNonblock fd; SysConnect fd] |})
      end.
Proof.
  intros He. unfold TCPSocket_client, create_socket.
  destruct (Z.ltb_spec (ans_socket env) 0) as [Hfd|Hfd]; [done|].
  unfold mbind, M_bind, mret, M_ret, modify, lift. cbn -[bool_decide EINPROGRESS EISCONN EALREADY ECONNREFUSED ETIMEDOUT EINVAL].
  rewrite (proj2 (Z.ltb_ge _ _) Hfd). destruct (pton ip) as [a|]; [|done].
  unfold call, set_ip, set_host, with_addr, with_fd. cbn [rs_fd rs_addr rs_calls sin_family sin_port sin_addr].
  rewrite <- !app_assoc. cbn [app].
  destruct (Z.eqb_spec (ans_connect env) 0); [by rewrite bool_decide_true by auto|].
  destruct (Z.eqb_spec (ans_errno env) EINPROGRESS); [by rewrite bool_decide_true by auto|].
  destruct (Z.eqb_spec (ans_errno env) EISCONN); [by rewrite bool_decide_true by auto|].
  destruct (Z.eqb_spec (ans_errno env) EALREADY); [by rewrite bool_decide_true by auto|].
  rewrite bool_decide_false by naive_solver.
  destruct (Z.eqb_spec (ans_errno env) ECONNREFUSED) as [->|]; [done|].
  by destruct (Z.eqb_spec (ans_errno env) ETIMEDOUT) as [->|].
Qed.

(** C35: the outcome of [connect] on a TCP socket of a client that has no transport, on
    every branch ([errno] is positive). When [socket()] fails, [connect] returns [false]
    and the client is not connected. When the address is not one, or [::connect] fails
    and is not in progress, [connect] returns [false] too, but the descriptor stays with
    the client, which counts as connected while it is not in the event loop and has no
    transport: sending any message is undefined. Otherwise the socket was made
    non-blocking before [::connect], its descriptor is in the event loop and the client
    counts as connected; [connect] is then undefined when the TLS context is gone, as
    after a [disconnect]; throws, leaving no transport, when the handshake fails at
    once; and else returns [true], with a transport and with the handshake done or
    under way. *)
Theorem client_connect_outcome {nc : NullCalls} (pton : string -> option Z) (env : SocketAnswers) (ip : string) (port : Z)
    (hs : HandshakeEvent) (c : TcpClient) :
  is_type (cl_socket c) = TCP -> cl_transport c = None -> 0 < ans_errno env ->
  let fd := ans_socket env in
  let accepted := bool_decide (ans_connect env = 0 \/ ans_errno env = EINPROGRESS \/ ans_errno env = EISCONN \/
                               ans_errno env = EALREADY) in
  let '(r, c') := Client_connect pton env ip port hs c in
  if fd <? 0 then r = Ok false /\ Client_isConnected c' = Ok false
  else if bool_decide (is_Some (pton ip)) && accepted then
    Client_isConnected c' = Ok true /\ fd ∈ cl_epoll c' /\
    rs_calls (is_raw (cl_socket c')) = rs_calls (is_raw (cl_socket c)) ++ [SysSocket fd; SysNonblock fd; SysConnect fd] /\
    (if negb (cl_ssl_ctx c) then r = Undef
     else if bool_decide (hs = HsFailed) then r = Throw (runtime_error "TLS SSL accept error") /\ cl_transport c' = None
     else r = Ok true /\ is_Some (cl_transport c') /\ cl_tls c' = Some (bool_decide (hs = HsDone)))
  else r = Ok false /\ Client_isConnected c' = Ok true /\ cl_epoll c' = cl_epoll c /\
    forall data, (Client_send_to_server data c').1 = Undef.
Proof.
  intros Hty Htr Herrno fd accepted. unfold Client_connect. rewrite run_get.
  destruct (ISocket_setup_connection pton env ip (u16 port) (cl_socket c)) as [r sock] eqn:E.
  rewrite run_modify. revert E. unfold ISocket_setup_connection. rewrite run_modify, run_get. cbn [is_type].
  rewrite Hty. unfold on_raw. cbn [is_raw]. rewrite tcp_client_run by done. cbv zeta. fold fd. fold accepted. cbn [rs_calls].
  destruct (Z.ltb_spec fd 0) as [Hfd|Hfd]; [intros [= <- <-]; done|].
  assert (Hopen : negb (fd =? -1) = true) by (apply negb_true_iff, Z.eqb_neq; lia).
  assert (Hbad : forall sock, is_fd sock = Some fd -> Client_isConnected (with_cl_socket sock c) = Ok true /\
    forall data, (Client_send_to_server data (with_cl_socket sock c)).1 = Undef).
  { intros sk Hs. unfold Client_isConnected, Client_fd, Client_send_to_server. split; [cbn; rewrite Hs; cbn; by rewrite Hopen|].
    intros data. rewrite run_get. destruct (framer_works _); [|reflexivity]. cbn. by rewrite Htr. }
  destruct (pton ip) as [a|].
  2: { intros [= <- <-]. rewrite bool_decide_false by (by intros [? ?]). cbn [andb].
       by split_and!; [|apply Hbad| |apply Hbad]. }
  rewrite bool_decide_true by done. cbn [andb]. destruct accepted.
  - intros [= <- <-]. rewrite run_lift. cbn [Z.ltb Z.compare]. rewrite run_get. unfold Client_fd. cbn [with_cl_socket cl_socket is_fd rs_fd].
    rewrite run_lift, run_modify. unfold ClientTLSWrapper_tls_handshake, mbind, M_bind, lift, modify, mret, M_ret.
    cbn [with_cl_socket cl_ssl_ctx]. destruct (cl_ssl_ctx c);
      [destruct hs|]; cbn -[union singleton Client_isConnected]; unfold Client_isConnected, Client_fd;
      cbn -[union singleton Z.eqb]; rewrite Hopen, <- app_assoc; split_and!; try done; set_solver.
  - intros [= <- <-]. rewrite run_lift, (proj2 (Z.ltb_lt _ 0)) by lia. cbn [mret M_ret].
    by split_and!; [|apply Hbad| |apply Hbad].
Qed.

(** *** The framer *)

(** What happens to a client over its life. *)
Inductive client_call {nc : NullCalls} : TcpClient -> TcpClient -> Prop :=
| call_callback c : client_call c (Client_set_data_callback c)
| call_connect pton env ip port hs c : client_call c (Client_connect pton env ip port hs c).2
| call_handshake hs c : client_call c (Client_tls_handshake hs c).2
| call_send data c : client_call c (Client_send_to_server data c).2
| call_receive t w c : client_call c (with_cl_transport t w c)
| call_buffer b c : client_call c (with_cl_buffer b c)
| call_disconnect c : client_call c (Client_disconnect c).2.

(** No operation gives the client a framer, so that it sends and receives through a
    null pointer. *)
Theorem client_framer_null {nc : NullCalls} (t : SocketType) (ctx : bool) (c : TcpClient) :
  rtc client_call (Client_make t ctx) c -> cl_framer c = false.
Proof.
  assert (Hinit : cl_framer (Client_make t ctx) = false) by done. revert Hinit. generalize (Client_make t ctx).
  intros c0 H0 Hr. induction Hr as [|c0 c1 c2 Hs _ IH]; [done|]. apply IH. clear IH.
  destruct Hs as [c|pton env ip port hs c|hs c|data c|? ? c|? c|c]; try done.
  - unfold Client_connect. rewrite run_get. destruct (ISocket_setup_connection _ _ _ _ _) as [[r| |] sk]; [|done..].
    rewrite run_modify, run_lift. destruct (r <? 0); [done|]. rewrite run_get. unfold Client_fd.
    unfold mbind, M_bind, lift, modify. cbn. destruct (is_fd sk); [|done]. destruct (cl_ssl_ctx c); [|done]. by destruct hs.
  - unfold Client_tls_handshake, mbind, M_bind, lift, modify, get. destruct (cl_tls c); [|done]. by destruct hs.
  - unfold Client_send_to_server, mbind, M_bind, lift, modify, get. destruct (framer_works c); [|done].
    cbn. destruct (cl_transport c); [|done]. by destruct (transport_send_data _ _) as [[? ?] ?].
  - unfold Client_disconnect, Client_fd, mbind, M_bind, lift, modify, get.
    destruct (is_fd (cl_socket c)) as [fd|]; [|done]. by destruct (fd =? -1).
Qed.

(** ** The properties on a concrete client *)

#[local] Existing Instance plain_ssl.

#[local] Instance demo_nulls : NullCalls := {| null_call_runs := true |}.

Definition demo_answers (connect errno : Z) : SocketAnswers :=
  {| ans_socket := 7; ans_bind := 0; ans_listen := 0; ans_setsockopt := 0; ans_connect := connect;
     ans_errno := errno; ans_select := 0; ans_except := false; ans_write := false; ans_so_error := 0 |}.

(** A client as the program makes it. *)
Definition demo_tcp : TcpClient :=
  Client_set_data_callback
    (Client_connect (fun _ => Some 1) (demo_answers (-1) EINPROGRESS) "127.0.0.1" 8080 HsDone (Client_make TCP true)).2.

Lemma demo_ready : ready demo_tcp 7.
Proof.
  constructor; [constructor; try reflexivity; eexists; reflexivity | reflexivity | lia | | reflexivity..].
  vm_compute. reflexivity.
Qed.

Definition demo_app (T : Type) (t : T) : MessagingClient T :=
  MessagingClient_make
    {| cc_config := {| server_host := "127.0.0.1"; server_port := 8080 |}; cc_ui_set := true; cc_ui := [];
       cc_client := t; cc_mq := MessageQueue_make; cc_encryption := EncryptionService_new;
       cc_files := ∅; cc_pending_messages := ∅; cc_my_username := sbytes "ann"; cc_messages_counter := ∅;
       cc_disk := ∅; cc_rand := 0 |}.

Definition demo_text (s : string) : bytes :=
  match Message_make 0 (sbytes s) 0 [] Text with Ok m => Serializer_serialize m | _ => [] end.

Definition no_rand (n : nat) : option bytes := None.
Definition no_file (p : string) : bool := false.

(** Two messages of the server arrive, cut in the middle of a header, and are shown. *)
Lemma client_stack_refines_witness :
  let w := frame (frames [demo_text "hi"; demo_text "all"]) in
  let l := demo_app client_log {| log_sent := []; log_closed := false |} in
  exists c' l', ready c' 7 /\
    client_event 0 no_rand no_file (readable_event 7 [take 2 w; drop 2 w]) (lower_client (replay_client demo_tcp) l)
    = (Ok tt, lower_client (replay_client c') l') /\
    cc_ui (client_context l') = ["hi"; "all"]%string.
Proof.
  intros w l.
  assert (Hr : let '(r, l') := receive_all 0 no_rand no_file [demo_text "hi"; demo_text "all"] l in
    r = Ok tt /\ cc_ui (client_context l') = ["hi"; "all"]%string) by (vm_compute; split; reflexivity).
  destruct (receive_all 0 no_rand no_file [demo_text "hi"; demo_text "all"] l) as [r l'] eqn:E.
  destruct Hr as [-> Hui].
  destruct (client_stack_refines 0 no_rand no_file demo_tcp 7 l demo_ready) as (_ & H & _).
  destruct (H [demo_text "hi"; demo_text "all"] [take 2 w; drop 2 w] l') as (c' & Hc' & Hev);
    [reflexivity | vm_compute; reflexivity | vm_compute; reflexivity | repeat constructor; vm_compute; discriminate
    | vm_compute; reflexivity | exact E |].
  exists c', l'. split; [exact Hc'|]. split; [exact Hev | exact Hui].
Defined.

Lemma on_server_message_terminates_witness :
  let s := demo_app TcpClient (with_cl_buffer (frames [demo_text "hi"; demo_text "all"] ++ [Byte.x00]) demo_tcp) in
  has_message_in_buffer (cl_recv_buffer (tcpc (handle_messages 0 no_rand no_file 100 s).2)) = Ok false.
Proof.
  intros s. destruct (on_server_message_terminates 0 no_rand no_file s 100) as [_ H].
  - vm_compute. lia.
  - assert (Hr : (handle_messages 0 no_rand no_file 100 s).1 = Ok tt) by (vm_compute; reflexivity).
    destruct (handle_messages 0 no_rand no_file 100 s) as [r s']. cbn in Hr. subst r. apply H. reflexivity.
Defined.

Lemma client_loop_ends_witness :
  let e := {| ce_fd := 7; ce_mask := {| ev_in := true; ev_out := false; ev_err := true |}; ce_recvs := [];
              ce_sends := []; ce_hs := HsWant |} in
  exists s', Client_run_event_loop 0 no_rand no_file [[e; e]; [e]] (demo_app TcpClient demo_tcp) = (Ok false, s') /\
    7 ∈ cl_shutdown (tcpc s').
Proof.
  intros e. destruct (client_loop_ends 0 no_rand no_file (demo_app TcpClient demo_tcp) 7 e [e] [[e]])
    as [H _]; [reflexivity | lia | vm_compute; reflexivity | reflexivity..|].
  destruct (H eq_refl) as (s' & Hrun & _ & Hs & _). exists s'. split; [exact Hrun | exact Hs].
Defined.

Lemma client_message_reaches_server_witness :
  let w := packet (sbytes "hi") in
  exists sc1 ss' sc2,
    Connection_try_receive Connection_make {| sk_recv := map RecvBytes [take 5 w; drop 5 w]; sk_send := []; sk_wire := [] |}
    = Ok (true, sc1, ss') /\
    Connection_extract_message sc1 = Ok (sbytes "hi", sc2).
Proof.
  intros w.
  destruct (client_message_reaches_server demo_tcp (sbytes "hi") [take 5 w; drop 5 w] Connection_make
    {| sk_recv := map RecvBytes [take 5 w; drop 5 w]; sk_send := []; sk_wire := [] |}) as [H _];
    [reflexivity | eexists; reflexivity | reflexivity |].
  destruct H as (c' & Hs & Hd); [reflexivity | repeat constructor; vm_compute; discriminate | reflexivity | reflexivity |].
  destruct Hd as (sc1 & ss' & sc2 & H1 & _ & H2 & _).
  - vm_compute in Hs. injection Hs as <-. vm_compute. reflexivity.
  - exists sc1, ss', sc2. split; [exact H1 | exact H2].
Defined.

Lemma client_connect_outcome_witness :
  let '(r, c') := Client_connect (fun _ => Some 1) (demo_answers (-1) ECONNREFUSED) "127.0.0.1" 8080 HsDone
                    (Client_make TCP true) in
  r = Ok false /\ Client_isConnected c' = Ok true /\ (Client_send_to_server (sbytes "hi") c').1 = Undef.
Proof.
  pose proof (client_connect_outcome (fun _ => Some 1) (demo_answers (-1) ECONNREFUSED) "127.0.0.1" 8080 HsDone
    (Client_make TCP true) eq_refl eq_refl eq_refl) as H.
  destruct (Client_connect _ _ _ _ _ _) as [r c']. cbv zeta in H. cbn -[Client_isConnected Client_send_to_server] in H.
  destruct H as (H1 & H2 & _ & H3). split; [exact H1|]. split; [exact H2 | apply H3].
Defined.
