(* ===== verification/WireSpec.v ===== *)
(** Client and server over the bytes between them: what a user types reaches the
    application of the server, and what that sends reaches the client's. *)
From S2P Require Import Prelude Message Wire Framing Parser Models Services AppService Commands Server ServerInvariant ServerSpec Queue Crypto ClientContext Client ClientRefinement Sockets Transport TransportSpec Stack StackSpec ClientStack ClientStackSpec.

Section Wire.
  Context {ssl : OpenSSL} {nc : NullCalls} {ord : IterOrder}.
  Variable now : Z.
  Variable rand : nat -> option bytes.
  Variable can_open : string -> bool.

Abbreviation sent l := (log_sent (cc_client (client_context l))).
Abbreviation is_open l := (log_closed (cc_client (client_context l)) = false).

(** The bytes a client has written. *)
Definition written (s : MessagingClient TcpClient) : bytes := sk_wire (cl_wire (tcpc s)).

Lemma written_replay c (l : MessagingClient client_log) :
  written (lower_client (replay_client c) l) = sk_wire (cl_wire c) ++ packets (sent l).
Proof.
  unfold written, tcpc, replay_client, closed. cbn. destruct (log_closed _); [|done]. cbn.
  by destruct (is_fd (cl_socket c)) as [fd|]; [destruct (fd =? -1)|].
Qed.

Lemma packets_snoc ms m : packets (ms ++ [m]) = packets ms ++ packet m.
Proof. unfold packets. by rewrite map_app, concat_app; cbn; rewrite app_nil_r. Qed.

Lemma send_all_frame fd ms t : tcp_frame t (foldl (fun t m => Server_send fd m t) t ms).
Proof. revert t. induction ms as [|m ms IH]; intros t; [done|]. cbn. etrans; [apply Server_send_frame | apply IH]. Qed.

Lemma frames_not_nil ms : ms <> [] -> frames ms <> [].
Proof. destruct ms as [|m ms]; [done|]. by rewrite frames_cons, frame_eq. Qed.

(** ** Properties *)

(** From the line a user types to the application of the server. When the client
    application answers a line by sending one message, the client on its socket
    writes bytes; and when these bytes arrive at the server within one event on a
    connection that has finished its handshake and has nothing buffered, handling the
    event is exactly the server application's step for that message. *)
Theorem line_reaches_application (cfg : AppConfig) (fd0 fd cfd : Z) (s : MessagingServer TcpServer) (sc : Connection)
    (c : TcpClient) (l l' : MessagingClient client_log) (line : string) (raw : bytes) (pieces : list bytes)
    (sends : list SendEvent) (hs : HandshakeEvent) :
  ready c cfd -> is_open l -> is_open l' ->
  get_data now rand can_open line l = (Ok tt, l') -> sent l' = sent l ++ [raw] ->
  stack_reachable (Stack_make cfg fd0) s -> sv_tls (tcp s) !! fd = Some true ->
  sv_connections (tcp s) !! fd = Some sc -> recv_buffer sc = [] ->
  frame_ok (frame raw) = true -> raw <> [] -> bstr raw <> "/exit"%string ->
  Forall (fun p => p <> []) pieces ->
  let client := lower_client (replay_client c) l in
  exists client', get_data now rand can_open line client = (Ok tt, client') /\
    (written client' = written client ++ concat pieces ->
     exists t, stack_step now (Ready fd readable (map RecvBytes pieces) sends hs) s
       = server_step now (DataReceived fd raw) (on_tcp (fun _ => t) s)).
Proof.
  intros Hc Ho Ho' Hrun Hsent Hr Htls Hsc Hb Hok Hne Hex Hps client. exists (lower_client (replay_client c) l').
  split.
  - apply (natural_run _ _ _ _ _ _ (natural_get_data _ (map := replay_map c (rd_usable _ _ Hc)) now rand can_open line) Hrun).
  - unfold client. rewrite !written_replay, Hsent, packets_snoc by done. rewrite app_assoc. intros Hp. apply app_inv_head in Hp.
    destruct (stack_delivers_run now fd s sc raw pieces sends hs) as (t & c' & -> & _); try done.
    + by apply (stack_reachable_ok cfg fd0).
    + by exists t.
Qed.

(** And back: what the server application sends to a connection is queued; when
    the socket is writable and takes it, the queue is emptied in one write; and when
    these bytes arrive at the client within one event, the client application is
    given exactly these messages, in order. *)
Theorem answers_reach_client (cfg : AppConfig) (fd0 fd cfd : Z) (s : MessagingServer TcpServer) (sc : Connection)
    (c : TcpClient) (l l' : MessagingClient client_log) (ms : list bytes) (hs : HandshakeEvent) :
  ready c cfd -> is_open l ->
  stack_reachable (Stack_make cfg fd0) s -> sv_tls (tcp s) !! fd = Some true ->
  sv_connections (tcp s) !! fd = Some sc -> send_buffer sc = [] ->
  ms <> [] -> forallb frame_ok ms = true -> zsize (frames ms) < 2 ^ 32 ->
  receive_all now rand can_open ms l = (Ok tt, l') ->
  let queued := on_tcp (fun t => foldl (fun t m => Server_send fd m t) t ms) s in
  exists s' sc', stack_step now (Ready fd writable [] [] hs) queued = (Ok tt, s') /\
    sv_connections (tcp s') !! fd = Some sc' /\ send_buffer sc' = [] /\
    forall pieces, Forall (fun p => p <> []) pieces ->
      sk_wire (socket_of fd (tcp s')) = sk_wire (socket_of fd (tcp s)) ++ concat pieces ->
      exists c', ready c' cfd /\
        client_event now rand can_open (readable_event cfd pieces) (lower_client (replay_client c) l)
        = (Ok tt, lower_client (replay_client c') l').
Proof.
  intros Hc Ho Hr Htls Hsc Hb Hne Hok Hsz Hrun queued.
  assert (Hq : stack_ok queued) by (apply stack_ok_frame; [apply send_all_frame | by apply (stack_reachable_ok cfg fd0)]).
  destruct (send_all fd ms (tcp s) sc Hsc) as (sq & Hcn & Hsq & _ & _ & Ht & Hk & _).
  rewrite Hb in Hsq. cbn [app] in Hsq.
  assert (Htcp : tcp queued = foldl (fun t m => Server_send fd m t) (tcp s) ms) by apply tcp_on_tcp.
  destruct (writable_run now fd queued sq hs Hq) as (t & -> & Hw & Hcn' & _).
  - by rewrite Htcp, Ht.
  - by rewrite Htcp, Hcn, lookup_insert_eq.
  - eexists (on_tcp (fun _ => t) queued), _. rewrite tcp_on_tcp, Hcn', lookup_insert_eq. split_and!; [done..|]. intros pieces Hps Hp.
    pose proof (frames_not_nil ms Hne) as Hfr. rewrite Hw, Hsq in Hp.
    replace (is_empty (frames ms)) with false in Hp by (by destruct (frames ms)).
    unfold socket_of in Hp. rewrite Htcp, Hk in Hp. apply app_inv_head in Hp.
    eexists. split; [by apply ready_after|].
    pose proof (client_readable_run now rand can_open c cfd ms pieces l Hc Ho Hok Hsz Hps ltac:(by rewrite <- Hp)) as Hx.
    rewrite Hrun in Hx. destruct Hx as (s2 & -> & Hs2). by rewrite Hs2.
Qed.

End Wire.

(** ** The properties on a concrete client and server *)

#[local] Existing Instances plain_ssl demo_nulls.

Definition demo_client : MessagingClient client_log :=
  demo_app client_log {| log_sent := []; log_closed := false |}.

Definition demo_line : string := "/room tea".

Definition demo_after : MessagingClient client_log := (get_data 0 no_rand no_file demo_line demo_client).2.

Definition demo_room : bytes := last (log_sent (cc_client (client_context demo_after))) [].

Lemma run_ok {S A} (r : outcome A * S) (a : A) : r.1 = Ok a -> r = (Ok a, r.2).
Proof. destruct r. cbn. by intros ->. Qed.

Lemma line_reaches_application_witness :
  let w := packet demo_room in
  exists t, stack_step 0 (Ready 5 readable (map RecvBytes [take 3 w; drop 3 w]) [] HsWant) demo_stack
    = server_step 0 (DataReceived 5 demo_room) (on_tcp (fun _ => t) demo_stack).
Proof.
  intros w.
  destruct (line_reaches_application 0 no_rand no_file demo_config 0 5 7 demo_stack Connection_make demo_tcp
    demo_client demo_after demo_line demo_room [take 3 w; drop 3 w] [] HsWant demo_ready eq_refl) as (client' & Hrun & Hw);
    [vm_compute; reflexivity | apply run_ok; vm_compute; reflexivity | vm_compute; reflexivity | exact demo_stack_reachable
    | vm_compute; reflexivity | vm_compute; reflexivity | reflexivity | vm_compute; reflexivity
    | vm_compute; discriminate | vm_compute; discriminate | repeat constructor; vm_compute; discriminate |].
  apply Hw. apply (f_equal snd) in Hrun. cbn [snd] in Hrun. rewrite <- Hrun. vm_compute. reflexivity.
Defined.

(** Two answers, written at once, arrive in two pieces. *)
Lemma answers_reach_client_witness :
  let ms := [demo_text "hi"; demo_text "all"] in
  let w := frame (frames ms) in
  let l' := (receive_all 0 no_rand no_file ms demo_client).2 in
  cc_ui (client_context l') = ["hi"; "all"]%string /\
  exists c', client_event 0 no_rand no_file (readable_event 7 [take 9 w; drop 9 w])
    (lower_client (replay_client demo_tcp) demo_client) = (Ok tt, lower_client (replay_client c') l').
Proof.
  intros ms w l'. split; [vm_compute; reflexivity|].
  destruct (answers_reach_client 0 no_rand no_file demo_config 0 5 7 demo_stack Connection_make demo_tcp
    demo_client l' ms HsWant demo_ready eq_refl demo_stack_reachable) as (s' & sc' & Hrun & _ & _ & Hp);
    [vm_compute; reflexivity | vm_compute; reflexivity | reflexivity | discriminate | vm_compute; reflexivity
    | vm_compute; reflexivity | apply run_ok; vm_compute; reflexivity |].
  destruct (Hp [take 9 w; drop 9 w]) as (c' & _ & Hev).
  - repeat constructor; vm_compute; discriminate.
  - apply (f_equal snd) in Hrun. cbn [snd] in Hrun. rewrite <- Hrun. vm_compute. reflexivity.
  - exists c'. exact Hev.
Defined.
