(* ===== verification/Gui.v ===== *)
(** The windows of the client and how they are wired to it: [src/ui/login_window.cpp],
    [src/ui/chat_window.cpp], [src/ui/simple_window.cpp], [MessageBridge]
    ([include/application/messaging/message_bridge.hpp]) and [start_gui_client]
    ([src/application/runtime/runtime.cpp]). Layout, style sheets and animations are
    left out. *)
From S2P Require Import Prelude Message CommandPattern Parser Commands AppService Queue Crypto ClientContext Client.

(** What is used of Qt: [QString] and its functions, and the limit of a line edit.
    Nothing is assumed of the conversions between [QString] and [std::string], which
    do not keep every text: [fromStdString] replaces bytes that are not UTF-8, and
    [toStdString] surrogates that stand alone. *)
Class Qt := {
  QString : Type;
  trimmed : QString -> QString;
  isEmpty : QString -> bool;
  toHtmlEscaped : QString -> QString;
  max_length : nat -> QString -> QString;
  qappend : QString -> QString -> QString;
  fromStdString : string -> QString;
  toStdString : QString -> string;
}.

(** A literal is taken as UTF-8, as [fromStdString] takes its argument. *)
Definition qlit {qt : Qt} (s : string) : QString := fromStdString s.

Section Windows.
  Context {qt : Qt}.

(** ** [ChatWindow] *)

(** A row of the history: the label, which is rich text, the time below it, and
    whether it is at the right ([outBubble]) or at the left ([inBubble]). *)
Record Bubble := {
  bubble_label : QString;
  bubble_time : QString;
  bubble_outgoing : bool;
}.

(** [cw_history] has the rows of [historyLayout] before the stretch at its end;
    [cw_sent] is what [sendMessage] was emitted with. *)
Record ChatWindow := {
  cw_nickname : QString;
  cw_title : QString;
  cw_history : list Bubble;
  cw_input : QString;
  cw_sent : list string;
}.

Definition makeBubble (text timestamp : QString) (outgoing : bool) : Bubble :=
  {| bubble_label := toHtmlEscaped text; bubble_time := timestamp; bubble_outgoing := outgoing |}.

(** [insertWidget(count() - 1, row)] puts the row before the stretch. *)
Definition appendBubble (text timestamp : QString) (outgoing : bool) (w : ChatWindow) : ChatWindow :=
  {| cw_nickname := cw_nickname w; cw_title := cw_title w;
     cw_history := cw_history w ++ [makeBubble text timestamp outgoing]; cw_input := cw_input w;
     cw_sent := cw_sent w |}.

Definition ChatWindow_fields (nickname : QString) : ChatWindow :=
  {| cw_nickname := nickname; cw_title := qappend (qlit "LibreMessage • ") nickname; cw_history := [];
     cw_input := qlit ""; cw_sent := [] |}.

Definition ChatWindow_make (nickname timestamp : QString) : ChatWindow :=
  appendBubble (qappend (qappend (qlit "Welcome, ") nickname) (qlit "!")) timestamp false (ChatWindow_fields nickname).

Definition ChatWindow_updateResponse (text timestamp : QString) (w : ChatWindow) : ChatWindow :=
  appendBubble text timestamp false w.

Definition ChatWindow_handleSend (timestamp : QString) (w : ChatWindow) : ChatWindow :=
  let text := trimmed (cw_input w) in
  if isEmpty text then w
  else
    let w := appendBubble text timestamp true w in
    {| cw_nickname := cw_nickname w; cw_title := cw_title w; cw_history := cw_history w; cw_input := qlit "";
       cw_sent := cw_sent w ++ [toStdString text] |}.

(** ** [LoginWindow] *)

(** [lw_success] is what [loginSuccess] was emitted with. *)
Record LoginWindow := {
  lw_nickname_input : QString;
  lw_status : QString;
  lw_open : bool;
  lw_success : list QString;
}.

Definition LoginWindow_make : LoginWindow :=
  {| lw_nickname_input := qlit ""; lw_status := qlit "Ready"; lw_open := true; lw_success := [] |}.

Definition LoginWindow_handleLogin (w : LoginWindow) : LoginWindow :=
  let nickname := trimmed (lw_nickname_input w) in
  if isEmpty nickname then
    {| lw_nickname_input := lw_nickname_input w; lw_status := qlit "Nickname cannot be empty"; lw_open := lw_open w;
       lw_success := lw_success w |}
  else
    {| lw_nickname_input := lw_nickname_input w; lw_status := lw_status w; lw_open := false;
       lw_success := lw_success w ++ [nickname] |}.

(** ** [MessengerUI], the window before these two *)

(** Which slot [returnPressed] is connected to. *)
Inductive EnterSlot :=
| EnterLogin
| EnterSend.

(** [mu_attempts] is what [loginAttempt] was emitted with. *)
Record MessengerUI := {
  mu_title : QString;
  mu_input : QString;
  mu_history : list QString;
  mu_history_shown : bool;
  mu_status : QString;
  mu_enter : EnterSlot;
  mu_attempts : list string;
}.

Definition MessengerUI_make : MessengerUI :=
  {| mu_title := qlit "<b>Авторизация</b>"; mu_input := qlit ""; mu_history := []; mu_history_shown := false;
     mu_status := qlit "Ожидание подключения..."; mu_enter := EnterLogin; mu_attempts := [] |}.

Definition MessengerUI_updateResponse (timestamp text : QString) (w : MessengerUI) : MessengerUI :=
  {| mu_title := mu_title w; mu_input := mu_input w; mu_history := mu_history w ++ [qappend timestamp text];
     mu_history_shown := mu_history_shown w; mu_status := mu_status w; mu_enter := mu_enter w;
     mu_attempts := mu_attempts w |}.

Definition MessengerUI_handleLogin (w : MessengerUI) : MessengerUI :=
  let nickname := trimmed (mu_input w) in
  if isEmpty nickname then w
  else
    {| mu_title := qappend (qappend (qlit "<b>Чат: ") nickname) (qlit "</b>"); mu_input := qlit "";
       mu_history := mu_history w; mu_history_shown := true; mu_status := qlit "Статус: В сети"; mu_enter := EnterSend;
       mu_attempts := mu_attempts w ++ ["/login " +:+ toStdString nickname] |}.

Definition MessengerUI_handleSend (w : MessengerUI) : MessengerUI :=
  let text := trimmed (mu_input w) in
  if isEmpty text then w
  else
    {| mu_title := mu_title w; mu_input := qlit ""; mu_history := mu_history w; mu_history_shown := mu_history_shown w;
       mu_status := mu_status w; mu_enter := mu_enter w; mu_attempts := mu_attempts w ++ [toStdString text] |}.

(** The user types [text] and presses Enter. *)
Definition MessengerUI_enter (text : QString) (w : MessengerUI) : MessengerUI :=
  let w := {| mu_title := mu_title w; mu_input := text; mu_history := mu_history w;
              mu_history_shown := mu_history_shown w; mu_status := mu_status w; mu_enter := mu_enter w;
              mu_attempts := mu_attempts w |} in
  match mu_enter w with
  | EnterLogin => MessengerUI_handleLogin w
  | EnterSend => MessengerUI_handleSend w
  end.

End Windows.

(** ** [start_gui_client] *)

(** Where the network thread is. *)
Inductive NetThread :=
| NetStarting
| NetRunning
| NetEnded.

(** [gc_to_client] and [gc_to_ui] are the queued signals [sendToClient] and
    [responseReceived] that have not been delivered; [gc_given] are the lines
    [get_data] was called with, and [gc_dropped] the responses that were delivered
    when there was no window to show them. *)
Record GuiClient {qt : Qt} {ssl : OpenSSL} (T : Type) := {
  gc_login : LoginWindow;
  gc_chat : option ChatWindow;
  gc_client : MessagingClient T;
  gc_net : NetThread;
  gc_to_client : list QString;
  gc_to_ui : list QString;
  gc_given : list string;
  gc_dropped : list QString;
}.
Arguments gc_login {qt ssl T}.
Arguments gc_chat {qt ssl T}.
Arguments gc_client {qt ssl T}.
Arguments gc_net {qt ssl T}.
Arguments gc_to_client {qt ssl T}.
Arguments gc_to_ui {qt ssl T}.
Arguments gc_given {qt ssl T}.
Arguments gc_dropped {qt ssl T}.

Section Gui.
  Context {qt : Qt} {ssl : OpenSSL} {T : Type} {cl : IClient T}.
  Variable rand : nat -> option bytes.
  Variable can_open : string -> bool.

Definition GuiClient_make (c : MessagingClient T) : GuiClient T :=
  {| gc_login := LoginWindow_make; gc_chat := None; gc_client := c; gc_net := NetStarting;
     gc_to_client := []; gc_to_ui := []; gc_given := []; gc_dropped := [] |}.

Definition with_login (v : LoginWindow) (g : GuiClient T) : GuiClient T :=
  {| gc_login := v; gc_chat := gc_chat g; gc_client := gc_client g; gc_net := gc_net g;
     gc_to_client := gc_to_client g; gc_to_ui := gc_to_ui g; gc_given := gc_given g; gc_dropped := gc_dropped g |}.

Definition with_chat (v : option ChatWindow) (g : GuiClient T) : GuiClient T :=
  {| gc_login := gc_login g; gc_chat := v; gc_client := gc_client g; gc_net := gc_net g;
     gc_to_client := gc_to_client g; gc_to_ui := gc_to_ui g; gc_given := gc_given g; gc_dropped := gc_dropped g |}.

Definition with_app_client (v : MessagingClient T) (g : GuiClient T) : GuiClient T :=
  {| gc_login := gc_login g; gc_chat := gc_chat g; gc_client := v; gc_net := gc_net g;
     gc_to_client := gc_to_client g; gc_to_ui := gc_to_ui g; gc_given := gc_given g; gc_dropped := gc_dropped g |}.

Definition with_net (v : NetThread) (g : GuiClient T) : GuiClient T :=
  {| gc_login := gc_login g; gc_chat := gc_chat g; gc_client := gc_client g; gc_net := v;
     gc_to_client := gc_to_client g; gc_to_ui := gc_to_ui g; gc_given := gc_given g; gc_dropped := gc_dropped g |}.

(** [bridge->sendToClient(text)], a queued signal. *)
Definition sendToClient (text : QString) (g : GuiClient T) : GuiClient T :=
  {| gc_login := gc_login g; gc_chat := gc_chat g; gc_client := gc_client g; gc_net := gc_net g;
     gc_to_client := gc_to_client g ++ [text]; gc_to_ui := gc_to_ui g; gc_given := gc_given g;
     gc_dropped := gc_dropped g |}.

Definition MessageBridge_postResponse (data : string) (g : GuiClient T) : GuiClient T :=
  {| gc_login := gc_login g; gc_chat := gc_chat g; gc_client := gc_client g; gc_net := gc_net g;
     gc_to_client := gc_to_client g; gc_to_ui := gc_to_ui g ++ [fromStdString data]; gc_given := gc_given g;
     gc_dropped := gc_dropped g |}.

(** The slot of [loginSuccess]. *)
Definition on_login_success (timestamp nickname : QString) (g : GuiClient T) : GuiClient T :=
  sendToClient (qappend (qlit "/login ") nickname) (with_chat (Some (ChatWindow_make nickname timestamp)) g).

(** A call of the client. What it gives to [ui_callback] is posted; [ui_callback]
    refers to the [bridge] of the network thread's function object, which is gone when
    that thread has ended. *)
Definition call_client (f : M (MessagingClient T) unit) : M (GuiClient T) unit := fun g =>
  let shown := cc_ui (client_context (gc_client g)) in
  let '(r, c) := f (gc_client g) in
  let posted := drop (length shown) (cc_ui (client_context c)) in
  let g := with_app_client c g in
  match gc_net g, posted with
  | NetEnded, _ :: _ => (Undef, g)
  | _, _ => (r, foldl (fun g text => MessageBridge_postResponse text g) g posted)
  end.

Definition set_ui_callback (c : MessagingClient T) : MessagingClient T :=
  let x := client_context c in
  {| client_context :=
       {| cc_config := cc_config x; cc_ui_set := true; cc_ui := cc_ui x; cc_client := cc_client x; cc_mq := cc_mq x;
          cc_encryption := cc_encryption x; cc_files := cc_files x; cc_pending_messages := cc_pending_messages x;
          cc_my_username := cc_my_username x; cc_messages_counter := cc_messages_counter x; cc_disk := cc_disk x;
          cc_rand := cc_rand x |};
     client_dispatcher := client_dispatcher c |}.

(** The user enters a nickname or a line, a queued signal is delivered, the network
    thread gets to [run], gives data to the client or ends, and the program quits; [now]
    is what the clock shows when the client is called. *)
Inductive GuiEvent :=
| EnterNickname (text timestamp : QString)
| EnterLine (text timestamp : QString)
| DeliverToClient (now : Z)
| DeliverToUi (timestamp : QString)
| NetStart
| NetData (now : Z) (raw : bytes)
| NetEnd
| AboutToQuit.

Definition enter_nickname (text timestamp : QString) (g : GuiClient T) : GuiClient T :=
  if negb (lw_open (gc_login g)) then g
  else
    let w := LoginWindow_handleLogin {| lw_nickname_input := max_length 20 text; lw_status := lw_status (gc_login g);
               lw_open := true; lw_success := lw_success (gc_login g) |} in
    let g := with_login w g in
    if lw_open w then g
    else
      match list.last (lw_success w) with
      | None => g
      | Some nickname => on_login_success timestamp nickname g
      end.

(** [text] is what the input field holds when Enter or the button is pressed. *)
Definition enter_line (text timestamp : QString) (g : GuiClient T) : GuiClient T :=
  match gc_chat g with
  | None => g
  | Some w =>
      let w0 := {| cw_nickname := cw_nickname w; cw_title := cw_title w; cw_history := cw_history w; cw_input := text;
                   cw_sent := cw_sent w |} in
      let w1 := ChatWindow_handleSend timestamp w0 in
      let g := with_chat (Some w1) g in
      foldl (fun g m => sendToClient (fromStdString m) g) g (drop (length (cw_sent w)) (cw_sent w1))
  end.

Definition gui_step (e : GuiEvent) : M (GuiClient T) unit :=
  match e with
  | EnterNickname text timestamp => modify (enter_nickname text timestamp)
  | EnterLine text timestamp => modify (enter_line text timestamp)
  | DeliverToClient now =>
      g ← get;
      match gc_to_client g with
      | [] => mret tt
      | text :: rest =>
          _ ← modify (fun g => {| gc_login := gc_login g; gc_chat := gc_chat g; gc_client := gc_client g;
                                  gc_net := gc_net g; gc_to_client := rest; gc_to_ui := gc_to_ui g;
                                  gc_given := gc_given g ++ [toStdString text]; gc_dropped := gc_dropped g |});
          call_client (get_data now rand can_open (toStdString text))
      end
  | DeliverToUi timestamp =>
      modify (fun g =>
        match gc_to_ui g with
        | [] => g
        | text :: rest =>
            {| gc_login := gc_login g; gc_chat := ChatWindow_updateResponse text timestamp <$> gc_chat g;
               gc_client := gc_client g; gc_net := gc_net g; gc_to_client := gc_to_client g; gc_to_ui := rest;
               gc_given := gc_given g;
               gc_dropped := match gc_chat g with None => gc_dropped g ++ [text] | Some _ => gc_dropped g end |}
        end)
  | NetStart =>
      g ← get;
      match gc_net g with
      | NetStarting =>
          _ ← modify (MessageBridge_postResponse "Подключено к серверу! 🐧");
          modify (fun g => with_net NetRunning (with_app_client (set_ui_callback (gc_client g)) g))
      | _ => mret tt
      end
  | NetData now raw =>
      g ← get;
      match gc_net g with
      | NetRunning => call_client (client_on_tcp_data_received now rand can_open raw)
      | _ => mret tt
      end
  | NetEnd => modify (fun g => match gc_net g with NetRunning => with_net NetEnded g | _ => g end)
  | AboutToQuit => call_client MessagingClient_stop
  end.

Fixpoint gui_run (es : list GuiEvent) : M (GuiClient T) unit :=
  match es with
  | [] => mret tt
  | e :: es => _ ← gui_step e; gui_run es
  end.

End Gui.
