(* ===== verification/GuiSpec.v ===== *)
(** What the user of the windows can rely on: every line goes to the client, every
    answer is shown, each in order. *)
From S2P Require Import Prelude Message Wire CommandPattern Parser Commands AppService Queue Crypto ClientContext Client Gui.

(** ** What the client gives to [ui_callback] *)

Section Ui.
  Context {ssl : OpenSSL} {T : Type} {cl : IClient T}.
  Variable now : Z.
  Variable rand : nat -> option bytes.
  Variable can_open : string -> bool.

(** The client only adds to what was shown, and nothing while [ui_callback] is not set. *)
Record ui_grows (c c' : ClientContext T) : Prop := {
  ug_set : cc_ui_set c' = cc_ui_set c;
  ug_ui : exists k, cc_ui c' = cc_ui c ++ k /\ (cc_ui_set c = false -> k = []);
}.

#[local] Instance ui_grows_preorder : PreOrder ui_grows.
Proof.
  split.
  - intros c. constructor; [done|]. exists []. by rewrite app_nil_r.
  - intros x y z [H1 (k & H2 & Hk)] [H3 (k' & H4 & Hk')]. constructor; [congruence|].
    exists (k ++ k'). rewrite H4, H2, app_assoc. split; [done|]. intros Hx.
    by rewrite Hk, Hk' by congruence.
Qed.

Definition grows {A} (m : M (ClientContext T) A) : Prop := forall c, ui_grows c (m c).2.

Lemma grows_same {A} (m : M (ClientContext T) A) :
  (forall c, cc_ui_set (m c).2 = cc_ui_set c /\ cc_ui (m c).2 = cc_ui c) -> grows m.
Proof. intros H c. destruct (H c) as [H1 H2]. constructor; [done|]. exists []. by rewrite app_nil_r. Qed.

Lemma grows_bind {A B} (m : M (ClientContext T) A) (k : A -> M (ClientContext T) B) :
  grows m -> (forall a, grows (k a)) -> grows (m ≫= k).
Proof. intros Hm Hk c. by apply (keeps_bind ui_grows). Qed.

Lemma grows_on_client {A} (f : M T A) : grows (on_client f).
Proof. apply grows_same. intros c. unfold on_client. by destruct (f (cc_client c)). Qed.

Lemma grows_callback text : grows (ui_callback text).
Proof.
  intros c. unfold ui_callback. rewrite run_get. destruct (cc_ui_set c) eqn:E; [|reflexivity].
  constructor; [done|]. exists [text]. split; [done|]. congruence.
Qed.

Lemma grows_try_catch (m : M (ClientContext T) unit) : grows m -> grows (try_catch m).
Proof. intros H c. specialize (H c). unfold try_catch. by destruct (m c) as [[] c']. Qed.

Ltac grows :=
  repeat (cbn beta iota zeta;
    lazymatch goal with
    | |- grows (on_client _) => apply grows_on_client
    | |- grows (ui_callback _) => apply grows_callback
    | |- grows (_ ≫= _) => apply grows_bind; [|intros ?]
    | |- grows (modify _) => by apply grows_same
    | |- grows (mret _) => by apply grows_same
    | |- grows (lift _) => by apply grows_same
    | |- grows get => by apply grows_same
    | |- grows (match ?x with _ => _ end) => destruct x
    | |- grows (let '(_, _) := ?x in _) => destruct x
    end).

Ltac grows_of := unfold increment_counter, counter_of, cc_encrypt_for, cc_decrypt_for, cc_cache_public_key,
  cc_keys, send_message, send_to_server; grows.

Lemma grows_chunks r f chunks : grows (send_chunks now rand r f chunks).
Proof. induction chunks as [|b chunks IH]; cbn [send_chunks]; grows_of; apply IH. Qed.

Lemma grows_execute h : grows (executeOnClient now rand h).
Proof.
  destruct h; cbn [executeOnClient];
    unfold Login_executeOnClient, MakeRoom_executeOnClient, Join_executeOnClient,
      SendGroupMessage_executeOnClient, PrivateMessage_executeOnClient, GetPubkey_executeOnClient,
      SendFile_executeOnClient, Exit_executeOnClient; grows_of.
  apply grows_chunks.
Qed.

Lemma grows_pending fuel u : grows (send_pending now rand fuel u).
Proof. induction fuel as [|fuel IH]; cbn [send_pending]; grows_of; apply IH. Qed.

Lemma grows_show u l : grows (show_pending u l).
Proof. induction l as [|x l IH]; cbn [show_pending]; grows_of; apply IH. Qed.

Lemma grows_handle h msg c : ui_grows c (client_handleOutgoing now rand can_open h msg c).1.2.
Proof.
  assert (Hm : forall (m : M (ClientContext T) unit), grows m -> ui_grows c (m c, h).1.2) by done.
  destruct h; cbn [client_handleOutgoing]; try apply Hm.
  - apply grows_callback.
  - unfold ClientCommandBus_dispatch. destruct (registry_find _ _) as [h|]; [|reflexivity].
    destruct (fromMessage h msg) as [[] h']; try reflexivity. pose proof (grows_execute h' c) as He.
    by destruct (executeOnClient now rand h' c) as [[] ?].
  - unfold ResponseMessageHandler_handleIncoming, handle_get_pubkey_response.
    grows_of; first [apply grows_pending | apply grows_show].
  - apply grows_try_catch. grows_of.
  - unfold ClientFileStart_handleIncoming. grows_of.
  - unfold ClientFileChunk_handleIncoming. grows_of.
  - unfold ClientFileEnd_handleIncoming. grows_of.
Qed.

(** A call of the client that only adds to what is shown. *)
Definition client_grows (f : M (MessagingClient T) unit) : Prop :=
  forall s, ui_grows (client_context s) (client_context (f s).2).

Lemma dispatch_grows msg : client_grows (dispatch_outgoing now rand can_open msg).
Proof.
  intros s. unfold dispatch_outgoing, client_dispatch, mbind, M_bind, modify. cbn -[client_handleOutgoing].
  destruct (_ !! _) as [h|]; [|reflexivity]. pose proof (grows_handle h msg (client_context s)) as He.
  by destruct (client_handleOutgoing now rand can_open h msg (client_context s)) as [[[] c'] h'].
Qed.

Lemma get_data_grows line : client_grows (get_data now rand can_open line).
Proof.
  intros s. unfold get_data, mbind, M_bind, lift. destruct (parse now line); [apply dispatch_grows | reflexivity..].
Qed.

Lemma received_grows raw : client_grows (client_on_tcp_data_received now rand can_open raw).
Proof.
  intros s. unfold client_on_tcp_data_received, mbind, M_bind, lift.
  destruct (Serializer_deserialize raw); [apply dispatch_grows | reflexivity..].
Qed.

Lemma stop_grows : client_grows MessagingClient_stop.
Proof.
  intros s. unfold MessagingClient_stop. pose proof (grows_on_client client_disconnect (client_context s)) as H.
  by destruct (on_client client_disconnect (client_context s)).
Qed.

End Ui.

(** ** The windows *)

Section Gui.
  Context {qt : Qt} {ssl : OpenSSL} {T : Type} {cl : IClient T}.
  Variable rand : nat -> option bytes.
  Variable can_open : string -> bool.

Definition connected_text : string := "Подключено к серверу! 🐧".

(** Everything that has been posted for the user. *)
Definition posted (g : GuiClient T) : list QString :=
  match gc_net g with
  | NetStarting => []
  | _ => map fromStdString (connected_text :: cc_ui (client_context (gc_client g)))
  end.

Definition labels (outgoing : bool) (w : ChatWindow) : list QString :=
  map bubble_label (List.filter (fun b => Bool.eqb (bubble_outgoing b) outgoing) (cw_history w)).

Definition welcome (nickname : QString) : QString := qappend (qappend (qlit "Welcome, ") nickname) (qlit "!").

(** *** What the user did *)

(** The nickname the user has logged in with, and the texts entered since then; read
    off the events alone. *)
Record User := {
  user_name : option QString;
  user_texts : list QString;
}.

Definition user_event (u : User) (e : GuiEvent) : User :=
  match e, user_name u with
  | EnterNickname text _, None =>
      let nickname := trimmed (max_length 20 text) in
      if isEmpty nickname then u else {| user_name := Some nickname; user_texts := [] |}
  | EnterLine text _, Some nickname =>
      if isEmpty (trimmed text) then u
      else {| user_name := Some nickname; user_texts := user_texts u ++ [trimmed text] |}
  | _, _ => u
  end.

Definition user_from (u : User) (es : list GuiEvent) : User := foldl user_event u es.

Definition user_did (es : list GuiEvent) : User := user_from {| user_name := None; user_texts := [] |} es.

(** A text goes from the window to the bridge as a [std::string], and from the bridge
    to the client as one again. *)
Definition as_sent (text : QString) : string := toStdString (fromStdString (toStdString text)).

(** What the client is to be given for it: the login command, and then the texts. *)
Definition user_lines (u : User) : list string :=
  match user_name u with
  | None => []
  | Some nickname => toStdString (qappend (qlit "/login ") nickname) :: map as_sent (user_texts u)
  end.

(** What the chat window shows of this, given the answers that were delivered to it. *)
Record chat_ok (w : ChatWindow) (nickname : QString) (texts shown : list QString) : Prop := {
  chat_out : labels true w = map toHtmlEscaped texts;
  chat_in : labels false w = map toHtmlEscaped (welcome nickname :: shown);
}.

Definition window_ok (chat : option ChatWindow) (u : User) (shown : list QString) : Prop :=
  match user_name u with
  | None => chat = None /\ shown = []
  | Some nickname => exists w, chat = Some w /\ chat_ok w nickname (user_texts u) shown
  end.

Record gui_ok (u : User) (g : GuiClient T) : Prop := {
  gui_lines : gc_given g ++ map toStdString (gc_to_client g) = user_lines u;
  gui_login : lw_open (gc_login g) = bool_decide (user_name u = None);
  gui_shown : exists shown, gc_dropped g ++ shown ++ gc_to_ui g = posted g /\ window_ok (gc_chat g) u shown;
  gui_starting : gc_net g = NetStarting ->
    cc_ui_set (client_context (gc_client g)) = false /\ cc_ui (client_context (gc_client g)) = [];
}.

Lemma gui_ok_make (c : MessagingClient T) :
  cc_ui_set (client_context c) = false -> cc_ui (client_context c) = [] -> gui_ok (user_did []) (GuiClient_make c).
Proof. intros H1 H2. constructor; try done. by exists []. Qed.

(** *** Bubbles *)

Lemma labels_append text timestamp b o w :
  labels o (appendBubble text timestamp b w)
  = labels o w ++ (if Bool.eqb b o then [toHtmlEscaped text] else []).
Proof.
  unfold labels, appendBubble. cbn [cw_history]. rewrite List.filter_app, map_app. cbn. by destruct (Bool.eqb b o).
Qed.

Lemma chat_ok_make nickname timestamp : chat_ok (ChatWindow_make nickname timestamp) nickname [] [].
Proof. by constructor. Qed.

Lemma chat_ok_response text timestamp w n texts shown :
  chat_ok w n texts shown -> chat_ok (ChatWindow_updateResponse text timestamp w) n texts (shown ++ [text]).
Proof.
  intros [H1 H2]. unfold ChatWindow_updateResponse. constructor; rewrite labels_append; cbn.
  - by rewrite app_nil_r.
  - rewrite H2. cbn. by rewrite map_app.
Qed.

(** *** Calls of the client *)

Lemma post_all k : forall g : GuiClient T,
  foldl (fun g text => MessageBridge_postResponse text g) g k
  = {| gc_login := gc_login g; gc_chat := gc_chat g; gc_client := gc_client g; gc_net := gc_net g;
       gc_to_client := gc_to_client g; gc_to_ui := gc_to_ui g ++ map fromStdString k; gc_given := gc_given g;
       gc_dropped := gc_dropped g |}.
Proof.
  induction k as [|x k IH]; intros g; cbn [foldl map]; [rewrite app_nil_r; by destruct g|].
  rewrite IH. cbn. by rewrite <- app_assoc.
Qed.

Lemma call_client_ok u f g g' :
  gui_ok u g -> client_grows f -> call_client f g = (Ok tt, g') -> gui_ok u g'.
Proof.
  intros [Hl Hlo (shown & Hs & Hc) Hst] Hf. unfold call_client. specialize (Hf (gc_client g)).
  destruct (f (gc_client g)) as [r c]. cbn [snd] in Hf. destruct Hf as [Hset (k & Hk & Hnone)].
  rewrite Hk, drop_app_length, post_all. intros E.
  assert (Hg' : g' = {| gc_login := gc_login g; gc_chat := gc_chat g; gc_client := c; gc_net := gc_net g;
       gc_to_client := gc_to_client g; gc_to_ui := gc_to_ui g ++ map fromStdString k; gc_given := gc_given g;
       gc_dropped := gc_dropped g |}).
  { cbn [with_app_client gc_net] in E. destruct (gc_net g), k; simplify_eq; done. }
  subst g'. clear E. constructor; cbn; [done|done| |].
  - exists shown. split; [|done]. rewrite !app_assoc, <- (app_assoc _ shown), Hs. unfold posted. cbn.
    destruct (gc_net g) eqn:En; cbn.
    + destruct (Hst eq_refl) as [Hu _]. by rewrite Hnone.
    + by rewrite Hk, map_app.
    + by rewrite Hk, map_app.
  - intros En. destruct (Hst En) as [Hu Hui]. rewrite Hset, Hk, Hui, Hnone by done. done.
Qed.

(** *** Entering *)

Lemma enter_nickname_ok u text timestamp g :
  gui_ok u g -> gui_ok (user_event u (EnterNickname text timestamp)) (enter_nickname text timestamp g).
Proof.
  intros Hg. pose proof Hg as [Hl Hlo (shown & Hs & Hw) Hst]. unfold enter_nickname, user_event, window_ok, user_lines in *.
  destruct (user_name u) as [n|] eqn:Eu; rewrite Hlo.
  { rewrite bool_decide_false by done. done. }
  rewrite bool_decide_true by done. destruct Hw as [Hw ->]. cbn [negb].
  unfold LoginWindow_handleLogin. cbn [lw_nickname_input lw_open lw_success].
  destruct (isEmpty (trimmed (max_length 20 text))); cbn [lw_open].
  - constructor; unfold user_lines, window_ok; rewrite ?Eu; try done. by exists [].
  - cbn [lw_success]. rewrite last_snoc. apply app_eq_nil in Hl as [Hg1 Hg2%map_eq_nil].
    constructor; cbn; try done.
    + by rewrite Hg1, Hg2.
    + exists []. split; [done|]. eexists. split; [done|]. apply chat_ok_make.
Qed.

Lemma enter_line_ok u text timestamp g :
  gui_ok u g -> gui_ok (user_event u (EnterLine text timestamp)) (enter_line text timestamp g).
Proof.
  intros Hg. pose proof Hg as [Hl Hlo (shown & Hs & Hw) Hst].
  unfold enter_line, ChatWindow_handleSend, user_event, window_ok, user_lines in *.
  destruct (user_name u) as [n|] eqn:Eu.
  2: { destruct Hw as [-> _]. done. }
  destruct Hw as (w & Ew & [H1 H2]). rewrite Ew. cbn [cw_input].
  destruct (isEmpty (trimmed text)); cbn [cw_sent appendBubble].
  - rewrite drop_all. cbn [foldl]. constructor; unfold user_lines, window_ok; rewrite ?Eu; try done.
    exists shown. split; [done|]. eexists. split; [done|]. by constructor.
  - rewrite drop_app_length. cbn [foldl]. constructor; unfold user_lines, window_ok; cbn; try done.
    + rewrite map_app, app_assoc, Hl. cbn. by rewrite map_app.
    + exists shown. split; [done|]. eexists. split; [done|]. constructor; unfold labels in *; cbn.
      * by rewrite List.filter_app, !map_app, H1.
      * rewrite List.filter_app, map_app, H2. cbn. by rewrite app_nil_r.
Qed.

Lemma deliver_ui_ok u ts g g' :
  gui_ok u g -> gui_step rand can_open (DeliverToUi ts) g = (Ok tt, g') -> gui_ok u g'.
Proof.
  intros Hg [= <-]. destruct (gc_to_ui g) as [|text rest] eqn:E; [done|].
  destruct Hg as [Hl Hlo (shown & Hs & Hw) Hst]. rewrite E in Hs. constructor; try done. cbn. unfold window_ok in *.
  destruct (user_name u) as [n|].
  - destruct Hw as (w & -> & Hc). exists (shown ++ [text]). split; [by rewrite <- (app_assoc shown)|].
    eexists. split; [done|]. by apply chat_ok_response.
  - destruct Hw as [-> ->]. exists []. split; [by rewrite <- app_assoc|]. done.
Qed.

Lemma gui_step_ok u e g g' :
  gui_ok u g -> gui_step rand can_open e g = (Ok tt, g') -> gui_ok (user_event u e) g'.
Proof.
  intros Hg. destruct e as [text ts|text ts|now|ts| |now raw| |]; cbn [gui_step].
  - intros [= <-]. by apply enter_nickname_ok.
  - intros [= <-]. by apply enter_line_ok.
  - rewrite run_get. destruct (gc_to_client g) as [|text rest] eqn:E; [by intros [= <-]|]. rewrite run_modify.
    apply call_client_ok; [|apply get_data_grows]. destruct Hg as [Hl Hlo Hs Hst]. constructor; try done.
    rewrite E in Hl. cbn [gc_given gc_to_client]. by rewrite <- app_assoc.
  - by apply deliver_ui_ok.
  - rewrite run_get. destruct (gc_net g) eqn:En; [|by intros [= <-]..]. rewrite run_modify. intros [= <-].
    destruct Hg as [Hl Hlo (shown & Hs & Hc) Hst]. destruct (Hst En) as [Hset Hui]. constructor; try done.
    exists shown. split; [|done]. cbn. unfold posted in *. rewrite En in Hs. cbn. rewrite Hui. cbn.
    by rewrite !app_assoc, <- (app_assoc _ shown), Hs.
  - rewrite run_get. destruct (gc_net g); [by intros [= <-]| |by intros [= <-]]. apply call_client_ok; [done | apply received_grows].
  - intros [= <-]. destruct (gc_net g) eqn:En; try done. destruct Hg as [Hl Hlo (shown & Hs & Hc) Hst].
    constructor; try done. exists shown. split; [|done]. cbn. unfold posted in *. by rewrite En in Hs.
  - apply call_client_ok; [done | apply stop_grows].
Qed.

Lemma gui_run_ok es : forall u g g',
  gui_ok u g -> gui_run rand can_open es g = (Ok tt, g') -> gui_ok (user_from u es) g'.
Proof.
  induction es as [|e es IH]; intros u g g' Hg; cbn [gui_run]; [by intros [= <-]|]. unfold mbind, M_bind.
  destruct (gui_step rand can_open e g) as [[[]| |] g1] eqn:E; [|done..]. apply (IH (user_event u e)). by apply (gui_step_ok u e g).
Qed.

(** ** Properties *)

(** C34: the windows lose nothing the user enters and nothing the client says. Started
    with a new client whose [ui_callback] is not set, and run for any events of the user,
    of Qt and of the network thread up to which no call of the client has thrown or was
    undefined: the lines [get_data] was called with, followed by those still queued, are
    the login command for the first nickname entered that is not empty (trimmed, and
    within its 20 characters) and then every text entered after it that is not empty,
    trimmed, in the order entered, through the conversions to [std::string] and back of
    which nothing is assumed. There is a chat window if and only if the user has logged
    in, and it shows just these texts, escaped. What the client had to say
    ([ui_callback]), after the notice that it is connected, is in order what was
    delivered while there was no chat window, what the chat window shows after its
    welcome, and what is still queued. *)
Theorem gui_session (c : MessagingClient T) (es : list GuiEvent) (g : GuiClient T) :
  cc_ui_set (client_context c) = false -> cc_ui (client_context c) = [] ->
  gui_run rand can_open es (GuiClient_make c) = (Ok tt, g) ->
  let u := user_did es in
  gc_given g ++ map toStdString (gc_to_client g) = user_lines u /\
  exists shown, gc_dropped g ++ shown ++ gc_to_ui g = posted g /\
    match user_name u with
    | None => gc_chat g = None /\ shown = []
    | Some nickname => exists w, gc_chat g = Some w /\
        labels true w = map toHtmlEscaped (user_texts u) /\
        labels false w = map toHtmlEscaped (welcome nickname :: shown)
    end.
Proof.
  intros H1 H2 Hrun u. destruct (gui_run_ok es _ _ _ (gui_ok_make c H1 H2) Hrun) as [Hl _ (shown & Hs & Hw) _].
  split; [done|]. exists shown. split; [done|]. unfold window_ok in Hw. change (user_from (user_did []) es) with u in Hw.
  destruct (user_name u) as [n|]; [|done]. destruct Hw as (w & Hw & []). by exists w.
Qed.

End Gui.

(** The window before these two: the first text that is not empty logs in, and the
    others are sent as they are. *)
Theorem messenger_ui_attempts {qt : Qt} (texts : list QString) :
  let ts := map toStdString (List.filter (fun t => negb (isEmpty t)) (map trimmed texts)) in
  mu_attempts (foldl (fun w t => MessengerUI_enter t w) MessengerUI_make texts)
  = match ts with [] => [] | n :: rest => ("/login " +:+ n) :: rest end.
Proof.
  assert (Hsend : forall texts w, mu_enter w = EnterSend ->
    mu_attempts (foldl (fun w t => MessengerUI_enter t w) w texts)
    = mu_attempts w ++ map toStdString (List.filter (fun t => negb (isEmpty t)) (map trimmed texts))).
  { clear texts. induction texts as [|t texts IH]; intros w Hw; cbn [foldl map List.filter]; [by rewrite app_nil_r|].
    unfold MessengerUI_enter at 2. cbn [mu_enter]. rewrite Hw. unfold MessengerUI_handleSend. cbn [mu_input].
    destruct (isEmpty (trimmed t)); rewrite IH by done; cbn; [done|]. by rewrite <- app_assoc. }
  assert (Hlogin : forall texts w, mu_enter w = EnterLogin ->
    mu_attempts (foldl (fun w t => MessengerUI_enter t w) w texts)
    = mu_attempts w ++ match map toStdString (List.filter (fun t => negb (isEmpty t)) (map trimmed texts)) with
                       | [] => [] | n :: rest => ("/login " +:+ n) :: rest end).
  { clear texts. induction texts as [|t texts IH]; intros w Hw; cbn [foldl map List.filter]; [by rewrite app_nil_r|].
    unfold MessengerUI_enter at 2. cbn [mu_enter]. rewrite Hw. unfold MessengerUI_handleLogin. cbn [mu_input].
    destruct (isEmpty (trimmed t)); [by rewrite IH by done|]. rewrite Hsend by done. cbn. by rewrite <- app_assoc. }
  by rewrite (Hlogin texts MessengerUI_make).
Qed.

(** ** The property on a concrete run *)

#[local] Existing Instance plain_ssl.

(** Texts as they are. *)
#[local] Instance plain_qt : Qt :=
  {| QString := string; trimmed s := s; isEmpty := string_empty; toHtmlEscaped s := s; max_length n s := String.substring 0 n s;
     qappend := String.append; fromStdString s := s; toStdString s := s |}.

Definition demo_gui_client : MessagingClient client_log :=
  MessagingClient_make
    {| cc_config := {| server_host := "127.0.0.1"; server_port := 8080 |}; cc_ui_set := false; cc_ui := [];
       cc_client := {| log_sent := []; log_closed := false |}; cc_mq := MessageQueue_make;
       cc_encryption := {| es_DH_key := Some (sbytes "a"); es_identity_key := Some (sbytes "ia");
                           es_DH_keys := ∅; es_identity_keys := ∅ |}; cc_files := ∅; cc_pending_messages := ∅; cc_my_username := [];
       cc_messages_counter := ∅; cc_disk := ∅; cc_rand := 0 |}.

Definition demo_gui_events : list GuiEvent :=
  [EnterLine "too early" "10:00"; EnterNickname "ann" "10:00"; NetStart; EnterLine "hello" "10:01"; DeliverToUi "10:01";
   DeliverToClient 0; DeliverToClient 0; DeliverToUi "10:02"; EnterLine "" "10:03"]%string.

Lemma gui_session_witness :
  exists g w, gui_run (fun _ => None) (fun _ => false) demo_gui_events (GuiClient_make demo_gui_client) = (Ok tt, g) /\ gc_chat g = Some w /\ gc_given g = ["/login ann"; "hello"]%string /\
    labels true w = ["hello"]%string /\ labels false w = ["Welcome, ann!"; connected_text; "hello"]%string.
Proof.
  assert (Hr : let '(r, g) := gui_run (fun _ => None) (fun _ => false) demo_gui_events (GuiClient_make demo_gui_client)
    in r = Ok tt /\ gc_to_client g = [] /\ gc_to_ui g = [] /\ gc_dropped g = [] /\
    posted g = [connected_text; "hello"]%string) by (vm_compute; repeat split).
  pose proof (gui_session (fun _ => None) (fun _ => false) demo_gui_client demo_gui_events) as H.
  destruct (gui_run (fun _ => None) (fun _ => false) demo_gui_events (GuiClient_make demo_gui_client))
    as [r g]. destruct Hr as (-> & Hq1 & Hq2 & Hd & Hp).
  destruct (H g eq_refl eq_refl eq_refl) as [H1 (shown & H2 & w & Hw & H3 & H4)].
  rewrite Hq1, app_nil_r in H1. rewrite Hq2, Hd, Hp, app_nil_r in H2. cbn in H2. subst shown.
  exists g, w. split; [reflexivity|]. split; [exact Hw|]. split; [rewrite H1; vm_compute; reflexivity|].
  split; [rewrite H3 | rewrite H4]; vm_compute; reflexivity.
Defined.
