(* ===== verification/Peer.v ===== *)
(** The peer-to-peer mode: [PeerNode] ([src/transport/peer.cpp]) with its event
    handlers ([src/transport/handling.cpp]), [PeerContext], the peer side of the
    commands and the peer handlers, the dispatcher and [MessagingPeer]
    ([src/application/messaging/messaging_peer.cpp]). *)
From S2P Require Import Prelude Message Framing CommandPattern Parser Models Services Commands Crypto Transport Stack.

(** ** [PeerNode] *)

(** [PeerSession]: the buffers of a connection and the address it came from. *)
Record PeerSession := {
  ps_connection : Connection;
  ps_ip : string;
}.

(** [node_peers] has the keys of [PeerEventHandler::peers_], whose weak pointers
    point to the sessions of [by_fd]; [node_epoll] the descriptors of the
    connections in the event loop, with whether [EPOLLOUT] is asked for. *)
Record PeerNode := {
  by_fd : gmap Z PeerSession;
  by_ip : gmap string Z;
  node_peers : gset Z;
  node_epoll : gmap Z bool;
  node_sockets : gmap Z Socket;
  running_ : bool;
}.

Definition PeerNode_make : PeerNode :=
  {| by_fd := ∅; by_ip := ∅; node_peers := ∅; node_epoll := ∅; node_sockets := ∅; running_ := false |}.

Definition with_by_fd (f : gmap Z PeerSession -> gmap Z PeerSession) (n : PeerNode) : PeerNode :=
  {| by_fd := f (by_fd n); by_ip := by_ip n; node_peers := node_peers n; node_epoll := node_epoll n;
     node_sockets := node_sockets n; running_ := running_ n |}.

Definition with_by_ip (f : gmap string Z -> gmap string Z) (n : PeerNode) : PeerNode :=
  {| by_fd := by_fd n; by_ip := f (by_ip n); node_peers := node_peers n; node_epoll := node_epoll n;
     node_sockets := node_sockets n; running_ := running_ n |}.

Definition with_peers (f : gset Z -> gset Z) (n : PeerNode) : PeerNode :=
  {| by_fd := by_fd n; by_ip := by_ip n; node_peers := f (node_peers n); node_epoll := node_epoll n;
     node_sockets := node_sockets n; running_ := running_ n |}.

Definition with_node_epoll (f : gmap Z bool -> gmap Z bool) (n : PeerNode) : PeerNode :=
  {| by_fd := by_fd n; by_ip := by_ip n; node_peers := node_peers n; node_epoll := f (node_epoll n);
     node_sockets := node_sockets n; running_ := running_ n |}.

Definition with_node_sockets (f : gmap Z Socket -> gmap Z Socket) (n : PeerNode) : PeerNode :=
  {| by_fd := by_fd n; by_ip := by_ip n; node_peers := node_peers n; node_epoll := node_epoll n;
     node_sockets := f (node_sockets n); running_ := running_ n |}.

Definition with_running (b : bool) (n : PeerNode) : PeerNode :=
  {| by_fd := by_fd n; by_ip := by_ip n; node_peers := node_peers n; node_epoll := node_epoll n;
     node_sockets := node_sockets n; running_ := b |}.

(** [ok]: the listening socket could be set up; it is registered with the event
    loop under a handler of its own ([peer_accepted]). *)
Definition start_listening (ok : bool) (n : PeerNode) : outcome PeerNode :=
  if ok then Ok (with_running true n)
  else Throw (runtime_error "Failed to create listening socket").

(** Both kinds of sockets are registered alike; 1 when the descriptor is known. *)
Definition register_peer_connection (fd : Z) (session : PeerSession) (n : PeerNode) : Z * PeerNode :=
  match by_fd n !! fd with
  | Some _ => (1, n)
  | None =>
      let n := with_peers (fun ps => {[fd]} ∪ ps) n in
      let n := with_node_epoll <[fd := false]> n in
      let n := with_by_ip <[ps_ip session := fd]> n in
      (0, with_by_fd <[fd := session]> n)
  end.

(** [res] is the descriptor of the new connection, if it could be made; the
    result of [register_peer_connection] is not looked at. *)
Definition connect_to_peer (res : option Z) (peer_ip : string) (n : PeerNode) : Z * PeerNode :=
  match res with
  | None => (0, n)
  | Some fd => (fd, (register_peer_connection fd {| ps_connection := Connection_make; ps_ip := peer_ip |} n).2)
  end.

Definition send_to_buffer (data : bytes) (s : PeerSession) : PeerSession :=
  {| ps_connection := Connection_queue_send data (ps_connection s); ps_ip := ps_ip s |}.

Definition node_enable_write (fd : Z) : PeerNode -> PeerNode := with_node_epoll (alter (fun _ => true) fd).
Definition node_disable_write (fd : Z) : PeerNode -> PeerNode := with_node_epoll (alter (fun _ => false) fd).

Definition send_to_peer (fd : Z) (data : bytes) (n : PeerNode) : PeerNode :=
  match by_fd n !! fd with
  | Some s => node_enable_write fd (with_by_fd <[fd := send_to_buffer data s]> n)
  | None => n
  end.

Definition broadcast (data : bytes) (n : PeerNode) : PeerNode :=
  with_node_epoll (map_imap (fun fd out => Some (match by_fd n !! fd with Some _ => true | None => out end)))
    (with_by_fd (fmap (send_to_buffer data)) n).

(** [registry_.by_fd[fd]->ip] adds a null session for an unknown descriptor and
    dereferences it. *)
Definition disconnect_from_peer (fd : Z) (n : PeerNode) : outcome (Z * PeerNode) :=
  match by_fd n !! fd with
  | None => Undef
  | Some s =>
      let peer_ip := ps_ip s in
      match by_ip n !! peer_ip with
      | None => Ok (1, n)
      | Some _ =>
          let n := with_node_epoll (delete fd) n in
          let n := with_peers (fun ps => ps ∖ {[fd]}) n in
          let n := with_by_fd (delete fd) n in
          Ok (0, with_by_ip (delete peer_ip) n)
      end
  end.

(** The loop of [stop] over the descriptors collected before it. *)
Fixpoint disconnect_all (fds : list Z) (n : PeerNode) : outcome PeerNode :=
  match fds with
  | [] => Ok n
  | fd :: rest => '(_, n) ← disconnect_from_peer fd n; disconnect_all rest n
  end.

(** The order of the descriptors is that of an unordered map: a parameter. *)
Definition stop (order : list Z) (n : PeerNode) : outcome PeerNode :=
  if negb (running_ n) then Ok n
  else
    n ← disconnect_all order n;
    Ok (with_peers (fun _ => ∅) (with_running false n)).

Definition node_socket (fd : Z) (n : PeerNode) : Socket :=
  default {| sk_recv := []; sk_send := []; sk_wire := [] |} (node_sockets n !! fd).

Definition on_peer_writable (fd : Z) (n : PeerNode) : outcome PeerNode :=
  match by_fd n !! fd with
  | None => Undef
  | Some s =>
      '(done, c, sock) ← Connection_flush (ps_connection s) (node_socket fd n);
      let n := with_by_fd <[fd := {| ps_connection := c; ps_ip := ps_ip s |}]> n in
      let n := with_node_sockets <[fd := sock]> n in
      Ok (if done : bool then node_disable_write fd n else n)
  end.

(** ** [PeerContext] *)

(** [pc_shown] holds the private messages shown to the user: author and text. The
    fields for pending messages, pending files and queued messages are never used
    by a peer. *)
Record PeerContext {ssl : OpenSSL} := {
  pc_node : PeerNode;
  pc_users : UserService;
  pc_sessions : SessionManager;
  pc_encryption : EncryptionService;
  pc_my_username : bytes;
  pc_messages_counter : gmap bytes Z;
  pc_fd : Z;
  pc_shown : list (bytes * bytes);
}.

Section PeerContext.
  Context {ssl : OpenSSL}.

(** [fd] is not initialised by the constructor. *)
Definition PeerContext_make (gen_dh gen_id : Keygen) (can_write : string -> bool) (disk : gmap string bytes)
    (fd0 : Z) : outcome (PeerContext * gmap string bytes) :=
  '(enc, disk) ← ES_set_key gen_dh gen_id can_write disk EncryptionService_new;
  Ok ({| pc_node := PeerNode_make; pc_users := UserService_empty; pc_sessions := SessionManager_empty;
         pc_encryption := enc; pc_my_username := []; pc_messages_counter := ∅; pc_fd := fd0;
         pc_shown := [] |}, disk).

Definition set_node (n : PeerNode) (c : PeerContext) : PeerContext :=
  {| pc_node := n; pc_users := pc_users c; pc_sessions := pc_sessions c; pc_encryption := pc_encryption c;
     pc_my_username := pc_my_username c; pc_messages_counter := pc_messages_counter c; pc_fd := pc_fd c;
     pc_shown := pc_shown c |}.

Definition set_peer_users (u : UserService) (c : PeerContext) : PeerContext :=
  {| pc_node := pc_node c; pc_users := u; pc_sessions := pc_sessions c; pc_encryption := pc_encryption c;
     pc_my_username := pc_my_username c; pc_messages_counter := pc_messages_counter c; pc_fd := pc_fd c;
     pc_shown := pc_shown c |}.

Definition set_peer_sessions (s : SessionManager) (c : PeerContext) : PeerContext :=
  {| pc_node := pc_node c; pc_users := pc_users c; pc_sessions := s; pc_encryption := pc_encryption c;
     pc_my_username := pc_my_username c; pc_messages_counter := pc_messages_counter c; pc_fd := pc_fd c;
     pc_shown := pc_shown c |}.

Definition set_peer_encryption (e : EncryptionService) (c : PeerContext) : PeerContext :=
  {| pc_node := pc_node c; pc_users := pc_users c; pc_sessions := pc_sessions c; pc_encryption := e;
     pc_my_username := pc_my_username c; pc_messages_counter := pc_messages_counter c; pc_fd := pc_fd c;
     pc_shown := pc_shown c |}.

Definition set_my_username (u : bytes) (c : PeerContext) : PeerContext :=
  {| pc_node := pc_node c; pc_users := pc_users c; pc_sessions := pc_sessions c; pc_encryption := pc_encryption c;
     pc_my_username := u; pc_messages_counter := pc_messages_counter c; pc_fd := pc_fd c;
     pc_shown := pc_shown c |}.

Definition set_peer_counter (m : gmap bytes Z) (c : PeerContext) : PeerContext :=
  {| pc_node := pc_node c; pc_users := pc_users c; pc_sessions := pc_sessions c; pc_encryption := pc_encryption c;
     pc_my_username := pc_my_username c; pc_messages_counter := m; pc_fd := pc_fd c; pc_shown := pc_shown c |}.

Definition set_peer_fd (fd : Z) (c : PeerContext) : PeerContext :=
  {| pc_node := pc_node c; pc_users := pc_users c; pc_sessions := pc_sessions c; pc_encryption := pc_encryption c;
     pc_my_username := pc_my_username c; pc_messages_counter := pc_messages_counter c; pc_fd := fd;
     pc_shown := pc_shown c |}.

Definition set_shown (l : list (bytes * bytes)) (c : PeerContext) : PeerContext :=
  {| pc_node := pc_node c; pc_users := pc_users c; pc_sessions := pc_sessions c; pc_encryption := pc_encryption c;
     pc_my_username := pc_my_username c; pc_messages_counter := pc_messages_counter c; pc_fd := pc_fd c;
     pc_shown := l |}.

End PeerContext.

(** ** The peer side of the commands *)

(** The handler classes of a peer dispatcher. *)
Inductive IPeerMessageHandler :=
| PeerTextHandler
| PeerCommandHandler (registry_ : CommandRegistry)
| PeerCipherHandler
| PeerResponseHandler
| PeerFileStartHandler
| PeerFileChunkHandler
| PeerFileEndHandler.

Definition peer_getMessageType (h : IPeerMessageHandler) : MessageType :=
  match h with
  | PeerTextHandler => Text
  | PeerCommandHandler _ => Command
  | PeerCipherHandler => CipherMessage
  | PeerResponseHandler => Response
  | PeerFileStartHandler => FileStart
  | PeerFileChunkHandler => FileChunk
  | PeerFileEndHandler => FileEnd
  end.

Section Peer.
  Context {ssl : OpenSSL}.
  Variable now : Z.
  (** What a connection attempt made now gives, and the order of the peers. *)
  Variable connect_res : option Z.
  Variable order : list Z.

Definition on_node (f : PeerNode -> PeerNode) : M PeerContext unit :=
  modify (fun c => set_node (f (pc_node c)) c).

(** Sends the serialised message to the peer of the connection [fd]. *)
Definition send_message_to_peer (fd : Z) (m : outcome Message) : M PeerContext unit :=
  m ← lift m;
  on_node (send_to_peer fd (Serializer_serialize m)).

(** [get_DH_bytes], [get_identity_bytes] and [sign]. *)
Definition peer_keys : M PeerContext (bytes * bytes * bytes) :=
  c ← get;
  dh ← lift (ES_get_DH_bytes (pc_encryption c));
  idb ← lift (ES_get_identity_bytes (pc_encryption c));
  sg ← lift (ES_sign (pc_encryption c));
  mret (dh, idb, sg).

Definition peer_cache_public_key (username pubkey identity_key : bytes) : M PeerContext unit :=
  c ← get;
  let '(r, enc) := ES_cache_public_key (pc_encryption c) username pubkey identity_key in
  _ ← modify (set_peer_encryption enc);
  lift r.

Definition Connect_send_from_peer (c : ConnectCommand) : M PeerContext ConnectCommand :=
  ctx ← get;
  if is_empty (pc_my_username ctx) then mret c
  else
    let c := {| connect_ip := connect_ip c; connect_port := connect_port c;
                connect_username := pc_my_username ctx; connect_DH_bytes := connect_DH_bytes c;
                connect_identity_bytes := connect_identity_bytes c;
                connect_signature := connect_signature c |} in
    let '(fd, n) := connect_to_peer connect_res (connect_ip c) (pc_node ctx) in
    _ ← modify (set_node n);
    if fd =? 0 then mret c
    else
      '(dh, idb, sg) ← peer_keys;
      let c := {| connect_ip := connect_ip c; connect_port := connect_port c;
                  connect_username := connect_username c; connect_DH_bytes := dh;
                  connect_identity_bytes := idb; connect_signature := sg |} in
      _ ← send_message_to_peer fd (Connect_toMessage now c);
      mret c.

(** [register_user] fails only with [AlreadyExists]. *)
Definition Connect_recv_on_peer (fd : Z) (c : ConnectCommand) : M PeerContext unit :=
  ctx ← get;
  let username := bstr (connect_username c) in
  let '(res, users) := UserService_register_user (pc_users ctx) username (connect_DH_bytes c)
                         (connect_identity_bytes c) (connect_signature c) in
  _ ← modify (set_peer_users users);
  match res with
  | unexpected AlreadyExists => mret tt
  | _ =>
      _ ← modify (fun ctx => set_peer_sessions (SessionManager_bind (pc_sessions ctx) fd username) ctx);
      _ ← peer_cache_public_key (connect_username c) (connect_DH_bytes c) (connect_identity_bytes c);
      '(dh, idb, sg) ← peer_keys;
      send_message_to_peer fd
        (Message_make now (pc_my_username ctx) 4 [type_meta CONNECT; dh; idb; sg] Response)
  end.

(** [PeerApplicationService::disconnect_peer] has an empty body. *)
Definition disconnect_peer (username : string) : M PeerContext unit := mret tt.

Definition Disconnect_send_from_peer (c : DisconnectCommand) : M PeerContext unit :=
  if String.eqb (disconnect_name c) "" then mret tt else disconnect_peer (disconnect_name c).

(** [*get_username(fd)] is undefined without a session. *)
Definition Disconnect_recv_on_peer (fd : Z) : M PeerContext unit :=
  ctx ← get;
  username ← lift (match SessionManager_get_username (pc_sessions ctx) fd with
                   | expected u => Ok u
                   | unexpected _ => Undef
                   end);
  _ ← modify (fun ctx => set_peer_users (UserService_remove_user (pc_users ctx) username) ctx);
  modify (fun ctx => set_peer_sessions (SessionManager_unbind (pc_sessions ctx) fd) ctx).

Definition Exit_send_from_peer : M PeerContext unit :=
  ctx ← get;
  n ← lift (stop order (pc_node ctx));
  modify (set_node n).

Definition Login_send_from_peer (c : LoginCommand) : M PeerContext LoginCommand :=
  '(dh, idb, sg) ← peer_keys;
  let c := {| login_username := login_username c; login_DH_public_bytes := dh;
              login_identity_pub_bytes := idb; login_signature := sg |} in
  _ ← modify (set_my_username (login_username c));
  mret c.

(** The reply of [Login] and [GetPubkey]: our keys. *)
Definition send_own_keys (fd : Z) (username : bytes) : M PeerContext unit :=
  '(dh, idb, sg) ← peer_keys;
  send_message_to_peer fd (Message_make now dh 4 [type_meta GET_PUBKEY; username; idb; sg] Response).

Definition Login_recv_on_peer (fd : Z) (c : LoginCommand) : M PeerContext unit :=
  send_own_keys fd (login_username c).

Definition GetPubkey_recv_on_peer (fd : Z) (c : GetPubkeyCommand) : M PeerContext unit :=
  send_own_keys fd (getpub_username c).

(** [res_fd.error()] of a result that holds a value is undefined; without one
    the error is [UserNotFound]. *)
Definition GetPubkey_send_from_peer (c : GetPubkeyCommand) : M PeerContext unit :=
  ctx ← get;
  match SessionManager_get_fd (pc_sessions ctx) (bstr (getpub_username c)) with
  | expected _ => lift Undef
  | unexpected UserNotFound => mret tt
  | unexpected _ => lift Undef
  end.

(** [PeerApplicationService::send_private_message] has an empty body. *)
Definition send_private_message (recipient payload : bytes) : M PeerContext unit := mret tt.

Definition PrivateMessage_send_from_peer (c : PrivateMessageCommand) : M PeerContext unit :=
  if is_empty (pmess_recipient c) || is_empty (pmess_payload c) then mret tt
  else send_private_message (pmess_recipient c) (pmess_payload c).

(** The virtual calls; the bodies of the other commands are empty or only
    print. *)
Definition send_from_peer (h : ICommandHandler) : M PeerContext ICommandHandler :=
  match h with
  | Connect c => c ← Connect_send_from_peer c; mret (Connect c)
  | Disconnect c => _ ← Disconnect_send_from_peer c; mret h
  | Login c => c ← Login_send_from_peer c; mret (Login c)
  | Exit => _ ← Exit_send_from_peer; mret h
  | GetPubkey c => _ ← GetPubkey_send_from_peer c; mret h
  | PrivateMessage c => _ ← PrivateMessage_send_from_peer c; mret h
  | MakeRoom _ | Join _ | SendGroupMessage _ | SendFile _ | Help => mret h
  end.

Definition recv_on_peer (fd : Z) (h : ICommandHandler) : M PeerContext unit :=
  match h with
  | Connect c => Connect_recv_on_peer fd c
  | Disconnect _ => Disconnect_recv_on_peer fd
  | Login c => Login_recv_on_peer fd c
  | GetPubkey c => GetPubkey_recv_on_peer fd c
  | Exit | PrivateMessage _ | MakeRoom _ | Join _ | SendGroupMessage _ | SendFile _ | Help => mret tt
  end.

(** ** Handlers *)

(** [PeerCommandBus::dispatchSending] and [dispatchReceiving]: the object found
    in the registry is overwritten by [fromMessage] and then run. *)
Definition PeerCommandBus_dispatchSending (registry : CommandRegistry) (msg : Message)
    (ctx : PeerContext) : outcome unit * PeerContext * CommandRegistry :=
  let cmd := make_struct_from_command msg in
  match registry_find registry (pc_name cmd) with
  | None => (Ok tt, ctx, registry)
  | Some handler =>
      let '(r, handler) := fromMessage handler msg in
      match r with
      | Ok _ =>
          match send_from_peer handler ctx with
          | (Ok handler, ctx) => (Ok tt, ctx, <[pc_name cmd := handler]> registry)
          | (Throw e, ctx) => (Throw e, ctx, <[pc_name cmd := handler]> registry)
          | (Undef, ctx) => (Undef, ctx, <[pc_name cmd := handler]> registry)
          end
      | Throw e => (Throw e, ctx, <[pc_name cmd := handler]> registry)
      | Undef => (Undef, ctx, <[pc_name cmd := handler]> registry)
      end
  end.

Definition PeerCommandBus_dispatchReceiving (registry : CommandRegistry) (msg : Message)
    (ctx : PeerContext) : outcome unit * PeerContext * CommandRegistry :=
  let cmd := make_struct_from_command msg in
  match registry_find registry (pc_name cmd) with
  | None => (Ok tt, ctx, registry)
  | Some handler =>
      let '(r, handler) := fromMessage handler msg in
      let registry := <[pc_name cmd := handler]> registry in
      match r with
      | Ok _ => (recv_on_peer (pc_fd ctx) handler ctx, registry)
      | Throw e => (Throw e, ctx, registry)
      | Undef => (Undef, ctx, registry)
      end
  end.

Definition PeerText_handleSending (msg : Message) : M PeerContext unit :=
  on_node (broadcast (Serializer_serialize msg)).

(** [messages_counter[sender]] adds a 0 when there is none; it is not
    incremented. *)
Definition PeerCipher_handleReceiving (msg : Message) : M PeerContext unit :=
  let sender := Message_get_meta msg 0 in
  ctx ← get;
  let n := default 0 (pc_messages_counter ctx !! sender) in
  _ ← modify (set_peer_counter (<[sender := n]> (pc_messages_counter ctx)));
  let '(r, enc) := ES_decrypt_for (pc_encryption ctx) sender (pc_my_username ctx)
                     (Message_get_payload msg) (Message_get_meta msg 1) n in
  _ ← modify (set_peer_encryption enc);
  text ← lift r;
  modify (fun ctx => set_shown (pc_shown ctx ++ [(sender, text)]) ctx).

Definition handle_connect_response (msg : Message) : M PeerContext unit :=
  ctx ← get;
  let username_str := bstr (Message_get_payload msg) in
  let '(res, users) := UserService_register_user (pc_users ctx) username_str (Message_get_meta msg 1)
                         (Message_get_meta msg 2) (Message_get_meta msg 3) in
  _ ← modify (set_peer_users users);
  match res with
  | unexpected _ => mret tt
  | expected _ =>
      _ ← modify (fun ctx => set_peer_sessions (SessionManager_bind (pc_sessions ctx) (pc_fd ctx) username_str) ctx);
      peer_cache_public_key (Message_get_payload msg) (Message_get_meta msg 1) (Message_get_meta msg 2)
  end.

Definition PeerResponse_handleReceiving (msg : Message) : M PeerContext unit :=
  match Message_get_meta msg 0 with
  | [] => mret tt
  | b :: _ =>
      match CommandType_of_byte b with
      | CONNECT => handle_connect_response msg
      | _ => mret tt
      end
  end.

(** The handlers not listed only print or do nothing. *)
Definition peer_handleSending (h : IPeerMessageHandler) (msg : Message) (ctx : PeerContext) :
    outcome unit * PeerContext * IPeerMessageHandler :=
  match h with
  | PeerTextHandler => (PeerText_handleSending msg ctx, h)
  | PeerCommandHandler registry_ =>
      let '(r, ctx, registry_) := PeerCommandBus_dispatchSending registry_ msg ctx in
      (r, ctx, PeerCommandHandler registry_)
  | _ => (Ok tt, ctx, h)
  end.

Definition peer_handleReceiving (h : IPeerMessageHandler) (msg : Message) (ctx : PeerContext) :
    outcome unit * PeerContext * IPeerMessageHandler :=
  match h with
  | PeerCommandHandler registry_ =>
      let '(r, ctx, registry_) := PeerCommandBus_dispatchReceiving registry_ msg ctx in
      (r, ctx, PeerCommandHandler registry_)
  | PeerCipherHandler => (PeerCipher_handleReceiving msg ctx, h)
  | PeerResponseHandler => (PeerResponse_handleReceiving msg ctx, h)
  | _ => (Ok tt, ctx, h)
  end.

End Peer.

(** ** [PeerMessageDispatcher] and [MessagingPeer] *)

Record PeerMessageDispatcher := {
  peer_handlers : gmap MessageType IPeerMessageHandler;
  peer_context_set : bool;
}.

Definition peer_registerHandler (d : PeerMessageDispatcher) (type : MessageType)
    (handler : IPeerMessageHandler) : PeerMessageDispatcher :=
  {| peer_handlers := <[type := handler]> (peer_handlers d); peer_context_set := peer_context_set d |}.

Definition peer_setContext (d : PeerMessageDispatcher) : PeerMessageDispatcher :=
  {| peer_handlers := peer_handlers d; peer_context_set := true |}.

Definition peer_hasHandleFor (d : PeerMessageDispatcher) (type : MessageType) : bool :=
  bool_decide (is_Some (peer_handlers d !! type)).

Definition peer_clear (d : PeerMessageDispatcher) : PeerMessageDispatcher :=
  {| peer_handlers := ∅; peer_context_set := peer_context_set d |}.

Record MessagingPeer {ssl : OpenSSL} := {
  peer_context : PeerContext;
  peer_dispatcher : PeerMessageDispatcher;
}.

Section MessagingPeer.
  Context {ssl : OpenSSL}.
  Variable now : Z.
  Variable connect_res : option Z.
  Variable order : list Z.

Definition MessagingPeer_dispatcher : PeerMessageDispatcher :=
  foldl (fun d '(t, h) => peer_registerHandler d t h)
    {| peer_handlers := ∅; peer_context_set := false |}
    [(Text, PeerTextHandler);
     (Command, PeerCommandHandler PeerCommandHandler_registry);
     (CipherMessage, PeerCipherHandler);
     (Response, PeerResponseHandler);
     (FileStart, PeerFileStartHandler);
     (FileChunk, PeerFileChunkHandler);
     (FileEnd, PeerFileEndHandler)].

(** [MessagingPeer(port)], with the context made before; [ok]: the port could be
    listened on. *)
Definition MessagingPeer_make (ctx : PeerContext) (ok : bool) : outcome MessagingPeer :=
  n ← start_listening ok (pc_node ctx);
  Ok {| peer_context := set_node n ctx; peer_dispatcher := MessagingPeer_dispatcher |}.

(** What both dispatch functions do around the call of the handler; what it
    throws is caught. [MessagingPeer] sets the context before every call. *)
Definition peer_run (f : IPeerMessageHandler -> Message -> PeerContext -> outcome unit * PeerContext * IPeerMessageHandler)
    (msg : Message) : M MessagingPeer bool := fun s =>
  let d := peer_dispatcher s in
  match peer_handlers d !! Message_get_type msg with
  | None => (Ok false, s)
  | Some h =>
      if negb (peer_context_set d) then (Undef, s)
      else
        let '(r, ctx, h) := f h msg (peer_context s) in
        let s' := {| peer_context := ctx;
                     peer_dispatcher := peer_registerHandler d (Message_get_type msg) h |} in
        match r with
        | Ok _ => (Ok true, s')
        | Throw _ => (Ok false, s')
        | Undef => (Undef, s')
        end
  end.

Definition peer_dispatchSending (msg : Message) : M MessagingPeer bool :=
  peer_run (peer_handleSending now connect_res order) msg.

Definition peer_dispatchReceiving (msg : Message) : M MessagingPeer bool :=
  peer_run (peer_handleReceiving now) msg.

(** The data callback the constructor installs. *)
Definition peer_on_data (fd : Z) (raw_data : bytes) : M MessagingPeer unit :=
  msg ← lift (Serializer_deserialize raw_data);
  _ ← modify (fun s => {| peer_context := set_peer_fd fd (peer_context s);
                          peer_dispatcher := peer_setContext (peer_dispatcher s) |});
  _ ← peer_dispatchReceiving msg;
  mret tt.

Definition send_msg (msg_to_send : string) : M MessagingPeer unit :=
  msg ← lift (parse now msg_to_send);
  _ ← modify (fun s => {| peer_context := peer_context s;
                          peer_dispatcher := peer_setContext (peer_dispatcher s) |});
  _ ← peer_dispatchSending msg;
  mret tt.

(** ** [PeerEventHandler] *)

Definition node (s : MessagingPeer) : PeerNode := pc_node (peer_context s).

Definition at_node (f : PeerNode -> PeerNode) (s : MessagingPeer) : MessagingPeer :=
  {| peer_context := set_node (f (node s)) (peer_context s); peer_dispatcher := peer_dispatcher s |}.

Definition set_connection (fd : Z) (c : Connection) : PeerNode -> PeerNode :=
  with_by_fd (alter (fun s => {| ps_connection := c; ps_ip := ps_ip s |}) fd).

Definition remove_peer (fd : Z) : PeerNode -> PeerNode := with_peers (fun ps => ps ∖ {[fd]}).

(** [while (connection.lock()->has_complete_message()) ...]: every iteration
    takes at least four bytes out of the receive buffer. *)
Fixpoint drain_messages (fuel : nat) (fd : Z) : M MessagingPeer unit :=
  match fuel with
  | O => mret tt
  | S fuel' =>
      s ← get;
      match by_fd (node s) !! fd with
      | None => lift Undef
      | Some ps =>
          has ← lift (Connection_has_complete_message (ps_connection ps));
          if negb has then mret tt
          else
            '(msg, c) ← lift (Connection_extract_message (ps_connection ps));
            _ ← modify (at_node (set_connection fd c));
            _ ← peer_on_data fd msg;
            drain_messages fuel' fd
      end
  end.

(** The branch for [EPOLLIN]; whether the handler goes on to [EPOLLOUT]. The
    callback for a disconnected peer is never set, and after [remove_peer] the
    iterator used to find the descriptor is invalid. *)
Definition PeerEventHandler_on_readable (fd : Z) : M MessagingPeer bool :=
  s ← get;
  if negb (bool_decide (fd ∈ node_peers (node s))) then mret false
  else
    match by_fd (node s) !! fd with
    | None =>
        _ ← modify (at_node (remove_peer fd));
        lift (Throw bad_function_call)
    | Some ps =>
        '(ok, c, sock) ← lift (Connection_try_receive (ps_connection ps) (node_socket fd (node s)));
        _ ← modify (at_node (set_connection fd c));
        _ ← modify (at_node (with_node_sockets <[fd := sock]>));
        if ok : bool then
          _ ← drain_messages (S (length (recv_buffer c))) fd;
          mret true
        else
          _ ← modify (at_node (remove_peer fd));
          lift Undef
    end.

Definition PeerEventHandler_handle_event (fd : Z) (mask : EventMask) : M MessagingPeer unit :=
  if ev_err mask then
    _ ← modify (at_node (remove_peer fd));
    s ← get;
    '(_, n) ← lift (disconnect_from_peer fd (node s));
    modify (at_node (fun _ => n))
  else
    go_on ← (if ev_in mask then PeerEventHandler_on_readable fd else mret true);
    if (go_on : bool) && ev_out mask then
      s ← get;
      n ← lift (on_peer_writable fd (node s));
      modify (at_node (fun _ => n))
    else mret tt.

(** What [::accept] gives, and the address [inet_ntop] writes: the session is new. *)
Definition PeerTCPAcceptor_accept (accepted : option (Z * string)) : option (Z * PeerSession) :=
  match accepted with
  | None => None
  | Some (client_fd, ip_str) => Some (client_fd, {| ps_connection := Connection_make; ps_ip := ip_str |})
  end.

(** [PeerAcceptHandler::handle_event]: a connection from [ip] was accepted. *)
Definition peer_accepted (fd : Z) (ip : string) : M MessagingPeer unit :=
  match PeerTCPAcceptor_accept (Some (fd, ip)) with
  | None => mret tt
  | Some (fd, client) => modify (at_node (fun n => (register_peer_connection fd client n).2))
  end.

(** One thing that happens to a running peer: the user enters a line, a connection is
    accepted, or [run_once] of the event loop, which [run_event_loop] calls until the
    node is stopped, handles an event of a connection, with what the system calls made
    for it give. *)
Inductive PeerEvent :=
| PeerTyped (line : string)
| PeerAccepted (fd : Z) (ip : string)
| PeerReady (fd : Z) (mask : EventMask) (recvs : list RecvEvent) (sends : list SendEvent).

Definition peer_step (e : PeerEvent) : M MessagingPeer unit :=
  match e with
  | PeerTyped line => send_msg line
  | PeerAccepted fd ip => peer_accepted fd ip
  | PeerReady fd mask recvs sends =>
      s ← get;
      if bool_decide (is_Some (node_epoll (node s) !! fd)) then
        _ ← modify (at_node (fun n => with_node_sockets
              <[fd := {| sk_recv := recvs; sk_send := sends; sk_wire := sk_wire (node_socket fd n) |}]> n));
        PeerEventHandler_handle_event fd mask
      else mret tt
  end.

End MessagingPeer.
