(* ===== verification/PeerSpec.v ===== *)
(** Properties of the peer-to-peer mode: the exchange of keys, the registry of
    connections, and where it fails. *)
From S2P Require Import Prelude Message Wire Framing CommandPattern Parser Models Services Commands Crypto Keys Transport Stack Peer.

(** ** The dispatcher *)

(** The handlers are those of the constructor, with command objects of the same
    classes. *)
Definition peer_dispatcher_ok (d : PeerMessageDispatcher) : Prop :=
  exists reg : CommandRegistry,
    getType <$> reg = (getType <$> PeerCommandHandler_registry : gmap string CommandType) /\
    peer_handlers d = <[Command := PeerCommandHandler reg]> (peer_handlers MessagingPeer_dispatcher).

Lemma MessagingPeer_dispatcher_ok : peer_dispatcher_ok MessagingPeer_dispatcher.
Proof. exists PeerCommandHandler_registry. split; [done|]. by rewrite insert_id. Qed.

Section PeerSpec.
  Context {ssl : OpenSSL} {laws : OpenSSLLaws} {key_laws : OpenSSLKeyLaws}.

(** What [recv_on_peer] throws does not leave the dispatcher. *)
Definition caught (r : outcome unit) : outcome unit := match r with Undef => Undef | _ => Ok tt end.

(** A command message reaches [recv_on_peer] of a command object with the
    fields of the message. *)
Lemma on_data_command now fd m t name rest h (s : MessagingPeer) r c' :
  peer_dispatcher_ok (peer_dispatcher s) -> wire_ok m = true -> Message_get_type m = Command ->
  metadata m = type_meta t :: rest -> pc_name (make_struct_from_command (wire_norm m)) = name ->
  (getType <$> PeerCommandHandler_registry : gmap string CommandType) !! name = Some t ->
  (forall h1, getType h1 = t -> fromMessage h1 (wire_norm m) = (Ok tt, h)) -> getType h = t ->
  recv_on_peer now fd h (set_peer_fd fd (peer_context s)) = (r, c') ->
  exists s', peer_on_data now fd (Serializer_serialize m) s = (caught r, s') /\ peer_context s' = c' /\
    peer_dispatcher_ok (peer_dispatcher s').
Proof.
  intros (reg & Hreg & Hh) Hw Ht Hmeta Hn Hl0 Hfrom Hth Hc'. unfold peer_on_data.
  rewrite <- (app_nil_r (Serializer_serialize m)), wire_ok_roundtrip, run_lift, run_modify by done.
  unfold mbind, M_bind, peer_dispatchReceiving, peer_run.
  change (Message_get_type (wire_norm m)) with (Message_get_type m).
  cbn [peer_dispatcher peer_setContext peer_handlers peer_context peer_context_set negb].
  rewrite Hh, Ht, lookup_insert_eq. cbn [peer_handleReceiving].
  unfold PeerCommandBus_dispatchReceiving, registry_find. rewrite Hn.
  assert (Hl : (getType <$> reg : gmap string CommandType) !! name = Some t) by (by rewrite Hreg).
  rewrite lookup_fmap, fmap_Some in Hl. destruct Hl as (h1 & -> & Hh1).
  rewrite (Hfrom h1) by done. cbn [set_peer_fd pc_fd]. rewrite Hc'.
  assert (Hreg' : getType <$> <[name := h]> reg = (getType <$> PeerCommandHandler_registry : gmap string CommandType)).
  { rewrite fmap_insert, Hreg, Hth. by apply insert_id. }
  destruct r; eexists; (split_and!; [done..|]); exists (<[name := h]> reg); (split; [done|]); cbn;
    by rewrite Hh, insert_insert_eq.
Qed.

Lemma on_data_connect now fd m cmd (s : MessagingPeer) :
  peer_dispatcher_ok (peer_dispatcher s) -> wire_ok m = true -> Message_get_type m = Command ->
  message_content (Connect cmd) = Some (metadata m, payload m) ->
  forall c', Connect_recv_on_peer now fd cmd (set_peer_fd fd (peer_context s)) = (Ok tt, c') ->
  exists s', peer_on_data now fd (Serializer_serialize m) s = (Ok tt, s') /\ peer_context s' = c' /\
    peer_dispatcher_ok (peer_dispatcher s').
Proof.
  intros Hd Hw Ht Hm c' Hc'.
  assert (Hmeta : exists rest, metadata m = type_meta CONNECT :: rest).
  { cbn [message_content] in Hm. case_match; simplify_eq. eauto. }
  destruct Hmeta as [rest Hmeta].
  apply (on_data_command now fd m CONNECT "connect" rest (Connect cmd) s (Ok tt) c'); try done.
  - by rewrite (make_struct_spec (wire_norm m) _ rest Hmeta).
  - intros h1 Hh1. by apply (fromMessage_content h1 (Connect cmd) (wire_norm m) _ _ Hm).
Qed.

(** A [Response] to a [Connect] reaches its handler. *)
Lemma on_data_response now fd m rest (s : MessagingPeer) :
  peer_dispatcher_ok (peer_dispatcher s) -> wire_ok m = true -> Message_get_type m = Response ->
  metadata m = type_meta CONNECT :: rest ->
  forall c', handle_connect_response (wire_norm m) (set_peer_fd fd (peer_context s)) = (Ok tt, c') ->
  exists s', peer_on_data now fd (Serializer_serialize m) s = (Ok tt, s') /\ peer_context s' = c' /\
    peer_dispatcher_ok (peer_dispatcher s').
Proof.
  intros (reg & Hreg & Hh) Hw Ht Hm c' Hc'. unfold peer_on_data.
  rewrite <- (app_nil_r (Serializer_serialize m)), wire_ok_roundtrip, run_lift, run_modify by done.
  unfold mbind, M_bind, peer_dispatchReceiving, peer_run.
  change (Message_get_type (wire_norm m)) with (Message_get_type m).
  cbn [peer_dispatcher peer_setContext peer_handlers peer_context peer_context_set negb].
  rewrite Hh, Ht, lookup_insert_ne by done.
  change (peer_handlers MessagingPeer_dispatcher !! Response) with (Some PeerResponseHandler).
  cbn [peer_handleReceiving]. unfold PeerResponse_handleReceiving.
  change (Message_get_meta (wire_norm m) 0) with (Message_get_meta m 0).
  unfold Message_get_meta. rewrite Hm. cbn [lookup list_lookup type_meta].
  change (CommandType_of_byte (CommandType_to_byte CONNECT)) with CONNECT. cbn iota. rewrite Hc'.
  eexists. split_and!; [done..|]. exists reg. split; [done|]. cbn.
  by rewrite Hh, insert_insert_ne by done.
Qed.

(** A line that is a command reaches [send_from_peer] of a command object with its
    fields. *)
Lemma typed_command now connect_res order line msg name t h h' (s : MessagingPeer) c' :
  peer_dispatcher_ok (peer_dispatcher s) -> parse now line = Ok msg -> Message_get_type msg = Command ->
  pc_name (make_struct_from_command msg) = name ->
  (getType <$> PeerCommandHandler_registry : gmap string CommandType) !! name = Some t ->
  (forall h1, getType h1 = t -> fromMessage h1 msg = (Ok tt, h)) -> getType h' = t ->
  send_from_peer now connect_res order h (peer_context s) = (Ok h', c') ->
  exists d, peer_dispatcher_ok d /\
    send_msg now connect_res order line s = (Ok tt, {| peer_context := c'; peer_dispatcher := d |}).
Proof.
  intros (reg & Hreg & Hh) Hp Ht Hn Hl0 Hfrom Hth Hc'. unfold send_msg. rewrite Hp, run_lift, run_modify.
  unfold mbind, M_bind, peer_dispatchSending, peer_run.
  cbn [peer_dispatcher peer_setContext peer_handlers peer_context peer_context_set negb].
  rewrite Hh, Ht, lookup_insert_eq. cbn [peer_handleSending].
  unfold PeerCommandBus_dispatchSending, registry_find. rewrite Hn.
  assert (Hl : (getType <$> reg : gmap string CommandType) !! name = Some t) by (by rewrite Hreg).
  rewrite lookup_fmap, fmap_Some in Hl. destruct Hl as (h1 & -> & Hh1).
  rewrite (Hfrom h1) by done. rewrite Hc'. eexists. split; [|reflexivity].
  exists (<[name := h']> reg). split; [|cbn; by rewrite Hh, insert_insert_eq].
  rewrite fmap_insert, Hreg, Hth. by apply insert_id.
Qed.

(** ** The exchange of keys *)

Lemma peer_keys_run (c : PeerContext) d ib sg :
  speaks (pc_encryption c) d ib sg -> peer_keys c = (Ok (d, ib, sg), c).
Proof.
  intros (H1 & H2 & H3)%speaks_bytes. unfold peer_keys. by rewrite run_get, H1, H2, H3.
Qed.

(** The context after a peer has been taken up. *)
Definition with_peer (fd : Z) (name : bytes) (users : UserService) (e : EncryptionService) (c : PeerContext) :
    PeerContext :=
  set_peer_encryption e (set_peer_sessions (SessionManager_bind (pc_sessions c) fd (bstr name))
    (set_peer_users users c)).

Lemma find_user_none s name : UserService_find_user s name = unexpected UserNotFound -> users_ s !! name = None.
Proof. unfold UserService_find_user. by case_match. Qed.

Lemma register_free (s : UserService) name d ib sg :
  users_ s !! name = None -> exists s', UserService_register_user s name d ib sg = (expected name, s').
Proof. intros H. unfold UserService_register_user. rewrite H. eauto. Qed.

Lemma peer_cache_run (c : PeerContext) name d ib e' :
  ES_cache_public_key (pc_encryption c) name d ib = (Ok tt, e') ->
  peer_cache_public_key name d ib c = (Ok tt, set_peer_encryption e' c).
Proof. intros H. unfold peer_cache_public_key. by rewrite run_get, H. Qed.

Lemma send_message_run fd o m (c : PeerContext) :
  o = Ok m -> send_message_to_peer fd o c
              = (Ok tt, set_node (send_to_peer fd (Serializer_serialize m) (pc_node c)) c).
Proof. by intros ->. Qed.

Lemma connect_received now fd cmd (c : PeerContext) a d ib sg :
  users_ (pc_users c) !! bstr (connect_username cmd) = None ->
  speaks a (connect_DH_bytes cmd) (connect_identity_bytes cmd) (connect_signature cmd) ->
  speaks (pc_encryption c) d ib sg ->
  fits [type_meta CONNECT; d; ib; sg] (pc_my_username c) = true ->
  exists m users e',
    caches (pc_encryption c) (connect_username cmd) (connect_DH_bytes cmd) (connect_identity_bytes cmd) e' /\
    carries (Ok m) Response [type_meta CONNECT; d; ib; sg] (pc_my_username c) /\
    Connect_recv_on_peer now fd cmd c
    = (Ok tt, set_node (send_to_peer fd (Serializer_serialize m) (pc_node c))
                (with_peer fd (connect_username cmd) users e' c)).
Proof.
  intros Hu Ha Hb Hfit. unfold Connect_recv_on_peer. rewrite run_get.
  destruct (register_free (pc_users c) _ (connect_DH_bytes cmd) (connect_identity_bytes cmd)
              (connect_signature cmd) Hu) as [users ->].
  destruct (cache_caches (pc_encryption c) (connect_username cmd) _ _ _ _ Ha) as (e' & Hc & Hcs).
  destruct (Message_make_carries now (pc_my_username c) 4 [type_meta CONNECT; d; ib; sg] Response Hfit eq_refl)
    as (m & Hm & Hrest).
  exists m, users, e'. split_and!; [done|by exists m|].
  rewrite !run_modify. erewrite run_bind by (apply peer_cache_run; exact Hc).
  erewrite run_bind by (apply peer_keys_run; cbn; by eapply caches_speaks).
  cbn iota. rewrite (send_message_run _ _ _ _ Hm). done.
Qed.

Lemma response_received m (c : PeerContext) b d ib sg name :
  users_ (pc_users c) !! bstr name = None -> speaks b d ib sg ->
  metadata m = [type_meta CONNECT; d; ib; sg] -> payload m = name ->
  exists users e', caches (pc_encryption c) name d ib e' /\
    handle_connect_response m c = (Ok tt, with_peer (pc_fd c) name users e' c).
Proof.
  intros Hu Hb Hm <-. unfold handle_connect_response. rewrite run_get.
  unfold Message_get_payload, Message_get_meta. rewrite Hm. cbn [lookup list_lookup].
  destruct (register_free (pc_users c) _ d ib sg Hu) as [users ->].
  destruct (cache_caches (pc_encryption c) (payload m) _ _ _ _ Hb) as (e' & Hc & Hcs).
  exists users, e'. split; [done|]. rewrite !run_modify. by apply peer_cache_run.
Qed.

(** The command as sent: with the name and the keys of the sender. *)
Definition filled (cmd : ConnectCommand) (name d ib sg : bytes) : ConnectCommand :=
  {| connect_ip := connect_ip cmd; connect_port := connect_port cmd; connect_DH_bytes := d;
     connect_identity_bytes := ib; connect_signature := sg; connect_username := name |}.

(** Conversion compares the messages before it computes them. *)
#[local] Strategy 100 [Message_make Serializer_serialize to_string].

Lemma connect_sent now fd cmd (c : PeerContext) d ib sg ms :
  pc_my_username c <> [] -> fd <> 0 -> by_fd (pc_node c) !! fd = None ->
  speaks (pc_encryption c) d ib sg ->
  message_content (Connect (filled cmd (pc_my_username c) d ib sg)) = Some (ms, pc_my_username c) ->
  fits ms (pc_my_username c) = true ->
  exists m n, carries (Ok m) Command ms (pc_my_username c) /\
    Connect_send_from_peer now (Some fd) cmd c
    = (Ok (filled cmd (pc_my_username c) d ib sg), set_node n c) /\
    n = send_to_peer fd (Serializer_serialize m)
          (register_peer_connection fd {| ps_connection := Connection_make; ps_ip := connect_ip cmd |} (pc_node c)).2.
Proof.
  intros Hname Hfd Hfree Hs Hc Hfit.
  destruct (toMessage_carries now _ _ _ Hc Hfit) as (m & Hm & Hrest). cbn [toMessage] in Hm.
  unfold Connect_send_from_peer. rewrite run_get.
  replace (is_empty (pc_my_username c)) with false by (by destruct (pc_my_username c)).
  unfold connect_to_peer, register_peer_connection. rewrite Hfree. cbn [snd connect_ip].
  rewrite run_modify, (proj2 (Z.eqb_neq _ _) Hfd).
  erewrite run_bind by (by apply peer_keys_run). cbn iota.
  rewrite (run_bind _ _ _ _ _ (send_message_run fd _ m _ Hm)).
  eexists m, _. split; [by exists m|]. split; reflexivity.
Qed.

Lemma carries_wire_norm m t ms x :
  carries (Ok m) t ms x ->
  wire_ok m = true /\ Message_get_type m = t /\ metadata m = ms /\ payload m = x.
Proof. by intros (? & [= <-] & ? & ? & ? & ?). Qed.

(** After a peer was taken up: its session, found by descriptor and by name. *)
Definition taken_up (c : PeerContext) (fd : Z) (name : bytes) : Prop :=
  SessionManager_get_fd (pc_sessions c) (bstr name) = expected fd /\
  SessionManager_get_username (pc_sessions c) fd = expected (bstr name).

Lemma with_peer_taken_up fd name users e c : taken_up (with_peer fd name users e c) fd name.
Proof.
  unfold taken_up, SessionManager_get_fd, SessionManager_get_username. cbn.
  by rewrite !lookup_insert_eq.
Qed.

(** ** Properties *)

(** The exchange of keys between two peers, at the level of the applications. Alice
    connects to Bob: what [send_from_peer] queues, received by Bob, makes Bob queue
    a reply on that connection; the reply completes the exchange, whatever has
    happened to the node of Alice since. *)
Lemma key_exchange_run (nowA nowB fdA fdB : Z) (cmd : ConnectCommand) (A B : MessagingPeer)
    (ms : list bytes) (dA iA sgA dB iB sgB : bytes) :
  let a := pc_my_username (peer_context A) in
  let b := pc_my_username (peer_context B) in
  peer_dispatcher_ok (peer_dispatcher B) ->
  a <> [] -> fdA <> 0 -> by_fd (node A) !! fdA = None ->
  speaks (pc_encryption (peer_context A)) dA iA sgA -> speaks (pc_encryption (peer_context B)) dB iB sgB ->
  UserService_find_user (pc_users (peer_context A)) (bstr b) = unexpected UserNotFound ->
  UserService_find_user (pc_users (peer_context B)) (bstr a) = unexpected UserNotFound ->
  message_content (Connect (filled cmd a dA iA sgA)) = Some (ms, a) -> fits ms a = true ->
  fits [type_meta CONNECT; dB; iB; sgB] b = true ->
  exists (request reply : Message) (nA : PeerNode) (B' : MessagingPeer),
    Connect_send_from_peer nowA (Some fdA) cmd (peer_context A) =
      (Ok (filled cmd a dA iA sgA), set_node nA (peer_context A)) /\
    nA = send_to_peer fdA (Serializer_serialize request)
           (register_peer_connection fdA {| ps_connection := Connection_make; ps_ip := connect_ip cmd |} (node A)).2 /\
    peer_on_data nowB fdB (Serializer_serialize request) B = (Ok tt, B') /\
    node B' = send_to_peer fdB (Serializer_serialize reply) (node B) /\
    taken_up (peer_context B') fdB a /\
    forall n d, peer_dispatcher_ok d -> exists A',
      peer_on_data nowA fdA (Serializer_serialize reply)
        {| peer_context := set_node n (peer_context A); peer_dispatcher := d |} = (Ok tt, A') /\
      node A' = n /\
      taken_up (peer_context A') fdA b /\
      paired (pc_encryption (peer_context A')) (pc_encryption (peer_context B')) a b sgA /\
      paired (pc_encryption (peer_context B')) (pc_encryption (peer_context A')) b a sgB.
Proof.
  intros a b HdB Hname Hfd HfA HsA HsB HuA HuB Hc Hfit HfitB.
  destruct (connect_sent nowA fdA cmd (peer_context A) dA iA sgA ms) as (req & nA & Hreq & Hsend & HnA); try done.
  apply carries_wire_norm in Hreq as (Hw & Ht & Hm & Hp).
  destruct (connect_received nowB fdB (filled cmd a dA iA sgA) (set_peer_fd fdB (peer_context B))
              (pc_encryption (peer_context A)) dB iB sgB) as (rep & users & eB & HeB & Hrep & Hrecv); try done.
  { by apply find_user_none. }
  apply carries_wire_norm in Hrep as (Hw' & Ht' & Hm' & Hp').
  destruct (on_data_connect nowB fdB req _ B HdB Hw Ht (eq_trans Hc (eq_sym (f_equal Some (f_equal2 pair Hm Hp)))) _ Hrecv)
    as (B' & HonB & HcB & _).
  exists req, rep, nA, B'. unfold node. rewrite HcB. split_and!; try done.
  { apply (with_peer_taken_up fdB a users eB (set_peer_fd fdB (peer_context B))). }
  intros n d HdA. set (A1 := {| peer_context := set_node n (peer_context A); peer_dispatcher := d |}).
  destruct (response_received (wire_norm rep) (set_peer_fd fdA (peer_context A1))
              (pc_encryption (peer_context B)) dB iB sgB b) as (usersA & eA & HeA & Hresp); try done.
  { by apply find_user_none. }
  destruct (on_data_response nowA fdA rep _ A1 HdA Hw' Ht' Hm' _ Hresp) as (A' & HonA & HcA & _).
  exists A'. rewrite HcA. split_and!; try done.
  - apply with_peer_taken_up.
  - by apply (caches_paired _ _ _ _ _ _ _ _ _ _ _ _ HsA HsB HeA HeB).
  - by apply (caches_paired _ _ _ _ _ _ _ _ _ _ _ _ HsB HsA HeB HeA).
Qed.

(** A [Disconnect] command from a connection that has no session (it never
    sent a [Connect]) makes [recv_on_peer] read a value that is not there; from
    a connection with a session it ends the session and frees the name. *)
Theorem peer_disconnect_received (now fd : Z) (m : Message) (rest : list bytes) (s : MessagingPeer) :
  peer_dispatcher_ok (peer_dispatcher s) -> wire_ok m = true -> Message_get_type m = Command ->
  metadata m = type_meta DISCONNECT :: rest ->
  exists s', match SessionManager_get_username (pc_sessions (peer_context s)) fd with
  | unexpected _ => peer_on_data now fd (Serializer_serialize m) s = (Undef, s')
  | expected name =>
      peer_on_data now fd (Serializer_serialize m) s = (Ok tt, s') /\
      SessionManager_get_username (pc_sessions (peer_context s')) fd = unexpected UserNotFound /\
      UserService_find_user (pc_users (peer_context s')) name = unexpected UserNotFound
  end.
Proof.
  intros Hd Hw Ht Hm.
  destruct (on_data_command now fd m DISCONNECT "disconnect" rest
              (Disconnect (Disconnect_fromMessage (wire_norm m))) s
              (Disconnect_recv_on_peer fd (set_peer_fd fd (peer_context s))).1
              (Disconnect_recv_on_peer fd (set_peer_fd fd (peer_context s))).2)
    as (s' & Hs' & Hc' & _); try done.
  - by rewrite (make_struct_spec (wire_norm m) _ rest Hm).
  - by intros [].
  - by rewrite <- surjective_pairing.
  - exists s'. rewrite Hs', Hc'. unfold Disconnect_recv_on_peer. rewrite run_get. cbn [set_peer_fd pc_sessions].
    destruct (SessionManager_get_username (pc_sessions (peer_context s)) fd) as [name|e] eqn:E; [|done].
    rewrite run_lift, run_modify. cbn. split; [done|].
    unfold SessionManager_get_username, SessionManager_unbind, UserService_find_user,
      UserService_remove_user in *.
    case_match; [|done]. simplify_eq. cbn. rewrite lookup_delete_eq. split; [done|].
    destruct (users_ (pc_users (peer_context s)) !! name) eqn:Eu; cbn; by rewrite ?lookup_delete_eq, ?Eu.
Qed.

End PeerSpec.

(** ** The registry of connections *)

(** Every connection is found under its address. *)
Definition registry_ok (n : PeerNode) : Prop :=
  forall fd s, by_fd n !! fd = Some s -> by_ip n !! ps_ip s = Some fd.

Lemma registry_ok_make : registry_ok PeerNode_make.
Proof. done. Qed.

Lemma register_new fd s n :
  by_fd n !! fd = None -> let n' := (register_peer_connection fd s n).2 in
  by_fd n' = <[fd := s]> (by_fd n) /\ by_ip n' = <[ps_ip s := fd]> (by_ip n) /\
  node_epoll n' = <[fd := false]> (node_epoll n) /\ running_ n' = running_ n.
Proof. intros E. unfold register_peer_connection. by rewrite E. Qed.

Lemma register_ok fd s n :
  registry_ok n -> by_ip n !! ps_ip s = None -> registry_ok (register_peer_connection fd s n).2.
Proof.
  intros Hn Hip. unfold register_peer_connection. destruct (by_fd n !! fd) eqn:E; [done|].
  intros fd' s'. cbn. rewrite lookup_insert_Some. intros [[<- <-]|[Hne Hs']]; [by rewrite lookup_insert_eq|].
  apply Hn in Hs' as Hip'. rewrite lookup_insert_ne; [done|]. congruence.
Qed.

Lemma disconnect_ok fd s n :
  registry_ok n -> by_fd n !! fd = Some s ->
  exists n', disconnect_from_peer fd n = Ok (0, n') /\ registry_ok n' /\ by_fd n' = delete fd (by_fd n) /\
    by_ip n' = delete (ps_ip s) (by_ip n) /\ node_epoll n' = delete fd (node_epoll n) /\ running_ n' = running_ n.
Proof.
  intros Hn Hs. unfold disconnect_from_peer. rewrite Hs, (Hn _ _ Hs). eexists. split_and!; try done.
  intros fd' s'. cbn. rewrite lookup_delete_Some. intros [Hne Hs']. apply Hn in Hs' as Hip.
  rewrite lookup_delete_ne; [done|]. intros E. rewrite <- E, (Hn _ _ Hs) in Hip. congruence.
Qed.

Lemma disconnect_all_ok order : forall n,
  registry_ok n -> NoDup order -> (forall fd, fd ∈ order <-> is_Some (by_fd n !! fd)) ->
  exists n', disconnect_all order n = Ok n' /\ by_fd n' = ∅ /\ running_ n' = running_ n /\
    node_epoll n' = foldr delete (node_epoll n) order.
Proof.
  induction order as [|fd order IH]; intros n Hn Hnd Hdom.
  - exists n. split_and!; try done. apply map_eq. intros fd. rewrite lookup_empty.
    destruct (by_fd n !! fd) eqn:E; [|done]. exfalso. apply (not_elem_of_nil fd), Hdom. by rewrite E.
  - apply list.NoDup_cons in Hnd as [Hfd Hnd].
    destruct (proj1 (Hdom fd) ltac:(set_solver)) as [s Hs].
    destruct (disconnect_ok fd s n Hn Hs) as (n1 & E & Hn1 & Hby & _ & Hep & Hrun).
    destruct (IH n1) as (n' & E' & Hempty & Hrun' & Hep'); [done|done| |].
    + intros fd'. rewrite Hby. destruct (decide (fd' = fd)) as [->|Hne].
      * rewrite lookup_delete_eq. split; [done|]. by intros [].
      * rewrite lookup_delete_ne by done. rewrite <- Hdom. set_solver.
    + exists n'. cbn. rewrite E. cbn. split_and!; try done; [congruence|].
      rewrite Hep', Hep. clear. induction order as [|x l IHl]; [done|]. cbn. rewrite IHl. apply delete_delete.
Qed.

(** [stop] on a node whose connections come from different addresses
    disconnects every peer, whatever order the registry gives them in: no
    connection, no handler entry and, of the descriptors of connections, none in
    the event loop is left. Such a node is kept by connections from new addresses
    and by disconnections. *)
Theorem peer_stop_disconnects_all (n : PeerNode) (order : list Z) :
  registry_ok n -> running_ n = true -> NoDup order -> (forall fd, fd ∈ order <-> is_Some (by_fd n !! fd)) ->
  (exists n', stop order n = Ok n' /\ by_fd n' = ∅ /\ node_peers n' = ∅ /\ running_ n' = false /\
     (forall fd, fd ∈ order -> node_epoll n' !! fd = None)) /\
  (forall fd s, by_ip n !! ps_ip s = None -> registry_ok (register_peer_connection fd s n).2) /\
  (forall fd, fd ∈ order -> exists n', disconnect_from_peer fd n = Ok (0, n') /\ registry_ok n').
Proof.
  intros Hn Hrun Hnd Hdom. split_and!.
  - destruct (disconnect_all_ok order n Hn Hnd Hdom) as (n1 & E & Hempty & _ & Hep).
    unfold stop. rewrite Hrun, E. cbn. eexists. split_and!; [done..|]. intros fd Hfd. cbn. rewrite Hep.
    clear -Hfd. induction order as [|x l IHl]; [set_solver|]. cbn. rewrite lookup_delete.
    case_decide; [done|]. apply IHl. set_solver.
  - intros fd s. by apply register_ok.
  - intros fd [s Hs]%Hdom. destruct (disconnect_ok fd s n Hn Hs) as (n' & ? & ? & _). eauto.
Qed.

(** Two peers behind one address: when the first of them is disconnected,
    the entry of the address goes with it, and the second can no longer be
    disconnected: [disconnect_from_peer] refuses it, its connection stays in the
    registry and in the event loop, also after [stop]. *)
Theorem peer_same_address_stays (fd1 fd2 : Z) (s1 s2 : PeerSession) (n : PeerNode) :
  fd1 <> fd2 -> ps_ip s1 = ps_ip s2 -> by_fd n = ∅ ->
  let n2 := (register_peer_connection fd2 s2 (register_peer_connection fd1 s1 n).2).2 in
  exists n3, disconnect_from_peer fd1 n2 = Ok (0, n3) /\ disconnect_from_peer fd2 n3 = Ok (1, n3) /\
    by_fd n3 = {[fd2 := s2]} /\ node_epoll n3 !! fd2 = Some false /\
    (running_ n = true -> exists n4, stop [fd1; fd2] n2 = Ok n4 /\ by_fd n4 = {[fd2 := s2]} /\
       node_epoll n4 !! fd2 = Some false).
Proof.
  intros Hne Hip Hn n2.
  destruct (register_new fd1 s1 n) as (A1 & A2 & A3 & A4); [by rewrite Hn|].
  destruct (register_new fd2 s2 (register_peer_connection fd1 s1 n).2) as (E1 & E2 & E3 & E4).
  { by rewrite A1, Hn, lookup_insert_ne. }
  fold n2 in E1, E2, E3, E4. rewrite A1, Hn in E1. rewrite A4 in E4.
  apply (f_equal (lookup (ps_ip s1))) in E2. rewrite Hip, lookup_insert_eq, <- Hip in E2.
  apply (f_equal (lookup fd2)) in E3. rewrite lookup_insert_eq in E3.
  assert (Hd : exists n3, disconnect_from_peer fd1 n2 = Ok (0, n3) /\ by_fd n3 = {[fd2 := s2]} /\
    by_ip n3 !! ps_ip s2 = None /\ node_epoll n3 !! fd2 = Some false).
  { unfold disconnect_from_peer. rewrite E1, lookup_insert_ne, lookup_insert_eq, E2 by done.
    eexists. split; [done|]. cbn. rewrite E1, Hip, lookup_delete_eq, lookup_delete_ne by done.
    split_and!; try done. rewrite delete_insert_ne by done. by rewrite delete_insert_id. }
  destruct Hd as (n3 & Hd1 & H1 & H2 & H3).
  assert (Hd2 : disconnect_from_peer fd2 n3 = Ok (1, n3)).
  { unfold disconnect_from_peer. by rewrite H1, lookup_singleton_eq, H2. }
  exists n3. split_and!; try done. intros Hr. unfold stop. rewrite E4, Hr. cbn. rewrite Hd1. cbn.
  rewrite Hd2. cbn. by eexists.
Qed.

(** ** The properties on concrete peers *)

#[local] Existing Instance plain_ssl.

Definition demo_peer (name dh id : string) (n : PeerNode) : MessagingPeer :=
  {| peer_context :=
       {| pc_node := n; pc_users := UserService_empty; pc_sessions := SessionManager_empty;
          pc_encryption := {| es_DH_key := Some (sbytes dh); es_identity_key := Some (sbytes id);
                              es_DH_keys := ∅; es_identity_keys := ∅ |};
          pc_my_username := sbytes name; pc_messages_counter := ∅; pc_fd := 0; pc_shown := [] |};
     peer_dispatcher := MessagingPeer_dispatcher |}.

Definition demo_session : PeerSession := {| ps_connection := Connection_make; ps_ip := "10.0.0.1" |}.

Definition demo_node : PeerNode := (register_peer_connection 9 demo_session PeerNode_make).2.

Lemma demo_speaks name dh id n :
  speaks (pc_encryption (peer_context (demo_peer name dh id n))) (sbytes dh) (sbytes id) (sbytes dh).
Proof. constructor; cbn; do 2 eexists; split_and!; done. Qed.

Lemma peer_disconnect_received_witness :
  exists m s', Disconnect_toMessage 3 {| disconnect_name := "" |} = Ok m /\
    peer_on_data 2 9 (Serializer_serialize m) (demo_peer "bob" "b" "ib" demo_node) = (Undef, s').
Proof.
  destruct (Disconnect_toMessage 3 {| disconnect_name := "" |}) as [m| |] eqn:E;
    [|vm_compute in E; discriminate E..].
  destruct (peer_disconnect_received 2 9 m [] (demo_peer "bob" "b" "ib" demo_node)) as [s' H].
  - apply MessagingPeer_dispatcher_ok.
  - vm_compute in E. injection E as <-. vm_compute. reflexivity.
  - vm_compute in E. injection E as <-. reflexivity.
  - vm_compute in E. injection E as <-. reflexivity.
  - exists m, s'. split; [reflexivity | exact H].
Defined.

Lemma peer_stop_disconnects_all_witness :
  exists n', stop [9] (with_running true demo_node) = Ok n' /\ by_fd n' = ∅.
Proof.
  destruct (peer_stop_disconnects_all (with_running true demo_node) [9])
    as ((n' & H1 & H2 & _) & _).
  - apply (register_ok 9 demo_session (PeerNode_make) registry_ok_make). reflexivity.
  - reflexivity.
  - apply NoDup_singleton.
  - intros fd. rewrite list_elem_of_singleton. change (by_fd _) with ({[9 := demo_session]} : gmap Z PeerSession).
    split; [intros ->; by rewrite lookup_singleton_eq | intros [x Hx]; by apply lookup_singleton_Some in Hx as [-> _]].
  - exists n'. split; assumption.
Defined.

Lemma peer_same_address_stays_witness :
  exists n3, disconnect_from_peer 9 (register_peer_connection 10 demo_session demo_node).2 = Ok (0, n3) /\
    disconnect_from_peer 10 n3 = Ok (1, n3).
Proof.
  destruct (peer_same_address_stays 9 10 demo_session demo_session PeerNode_make)
    as (n3 & H1 & H2 & _); [lia | reflexivity | reflexivity |].
  exists n3. split; assumption.
Defined.
