(* ===== verification/PeerStackSpec.v ===== *)
(** A peer on its connections: what arrives on a connection is given to the
    application message by message, and the tables of the node stay consistent. *)
From S2P Require Import Prelude Message Wire Framing Parser Services Commands Crypto Keys Sockets Transport TransportSpec Stack ClientStack ClientStackSpec Peer PeerSpec.

(** ** What the application does to the node when it receives *)

(** The state of the transport and the receive buffer of a connection. *)
Definition rebuffer (t : StreamTransport) (b : bytes) (s : PeerSession) : PeerSession :=
  {| ps_connection := {| cn_transport := t; recv_buffer := b; send_buffer := send_buffer (ps_connection s) |};
     ps_ip := ps_ip s |}.

Definition patch (fd : Z) (t : StreamTransport) (b : bytes) (k : Socket) (n : PeerNode) : PeerNode :=
  with_node_sockets <[fd := k]> (with_by_fd (alter (rebuffer t b) fd) n).

Section Receiving.
  Context {ssl : OpenSSL}.
  Variables (fd : Z) (t : StreamTransport) (b : bytes) (k : Socket).

Definition patch_context (c : PeerContext) : PeerContext := set_node (patch fd t b k (pc_node c)) c.

Lemma send_patch f data n : send_to_peer f data (patch fd t b k n) = patch fd t b k (send_to_peer f data n).
Proof.
  unfold send_to_peer. cbn [patch with_node_sockets with_by_fd by_fd].
  destruct (decide (f = fd)) as [->|Hne].
  - rewrite lookup_alter_eq. destruct (by_fd n !! fd) as [s|] eqn:E; [|done].
    unfold patch, with_node_sockets, with_by_fd, node_enable_write, with_node_epoll. cbn. f_equal.
    apply map_eq. intros i. destruct (decide (i = fd)) as [->|Hi].
    + by rewrite lookup_insert_eq, lookup_alter_eq, lookup_insert_eq.
    + by rewrite lookup_insert_ne, !lookup_alter_ne, lookup_insert_ne by done.
  - rewrite lookup_alter_ne by done. destruct (by_fd n !! f) as [s|] eqn:E; [|done].
    unfold patch, with_node_sockets, with_by_fd, node_enable_write, with_node_epoll. cbn. f_equal.
    apply map_eq. intros i. destruct (decide (i = f)) as [->|Hi].
    + by rewrite lookup_insert_eq, lookup_alter_ne, lookup_insert_eq by done.
    + rewrite lookup_insert_ne by done. destruct (decide (i = fd)) as [->|Hi'].
      * by rewrite !lookup_alter_eq, lookup_insert_ne.
      * by rewrite !lookup_alter_ne, lookup_insert_ne by done.
Qed.

(** Decompose an operation of the context. *)
Ltac natural :=
  repeat (cbn [patch_context set_node pc_users pc_sessions pc_encryption pc_my_username pc_messages_counter pc_fd pc_shown];
    lazymatch goal with
    | |- natural _ (get ≫= _) _ => apply natural_get; intros ?
    | |- natural _ (_ ≫= _) _ => apply natural_bind; [|intros ?]
    | |- natural _ (modify _) _ => by apply natural_modify
    | |- natural _ (mret _) _ => apply natural_ret
    | |- natural _ (lift _) _ => apply natural_lift
    | |- natural _ (match ?x with _ => _ end) _ => destruct x
    | |- natural _ (let '(_, _) := ?x in _) _ => destruct x
    end).

Lemma natural_send_peer f m : natural patch_context (send_message_to_peer f m) (send_message_to_peer f m).
Proof.
  unfold send_message_to_peer, on_node. apply natural_bind; [apply natural_lift|intros x]. apply natural_modify.
  intros c. unfold patch_context. cbn. by rewrite send_patch.
Qed.

Lemma natural_recv now f h : natural patch_context (recv_on_peer now f h) (recv_on_peer now f h).
Proof.
  destruct h; cbn [recv_on_peer];
    unfold Connect_recv_on_peer, Disconnect_recv_on_peer, Login_recv_on_peer, GetPubkey_recv_on_peer, send_own_keys,
      peer_cache_public_key, peer_keys; natural; apply natural_send_peer.
Qed.

Lemma natural_peer_handle now h m c :
  peer_handleReceiving now h m (patch_context c)
  = let '(r, c', h') := peer_handleReceiving now h m c in (r, patch_context c', h').
Proof.
  destruct h; cbn [peer_handleReceiving]; try done.
  - unfold PeerCommandBus_dispatchReceiving. destruct (registry_find _ _) as [h|]; [|done].
    destruct (fromMessage h m) as [[[]| |] h']; try done. change (pc_fd (patch_context c)) with (pc_fd c).
    rewrite (natural_recv now (pc_fd c) h' c). by destruct (recv_on_peer now (pc_fd c) h' c).
  - assert (H : natural patch_context (PeerCipher_handleReceiving m) (PeerCipher_handleReceiving m))
      by (unfold PeerCipher_handleReceiving; natural). rewrite (H c). by destruct (PeerCipher_handleReceiving m c).
  - assert (H : natural patch_context (PeerResponse_handleReceiving m) (PeerResponse_handleReceiving m))
      by (unfold PeerResponse_handleReceiving, handle_connect_response, peer_cache_public_key; natural).
    rewrite (H c). by destruct (PeerResponse_handleReceiving m c).
Qed.

(** The application does not look at receive buffers. *)
Lemma natural_on_data now f raw : natural (at_node (patch fd t b k)) (peer_on_data now f raw) (peer_on_data now f raw).
Proof.
  unfold peer_on_data. apply natural_bind; [apply natural_lift|intros m].
  apply natural_bind; [by apply natural_modify|intros _]. apply natural_bind; [|intros; apply natural_ret].
  intros s. unfold peer_dispatchReceiving, peer_run. cbn [at_node peer_dispatcher peer_context].
  destruct (peer_handlers _ !! _) as [h|]; [|done]. destruct (peer_context_set _); [|done]. cbn [negb].
  unfold node. fold (patch_context (peer_context s)). rewrite natural_peer_handle.
  by destruct (peer_handleReceiving now h m (peer_context s)) as [[[[]| |] c'] h'].
Qed.

End Receiving.

(** *** The tables of the node *)

(** Sending changes send buffers and the interest in writing only. *)
Record node_frame (n n' : PeerNode) : Prop := {
  nf_sessions : forall fd, ps_ip <$> by_fd n' !! fd = ps_ip <$> by_fd n !! fd;
  nf_by_ip : by_ip n' = by_ip n;
  nf_peers : node_peers n' = node_peers n;
  nf_epoll : dom (node_epoll n') = dom (node_epoll n);
  nf_running : running_ n' = running_ n;
}.

#[global] Instance node_frame_preorder : PreOrder node_frame.
Proof. split; [by constructor|]. intros x y z [] []. constructor; [intros fd|..]; congruence. Qed.

Lemma frame_is_some n n' fd : node_frame n n' -> is_Some (by_fd n !! fd) -> is_Some (by_fd n' !! fd).
Proof. intros [H _ _ _ _]. specialize (H fd). destruct (by_fd n' !! fd), (by_fd n !! fd); done. Qed.

Lemma send_frame fd data n : node_frame n (send_to_peer fd data n).
Proof.
  unfold send_to_peer. destruct (by_fd n !! fd) as [s|] eqn:E; [|done]. constructor; try done; cbn.
  - intros f. destruct (decide (f = fd)) as [->|Hne]; [by rewrite lookup_insert_eq, E | by rewrite lookup_insert_ne].
  - apply dom_alter.
Qed.

Section Frame.
  Context {ssl : OpenSSL}.

Definition framed {A} (m : M PeerContext A) : Prop := forall c, node_frame (pc_node c) (pc_node (m c).2).

Lemma framed_bind {A B} (m : M PeerContext A) (k : A -> M PeerContext B) :
  framed m -> (forall a, framed (k a)) -> framed (m ≫= k).
Proof.
  intros Hm Hk c. specialize (Hm c). unfold mbind, M_bind. destruct (m c) as [[a| |] c']; try done.
  etrans; [apply Hm | apply Hk].
Qed.

Lemma framed_get {A} (k : PeerContext -> M PeerContext A) : (forall c, framed (k c)) -> framed (get ≫= k).
Proof. intros H c. apply H. Qed.

End Frame.

(** Decompose an operation that leaves the node to [send_message_to_peer]. *)
Ltac framed :=
  repeat lazymatch goal with
  | |- framed (get ≫= _) => apply framed_get; intros ?
  | |- framed (_ ≫= _) => apply framed_bind; [|intros ?]
  | |- framed (modify _) => intros ?; done
  | |- framed (mret _) => intros ?; done
  | |- framed (lift _) => intros ?; done
  | |- framed (match ?x with _ => _ end) => destruct x
  | |- framed (let '(_, _) := ?x in _) => destruct x
  end.

Section Frames.
  Context {ssl : OpenSSL}.

Lemma framed_send fd m : framed (send_message_to_peer fd m).
Proof.
  unfold send_message_to_peer, on_node. apply framed_bind; [by intros ?|intros x c]. apply send_frame.
Qed.

Lemma framed_recv now fd h : framed (recv_on_peer now fd h).
Proof.
  destruct h; cbn [recv_on_peer];
    unfold Connect_recv_on_peer, Disconnect_recv_on_peer, Login_recv_on_peer, GetPubkey_recv_on_peer, send_own_keys,
      peer_cache_public_key, peer_keys; framed; apply framed_send.
Qed.

Lemma framed_handle now h m c :
  let '(_, c', _) := peer_handleReceiving now h m c in node_frame (pc_node c) (pc_node c').
Proof.
  destruct h; cbn [peer_handleReceiving]; try done.
  - unfold PeerCommandBus_dispatchReceiving. destruct (registry_find _ _) as [h|]; [|done].
    destruct (fromMessage h m) as [[[]| |] h']; try done. pose proof (framed_recv now (pc_fd c) h' c) as H.
    by destruct (recv_on_peer now (pc_fd c) h' c).
  - assert (H : framed (PeerCipher_handleReceiving m)) by (unfold PeerCipher_handleReceiving; framed).
    specialize (H c). by destruct (PeerCipher_handleReceiving m c).
  - assert (H : framed (PeerResponse_handleReceiving m))
      by (unfold PeerResponse_handleReceiving, handle_connect_response, peer_cache_public_key; framed).
    specialize (H c). by destruct (PeerResponse_handleReceiving m c).
Qed.

Lemma on_data_frame now fd raw s : node_frame (node s) (node (peer_on_data now fd raw s).2).
Proof.
  unfold peer_on_data, lift, modify, mbind, M_bind. destruct (Serializer_deserialize raw) as [m| |]; try done.
  unfold peer_dispatchReceiving, peer_run. cbn [peer_context peer_dispatcher peer_setContext peer_handlers peer_context_set negb].
  destruct (peer_handlers _ !! _) as [h|]; [|done].
  pose proof (framed_handle now h m (set_peer_fd fd (peer_context s))) as H.
  by destruct (peer_handleReceiving now h m _) as [[[[]| |] c'] h'].
Qed.

End Frames.

(** ** Messages on a connection *)

Section Deliver.
  Context {ssl : OpenSSL}.
  Variable now : Z.

(** The application is given the messages one after the other. *)
Fixpoint peer_receive_all (fd : Z) (ms : list bytes) : M MessagingPeer unit :=
  match ms with
  | [] => mret tt
  | m :: ms => _ ← peer_on_data now fd m; peer_receive_all fd ms
  end.

Lemma set_patch fd t b b' k ps n : by_fd n !! fd = Some ps ->
  set_connection fd {| cn_transport := t; recv_buffer := b'; send_buffer := send_buffer (ps_connection ps) |}
    (patch fd t b k n) = patch fd t b' k n.
Proof.
  intros Hps. unfold set_connection, patch, with_by_fd, with_node_sockets. cbn. f_equal.
  apply map_eq. intros i. destruct (decide (i = fd)) as [->|Hi].
  - by rewrite !lookup_alter_eq, Hps.
  - by rewrite !lookup_alter_ne.
Qed.

Lemma drain_run fd t k q ms : forall fuel s r s',
  forallb frame_ok ms = true -> has_message_in_buffer q = Ok false -> is_Some (by_fd (node s) !! fd) ->
  (length ms < fuel)%nat -> peer_receive_all fd ms s = (r, s') ->
  exists s2, drain_messages now fuel fd (at_node (patch fd t (frames ms ++ q) k) s) = (r, s2) /\
    (r = Ok tt -> s2 = at_node (patch fd t q k) s').
Proof.
  induction ms as [|m ms IH]; intros [|fuel] s r s' Hms Hq [ps Hps] Hfuel Hrun; cbn [length] in Hfuel; try lia.
  - injection Hrun as <- <-. eexists. split; [|done]. cbn [drain_messages]. rewrite run_get. unfold node at 1.
    cbn [at_node peer_context set_node pc_node patch with_node_sockets with_by_fd by_fd].
    rewrite lookup_alter_eq, Hps. cbn [fmap option_fmap option_map rebuffer ps_connection].
    unfold Connection_has_complete_message. cbn [recv_buffer]. cbn [frames map concat app]. by rewrite Hq.
  - cbn [forallb] in Hms. bools. cbn [drain_messages]. rewrite run_get. unfold node at 1.
    cbn [at_node peer_context set_node pc_node patch with_node_sockets with_by_fd by_fd].
    rewrite lookup_alter_eq, Hps. cbn [fmap option_fmap option_map rebuffer ps_connection].
    unfold Connection_has_complete_message, Connection_extract_message. cbn [recv_buffer cn_transport send_buffer].
    rewrite frames_cons, <- app_assoc, has_frame, run_lift by done. cbn [negb].
    rewrite extract_frame by (unfold frame_ok in *; bools; lia). cbn [mbind outcome_bind]. rewrite run_lift, run_modify.
    change (at_node _ (at_node _ s)) with (at_node (fun n => set_connection fd
      {| cn_transport := t; recv_buffer := frames ms ++ q; send_buffer := send_buffer (ps_connection ps) |}
      (patch fd t (frame m ++ frames ms ++ q) k n)) s).
    unfold at_node at 1. rewrite set_patch by done. cbn [peer_receive_all] in Hrun. unfold mbind, M_bind in Hrun |- *.
    destruct (peer_on_data now fd m s) as [r1 s1] eqn:E. fold (at_node (patch fd t (frames ms ++ q) k) s).
    rewrite (natural_run _ _ _ _ _ _ (natural_on_data fd t (frames ms ++ q) k now fd m) E).
    destruct r1 as [[]| |]; [|injection Hrun as <- <-; by eexists..].
    apply IH; try done; [|lia]. eapply frame_is_some; [|by eexists].
    pose proof (on_data_frame now fd m s) as Hf. by rewrite E in Hf.
Qed.

Definition peer_readable : EventMask := {| ev_in := true; ev_out := false; ev_err := false |}.

(** A connection whose transport and buffers are known. *)
Lemma patch_same fd t b k ps n : by_fd n !! fd = Some ps ->
  with_node_sockets <[fd := k]> (set_connection fd
    {| cn_transport := t; recv_buffer := b; send_buffer := send_buffer (ps_connection ps) |} n) = patch fd t b k n.
Proof.
  intros Hps. unfold set_connection, patch, with_by_fd, with_node_sockets. cbn. f_equal.
  apply map_eq. intros i. destruct (decide (i = fd)) as [->|Hi].
  - by rewrite !lookup_alter_eq, Hps.
  - by rewrite !lookup_alter_ne.
Qed.

Lemma patch_patch fd t b k t' b' k' n : patch fd t b k (patch fd t' b' k' n) = patch fd t b k n.
Proof.
  unfold patch, with_by_fd, with_node_sockets. cbn. rewrite insert_insert_eq. f_equal.
  apply map_eq. intros i. destruct (decide (i = fd)) as [->|Hi].
  - rewrite !lookup_alter_eq. by destruct (by_fd n !! fd).
  - by rewrite !lookup_alter_ne.
Qed.

(** What one [receive] takes: a frame, the last bytes of which come with [extra]. *)
Record one_frame (recvs : list RecvEvent) (m extra : bytes) (rest : list RecvEvent) : Prop := {
  of_read : exists ps p, recvs = map RecvBytes ps ++ RecvBytes p :: rest /\ concat ps ++ p = frame m ++ extra /\
                         zsize (concat ps) < zsize (frame m);
}.

Lemma receive_one t w m extra rest :
  zsize m < 2 ^ 32 -> one_frame (sk_recv w) m extra rest ->
  exists r, transport_receive t w = Ok (r, {| accumulation_buffer := extra |},
      {| sk_recv := rest; sk_send := sk_send w; sk_wire := sk_wire w |}) /\
    rr_status r = ROk /\ NetBuffer_contents (rr_data r) = Ok m.
Proof.
  intros Hm [(ps & p & Hw & Hc & Hlt)]. unfold transport_receive. rewrite Hw, (receive_loop_frame m p extra rest) by done.
  destruct (receive_result_run ROk m 0) as (r & -> & Hst & _ & Hco). cbn [mbind outcome_bind]. by exists r.
Qed.

Lemma one_frame_pieces pieces m :
  Forall (fun p => p <> []) pieces -> concat pieces = frame m -> one_frame (map RecvBytes pieces) m [] [].
Proof.
  intros Hne Hc. destruct (exists_last (l := pieces)) as (ps & p & ->); [intros ->; by rewrite frame_eq in Hc|].
  rewrite concat_app in Hc. cbn [concat] in Hc. rewrite app_nil_r in Hc.
  apply Forall_app in Hne as [_ Hp]. apply Forall_inv in Hp.
  constructor. exists ps, p. rewrite map_app, app_nil_r. split_and!; [done..|].
  rewrite <- Hc, zsize_app. assert (zsize p <> 0) by (by rewrite zsize_zero). pose proof (zsize_nonneg p). lia.
Qed.

Lemma peer_readable_run connect_res order fd s r s' ps ms recvs extra rest sends :
  by_fd (node s) !! fd = Some ps -> fd ∈ node_peers (node s) -> is_Some (node_epoll (node s) !! fd) ->
  recv_buffer (ps_connection ps) = [] ->
  forallb frame_ok ms = true -> zsize (frames ms) < 2 ^ 32 -> one_frame recvs (frames ms) extra rest ->
  peer_receive_all fd ms s = (r, s') ->
  exists s2, peer_step now connect_res order (PeerReady fd peer_readable recvs sends) s = (r, s2) /\
    (r = Ok tt -> s2 = at_node (patch fd {| accumulation_buffer := extra |} []
        {| sk_recv := rest; sk_send := sends; sk_wire := sk_wire (node_socket fd (node s)) |}) s').
Proof.
  intros Hps Hfd Hep Hb Hms Hsz Hone Hrun.
  cbn [peer_step]. rewrite run_get, bool_decide_true, run_modify by done.
  set (k := {| sk_recv := recvs; sk_send := sends; sk_wire := sk_wire (node_socket fd (node s)) |}).
  set (k' := {| sk_recv := rest; sk_send := sends; sk_wire := sk_wire (node_socket fd (node s)) |}).
  change (at_node _ s) with (at_node (with_node_sockets <[fd := k]>) s).
  unfold PeerEventHandler_handle_event. cbn [peer_readable ev_err ev_in ev_out].
  unfold PeerEventHandler_on_readable, mbind at 1, M_bind at 1. rewrite run_get. unfold node at 1 2 3 4.
  cbn [at_node peer_context set_node pc_node with_node_sockets node_peers by_fd]. rewrite bool_decide_true, Hps by done. cbn [negb].
  unfold node_socket at 1. cbn [node_sockets with_node_sockets]. rewrite lookup_insert_eq. cbn [default from_option id].
  unfold Connection_try_receive.
  destruct (receive_one (cn_transport (ps_connection ps)) k (frames ms) extra rest Hsz Hone) as (res & -> & Hst & Hco).
  cbn [mbind outcome_bind]. rewrite Hco. cbn [mbind outcome_bind]. rewrite Hst, bool_decide_true, Hb by (by left).
  cbn [app]. rewrite run_lift, !run_modify. cbn [recv_buffer].
  match goal with |- context [(drain_messages now _ fd ≫= _) ?x] => assert (Hx : x = at_node (patch fd {| accumulation_buffer := extra |}
    (frames ms ++ []) k') s) end.
  { unfold at_node at 1 4. f_equal. unfold set_node. cbn. f_equal. fold (node s). rewrite app_nil_r.
    etrans; [apply (patch_same fd _ _ _ ps); done|]. unfold patch, with_node_sockets, with_by_fd. cbn. by rewrite insert_insert_eq. }
  rewrite Hx. destruct (drain_run fd {| accumulation_buffer := extra |} k' [] ms (S (length (frames ms))) s r s')
    as (s2 & Hdr & Hs2); try done.
  { pose proof (length_frames ms []). rewrite app_nil_r in *. lia. }
  unfold mbind, M_bind. rewrite Hdr. destruct r as [[]| |]; by exists s2.
Qed.

End Deliver.

(** ** The tables in every state *)

(** The event loop watches the connections of the registry, the handler knows no
    others, and an address leads to a connection from it. *)
Record node_ok (n : PeerNode) : Prop := {
  no_epoll : dom (node_epoll n) = dom (by_fd n);
  no_peers : node_peers n ⊆ dom (by_fd n);
  no_by_ip : forall ip fd, by_ip n !! ip = Some fd -> exists s, by_fd n !! fd = Some s /\ ps_ip s = ip;
}.

Lemma node_ok_make : node_ok PeerNode_make.
Proof. by constructor. Qed.

Lemma node_ok_frame n n' : node_frame n n' -> node_ok n -> node_ok n'.
Proof.
  intros [Hs Hi Hp He _] [H1 H2 H3]. assert (Hd : dom (by_fd n') = dom (by_fd n)).
  { apply set_eq. intros fd. rewrite !elem_of_dom. specialize (Hs fd).
    by destruct (by_fd n' !! fd), (by_fd n !! fd). }
  constructor; [congruence | by rewrite Hp, Hd |]. intros ip fd. rewrite Hi. intros (s & Hfd & <-)%H3.
  specialize (Hs fd). rewrite Hfd in Hs. destruct (by_fd n' !! fd) as [s'|]; [|done]. injection Hs as Hs. by exists s'.
Qed.

Lemma register_node_ok fd s n : node_ok n -> node_ok (register_peer_connection fd s n).2.
Proof.
  intros [H1 H2 H3]. unfold register_peer_connection. destruct (by_fd n !! fd) eqn:E; [done|]. constructor; cbn.
  - by rewrite !dom_insert_L, H1.
  - rewrite dom_insert_L. set_solver.
  - intros ip f. rewrite lookup_insert_Some. intros [[<- <-]|[Hne (s' & Hs' & Hip)%H3]].
    + exists s. by rewrite lookup_insert_eq.
    + exists s'. rewrite lookup_insert_ne; [done|]. congruence.
Qed.

Lemma disconnect_node_ok fd n r n' : node_ok n -> disconnect_from_peer fd n = Ok (r, n') -> node_ok n'.
Proof.
  intros [H1 H2 H3]. unfold disconnect_from_peer. destruct (by_fd n !! fd) as [s|] eqn:E; [|done].
  destruct (by_ip n !! ps_ip s) eqn:Ei; [|by intros [= _ <-]]. intros [= _ <-]. constructor; cbn.
  - by rewrite !dom_delete_L, H1.
  - rewrite dom_delete_L. set_solver.
  - intros ip f. rewrite lookup_delete_Some. intros [Hne (s' & Hs' & Hip)%H3].
    exists s'. rewrite lookup_delete_ne; [done|]. congruence.
Qed.

Lemma disconnect_all_node_ok order : forall n n', node_ok n -> disconnect_all order n = Ok n' -> node_ok n'.
Proof.
  induction order as [|fd order IH]; intros n n' Hn; cbn; [by intros [= <-]|].
  destruct (disconnect_from_peer fd n) as [[r n1]| |] eqn:E; [|done..]. cbn. apply IH. by eapply disconnect_node_ok.
Qed.

Lemma peers_node_ok f n : node_ok n -> f (node_peers n) ⊆ node_peers n -> node_ok (with_peers f n).
Proof. intros [H1 H2 H3] Hf. constructor; cbn; [done|set_solver|done]. Qed.

Lemma stop_node_ok order n n' : node_ok n -> stop order n = Ok n' -> node_ok n'.
Proof.
  unfold stop. destruct (running_ n); [|by intros ? [= <-]]. cbn. intros Hn.
  destruct (disconnect_all order n) as [n1| |] eqn:E; [|done..]. cbn. intros [= <-].
  apply disconnect_all_node_ok in E; [|done]. apply peers_node_ok; [by destruct E | set_solver].
Qed.

Lemma broadcast_frame data n : node_frame n (broadcast data n).
Proof.
  constructor; try done; cbn.
  - intros fd. rewrite lookup_fmap. by destruct (by_fd n !! fd).
  - apply set_eq. intros fd. rewrite !elem_of_dom, map_lookup_imap. by destruct (node_epoll n !! fd).
Qed.

(** What changes one connection, its socket and the interest in writing. *)
Lemma session_frame fd s s' n : by_fd n !! fd = Some s -> ps_ip s' = ps_ip s ->
  node_frame n (with_by_fd <[fd := s']> n).
Proof.
  intros Hs Hip. constructor; try done. intros f. cbn.
  destruct (decide (f = fd)) as [->|Hne]; [rewrite lookup_insert_eq, Hs; cbn; by rewrite Hip | by rewrite lookup_insert_ne].
Qed.

Lemma set_connection_frame fd c n : node_frame n (set_connection fd c n).
Proof.
  constructor; try done. intros f. cbn. destruct (decide (f = fd)) as [->|Hne].
  - rewrite lookup_alter_eq. by destruct (by_fd n !! fd).
  - by rewrite lookup_alter_ne.
Qed.

Lemma sockets_frame f n : node_frame n (with_node_sockets f n).
Proof. by constructor. Qed.

Lemma writable_frame fd n n' : on_peer_writable fd n = Ok n' -> node_frame n n'.
Proof.
  unfold on_peer_writable. destruct (by_fd n !! fd) as [s|] eqn:E; [|done].
  destruct (Connection_flush _ _) as [[[fin c] k]| |]; [|done..]. cbn. intros [= <-].
  assert (H : node_frame n (with_node_sockets <[fd := k]> (with_by_fd <[fd := {| ps_connection := c; ps_ip := ps_ip s |}]> n))).
  { etrans; [by apply (session_frame fd s {| ps_connection := c; ps_ip := ps_ip s |})|]. apply sockets_frame. }
  destruct fin; [|done]. etrans; [exact H|]. constructor; try done. apply dom_alter.
Qed.

Section Invariant.
  Context {ssl : OpenSSL}.
  Variable now : Z.

(** What an operation does to the tables. *)
Definition stays {A} (m : M MessagingPeer A) : Prop := forall s, node_ok (node s) -> node_ok (node (m s).2).

Lemma stays_bind {A B} (m : M MessagingPeer A) (k : A -> M MessagingPeer B) :
  stays m -> (forall a, stays (k a)) -> stays (m ≫= k).
Proof.
  intros Hm Hk s Hs. specialize (Hm s Hs). unfold mbind, M_bind. destruct (m s) as [[a| |] s']; try done. by apply Hk.
Qed.

Lemma stays_frame (f : PeerNode -> PeerNode) : (forall n, node_frame n (f n)) -> stays (modify (at_node f)).
Proof. intros Hf s. apply node_ok_frame, Hf. Qed.

Lemma stays_on_data fd raw : stays (peer_on_data now fd raw).
Proof. intros s. apply node_ok_frame, on_data_frame. Qed.

Lemma stays_drain fd fuel : stays (drain_messages now fuel fd).
Proof.
  induction fuel as [|fuel IH]; [by intros s|]. intros s Hs. cbn [drain_messages]. rewrite run_get.
  destruct (by_fd (node s) !! fd) as [ps|]; [|done].
  apply stays_bind; [by intros s'|intros []|done]; cbn [negb]; [|by intros s'].
  apply stays_bind; [by intros s'|intros [m c]]. apply stays_bind; [apply stays_frame, set_connection_frame|intros _].
  apply stays_bind; [apply stays_on_data | done].
Qed.

Lemma stays_remove fd : stays (modify (at_node (remove_peer fd))).
Proof. intros s Hs. apply peers_node_ok; [done | set_solver]. Qed.

Lemma stays_handle_event fd mask : stays (PeerEventHandler_handle_event now fd mask).
Proof.
  unfold PeerEventHandler_handle_event. destruct (ev_err mask).
  - apply stays_bind; [apply stays_remove|intros _ s Hs]. rewrite run_get. unfold lift, mbind, M_bind.
    destruct (disconnect_from_peer fd (node s)) as [[r n]| |] eqn:E; try done. by eapply disconnect_node_ok.
  - apply stays_bind; [|intros go].
    + destruct (ev_in mask); [|by intros s]. intros s Hs. unfold PeerEventHandler_on_readable. rewrite run_get.
      case_bool_decide; [|done]. cbn [negb]. destruct (by_fd (node s) !! fd) as [ps|].
      * apply stays_bind; [by intros s'|intros [[ok c] k]|done].
        apply stays_bind; [apply stays_frame, set_connection_frame|intros _].
        apply stays_bind; [apply stays_frame, sockets_frame|intros _].
        destruct ok; (apply stays_bind; [apply stays_drain || apply stays_remove | by intros ? ?]).
      * apply stays_bind; [apply stays_remove | by intros ? ? | done].
    + destruct (go && ev_out mask); [|by intros s]. intros s Hs. rewrite run_get. unfold lift, mbind, M_bind.
      destruct (on_peer_writable fd (node s)) as [n| |] eqn:E; try done. by eapply node_ok_frame, Hs; eapply writable_frame.
Qed.

(** The same for what the commands do. *)
Definition context_stays {A} (m : M PeerContext A) : Prop := forall c, node_ok (pc_node c) -> node_ok (pc_node (m c).2).

Lemma context_stays_bind {A B} (m : M PeerContext A) (k : A -> M PeerContext B) :
  context_stays m -> (forall a, context_stays (k a)) -> context_stays (m ≫= k).
Proof.
  intros Hm Hk s Hs. specialize (Hm s Hs). unfold mbind, M_bind. destruct (m s) as [[a| |] s']; try done. by apply Hk.
Qed.

Lemma framed_stays {A} (m : M PeerContext A) : framed m -> context_stays m.
Proof. intros H c. apply node_ok_frame, H. Qed.

Lemma Connect_send_stays connect_res c : context_stays (Connect_send_from_peer now connect_res c).
Proof.
  intros ctx Hc. unfold Connect_send_from_peer. rewrite run_get. destruct (is_empty _); [done|].
  destruct (connect_to_peer connect_res _ (pc_node ctx)) as [fd n] eqn:E. rewrite run_modify.
  assert (Hn : node_ok (pc_node (set_node n ctx))).
  { unfold connect_to_peer in E. destruct connect_res; injection E as <- <-; [by apply register_node_ok | done]. }
  destruct (fd =? 0); [exact Hn|]. apply context_stays_bind; [|intros [[dh idb] sg]|exact Hn].
  - apply framed_stays. unfold peer_keys. framed.
  - apply context_stays_bind; [apply framed_stays, framed_send | by intros ? ?].
Qed.

Lemma send_from_peer_stays connect_res order h : context_stays (send_from_peer now connect_res order h).
Proof.
  destruct h; cbn [send_from_peer]; try (by intros ?);
    (apply context_stays_bind; [|by intros ? ?]).
  - apply framed_stays. unfold Login_send_from_peer, peer_keys. framed.
  - apply framed_stays. unfold PrivateMessage_send_from_peer, send_private_message. framed.
  - apply framed_stays. unfold GetPubkey_send_from_peer. framed.
  - apply Connect_send_stays.
  - apply framed_stays. unfold Disconnect_send_from_peer, disconnect_peer. framed.
  - intros ctx Hc. unfold Exit_send_from_peer. rewrite run_get. unfold lift, mbind, M_bind.
    destruct (stop order (pc_node ctx)) as [n| |] eqn:E; try done. by eapply stop_node_ok.
Qed.

Lemma handle_sending_stays connect_res order h m c :
  node_ok (pc_node c) ->
  let '(_, c', _) := peer_handleSending now connect_res order h m c in node_ok (pc_node c').
Proof.
  intros Hc. destruct h; cbn [peer_handleSending]; try done.
  - cbn. by eapply node_ok_frame, Hc; apply broadcast_frame.
  - unfold PeerCommandBus_dispatchSending. destruct (registry_find _ _) as [h|]; [|done].
    destruct (fromMessage h m) as [[[]| |] h']; try done. pose proof (send_from_peer_stays connect_res order h' c Hc) as H.
    by destruct (send_from_peer now connect_res order h' c) as [[h1| |] c'].
Qed.

Lemma peer_step_stays connect_res order e : stays (peer_step now connect_res order e).
Proof.
  destruct e as [line|fd ip|fd mask recvs sends]; cbn [peer_step].
  - intros s Hs. unfold send_msg, lift, modify, mbind, M_bind. destruct (parse now line) as [m| |]; try done.
    unfold peer_dispatchSending, peer_run. cbn [peer_dispatcher peer_context peer_setContext peer_handlers peer_context_set negb].
    destruct (peer_handlers _ !! _) as [h|]; [|done].
    pose proof (handle_sending_stays connect_res order h m (peer_context s) Hs) as H.
    by destruct (peer_handleSending now connect_res order h m (peer_context s)) as [[[[]| |] c'] h'].
  - intros s Hs. by apply register_node_ok.
  - intros s Hs. rewrite run_get. case_bool_decide; [|done].
    apply stays_bind; [apply stays_frame; intros n; apply sockets_frame | intros _; apply stays_handle_event | done].
Qed.

(** The states a peer can be in, whatever happens to it; what an event throws leaves
    the loop, and the state is as it was left. *)
Inductive peer_reachable (s0 : MessagingPeer) : MessagingPeer -> Prop :=
| peer_reach_start : peer_reachable s0 s0
| peer_reach_step connect_res order e s :
    peer_reachable s0 s -> peer_reachable s0 (peer_step now connect_res order e s).2.

Lemma peer_reachable_ok s0 s : node_ok (node s0) -> peer_reachable s0 s -> node_ok (node s).
Proof. intros H0. induction 1 as [|connect_res order e s _ IH]; [done | by apply peer_step_stays]. Qed.

End Invariant.

Section Properties.
  Context {ssl : OpenSSL}.
  Variable now : Z.
  Variable connect_res : option Z.
  Variable order : list Z.

(** The other side has closed the connection, as epoll reports it. *)
Definition peer_hangup : EventMask := {| ev_in := true; ev_out := false; ev_err := true |}.

Lemma hangup_run fd recvs sends s : node_ok (node s) -> is_Some (node_epoll (node s) !! fd) ->
  exists ps s', by_fd (node s) !! fd = Some ps /\
    peer_step now connect_res order (PeerReady fd peer_hangup recvs sends) s = (Ok tt, s') /\
    (fd ∉ node_peers (node s')) /\ (by_fd (node s') !! fd = None <-> is_Some (by_ip (node s) !! ps_ip ps)).
Proof.
  intros [Hep _ _] Hfd. assert (Hps : is_Some (by_fd (node s) !! fd)) by (by rewrite <- elem_of_dom, <- Hep, elem_of_dom).
  destruct Hps as [ps Hps]. exists ps. cbn [peer_step]. rewrite run_get, bool_decide_true, run_modify by done.
  unfold PeerEventHandler_handle_event. cbn [peer_hangup ev_err]. rewrite run_modify, run_get.
  match goal with |- context [disconnect_from_peer fd (node ?x)] => set (s1 := x) end. unfold disconnect_from_peer.
  assert (Hf : by_fd (node s1) !! fd = Some ps) by done. assert (Hi : by_ip (node s1) = by_ip (node s)) by done.
  assert (Hn : node_peers (node s1) = node_peers (node s) ∖ {[fd]}) by done.
  rewrite Hf, Hi. destruct (by_ip (node s) !! ps_ip ps) as [f|] eqn:Ei; rewrite run_lift;
    eexists; (split; [done|]); (split; [reflexivity|]).
  - split; [cbn; set_solver|]. cbn. by rewrite lookup_delete_eq.
  - split; [cbn; set_solver|]. cbn. fold (node s). rewrite Hps. split; [done | by intros []].
Qed.

Lemma closed_run fd sends s : node_ok (node s) -> fd ∈ node_peers (node s) ->
  (peer_step now connect_res order (PeerReady fd peer_readable [RecvClosed] sends) s).1 = Undef.
Proof.
  intros [Hep Hp _] Hfd. assert (Hd : fd ∈ dom (by_fd (node s))) by set_solver.
  assert (is_Some (node_epoll (node s) !! fd)) by (by rewrite <- elem_of_dom, Hep).
  apply elem_of_dom in Hd as [ps Hps]. cbn [peer_step]. rewrite run_get, bool_decide_true, run_modify by done.
  match goal with |- context [PeerEventHandler_handle_event now fd peer_readable ?x] => set (s1 := x) end.
  assert (Hf : by_fd (node s1) !! fd = Some ps) by done. assert (Hn : fd ∈ node_peers (node s1)) by done.
  assert (Hk : sk_recv (node_socket fd (node s1)) = [RecvClosed]).
  { unfold node_socket. cbn. by rewrite lookup_insert_eq. }
  unfold PeerEventHandler_handle_event. cbn [peer_readable ev_err ev_in ev_out].
  unfold PeerEventHandler_on_readable, mbind at 1, M_bind at 1. rewrite run_get, bool_decide_true, Hf by done. cbn [negb].
  unfold Connection_try_receive, transport_receive. by rewrite Hk.
Qed.

(** ** Properties *)

(** C31: what a peer does with a readable connection. The connection is in the registry
    and in the event loop, and has nothing buffered. One event reads one frame of the
    transport, of less than 2^32 bytes, with any number of [recv] calls; the frame
    carries whole messages [ms]. Handling the event is then giving the messages to the
    application one after the other, in order: it has the same outcome, also when one of
    them throws or is undefined, and when none is, only the buffers of the connection
    differ. The receive buffer is empty again, and the loop over the messages ends. But
    what the last [recv] has read behind the frame, such as the start of a second frame
    or all of it, is not handled, and it is lost: it lies in the accumulation buffer,
    which has no effect on what later calls of [receive] give. What is still in the
    socket waits for the next event. *)
Theorem peer_event_delivers (fd : Z) (s s' : MessagingPeer) (ps : PeerSession) (ms : list bytes) (r : outcome unit)
    (recvs rest : list RecvEvent) (extra : bytes) (sends : list SendEvent) :
  by_fd (node s) !! fd = Some ps -> fd ∈ node_peers (node s) -> is_Some (node_epoll (node s) !! fd) ->
  recv_buffer (ps_connection ps) = [] ->
  forallb frame_ok ms = true -> zsize (frames ms) < 2 ^ 32 -> one_frame recvs (frames ms) extra rest ->
  peer_receive_all now fd ms s = (r, s') ->
  (exists s2, peer_step now connect_res order (PeerReady fd peer_readable recvs sends) s = (r, s2) /\
     (r = Ok tt -> s2 = at_node (patch fd {| accumulation_buffer := extra |} []
        {| sk_recv := rest; sk_send := sends; sk_wire := sk_wire (node_socket fd (node s)) |}) s')) /\
  (forall k, transport_receive {| accumulation_buffer := extra |} k = transport_receive {| accumulation_buffer := [] |} k).
Proof. intros. split; [by eapply peer_readable_run | done]. Qed.

(** C32: the tables of a peer agree in every state it can reach, whatever its user types,
    whoever connects and whatever epoll reports: the event loop watches exactly the
    connections of the registry, the handler knows no others, and an address leads to a
    connection from it. So a connection that hangs up is always found; it is taken out
    of the handler, but out of the registry only while its address is still there. And
    a connection whose stream simply ends makes the handler use an iterator it has just
    invalidated. *)
Theorem peer_node_invariant (ctx : PeerContext) (s0 s : MessagingPeer) :
  pc_node ctx = PeerNode_make -> MessagingPeer_make ctx true = Ok s0 -> peer_reachable now s0 s ->
  node_ok (node s) /\
  (forall fd recvs sends, is_Some (node_epoll (node s) !! fd) ->
     exists ps s', by_fd (node s) !! fd = Some ps /\
       peer_step now connect_res order (PeerReady fd peer_hangup recvs sends) s = (Ok tt, s') /\
       (fd ∉ node_peers (node s')) /\ (by_fd (node s') !! fd = None <-> is_Some (by_ip (node s) !! ps_ip ps))) /\
  (forall fd sends, fd ∈ node_peers (node s) ->
     (peer_step now connect_res order (PeerReady fd peer_readable [RecvClosed] sends) s).1 = Undef).
Proof.
  intros Hctx [= <-] Hr. assert (Hok : node_ok (node s)).
  { apply (peer_reachable_ok now _ s) in Hr; [done|]. cbn. rewrite Hctx. by destruct node_ok_make. }
  split_and!; [done | intros; by apply hangup_run | intros; by apply closed_run].
Qed.

End Properties.

(** ** The properties on a concrete peer *)

#[local] Existing Instance plain_ssl.

(** What a peer called ann sends when it connects. *)
Definition demo_request : bytes :=
  match Connect_toMessage 3 {| connect_ip := "10.0.0.1"; connect_port := 8080; connect_username := sbytes "ann";
      connect_DH_bytes := sbytes "a"; connect_identity_bytes := sbytes "ia"; connect_signature := sbytes "a" |} with
  | Ok m => Serializer_serialize m
  | _ => []
  end.

(** A second frame that comes with the end of the first is lost. *)
Lemma peer_event_delivers_witness :
  let s := demo_peer "bob" "b" "ib" demo_node in
  let w := frame (frames [demo_request]) in
  let s' := (peer_receive_all 5 9 [demo_request] s).2 in
  SessionManager_get_username (pc_sessions (peer_context s')) 9 = expected "ann" /\
  exists k, peer_step 5 None [] (PeerReady 9 peer_readable (map RecvBytes [take 3 w; drop 3 w ++ w]) []) s
    = (Ok tt, at_node (patch 9 {| accumulation_buffer := w |} [] k) s').
Proof.
  intros s w s'. split; [vm_compute; reflexivity|].
  destruct (peer_event_delivers 5 None [] 9 s s' demo_session [demo_request] (Ok tt) (map RecvBytes [take 3 w; drop 3 w ++ w]) []
    w []) as [(s2 & Hs & H2) _];
    [vm_compute; reflexivity | apply (bool_decide_unpack _); vm_compute; reflexivity | eexists; vm_compute; reflexivity
    | reflexivity | vm_compute; reflexivity | vm_compute; reflexivity | | |].
  - constructor. exists [take 3 w], (drop 3 w ++ w). split; [reflexivity|]. split; [|vm_compute; reflexivity].
    cbn [concat]. rewrite app_nil_r, app_assoc, take_drop. reflexivity.
  - assert (Hr : (peer_receive_all 5 9 [demo_request] s).1 = Ok tt) by (vm_compute; reflexivity).
    rewrite <- Hr. apply surjective_pairing.
  - rewrite (H2 eq_refl) in Hs. eexists. exact Hs.
Defined.

Lemma peer_node_invariant_witness :
  exists s, node_ok (node s) /\ by_fd (node s) !! 9 = Some demo_session /\
    (peer_step 5 None [] (PeerReady 9 peer_readable [RecvClosed] []) s).1 = Undef.
Proof.
  set (s0 := at_node (with_running true) (demo_peer "bob" "b" "ib" PeerNode_make)).
  set (s := (peer_step 5 None [] (PeerAccepted 9 "10.0.0.1") s0).2).
  destruct (peer_node_invariant 5 None [] (peer_context (demo_peer "bob" "b" "ib" PeerNode_make)) s0 s) as (H1 & _ & H3).
  - reflexivity.
  - reflexivity.
  - apply (peer_reach_step 5 s0 None [] (PeerAccepted 9 "10.0.0.1")), peer_reach_start.
  - exists s. split; [exact H1|]. split; [vm_compute; reflexivity|]. apply H3.
    apply (bool_decide_unpack _). vm_compute. reflexivity.
Defined.
