(* ===== verification/PeerWireSpec.v ===== *)
(** Two peers on the two ends of a connection: the exchange of keys, event by event,
    from the command to the keys both hold. *)
From S2P Require Import Prelude Message Wire Framing Parser Services Commands Crypto Keys Sockets Transport TransportSpec Stack ClientStack ClientStackSpec Peer PeerSpec PeerStackSpec.

Definition peer_writable : EventMask := {| ev_in := false; ev_out := true; ev_err := false |}.

(** The connection [fd] of a node, watched and known to the handler, with an empty
    receive buffer; what waits to be sent, and what was written so far. *)
Record wired (n : PeerNode) (fd : Z) (out wire : bytes) : Prop := {
  wired_session : exists ps, by_fd n !! fd = Some ps /\ recv_buffer (ps_connection ps) = [] /\
                             send_buffer (ps_connection ps) = out;
  wired_peers : fd ∈ node_peers n;
  wired_epoll : is_Some (node_epoll n !! fd);
  wired_wire : sk_wire (node_socket fd n) = wire;
}.

(** A message is queued behind what waits. *)
Lemma wired_send n fd out wire data : wired n fd out wire -> wired (send_to_peer fd data n) fd (out ++ frame data) wire.
Proof.
  intros [(ps & Hps & Hr & Hs) Hp He Hw]. unfold send_to_peer. rewrite Hps. split; cbn.
  - eexists. rewrite lookup_insert_eq. split_and!; [done | done |]. cbn. rewrite Hs. done.
  - done.
  - rewrite lookup_alter_eq. by destruct (node_epoll n !! fd).
  - done.
Qed.

(** A new connection. *)
Lemma wired_register n fd ip : by_fd n !! fd = None -> node_sockets n !! fd = None ->
  wired (register_peer_connection fd {| ps_connection := Connection_make; ps_ip := ip |} n).2 fd [] [].
Proof.
  intros Hn Hk. unfold register_peer_connection. rewrite Hn. split; cbn.
  - eexists. by rewrite lookup_insert_eq.
  - set_solver.
  - rewrite lookup_insert_eq. eauto.
  - unfold node_socket. cbn. by rewrite Hk.
Qed.

Lemma frame_ne m : frame m <> [].
Proof. by rewrite frame_eq. Qed.

Section PeerWire.
  Context {ssl : OpenSSL} {laws : OpenSSLLaws} {key_laws : OpenSSLKeyLaws}.

Lemma at_node_at_node f g s : at_node f (at_node g s) = at_node (fun n => f (g n)) s.
Proof. done. Qed.

(** [EPOLLOUT] puts everything that waits on the wire, as one frame. *)
Lemma peer_writable_run now connect_res order fd s out wire :
  wired (node s) fd out wire -> out <> [] ->
  exists n', peer_step now connect_res order (PeerReady fd peer_writable [] []) s = (Ok tt, at_node (fun _ => n') s) /\
    wired n' fd [] (wire ++ frame out).
Proof.
  intros [(ps & Hps & Hr & Hs) Hp [e He] Hw] Hne. cbn [peer_step]. rewrite run_get, bool_decide_true, run_modify by eauto.
  set (s1 := at_node _ s). unfold PeerEventHandler_handle_event. cbn [peer_writable ev_err ev_in ev_out].
  assert (H1 : by_fd (node s1) !! fd = Some ps) by done.
  assert (Hk : node_socket fd (node s1) = {| sk_recv := []; sk_send := []; sk_wire := wire |}).
  { unfold node_socket. cbn. rewrite lookup_insert_eq. cbn. by rewrite Hw. }
  rewrite (run_bind _ _ s1 true s1) by done. cbn [andb]. rewrite run_get.
  unfold on_peer_writable. rewrite H1, Hk, flush_all by (done || by rewrite Hs). cbn [mbind outcome_bind sk_recv sk_wire].
  rewrite run_lift. eexists. split; [unfold modify; f_equal; by rewrite (at_node_at_node _ _ s)|].
  split; cbn.
  - eexists. rewrite lookup_insert_eq. by rewrite Hr.
  - done.
  - rewrite lookup_alter_eq, He. eauto.
  - unfold node_socket. cbn. rewrite lookup_insert_eq. cbn. by rewrite Hs.
Qed.

(** [EPOLLIN]: a message whose frame arrives in one event is given to the application. *)
Lemma peer_readable_wired now connect_res order fd s s' m pieces out wire :
  wired (node s) fd out wire -> zsize (frame (frame m)) < 2 ^ 32 ->
  Forall (fun p => p <> []) pieces -> concat pieces = frame (frame m) ->
  peer_on_data now fd m s = (Ok tt, s') ->
  exists f : PeerNode -> PeerNode,
    peer_step now connect_res order (PeerReady fd peer_readable (map RecvBytes pieces) []) s = (Ok tt, at_node f s') /\
    forall out', wired (node s') fd out' wire -> wired (f (node s')) fd out' wire.
Proof.
  intros [(ps & Hps & Hr & Hs) Hp He Hw] Hz Hne Hcat Hrun. rewrite !zsize_frame in Hz.
  assert (Ef : frames [m] = frame m) by apply app_nil_r.
  destruct (peer_readable_run now connect_res order fd s (Ok tt) s' ps [m] (map RecvBytes pieces) [] [] [])
    as (s2 & Hstep & Hs2); try done.
  { cbn. unfold frame_ok. rewrite andb_true_r. apply Z.ltb_lt. lia. }
  { rewrite Ef, zsize_frame. lia. }
  { rewrite Ef. by apply one_frame_pieces. }
  { cbn [peer_receive_all]. by rewrite (run_bind _ _ _ _ _ Hrun). }
  rewrite (Hs2 eq_refl) in Hstep. eexists. split; [exact Hstep|].
  intros out' [(ps' & Hps' & Hr' & Hs') Hp' He' Hw']. unfold patch. split; cbn.
  - eexists. rewrite lookup_alter_eq, Hps'. by split_and!.
  - done.
  - done.
  - unfold node_socket. cbn. by rewrite lookup_insert_eq.
Qed.

(** What arrives is what was written: some pieces of it, none of them empty. *)
Definition arrives (pieces : list bytes) (w : bytes) : Prop :=
  Forall (fun p => p <> []) pieces /\ concat pieces = w /\ zsize w < 2 ^ 32.

(** C30: two peers exchange their keys over a connection, event by event. Alice types
    the command; when her socket takes data, her event loop writes the request; when it
    arrives at Bob, his event loop handles it, and writes a reply when his socket takes
    data; when that arrives at Alice, each side finds the other by descriptor and by
    name and has the keys of the other cached, with a signature of the exchanged key that
    the cached identity key verifies ([paired], both ways: the state in which
    [encryption_end_to_end] holds). Assumed are: neither
    peer knows a user with the name of the other yet, Alice's descriptor is new and has
    nothing written to it, Bob's connection is in his registry with empty buffers, both
    have key pairs with their private parts ([speaks]) and OpenSSL satisfies the laws of
    [OpenSSLLaws] and [OpenSSLKeyLaws]; the metadata of both messages fit their lengths;
    each write is taken whole by the socket; and each message arrives within one event,
    as one whole frame of the transport of less than 2^32 bytes, read by any number of
    [recv] calls ([arrives]). *)
Theorem peers_exchange_keys (nowA nowB fdA fdB : Z) (line : string) (msg : Message) (cmd : ConnectCommand)
    (A B : MessagingPeer) (ms : list bytes) (dA iA sgA dB iB sgB : bytes) :
  let a := pc_my_username (peer_context A) in
  let b := pc_my_username (peer_context B) in
  peer_dispatcher_ok (peer_dispatcher A) -> peer_dispatcher_ok (peer_dispatcher B) ->
  parse nowA line = Ok msg -> Message_get_type msg = Command -> pc_name (make_struct_from_command msg) = "connect"%string ->
  (forall h, getType h = CONNECT -> fromMessage h msg = (Ok tt, Connect cmd)) ->
  a <> [] -> fdA <> 0 -> by_fd (node A) !! fdA = None -> node_sockets (node A) !! fdA = None ->
  wired (node B) fdB [] [] ->
  speaks (pc_encryption (peer_context A)) dA iA sgA -> speaks (pc_encryption (peer_context B)) dB iB sgB ->
  UserService_find_user (pc_users (peer_context A)) (bstr b) = unexpected UserNotFound ->
  UserService_find_user (pc_users (peer_context B)) (bstr a) = unexpected UserNotFound ->
  message_content (Connect (filled cmd a dA iA sgA)) = Some (ms, a) -> fits ms a = true ->
  fits [type_meta CONNECT; dB; iB; sgB] b = true ->
  exists A1 A2,
    peer_step nowA (Some fdA) [] (PeerTyped line) A = (Ok tt, A1) /\
    peer_step nowA None [] (PeerReady fdA peer_writable [] []) A1 = (Ok tt, A2) /\
    forall request, arrives request (sk_wire (node_socket fdA (node A2))) ->
    exists B1 B2,
      peer_step nowB None [] (PeerReady fdB peer_readable (map RecvBytes request) []) B = (Ok tt, B1) /\
      peer_step nowB None [] (PeerReady fdB peer_writable [] []) B1 = (Ok tt, B2) /\
      forall reply, arrives reply (sk_wire (node_socket fdB (node B2))) ->
      exists A3,
        peer_step nowA None [] (PeerReady fdA peer_readable (map RecvBytes reply) []) A2 = (Ok tt, A3) /\
        taken_up (peer_context A3) fdA b /\ taken_up (peer_context B2) fdB a /\
        paired (pc_encryption (peer_context A3)) (pc_encryption (peer_context B2)) a b sgA /\
        paired (pc_encryption (peer_context B2)) (pc_encryption (peer_context A3)) b a sgB.
Proof.
  intros a b HdA HdB Hparse Htype Hpc Hfrom Hname Hfd HfA HkA HwB HsA HsB HuA HuB Hc Hfit HfitB.
  destruct (key_exchange_run nowA nowB fdA fdB cmd A B ms dA iA sgA dB iB sgB)
    as (req & rep & nA & B' & Hsend & HnA & HonB & HnB & HtB & Hreply); try done.
  destruct (typed_command nowA (Some fdA) [] line msg "connect" CONNECT (Connect cmd)
    (Connect (filled cmd a dA iA sgA)) A (set_node nA (peer_context A))) as (d & Hd & Hline); try done.
  { cbn [send_from_peer]. by rewrite (run_bind _ _ _ _ _ Hsend). }
  set (A1 := {| peer_context := set_node nA (peer_context A); peer_dispatcher := d |}) in *.
  assert (HwA1 : wired (node A1) fdA (frame (Serializer_serialize req)) []).
  { change (node A1) with nA. rewrite HnA. by apply (wired_send _ _ [] []), wired_register. }
  destruct (peer_writable_run nowA None [] fdA A1 _ _ HwA1) as (n2 & HA2 & HwA2); [by apply frame_ne|].
  exists A1, (at_node (fun _ => n2) A1). split_and!; [done | done |].
  intros request (Hne & Hcat & Hz). change (node (at_node _ A1)) with n2 in *. rewrite (wired_wire _ _ _ _ HwA2) in Hcat, Hz.
  destruct (peer_readable_wired nowB None [] fdB B B' _ request _ _ HwB Hz Hne Hcat HonB) as (fB & HB1 & HwB1).
  specialize (HwB1 (frame (Serializer_serialize rep))). rewrite HnB in HwB1.
  assert (HwB1' : wired (node (at_node fB B')) fdB (frame (Serializer_serialize rep)) []).
  { change (node (at_node fB B')) with (fB (node B')). rewrite HnB. by apply HwB1, (wired_send _ _ [] []). }
  destruct (peer_writable_run nowB None [] fdB _ _ _ HwB1') as (n3 & HB2 & HwB2); [by apply frame_ne|].
  exists (at_node fB B'), (at_node (fun _ => n3) (at_node fB B')). split_and!; [done | done |].
  intros reply (Hne' & Hcat' & Hz'). change (node (at_node _ (at_node fB B'))) with n3 in *.
  rewrite (wired_wire _ _ _ _ HwB2) in Hcat', Hz'.
  destruct (Hreply n2 d Hd) as (A' & HonA & HnA' & HtA & Hp1 & Hp2).
  destruct (peer_readable_wired nowA None [] fdA (at_node (fun _ => n2) A1) A' _ reply _ _ HwA2 Hz' Hne' Hcat' HonA)
    as (fA & HA3 & _).
  exists (at_node fA A'). by split_and!.
Qed.

End PeerWire.

(** ** The property on concrete peers *)

#[local] Existing Instance plain_ssl.

Definition demo_connect_line : string := "/connect 10.0.0.2 8080".

Definition demo_connect_msg : Message :=
  match parse 1 demo_connect_line with Ok m => m | _ => Message_default end.

Definition demo_connect : ConnectCommand :=
  {| connect_ip := "10.0.0.2"; connect_port := 8080; connect_DH_bytes := []; connect_identity_bytes := [];
     connect_signature := []; connect_username := sbytes "8080" |}.

Lemma demo_node_wired : wired demo_node 9 [] [].
Proof.
  split; [by exists demo_session | apply (bool_decide_unpack _); vm_compute; reflexivity | by eexists | reflexivity].
Qed.

Lemma peers_exchange_keys_witness :
  exists A2 B2 A3,
    arrives [sk_wire (node_socket 7 (node A2))] (sk_wire (node_socket 7 (node A2))) /\
    peer_step 1 None [] (PeerReady 7 peer_readable [RecvBytes (sk_wire (node_socket 9 (node B2)))] []) A2 = (Ok tt, A3) /\
    taken_up (peer_context A3) 7 (sbytes "bob") /\ taken_up (peer_context B2) 9 (sbytes "ann").
Proof.
  pose proof (peers_exchange_keys 1 2 7 9 demo_connect_line demo_connect_msg demo_connect
    (demo_peer "ann" "a" "ia" PeerNode_make) (demo_peer "bob" "b" "ib" demo_node)
    [type_meta CONNECT; sbytes "10.0.0.2"; sbytes "8080"; sbytes "a"; sbytes "ia"; sbytes "a"]
    (sbytes "a") (sbytes "ia") (sbytes "a") (sbytes "b") (sbytes "ib") (sbytes "b")) as H.
  cbv zeta in H.
  destruct H as (A1 & A2 & H1 & H2 & HB);
    [apply MessagingPeer_dispatcher_ok | apply MessagingPeer_dispatcher_ok | vm_compute; reflexivity | reflexivity
    | vm_compute; reflexivity | intros []; try discriminate; intros _; vm_compute; reflexivity | discriminate | lia
    | reflexivity | reflexivity | apply demo_node_wired | apply demo_speaks | apply demo_speaks
    | reflexivity | reflexivity | vm_compute; reflexivity | vm_compute; reflexivity | vm_compute; reflexivity |].
  assert (E2 : arrives [sk_wire (node_socket 7 (node A2))] (sk_wire (node_socket 7 (node A2)))).
  { replace A2 with (peer_step 1 None [] (PeerReady 7 peer_writable [] [])
      (peer_step 1 (Some 7) [] (PeerTyped demo_connect_line) (demo_peer "ann" "a" "ia" PeerNode_make)).2).2
      by (rewrite H1; cbn [snd]; rewrite H2; reflexivity).
    split; [repeat constructor; vm_compute; discriminate|]. split; [apply app_nil_r | vm_compute; reflexivity]. }
  destruct (HB _ E2) as (B1 & B2 & H3 & H4 & HA).
  destruct (HA [sk_wire (node_socket 9 (node B2))]) as (A3 & H5 & H6 & H7 & _).
  { replace B2 with (peer_step 2 None [] (PeerReady 9 peer_writable [] [])
      (peer_step 2 None [] (PeerReady 9 peer_readable [RecvBytes (sk_wire (node_socket 7 (node
        (peer_step 1 None [] (PeerReady 7 peer_writable [] [])
          (peer_step 1 (Some 7) [] (PeerTyped demo_connect_line) (demo_peer "ann" "a" "ia" PeerNode_make)).2).2)))] [])
        (demo_peer "bob" "b" "ib" demo_node)).2).2.
    - split; [repeat constructor; vm_compute; discriminate|]. split; [apply app_nil_r | vm_compute; reflexivity].
    - rewrite H1. cbn [snd]. rewrite H2. cbn [snd]. cbn [map] in H3. rewrite H3. cbn [snd]. rewrite H4. reflexivity. }
  exists A2, B2, A3. split; [exact E2|]. split; [exact H5|]. split; [exact H6 | exact H7].
Defined.
