(* ===== verification/Deployment.v ===== *)
(** The deployed system: the server on its sockets ([Stack.v]), the clients on theirs
    ([ClientStack.v]), and the byte streams between them. This is the system on a network
    that does what the transports rely on: what one side writes is taken whole by its
    socket and arrives at the other in order, and an event of the event loop finds one
    whole frame of the transport to read, by any number of [recv] calls, and no byte of
    the next. Other executions are outside this model: what the code does when an event
    ends inside a frame, when one [recv] returns the end of a frame with the start of the
    next, and when a write is partial or refused is proved of the connections in
    [TransportSpec.v] ([interrupted_frame_raw], [coalesced_bytes_lost],
    [partial_write_corrupts]) and of the client in [ClientStackSpec.v]
    ([client_stack_refines]): bytes are lost or the stream is corrupted. *)
From S2P Require Import Prelude Message Wire Framing Parser Models Services AppService Commands Server Queue Crypto ClientContext Client ClientRefinement Sockets Transport Stack StackSpec ClientStack ClientStackSpec WireSpec.

(** The client whose connection has a descriptor at the server; [dp_up] and [dp_down]
    count, for each, the bytes that have arrived at the server and at the client. *)
Record Deployment {ssl : OpenSSL} := {
  dp_server : MessagingServer TcpServer;
  dp_clients : gmap Z (MessagingClient TcpClient);
  dp_up : gmap Z nat;
  dp_down : gmap Z nat;
}.

(** [cuts] are the sizes of the pieces a frame arrives in. *)
Inductive DeploymentEvent :=
| LineTyped (fd : Z) (line : string)
| FrameUp (fd : Z) (cuts : list nat)
| SocketWritable (fd : Z)
| FrameDown (fd : Z) (cuts : list nat).

Fixpoint cut (cuts : list nat) (b : bytes) : list bytes :=
  match cuts with
  | [] => if is_empty b then [] else [b]
  | n :: cuts => if is_empty (take n b) then cut cuts b else take n b :: cut cuts (drop n b)
  end.

(** The first frame of a stream, when all of it has been written. *)
Definition arriving (b : bytes) : option bytes :=
  match extract_complete_message b with
  | Ok (Some m, _) => Some (take (4 + length m) b)
  | _ => None
  end.

Section Deployment.
  Context {ssl : OpenSSL} {nc : NullCalls} {ord : IterOrder}.
  Variable now : Z.
  (** The random numbers of each client. *)
  Variable rand : Z -> nat -> option bytes.
  Variable can_open : string -> bool.

Definition put_client (fd : Z) (c : MessagingClient TcpClient) (d : Deployment) : Deployment :=
  {| dp_server := dp_server d; dp_clients := <[fd := c]> (dp_clients d);
     dp_up := dp_up d; dp_down := dp_down d |}.

Definition put_server (v : MessagingServer TcpServer) (d : Deployment) : Deployment :=
  {| dp_server := v; dp_clients := dp_clients d; dp_up := dp_up d; dp_down := dp_down d |}.

Definition bytes_up (fd : Z) (n : nat) (d : Deployment) : Deployment :=
  {| dp_server := dp_server d; dp_clients := dp_clients d;
     dp_up := <[fd := (default 0 (dp_up d !! fd) + n)%nat]> (dp_up d); dp_down := dp_down d |}.

Definition bytes_down (fd : Z) (n : nat) (d : Deployment) : Deployment :=
  {| dp_server := dp_server d; dp_clients := dp_clients d; dp_up := dp_up d;
     dp_down := <[fd := (default 0 (dp_down d !! fd) + n)%nat]> (dp_down d) |}.

(** What is on its way to the server, and to the client. *)
Definition upstream (fd : Z) (d : Deployment) : bytes :=
  drop (default 0%nat (dp_up d !! fd)) (default [] (written <$> dp_clients d !! fd)).

Definition downstream (fd : Z) (d : Deployment) : bytes :=
  drop (default 0%nat (dp_down d !! fd)) (sk_wire (socket_of fd (tcp (dp_server d)))).

Definition on_deployed_client (fd : Z) (f : M (MessagingClient TcpClient) unit) : M Deployment unit := fun d =>
  match dp_clients d !! fd with
  | None => (Ok tt, d)
  | Some c => let '(r, c) := f c in (r, put_client fd c d)
  end.

Definition on_deployed_server (f : M (MessagingServer TcpServer) unit) : M Deployment unit := fun d =>
  let '(r, v) := f (dp_server d) in (r, put_server v d).

(** The client's event loop has the client's own descriptor. *)
Definition client_readable (fd : Z) (pieces : list bytes) : M (MessagingClient TcpClient) unit :=
  s ← get;
  cfd ← lift (Client_get_fd (tcpc s));
  client_event now (rand fd) can_open (readable_event cfd pieces).

(** One whole frame arrives per event, and the sockets take all that is written (the
    empty list of [SendEvent]s), see the head of this file. *)
Definition deployment_step (e : DeploymentEvent) : M Deployment unit :=
  match e with
  | LineTyped fd line => on_deployed_client fd (get_data now (rand fd) can_open line)
  | FrameUp fd cuts =>
      d ← get;
      match arriving (upstream fd d) with
      | None => mret tt
      | Some f =>
          _ ← modify (bytes_up fd (length f));
          on_deployed_server (stack_step now (Ready fd readable (map RecvBytes (cut cuts f)) [] HsWant))
      end
  | SocketWritable fd => on_deployed_server (stack_step now (Ready fd writable [] [] HsWant))
  | FrameDown fd cuts =>
      d ← get;
      match arriving (downstream fd d) with
      | None => mret tt
      | Some f =>
          _ ← modify (bytes_down fd (length f));
          on_deployed_client fd (client_readable fd (cut cuts f))
      end
  end.

Fixpoint deployment_run (es : list DeploymentEvent) : M Deployment unit :=
  match es with
  | [] => mret tt
  | e :: es => _ ← deployment_step e; deployment_run es
  end.

(** The length prefixes have 32 bits: less than that has been written by each client,
    and waits at the server for each of them. *)
Definition small (d : Deployment) : bool :=
  bool_decide (map_Forall (fun _ c => zsize (written c) < 2 ^ 32) (dp_clients d))
  && bool_decide (map_Forall (fun _ conn => zsize (send_buffer conn) < 2 ^ 32) (sv_connections (tcp (dp_server d)))).

Fixpoint stays_small (es : list DeploymentEvent) (d : Deployment) : bool :=
  small d &&
  match es with
  | [] => true
  | e :: es => match deployment_step e d with (Ok _, d') => stays_small es d' | _ => true end
  end.

(** The server has accepted the connections and the handshakes are done. *)
Definition accept_all (cfg : AppConfig) (fd0 : Z) (fds : list Z) : MessagingServer TcpServer :=
  foldr (fun fd s => (stack_step now (Accepted fd HsDone) s).2) (Stack_make cfg fd0) fds.

Definition deployment_start (cfg : AppConfig) (fd0 : Z)
    (conns : gmap Z (TcpClient * MessagingClient client_log)) : Deployment :=
  {| dp_server := accept_all cfg fd0 (elements (dom conns));
     dp_clients := (fun '(c, l) => lower_client (fun _ => c) l) <$> conns;
     dp_up := ∅; dp_down := ∅ |}.

End Deployment.
