(* ===== verification/DeploymentSim.v ===== *)
(** The deployed system and the system of [System.v]: the relation between their
    states, and the events of the one that answer an event of the other. *)
From S2P Require Import Prelude Message Wire Framing CommandPattern Parser Models Services AppService Commands Server ServerInvariant ServerRefinement ServerSpec Queue Crypto ClientContext Client ClientRefinement ClientSpec Sockets Transport TransportSpec Stack StackSpec ClientStack ClientStackSpec WireSpec System SystemSpec Deployment.

(** ** Streams *)

Lemma concat_cut cuts : forall b, concat (cut cuts b) = b.
Proof.
  induction cuts as [|n cuts IH]; intros b; cbn [cut].
  - destruct b; [done|]. cbn. by rewrite app_nil_r.
  - destruct (is_empty (take n b)); [apply IH|]. cbn. by rewrite IH, take_drop.
Qed.

Lemma cut_nonempty cuts : forall b, Forall (fun p => p <> []) (cut cuts b).
Proof.
  induction cuts as [|n cuts IH]; intros b; cbn [cut].
  - by destruct b; repeat constructor.
  - destruct (take n b) eqn:E; cbn [is_empty]; [apply IH|]. by constructor.
Qed.

Lemma arriving_frame m q : zsize m < 2 ^ 32 -> arriving (frame m ++ q) = Some (frame m).
Proof.
  intros Hm. unfold arriving. rewrite extract_complete_frame by done. f_equal.
  replace (4 + length m)%nat with (length (frame m)); [apply take_app_length|].
  rewrite frame_eq, length_app. done.
Qed.

Lemma arriving_nothing : arriving [] = None.
Proof. done. Qed.

(** What the server writes for the messages of each flush. *)
Definition batches (bs : list (list bytes)) : bytes := concat (map (fun b => frame (frames b)) bs).

Lemma batches_app a b : batches (a ++ b) = batches a ++ batches b.
Proof. unfold batches. by rewrite map_app, concat_app. Qed.

Lemma packets_app a b : packets (a ++ b) = packets a ++ packets b.
Proof. unfold packets. by rewrite map_app, concat_app. Qed.

Lemma frames_app a b : frames (a ++ b) = frames a ++ frames b.
Proof. unfold frames. by rewrite map_app, concat_app. Qed.

Lemma packet_in_small ms m : m ∈ ms -> zsize (packet m) <= zsize (packets ms).
Proof.
  intros H. apply list_elem_of_split in H as (a & b & ->). rewrite packets_app.
  change (packets (m :: b)) with (packet m ++ packets b). sizes.
Qed.

Lemma frames_small ms : zsize (frames ms) < 2 ^ 32 -> forallb frame_ok ms = true.
Proof.
  induction ms as [|m ms IH]; [done|]. rewrite frames_cons. cbn [forallb]. intros H.
  pose proof (zsize_nonneg (frames ms)). pose proof (zsize_nonneg m).
  autorewrite with cpp in H. apply andb_true_iff. split; [apply Z.ltb_lt | apply IH]; lia.
Qed.

(** ** What a client sends *)

(** Neither empty nor ["/exit"], which the server does not hand to the application. *)
Definition handed_over (data : bytes) : Prop := data <> [] /\ bstr data <> "/exit"%string.

Lemma serialized_handed_over m : handed_over (Serializer_serialize m).
Proof.
  split; [by unfold Serializer_serialize; destruct (negb _)|]. intros E. apply (f_equal sbytes) in E.
  rewrite sbytes_bstr in E. apply (f_equal length) in E. revert E. unfold Serializer_serialize.
  change (length (sbytes "/exit")) with 5%nat. destruct (negb _); rewrite ?length_app; cbn [length write_u32 write_u64]; lia.
Qed.

(** A client sends more such messages, and stays closed. *)
Record sends_more (a b : client_log) : Prop := {
  sm_sent : exists ms, log_sent b = log_sent a ++ ms /\ Forall handed_over ms;
  sm_closed : log_closed b = false -> log_closed a = false;
}.

#[global] Instance sends_more_preorder : PreOrder sends_more.
Proof.
  split; [intros a; split; [exists []; by rewrite app_nil_r | done]|].
  intros a b c [(ms & H1 & H2) H3] [(ms' & H4 & H5) H6]. split; [|auto].
  exists (ms ++ ms'). rewrite H4, H1, app_assoc. split; [done | by apply Forall_app].
Qed.

Section Client.
  Context {ssl : OpenSSL}.
  Variable now : Z.
  Variable rand : nat -> option bytes.
  Variable can_open : string -> bool.

Abbreviation log l := (cc_client (client_context l)).

Lemma log_sends m (t : client_log) : sends_more t (client_send_to_server (Serializer_serialize m) t).2.
Proof. split; [exists [Serializer_serialize m] | done]. split; [done|]. constructor; [apply serialized_handed_over | done]. Qed.

Lemma log_disconnects (t : client_log) : sends_more t (client_disconnect t).2.
Proof. split; [exists []; by rewrite app_nil_r | done]. Qed.

Lemma typed_sends line (l : MessagingClient client_log) :
  sends_more (log l) (log (get_data now rand can_open line l).2).
Proof. apply (evolves_get_data sends_more); [apply log_sends | apply log_disconnects]. Qed.

Lemma receive_all_sends ms : forall l : MessagingClient client_log,
  sends_more (log l) (log (receive_all now rand can_open ms l).2).
Proof.
  induction ms as [|m ms IH]; intros l; [done|]. cbn [receive_all]. unfold mbind, M_bind.
  pose proof (evolves_received sends_more log_sends log_disconnects now rand can_open m l) as H.
  destruct (client_on_tcp_data_received now rand can_open m l) as [[[]| |] l1]; [|done..].
  etrans; [apply H | apply IH].
Qed.

End Client.

(** ** What the server sends *)

Lemma replay_log (l m : sent_log) : replay l m = l ++ m.
Proof.
  unfold replay. revert l. induction m as [|[f data] m IH]; intros l; cbn [foldl]; [by rewrite app_nil_r|].
  rewrite IH. unfold server_send, sent_log_server. by rewrite <- app_assoc.
Qed.

Lemma send_connection fd f data t c : sv_connections t !! fd = Some c ->
  exists c', sv_connections (Server_send f data t) !! fd = Some c' /\ recv_buffer c' = recv_buffer c /\
    send_buffer c' = send_buffer c ++ frames (sent_to fd [(f, data)]).
Proof.
  intros Hc. unfold sent_to. cbn [omap list_omap]. destruct (Z.eqb_spec f fd) as [->|Hne].
  - rewrite (Server_send_run _ _ _ _ Hc). cbn. rewrite lookup_insert_eq. eexists. split_and!; [done..|]. cbn.
    by rewrite app_nil_r.
  - exists c. rewrite app_nil_r. unfold Server_send, ConnectionManager_send_to_buffer, ConnectionManager_get_connection.
    by destruct (sv_connections t !! f); cbn; rewrite ?lookup_insert_ne.
Qed.

Lemma replay_connection fd log : forall t c, sv_connections t !! fd = Some c ->
  exists c', sv_connections (replay t log) !! fd = Some c' /\ recv_buffer c' = recv_buffer c /\
    send_buffer c' = send_buffer c ++ frames (sent_to fd log).
Proof.
  unfold replay. induction log as [|[f data] log IH]; intros t c Hc; cbn [foldl].
  - exists c. by rewrite app_nil_r.
  - destruct (send_connection fd f data t c Hc) as (c1 & H1 & H2 & H3).
    destruct (IH _ _ H1) as (c2 & H4 & H5 & H6). exists c2. rewrite H5, H6, H2, H3, <- app_assoc. split_and!; try done.
    change ((f, data) :: log) with ([(f, data)] ++ log). by rewrite sent_to_app, frames_app.
Qed.

Section Server.
  Context {ord : IterOrder}.

(** The same step on the sockets and over the record. *)
Lemma server_step_both now e (s : MessagingServer TcpServer) (v : MessagingServer sent_log) :
  recorded s = recorded v ->
  exists r s' v' more, server_step now e s = (r, s') /\ server_step now e v = (r, v') /\ recorded s' = recorded v' /\
    tcp s' = replay (tcp s) more /\
    sc_transport (server_context v') = sc_transport (server_context v) ++ more.
Proof.
  intros Hs. destruct (server_step now e (recorded s)) as [r u] eqn:E.
  exists r, (lower_server (tcp s) u), (lower_server (sc_transport (server_context v)) u), (sc_transport (server_context u)).
  split_and!; [| |done|done|apply replay_log].
  - rewrite <- (lower_recorded s) at 1. by apply (natural_run _ _ _ _ _ _ (natural_step _ now e)).
  - rewrite Hs in E. rewrite <- (lower_recorded v) at 1. by apply (natural_run _ _ _ _ _ _ (natural_step _ now e)).
Qed.

Lemma server_ok_recorded {T} (s : MessagingServer T) : server_ok s <-> server_ok (recorded s).
Proof. split; intros [[] ?]; by split. Qed.

Lemma sent_to_length fd log : NoDup (map fst log) -> (length (sent_to fd log) <= 1)%nat.
Proof.
  induction log as [|[f data] log IH]; cbn [map fst sent_to omap list_omap]; [cbn; lia|]. intros Hall.
  inversion_clear Hall as [|? ? Hf Hnd].
  destruct (Z.eqb_spec f fd) as [->|]; [|by apply IH]. cbn [length].
  replace (omap _ log) with (@nil bytes); [cbn; lia|]. symmetry. apply elem_of_nil_inv. intros b Hb.
  apply list_elem_of_omap in Hb as ([g x] & Hg & Hx). destruct (Z.eqb_spec g fd) as [->|]; [|done].
  apply Hf. apply list_elem_of_fmap. by exists (fd, x).
Qed.

Lemma sent_once now e (s s' : MessagingServer sent_log) r more fd :
  server_ok s -> server_step now e s = (r, s') ->
  sc_transport (server_context s') = sc_transport (server_context s) ++ more -> (length (sent_to fd more) <= 1)%nat.
Proof.
  intros Hs E Hm. destruct (wp_run _ _ _ _ _ E (step_addressed now e s Hs)) as (new & Hn & _ & Hnd).
  rewrite Hm in Hn. apply app_inv_head in Hn as ->. by apply sent_to_length.
Qed.

End Server.

(** ** The two systems *)

Section Refinement.
  Context {ssl : OpenSSL} {nc : NullCalls} {ord : IterOrder}.
  Variable now : Z.
  Variable rand : Z -> nat -> option bytes.
  Variable can_open : string -> bool.

Abbreviation sent l := (log_sent (cc_client (client_context l))).
Abbreviation is_open l := (log_closed (cc_client (client_context l)) = false).

(** A connection over which nothing has been sent. *)
Record unused (c : TcpClient) (cfd : Z) : Prop := {
  un_ready : ready c cfd;
  un_wire : sk_wire (cl_wire c) = [];
  un_epoll : -1 ∉ cl_epoll c;
}.

(** The client on its socket is the client over the record, and of the messages [k]
    have arrived, with the first [pos] bytes of what it wrote. *)
Record up_link (c : MessagingClient TcpClient) (l : MessagingClient client_log) (k pos : nat) : Prop := {
  up_client : exists base cfd, unused base cfd /\ c = lower_client (replay_client base) l;
  up_sent : Forall handed_over (sent l);
  up_count : (k <= length (sent l))%nat;
  up_pos : pos = length (packets (take k (sent l)));
}.

(** What is asked of the batches on the wire to a client and of the messages that wait
    in its send buffer. *)
Definition shape : Type := list (list bytes) -> list bytes -> Prop.

(** The messages [ms] for a client: the ones of the batches [before] have arrived, the
    ones of the batches [after] are on the wire, the others in the send buffer. *)
Definition down_link (Q : shape) (buffer wire : bytes) (ms : list bytes) (k pos : nat) : Prop :=
  exists before after queued, Q after queued /\ ms = concat before ++ concat after ++ queued /\
    k = length (concat before) /\ pos = length (batches before) /\ wire = batches (before ++ after) /\
    buffer = frames queued /\ Forall (fun b => zsize (frames b) < 2 ^ 32) after.

(** A connection, seen from both sides. *)
Definition linked (P : Z -> shape) (d : Deployment) (s : System) (fd : Z) (c : MessagingClient TcpClient)
    (l : MessagingClient client_log) : Prop :=
  up_link c l (default 0%nat (sys_up s !! fd)) (default 0%nat (dp_up d !! fd)) /\
  exists conn, sv_connections (tcp (dp_server d)) !! fd = Some conn /\ recv_buffer conn = [] /\
    sv_tls (tcp (dp_server d)) !! fd = Some true /\
    (is_open l ->
     down_link (P fd) (send_buffer conn) (sk_wire (socket_of fd (tcp (dp_server d))))
       (sent_to fd (sc_transport (server_context (sys_server s))))
       (default 0%nat (sys_down s !! fd)) (default 0%nat (dp_down d !! fd))).

Record related (P : Z -> shape) (d : Deployment) (s : System) : Prop := {
  rel_ok : stack_ok (dp_server d);
  rel_server : recorded (dp_server d) = recorded (sys_server s);
  rel_dom : dom (sv_connections (tcp (dp_server d))) = dom (dp_clients d);
  rel_clients fd : option_Forall2 (linked P d s fd) (dp_clients d !! fd) (sys_clients s !! fd);
}.

(** The outcome and the state of [m] are the ones of [s] after [es]. *)
Definition simulates (P : Z -> shape) (es : list SystemEvent) (m : outcome unit * Deployment) (s : System) : Prop :=
  (system_run now rand can_open es s).1 = m.1 /\
  (m.1 = Ok tt -> related P m.2 (system_run now rand can_open es s).2).

Lemma simulates_nothing P es d s s' :
  system_run now rand can_open es s = (Ok tt, s') -> related P d s' -> simulates P es (Ok tt, d) s.
Proof. intros E Hr. unfold simulates. by rewrite E. Qed.

Lemma simulates_refl P d s : related P d s -> simulates P [] (Ok tt, d) s.
Proof. by apply simulates_nothing. Qed.

Lemma down_link_mono (Q Q' : shape) buffer wire ms k pos :
  (forall a q, Q a q -> Q' a q) -> down_link Q buffer wire ms k pos -> down_link Q' buffer wire ms k pos.
Proof. intros HQ (a & b & q & H & H'). exists a, b, q. split; [by apply HQ | done]. Qed.

Lemma linked_mono P P' d s fd c l :
  (forall a q, P fd a q -> P' fd a q) -> linked P d s fd c l -> linked P' d s fd c l.
Proof.
  intros HP (Hu & conn & Hc1 & Hc2 & Hc3 & Hdn). split; [done|]. exists conn. split_and!; [done..|]. intros Ho.
  eapply down_link_mono; [|by apply Hdn]. intros a q. by apply HP.
Qed.

Lemma clients_mono P P' d s fd :
  (forall a q, P fd a q -> P' fd a q) ->
  option_Forall2 (linked P d s fd) (dp_clients d !! fd) (sys_clients s !! fd) ->
  option_Forall2 (linked P' d s fd) (dp_clients d !! fd) (sys_clients s !! fd).
Proof. intros HP H. destruct H; constructor. by eapply linked_mono. Qed.

Lemma related_mono P P' d s :
  (forall g a q, is_Some (dp_clients d !! g) -> P g a q -> P' g a q) -> related P d s -> related P' d s.
Proof.
  intros HP [H1 H2 H3 H4]. split; [done..|]. intros g. specialize (H4 g). specialize (HP g).
  destruct (dp_clients d !! g) as [c|] eqn:Ec, (sys_clients s !! g); inversion_clear H4 as [? ? H|]; constructor.
  eapply linked_mono; [|done]. intros a q. by apply HP.
Qed.

(** ** One event at a time *)

(** A client has run. *)
Lemma client_related P d s fd c l c' l' d' s' :
  related P d s -> dp_clients d !! fd = Some c -> sys_clients s !! fd = Some l ->
  dp_server d' = dp_server d -> sys_server s' = sys_server s ->
  dp_clients d' = <[fd := c']> (dp_clients d) -> sys_clients s' = <[fd := l']> (sys_clients s) ->
  dp_up d' = dp_up d -> sys_up s' = sys_up s ->
  (forall g, g <> fd -> dp_down d' !! g = dp_down d !! g) -> (forall g, g <> fd -> sys_down s' !! g = sys_down s !! g) ->
  linked P d' s' fd c' l' -> related P d' s'.
Proof.
  intros [H1 H2 H3 H4] Hc Hs E1 E2 E3 E4 E5 E6 E7 E8 Hl. split; [by rewrite E1 | by rewrite E1, E2 | |].
  - rewrite E1, E3, H3. symmetry. by apply dom_insert_in with c.
  - intros g. rewrite E3, E4. destruct (decide (g = fd)) as [->|Hne].
    + rewrite !lookup_insert_eq. by constructor.
    + rewrite !lookup_insert_ne by done. specialize (H4 g). revert H4. unfold linked.
      by rewrite E1, E2, E5, E6, E7, E8.
Qed.

Lemma up_link_more c l c' l' k pos base cfd :
  up_link c l k pos -> unused base cfd -> c' = lower_client (replay_client base) l' ->
  sends_more (cc_client (client_context l)) (cc_client (client_context l')) -> up_link c' l' k pos.
Proof.
  intros [_ H1 H2 H3] Hb -> [(ms & Hms & Hh) _]. split; [by exists base, cfd|..]; rewrite Hms.
  - by apply Forall_app.
  - rewrite length_app. lia.
  - by rewrite take_app_le.
Qed.

Lemma related_client P d s fd : related P d s ->
  match dp_clients d !! fd with
  | None => sys_clients s !! fd = None
  | Some c => exists l, sys_clients s !! fd = Some l /\ linked P d s fd c l
  end.
Proof.
  intros Hr. pose proof (rel_clients _ _ _ Hr fd) as Hl.
  destruct (dp_clients d !! fd), (sys_clients s !! fd); inversion Hl; eauto.
Qed.

Lemma run_one e s : system_run now rand can_open [e] s = system_step now rand can_open e s.
Proof.
  cbn [system_run]. unfold mbind, M_bind, mret, M_ret. by destruct (system_step now rand can_open e s) as [[[]| |] s'].
Qed.

(** *** A line *)

Lemma typed_simulates P fd line d s :
  related P d s -> simulates P [Typed fd line] (deployment_step now rand can_open (LineTyped fd line) d) s.
Proof.
  intros Hr. cbn [deployment_step]. unfold on_deployed_client. pose proof (related_client _ d s fd Hr) as Hl.
  destruct (dp_clients d !! fd) as [c|] eqn:Ec.
  2: { apply simulates_nothing with s; [|done]. rewrite run_one. cbn [system_step]. unfold at_client. by rewrite Hl. }
  destruct Hl as (l & El & Hu & conn & Hc1 & Hc2 & Hc3 & Hdn).
  pose proof (up_client _ _ _ _ Hu) as (base & cfd & Hb & ->).
  rewrite (natural_get_data _ (map := replay_map base (rd_usable _ _ (un_ready _ _ Hb))) now (rand fd) can_open line l).
  pose proof (typed_sends now (rand fd) can_open line l) as Hm.
  unfold simulates. rewrite run_one. cbn [system_step]. unfold at_client. rewrite El.
  destruct (get_data now (rand fd) can_open line l) as [r l']. cbn [fst snd] in *. split; [done|]. intros _.
  eapply client_related; try done. split; [by eapply up_link_more|].
  exists conn. split_and!; [done..|]. intros Ho. by apply Hdn, Hm.
Qed.

(** *** The server's events *)

Lemma down_link_more (Q Q' : shape) buffer wire ms k pos new :
  (forall a q, Q a q -> Q' a (q ++ new)) ->
  down_link Q buffer wire ms k pos -> down_link Q' (buffer ++ frames new) wire (ms ++ new) k pos.
Proof.
  intros HQ (a & b & q & H & -> & Hk & Hp & Hw & -> & Hs). exists a, b, (q ++ new). split; [by apply HQ|].
  by rewrite frames_app, <- !app_assoc.
Qed.

(** The server has sent [more]. *)
Lemma linked_server P P' d s fd c l d' s' more :
  linked P d s fd c l -> (forall a q, P fd a q -> P' fd a (q ++ sent_to fd more)) ->
  (forall conn, sv_connections (tcp (dp_server d)) !! fd = Some conn -> recv_buffer conn = [] ->
     exists conn', sv_connections (tcp (dp_server d')) !! fd = Some conn' /\ recv_buffer conn' = [] /\
     send_buffer conn' = send_buffer conn ++ frames (sent_to fd more)) ->
  sv_tls (tcp (dp_server d')) = sv_tls (tcp (dp_server d)) ->
  sk_wire (socket_of fd (tcp (dp_server d'))) = sk_wire (socket_of fd (tcp (dp_server d))) ->
  sc_transport (server_context (sys_server s')) = sc_transport (server_context (sys_server s)) ++ more ->
  dp_down d' = dp_down d -> sys_down s' = sys_down s ->
  up_link c l (default 0%nat (sys_up s' !! fd)) (default 0%nat (dp_up d' !! fd)) ->
  linked P' d' s' fd c l.
Proof.
  intros (_ & conn & H1 & H2 & H3 & H4) HP Hc Ht Hw Hl Hd Hs Hu. split; [done|].
  destruct (Hc _ H1 H2) as (conn' & Hc1 & Hc2 & Hc3). exists conn'. rewrite Ht, Hw, Hl, Hd, Hs, Hc3, sent_to_app.
  split_and!; [done..|]. intros Ho. by apply (down_link_more (P fd)), H4.
Qed.

(** What of a client is on its way. *)
Lemma upstream_packets d s fd c l :
  dp_clients d !! fd = Some c -> up_link c l (default 0%nat (sys_up s !! fd)) (default 0%nat (dp_up d !! fd)) ->
  upstream fd d = packets (drop (default 0%nat (sys_up s !! fd)) (sent l)) /\ written c = packets (sent l).
Proof.
  intros Hc [(base & cfd & [_ Hw _] & ->) _ _ Hp]. unfold upstream. rewrite Hc, Hp. cbn [fmap option_fmap option_map default].
  rewrite written_replay, Hw. cbn [app]. split; [|done].
  set (k := default 0%nat (sys_up s !! fd)).
  assert (E : packets (sent l) = packets (take k (sent l)) ++ packets (drop k (sent l))) by (by rewrite <- packets_app, take_drop).
  rewrite E. cbn [id]. apply drop_app_length.
Qed.

Lemma up_link_arrived c l k pos m rest :
  up_link c l k pos -> drop k (sent l) = m :: rest -> up_link c l (S k) (pos + length (packet m)).
Proof.
  intros [H1 H2 H3 ->] Hm. assert (Hk : sent l !! k = Some m) by (by rewrite <- (Nat.add_0_r k), <- lookup_drop, Hm).
  split; [done..| |].
  - apply lookup_lt_Some in Hk. lia.
  - by rewrite (take_S_r _ _ _ Hk), packets_snoc, length_app.
Qed.

(** The application of the server has run, over the transport [t] and over the record. *)
Lemma server_related P P' d s d' s' t more :
  related P d s -> (forall g a q, P g a q -> P' g a (q ++ sent_to g more)) -> stack_ok (dp_server d') -> recorded (dp_server d') = recorded (sys_server s') ->
  tcp (dp_server d') = replay t more ->
  sc_transport (server_context (sys_server s')) = sc_transport (server_context (sys_server s)) ++ more ->
  (forall g conn, sv_connections (tcp (dp_server d)) !! g = Some conn -> recv_buffer conn = [] ->
     exists conn', sv_connections t !! g = Some conn' /\ recv_buffer conn' = [] /\ send_buffer conn' = send_buffer conn) ->
  dom (sv_connections t) = dom (sv_connections (tcp (dp_server d))) -> sv_tls t = sv_tls (tcp (dp_server d)) ->
  (forall g, sk_wire (socket_of g t) = sk_wire (socket_of g (tcp (dp_server d)))) ->
  dp_clients d' = dp_clients d -> sys_clients s' = sys_clients s -> dp_down d' = dp_down d -> sys_down s' = sys_down s ->
  (forall g c l, dp_clients d !! g = Some c -> sys_clients s !! g = Some l ->
     up_link c l (default 0%nat (sys_up s !! g)) (default 0%nat (dp_up d !! g)) ->
     up_link c l (default 0%nat (sys_up s' !! g)) (default 0%nat (dp_up d' !! g))) ->
  related P' d' s'.
Proof.
  intros Hr HP Hok Hrec Ht Hlog Hcn Hdom Htls Hw Hc Hs Hd Hsd Hu. pose proof (replay_frame t more) as Hf.
  split; [done..|by rewrite Ht, (frame_connections _ _ Hf), Hdom, Hc, (rel_dom _ _ _ Hr)|].
  intros g. rewrite Hc, Hs. pose proof (rel_clients _ _ _ Hr g) as Hl.
  destruct (dp_clients d !! g) as [c|] eqn:Ec, (sys_clients s !! g) as [l|] eqn:El; inversion_clear Hl as [? ? Hl'|];
    constructor.
  eapply (linked_server P); [exact Hl'|apply HP|..|done|done|done| ].
  - intros conn H1 H2. destruct (Hcn _ _ H1 H2) as (c1 & H3 & H4 & H5).
    destruct (replay_connection g more t c1 H3) as (c2 & H6 & H7 & H8). exists c2. rewrite Ht, H7, H8, H5. done.
  - by rewrite Ht, (frame_tls _ _ Hf).
  - unfold socket_of at 1. by rewrite Ht, (frame_sockets _ _ Hf), <- Hw.
  - apply (Hu g c l); [done..|]. apply Hl'.
Qed.

(** An event of the server sends at most one message to each client. *)
Lemma up_simulates P P' fd cuts d s :
  related P d s -> (forall g a q new, (length new <= 1)%nat -> P g a q -> P' g a (q ++ new)) ->
  (forall c, dp_clients d !! fd = Some c -> zsize (written c) < 2 ^ 32) ->
  simulates P' [ToServer fd] (deployment_step now rand can_open (FrameUp fd cuts) d) s.
Proof.
  intros Hr HP Hsm.
  assert (Hidle : next_up fd s = None -> simulates P' [ToServer fd] (Ok tt, d) s).
  { intros Hn. apply simulates_nothing with s; [rewrite run_one; cbn [system_step]; by rewrite run_get, Hn|].
    eapply related_mono, Hr. intros g a q _ Hq. rewrite <- (app_nil_r q). by apply HP; [cbn; lia|]. }
  cbn [deployment_step]. rewrite run_get. pose proof (related_client _ d s fd Hr) as Hl.
  destruct (dp_clients d !! fd) as [c|] eqn:Ec.
  2: { unfold upstream. rewrite Ec. cbn. rewrite drop_nil, arriving_nothing. apply Hidle. unfold next_up. by rewrite Hl. }
  destruct Hl as (l & El & Hlink). pose proof Hlink as (Hu & conn & Hc1 & Hc2 & Hc3 & _).
  destruct (upstream_packets d s fd c l Ec Hu) as [-> Hw]. set (k := default 0%nat (sys_up s !! fd)) in *.
  destruct (drop k (sent l)) as [|m rest] eqn:Em.
  { apply Hidle. unfold next_up. rewrite El. cbn. fold k. by rewrite <- (Nat.add_0_r k), <- lookup_drop, Em. }
  assert (Hk : sent l !! k = Some m) by (by rewrite <- (Nat.add_0_r k), <- lookup_drop, Em).
  assert (Hz : zsize (packet m) < 2 ^ 32).
  { pose proof (packet_in_small _ _ (list_elem_of_lookup_2 _ _ _ Hk)) as Hin.
    pose proof (Hsm _ eq_refl) as Hs. rewrite Hw in Hs. lia. }
  change (packets (m :: rest)) with (frame (frame m) ++ packets rest).
  assert (Hok : frame_ok (frame m) = true).
  { unfold packet in Hz. apply Z.ltb_lt. rewrite zsize_frame in Hz. lia. }
  rewrite arriving_frame, run_modify by (unfold frame_ok in Hok; bools; lia). unfold on_deployed_server.
  cbn [bytes_up dp_server].
  pose proof (proj1 (Forall_lookup _ _) (up_sent _ _ _ _ Hu) k m Hk) as [Hne Hex].
  destruct (stack_delivers_run now fd (dp_server d) conn m (cut cuts (frame (frame m))) [] HsWant)
    as (t & conn' & Hrun & Ht1 & Ht2 & Ht3 & _ & Ht4 & _ & Ht5);
    [apply Hr | done | done | done | done | done | done | apply concat_cut | apply cut_nonempty|].
  destruct (server_step_both now (DataReceived fd m) (on_tcp (fun _ => t) (dp_server d)) (sys_server s))
    as (r & v & v' & more & E1 & E2 & E3 & E4 & E5); [apply (rel_server _ _ _ Hr)|].
  rewrite Hrun, E1. unfold simulates. rewrite run_one. cbn [system_step]. rewrite run_get.
  unfold next_up. rewrite El. cbn [mbind option_bind]. fold k. rewrite Hk, run_modify. unfold at_server.
  cbn [count_up sys_server]. rewrite E2. split; [done|]. cbn [fst snd]. intros ->.
  eapply (server_related P P' d s _ _ t more); try done.
  - intros g a q Hq. apply HP; [|done]. eapply (sent_once now (DataReceived fd m) (sys_server s)); [|done..].
    apply (proj2 (server_ok_recorded _)). rewrite <- (rel_server _ _ _ Hr). apply (proj1 (server_ok_recorded _)), (rel_ok _ _ _ Hr).
  - rewrite <- Hrun in E1. apply (wp_run _ _ _ _ _ E1 (stack_step_ok now _ _ (rel_ok _ _ _ Hr))).
  - intros g cn H1 H2. rewrite Ht1. destruct (decide (g = fd)) as [->|Hg].
    + rewrite lookup_insert_eq. exists conn'. by simplify_eq.
    + rewrite lookup_insert_ne by done. by exists cn.
  - rewrite Ht1. by apply dom_insert_in with conn.
  - intros g cg lg H1 H2 Hug. cbn. destruct (decide (g = fd)) as [->|Hg].
    + rewrite !lookup_insert_eq. cbn. simplify_eq. by eapply up_link_arrived.
    + by rewrite !lookup_insert_ne by done.
Qed.

(** *** Flushing *)

Lemma down_link_flush (Q Q' : shape) buffer wire ms k pos :
  (forall a q, Q a q -> Q' (if is_empty q then a else a ++ [q]) []) ->
  down_link Q buffer wire ms k pos -> zsize buffer < 2 ^ 32 ->
  down_link Q' [] (wire ++ (if is_empty buffer then [] else frame buffer)) ms k pos.
Proof.
  intros HQ (a & b & q & H & -> & Hk & Hp & -> & -> & Hs) Hz. apply HQ in H. destruct q as [|m q]; cbn [is_empty] in H.
  - exists a, b, []. split; [done|]. by rewrite !app_nil_r.
  - exists a, (b ++ [m :: q]), []. split; [done|].
    replace (is_empty (frames (m :: q))) with false by (by rewrite frames_cons, frame_eq).
    split_and!; try done.
    + rewrite concat_app. cbn [concat]. by rewrite !app_nil_r.
    + rewrite !batches_app. unfold batches at 5. cbn [map concat]. by rewrite app_nil_r, app_assoc.
    + apply Forall_app. by split; [|repeat constructor].
Qed.

Lemma flush_simulates P P' fd d s :
  related P d s -> (forall g a q, g <> fd -> P g a q -> P' g a q) ->
  (forall a q, P fd a q -> P' fd (if is_empty q then a else a ++ [q]) []) ->
  (forall conn l, sv_connections (tcp (dp_server d)) !! fd = Some conn -> sys_clients s !! fd = Some l -> is_open l ->
     zsize (send_buffer conn) < 2 ^ 32) ->
  simulates P' [] (deployment_step now rand can_open (SocketWritable fd) d) s.
Proof.
  intros Hr HP HPfd Hsm. cbn [deployment_step]. unfold on_deployed_server. pose proof Hr as [Hok Hrec Hdom Hcl].
  destruct (sv_connections (tcp (dp_server d)) !! fd) as [conn|] eqn:Econn.
  2: { assert (Hep : sv_epoll (tcp (dp_server d)) !! fd = None).
       { destruct Hok as (_ & [H1 _ H2] & _). apply not_elem_of_dom. rewrite H2, <- H1. by apply not_elem_of_dom. }
       cbn [stack_step]. rewrite run_get, Hep. cbn [mret M_ret].
       replace (put_server (dp_server d) d) with d by (by destruct d). apply simulates_refl.
       eapply related_mono, Hr. intros g a q Hg. apply HP. intros ->. apply elem_of_dom in Hg. rewrite <- Hdom in Hg.
       by apply not_elem_of_dom in Hg. }
  assert (is_Some (dp_clients d !! fd)) as [c Ec] by (apply elem_of_dom; rewrite <- Hdom; by eapply elem_of_dom_2).
  pose proof (related_client _ d s fd Hr) as Hl. rewrite Ec in Hl.
  destruct Hl as (l & El & Hu & conn' & Hc1 & Hc2 & Hc3 & Hdn). simplify_eq.
  destruct (writable_run now fd (dp_server d) conn HsWant Hok Hc3 Econn) as (t & Hrun & Hw & Hcn & _ & Ht & _ & Hsk).
  pose proof (wp_run _ _ _ _ _ Hrun (stack_step_ok now _ _ Hok)) as Hok'. rewrite Hrun. apply simulates_refl.
  split; [exact Hok' | exact (rel_server _ _ _ Hr) | |].
  - cbn. rewrite Hcn, <- Hdom. by apply dom_insert_in with conn.
  - intros g. destruct (decide (g = fd)) as [->|Hg].
    + cbn [put_server dp_clients]. rewrite Ec, El. constructor. split; [done|]. exists (flushed conn).
      cbn. rewrite Hcn, Hw, Ht, lookup_insert_eq. split_and!; [done..|]. intros Ho.
      apply (down_link_flush (P fd)); [done | by apply Hdn | by apply (Hsm _ l)].
    + pose proof (clients_mono P P' d s g (fun a q => HP g a q Hg) (rel_clients _ _ _ Hr g)) as Hcl'.
      revert Hcl'. unfold linked. cbn. by rewrite Hcn, Ht, Hsk, lookup_insert_ne.
Qed.

(** *** What arrives at a client *)

(** The next messages of the server, one after the other. *)
Lemma deliver_all fd b : forall s l before after,
  sys_clients s !! fd = Some l -> sent_to fd (sc_transport (server_context (sys_server s))) = before ++ b ++ after ->
  default 0%nat (sys_down s !! fd) = length before ->
  let '(r, l') := receive_all now (rand fd) can_open b l in
  exists s', system_run now rand can_open (replicate (length b) (ToClient fd)) s = (r, s') /\
    (r = Ok tt -> sys_server s' = sys_server s /\ sys_clients s' = <[fd := l']> (sys_clients s) /\
       sys_up s' = sys_up s /\ default 0%nat (sys_down s' !! fd) = length (before ++ b) /\
       forall g, g <> fd -> sys_down s' !! g = sys_down s !! g).
Proof.
  induction b as [|m b IH]; intros s l before after Hl Hs Hd; cbn [receive_all length replicate system_run].
  - exists s. split; [done|]. by rewrite insert_id, app_nil_r.
  - unfold mbind at 1 2, M_bind. cbn [system_step]. rewrite run_get. unfold next_down.
    rewrite Hs, Hd, lookup_app_r, Nat.sub_diag by lia. cbn [lookup list_lookup app]. rewrite run_modify.
    unfold at_client. cbn [count_down sys_clients]. rewrite Hl.
    destruct (client_on_tcp_data_received now (rand fd) can_open m l) as [[[]| |] l1]; [|by eexists..].
    set (s1 := set_client fd l1 (count_down fd s)).
    specialize (IH s1 l1 (before ++ [m]) after).
    destruct (receive_all now (rand fd) can_open b l1) as [r l'].
    destruct IH as (s' & Hrun & Hr).
    + apply lookup_insert_eq.
    + by rewrite <- app_assoc.
    + cbn. rewrite lookup_insert_eq, Hd, length_app. cbn. lia.
    + exists s'. split; [exact Hrun|]. intros Hok. destruct (Hr Hok) as (H1 & H2 & H3 & H4 & H5).
      rewrite H1, H2, H3, H4, <- app_assoc. cbn. rewrite insert_insert_eq. split_and!; try done.
      intros g Hg. rewrite H5 by done. cbn. by rewrite lookup_insert_ne.
Qed.

Lemma unused_after base cfd : unused base cfd -> unused (after_reading (cl_wire base) base) cfd.
Proof. intros [H1 H2 H3]. split; [by apply ready_after | done..]. Qed.

(** A client that has closed its connection does not read. *)
Lemma closed_reads base cfd l fd pieces :
  unused base cfd -> ~ is_open l ->
  client_readable now rand can_open fd pieces (lower_client (replay_client base) l)
  = (Ok tt, lower_client (replay_client base) l).
Proof.
  intros [[_ Hfd Hne _ _ _ _] _ Hep] Hcl. unfold client_readable. rewrite run_get.
  set (c := lower_client (replay_client base) l).
  assert (Ht : tcpc c = closed (append_wire (packets (sent l)) base)).
  { unfold c, tcpc, replay_client. cbn. by destruct (log_closed _). }
  unfold Client_get_fd, Client_fd. rewrite Ht. unfold closed. cbn. rewrite Hfd, (proj2 (Z.eqb_neq _ _)) by done. cbn.
  rewrite run_lift. unfold client_event. rewrite run_get, Ht. unfold closed. cbn.
  rewrite Hfd, (proj2 (Z.eqb_neq _ _)) by done. cbn. rewrite bool_decide_false; [done|]. set_solver.
Qed.

Lemma open_reads base cfd l fd b pieces :
  unused base cfd -> is_open l -> zsize (frames b) < 2 ^ 32 ->
  Forall (fun p => p <> []) pieces -> concat pieces = frame (frames b) ->
  let '(r, l') := receive_all now (rand fd) can_open b l in
  exists c', client_readable now rand can_open fd pieces (lower_client (replay_client base) l) = (r, c') /\
    (r = Ok tt -> c' = lower_client (replay_client (after_reading (cl_wire base) base)) l').
Proof.
  intros [Hb _ _] Ho Hz Hne Hc. unfold client_readable. rewrite run_get.
  replace (Client_get_fd (tcpc (lower_client (replay_client base) l))) with (Ok cfd).
  - rewrite run_lift. apply client_readable_run; try done. by apply frames_small.
  - unfold Client_get_fd, Client_fd, tcpc, replay_client. cbn. rewrite Ho. cbn. by rewrite (rd_fd _ _ Hb).
Qed.

(** Nothing is said of what a closed client would read. *)
Lemma closed_simulates P fd cuts d s c l f :
  related P d s -> dp_clients d !! fd = Some c -> sys_clients s !! fd = Some l -> linked P d s fd c l -> ~ is_open l ->
  simulates P [] (on_deployed_client fd (client_readable now rand can_open fd (cut cuts f)) (bytes_down fd (length f) d)) s.
Proof.
  intros Hr Ec El (Hu & conn & Hc) Ho. pose proof (up_client _ _ _ _ Hu) as (base & cfd & Hb & ->).
  unfold on_deployed_client. cbn [bytes_down dp_clients]. rewrite Ec, (closed_reads base cfd) by done.
  apply simulates_refl. eapply (client_related P d s fd); try done.
  - cbn. symmetry. by apply insert_id.
  - intros g Hg. cbn. by rewrite lookup_insert_ne.
  - split; [done|]. exists conn. destruct Hc as (H1 & H2 & H3 & _). by split_and!.
Qed.

Lemma downstream_batches d before after :
  forall fd, sk_wire (socket_of fd (tcp (dp_server d))) = batches (before ++ after) ->
  default 0%nat (dp_down d !! fd) = length (batches before) -> downstream fd d = batches after.
Proof. intros fd Hw Hp. unfold downstream. by rewrite Hw, Hp, batches_app, drop_app_length. Qed.

Lemma down_link_arrived (Q : shape) buffer ms before b after queued :
  Q after queued -> ms = concat before ++ concat (b :: after) ++ queued -> buffer = frames queued ->
  Forall (fun b => zsize (frames b) < 2 ^ 32) after ->
  down_link Q buffer (batches (before ++ b :: after)) ms (length (concat before ++ b))
    (length (batches before) + length (frame (frames b))).
Proof.
  intros HQ -> -> Hs. exists (before ++ [b]), after, queued. split; [done|].
  assert (Hc : concat (before ++ [b]) = concat before ++ b) by (rewrite concat_app; cbn; by rewrite app_nil_r).
  assert (Hb : batches (before ++ [b]) = batches before ++ frame (frames b)).
  { rewrite batches_app. unfold batches at 2. cbn. by rewrite app_nil_r. }
  rewrite Hc, Hb. cbn [concat]. rewrite <- !app_assoc. split_and!; try done. by rewrite length_app.
Qed.

(** A client that has not reads the messages of the next batch. *)
Lemma open_simulates P fd cuts d s c l f :
  related P d s -> dp_clients d !! fd = Some c -> sys_clients s !! fd = Some l -> linked P d s fd c l -> is_open l ->
  (forall b a q, P fd (b :: a) q -> P fd a q) -> arriving (downstream fd d) = Some f ->
  exists b a q, P fd (b :: a) q /\
    simulates P (replicate (length b) (ToClient fd))
      (on_deployed_client fd (client_readable now rand can_open fd (cut cuts f)) (bytes_down fd (length f) d)) s.
Proof.
  intros Hr Ec El (Hu & conn & Hc1 & Hc2 & Hc3 & Hdn) Ho HP Ef. pose proof (up_client _ _ _ _ Hu) as (base & cfd & Hb & ->).
  destruct (Hdn Ho) as (before & [|b after] & queued & HQ & Hms & Hk & Hp & Hw & Hq & Hs);
    rewrite (downstream_batches d before _ fd Hw Hp) in Ef; [done|]. apply Forall_cons_iff in Hs as [Hz Hs].
  change (batches (b :: after)) with (frame (frames b) ++ batches after) in Ef. rewrite arriving_frame in Ef by done.
  injection Ef as <-. unfold on_deployed_client. cbn [bytes_down dp_clients]. rewrite Ec.
  pose proof (open_reads base cfd l fd b (cut cuts (frame (frames b))) Hb Ho Hz (cut_nonempty _ _) (concat_cut _ _)) as H1.
  pose proof (deliver_all fd b s l (concat before) (concat after ++ queued) El) as H2.
  pose proof (receive_all_sends now (rand fd) can_open b l) as H3.
  destruct (receive_all now (rand fd) can_open b l) as [r l'].
  destruct H1 as (c' & -> & Hc'). destruct H2 as (s' & Hrun & Hs'); [by rewrite Hms; cbn [concat]; rewrite <- app_assoc | done|].
  exists b, after, queued. split; [done|]. unfold simulates. rewrite Hrun. split; [done|]. cbn [fst snd]. intros ->.
  destruct (Hs' eq_refl) as (E1 & E2 & E3 & E4 & E5). rewrite (Hc' eq_refl).
  eapply (client_related P d s fd); try done.
  - intros g Hg. cbn. by rewrite lookup_insert_ne.
  - split; [rewrite E3; by eapply up_link_more; [|apply unused_after| |]|]. exists conn.
    split_and!; [done..|]. intros _. rewrite E1, E4. cbn. rewrite lookup_insert_eq, Hp, Hw. cbn.
    apply (down_link_arrived _ _ _ _ _ _ queued); try done. by eapply HP.
Qed.

(** What arrives for a descriptor without a client changes nothing. *)
Lemma idle_related P d s d' s' fd :
  related P d s -> dp_clients d !! fd = None -> dp_server d' = dp_server d -> sys_server s' = sys_server s ->
  dp_clients d' = dp_clients d -> sys_clients s' = sys_clients s -> dp_up d' = dp_up d -> sys_up s' = sys_up s ->
  (forall g, g <> fd -> dp_down d' !! g = dp_down d !! g) -> (forall g, g <> fd -> sys_down s' !! g = sys_down s !! g) ->
  related P d' s'.
Proof.
  intros [H1 H2 H3 H4] Hn E1 E2 E3 E4 E5 E6 E7 E8. split; [by rewrite E1 | by rewrite E1, E2 | by rewrite E1, E3|].
  intros g. specialize (H4 g). rewrite E3, E4. destruct (decide (g = fd)) as [->|Hg].
  - rewrite Hn in *. by inversion_clear H4; constructor.
  - revert H4. unfold linked. by rewrite E1, E2, E5, E6, E7, E8.
Qed.

Lemma down_simulates P fd cuts d s :
  related P d s -> (forall b a q, P fd (b :: a) q -> P fd a q) ->
  exists n, simulates P (replicate n (ToClient fd)) (deployment_step now rand can_open (FrameDown fd cuts) d) s.
Proof.
  intros Hr HP. cbn [deployment_step]. rewrite run_get.
  destruct (arriving (downstream fd d)) as [f|] eqn:Ef; [|by exists 0%nat; apply simulates_refl]. rewrite run_modify.
  pose proof (related_client _ d s fd Hr) as Hl. destruct (dp_clients d !! fd) as [c|] eqn:Ec.
  - destruct Hl as (l & El & Hl). destruct (log_closed (cc_client (client_context l))) eqn:Ho.
    + exists 0%nat. eapply closed_simulates; [done..|]. by rewrite Ho.
    + edestruct (open_simulates P) as (b & a & q & _ & Hb); [done..|]. by exists (length b).
  - unfold on_deployed_client. cbn [bytes_down dp_clients]. rewrite Ec. exists 0%nat. apply simulates_refl.
    apply (idle_related P d s _ _ fd); try done. intros g Hg. cbn. by rewrite lookup_insert_ne.
Qed.

End Refinement.
