(* ===== verification/DeploymentSpec.v ===== *)
(** Every run of the deployed system of [Deployment.v] is a run of the system of
    [System.v], and every run of that system is one of the deployed system: on a network
    as that file describes it, the bytes, the buffers and the frames do not show. *)
From S2P Require Import Prelude Message Wire Framing CommandPattern Parser Models Services AppService Commands Server ServerInvariant ServerRefinement ServerSpec Queue Crypto ClientContext Client ClientRefinement ClientSpec Sockets Transport TransportSpec Stack StackSpec ClientStack ClientStackSpec WireSpec System SystemSpec Deployment DeploymentSim.

Section Runs.
  Context {ssl : OpenSSL} {nc : NullCalls} {ord : IterOrder}.
  Variable now : Z.
  Variable rand : Z -> nat -> option bytes.
  Variable can_open : string -> bool.

Abbreviation sent l := (log_sent (cc_client (client_context l))).
Abbreviation is_open l := (log_closed (cc_client (client_context l)) = false).

(** ** Runs *)

(** Nothing is asked of the batches. *)
Definition any_batches : Z -> shape := fun _ _ _ => True.

Lemma small_client d fd c : small d = true -> dp_clients d !! fd = Some c -> zsize (written c) < 2 ^ 32.
Proof. unfold small. intros Hs Hc. bools. by apply (H fd c). Qed.

Lemma small_buffer d fd conn : small d = true -> sv_connections (tcp (dp_server d)) !! fd = Some conn ->
  zsize (send_buffer conn) < 2 ^ 32.
Proof. unfold small. intros Hs Hc. bools. by apply (H0 fd conn). Qed.

Lemma step_simulates e d s :
  related any_batches d s -> small d = true ->
  exists es, simulates now rand can_open any_batches es (deployment_step now rand can_open e d) s.
Proof.
  intros Hr Hs. destruct e as [fd line|fd cuts|fd|fd cuts].
  - eexists. by apply typed_simulates.
  - eexists. apply (up_simulates _ _ _ any_batches); [done..|]. intros c. by apply small_client.
  - eexists. apply (flush_simulates _ _ _ any_batches); [done..|]. intros conn l Hc _ _. by apply (small_buffer d fd).
  - edestruct (down_simulates now rand can_open any_batches) as (n & Hn); [done..|]. by eexists.
Qed.

Lemma run_simulates es : forall d s,
  related any_batches d s -> stays_small now rand can_open es d = true ->
  exists es', simulates now rand can_open any_batches es' (deployment_run now rand can_open es d) s.
Proof.
  induction es as [|e es IH]; intros d s Hr Hs; cbn [deployment_run]; [exists []; by apply simulates_refl|].
  cbn [stays_small] in Hs. apply andb_true_iff in Hs as [Hs Hes]. unfold mbind, M_bind.
  destruct (step_simulates e d s Hr Hs) as (es1 & H1 & H2).
  destruct (deployment_step now rand can_open e d) as [[[]| |] d1]; cbn [fst snd] in *.
  - destruct (system_run now rand can_open es1 s) as [r s1] eqn:E. cbn [fst snd] in *. subst r.
    destruct (IH d1 s1 (H2 eq_refl) Hes) as (es2 & H3 & H4). exists (es1 ++ es2). unfold simulates.
    by rewrite (run_app _ _ _ _ _ _ _ E).
  - by exists es1.
  - by exists es1.
Qed.

(** ** The start *)

Lemma accepted_run f s : exists t, stack_step now (Accepted f HsDone) s = (Ok tt, on_tcp (fun _ => t) s) /\
  sv_connections t = <[f := Connection_make]> (sv_connections (tcp s)) /\
  sv_tls t = <[f := true]> (sv_tls (tcp s)) /\ sv_sockets t = sv_sockets (tcp s).
Proof. eexists. split; [reflexivity|]. split_and!; [|done..]. cbn. apply alter_insert_eq. Qed.

(** The connections the server has accepted. *)
Lemma accept_all_ok cfg fd0 fds :
  let s := accept_all now cfg fd0 fds in
  stack_ok s /\ recorded s = recorded (MessagingServer_make cfg ([] : sent_log) fd0) /\
  dom (sv_connections (tcp s)) = list_to_set fds /\ sv_sockets (tcp s) = ∅ /\
  forall fd, fd ∈ fds -> sv_tls (tcp s) !! fd = Some true /\ sv_connections (tcp s) !! fd = Some Connection_make.
Proof.
  induction fds as [|f fds IH]; cbn [accept_all foldr list_to_set].
  - split_and!; [apply Stack_make_ok | done | done | done | by intros ? ?%elem_of_nil].
  - fold (accept_all now cfg fd0 fds). set (s := accept_all now cfg fd0 fds) in *. destruct IH as (H1 & H2 & H3 & H4 & H5).
    destruct (accepted_run f s) as (t & Hrun & Hcn & Ht & Hsk).
    pose proof (wp_run _ _ _ _ _ Hrun (stack_step_ok now (Accepted f HsDone) s H1)) as Hok.
    rewrite Hrun. cbn [snd]. split_and!; [exact Hok | exact H2 | | |].
    + rewrite tcp_on_tcp, Hcn, dom_insert_L, H3. done.
    + by rewrite tcp_on_tcp, Hsk.
    + intros fd Hfd. rewrite tcp_on_tcp, Hcn, Ht. destruct (decide (fd = f)) as [->|Hne].
      * by rewrite !lookup_insert_eq.
      * rewrite !lookup_insert_ne by done. apply H5. by apply elem_of_cons in Hfd as [].
Qed.

(** Each connection is up and nothing has been sent over it. *)
Definition fresh_connections (conns : gmap Z (TcpClient * MessagingClient client_log)) : Prop :=
  forall fd c l, conns !! fd = Some (c, l) -> exists cfd, unused c cfd /\
    cc_client (client_context l) = {| log_sent := []; log_closed := false |}.

Lemma start_related P cfg fd0 conns :
  fresh_connections conns -> (forall fd, P fd [] []) ->
  related P (deployment_start now cfg fd0 conns) (system_start cfg fd0 (snd <$> conns)).
Proof.
  intros Hc HP. destruct (accept_all_ok cfg fd0 (elements (dom conns))) as (H1 & H2 & H3 & H4 & H5).
  split; cbn [deployment_start dp_server dp_clients system_start sys_server sys_clients]; [done..| |].
  - by rewrite H3, dom_fmap_L, list_to_set_elements_L.
  - intros fd. rewrite !lookup_fmap. destruct (conns !! fd) as [[c l]|] eqn:E; constructor.
    destruct (Hc _ _ _ E) as (cfd & Hu & Hl). destruct (H5 fd) as [Ht Hcn].
    { apply elem_of_elements. by eapply elem_of_dom_2. }
    split; [split|]; cbn; rewrite ?lookup_empty, ?Hl; cbn.
    + exists c, cfd. split; [done|]. unfold lower_client, lower_context. rewrite Hl. unfold replay_client. cbn.
      unfold append_wire. cbn. rewrite app_nil_r. by destruct c as [? ? ? ? ? ? ? ? ? ? []].
    + constructor.
    + lia.
    + done.
    + exists Connection_make. split_and!; [done..|]. intros _. unfold socket_of. rewrite H4.
      by exists [], [], [].
Qed.

Lemma same_screen P d s fd c : related P d s -> dp_clients d !! fd = Some c ->
  exists l, sys_clients s !! fd = Some l /\ cc_ui (client_context c) = cc_ui (client_context l).
Proof.
  intros Hr E. pose proof (related_client _ d s fd Hr) as Hl. rewrite E in Hl. destruct Hl as (l & El & Hu & _).
  exists l. split; [done|]. by destruct (up_client _ _ _ _ Hu) as (? & ? & _ & ->).
Qed.

(** ** A schedule *)

(** What the deployed system does for an event: after a message has arrived at the
    server, each of its sockets becomes writable once. *)
Definition schedule (cuts : list nat) (fds : list Z) (e : SystemEvent) : list DeploymentEvent :=
  match e with
  | Typed fd line => [LineTyped fd line]
  | ToServer fd => FrameUp fd cuts :: map SocketWritable fds
  | ToClient fd => [FrameDown fd cuts]
  end.

(** No client has closed its connection, and the lengths fit into 32 bits. *)
Definition fits_wires (s : System) : bool :=
  bool_decide (map_Forall (fun fd l => is_open l /\ zsize (packets (sent l)) < 2 ^ 32 /\
    zsize (frames (sent_to fd (sc_transport (server_context (sys_server s))))) < 2 ^ 32) (sys_clients s)).

(** Each batch on the wire is one message, and nothing waits; or at most one message
    waits, at the connections [fds]. *)
Definition single : list (list bytes) -> Prop := Forall (fun b => length b = 1%nat).

Definition one_by_one : Z -> shape := fun _ a q => single a /\ q = [].

Definition waiting (fds : list Z) : Z -> shape := fun g a q => single a /\ (length q <= 1)%nat /\ (g ∉ fds -> q = []).

Lemma waiting_flushed fd fds a q :
  waiting (fd :: fds) fd a q -> waiting fds fd (if is_empty q then a else a ++ [q]) [].
Proof.
  intros (Ha & Hq & _). split_and!; [|cbn; lia|done]. destruct q as [|m [|]]; cbn [is_empty length] in *; [done| |lia].
  apply Forall_app. split; [done|]. by constructor.
Qed.

Lemma waiting_other fd fds g a q : g <> fd -> waiting (fd :: fds) g a q -> waiting fds g a q.
Proof. intros Hg (Ha & Hq & Hn). split_and!; [done..|]. intros Hfds. apply Hn. by apply not_elem_of_cons. Qed.

Lemma buffer_bound P d s fd conn l :
  related P d s -> sv_connections (tcp (dp_server d)) !! fd = Some conn -> sys_clients s !! fd = Some l -> is_open l ->
  zsize (send_buffer conn) <= zsize (frames (sent_to fd (sc_transport (server_context (sys_server s))))).
Proof.
  intros Hr Hc Hl Ho. pose proof (rel_clients _ _ _ Hr fd) as H. rewrite Hl in H. inversion_clear H as [c ? Hx|].
  destruct Hx as (_ & conn' & Hc' & _ & _ & Hdn). rewrite Hc in Hc'. injection Hc' as <-.
  destruct (Hdn Ho) as (a & b & q & _ & -> & _ & _ & _ & -> & _). rewrite !frames_app. sizes.
Qed.

Lemma fits_open s fd l : fits_wires s = true -> sys_clients s !! fd = Some l -> is_open l /\
  zsize (packets (sent l)) < 2 ^ 32 /\ zsize (frames (sent_to fd (sc_transport (server_context (sys_server s))))) < 2 ^ 32.
Proof. unfold fits_wires. intros Hs Hl. bools. by apply (Hs fd l). Qed.

(** The sockets become writable one after the other. *)
Lemma flush_each fds : forall d s, related (waiting fds) d s -> fits_wires s = true ->
  exists d', deployment_run now rand can_open (map SocketWritable fds) d = (Ok tt, d') /\ related one_by_one d' s.
Proof.
  induction fds as [|fd fds IH]; intros d s Hr Hs; cbn [map deployment_run].
  - exists d. split; [done|]. eapply related_mono, Hr. intros g a q _ (Ha & _ & Hq). split; [done|]. apply Hq. by intros ?%elem_of_nil.
  - destruct (flush_simulates now rand can_open (waiting (fd :: fds)) (waiting fds) fd d s) as [H1 H2]; [done|..].
    + intros g a q Hg. by apply waiting_other.
    + apply waiting_flushed.
    + intros conn l Hc Hl Ho. pose proof (buffer_bound _ d s fd conn l Hr Hc Hl Ho).
      destruct (fits_open s fd l Hs Hl) as (_ & _ & ?). lia.
    + unfold mbind, M_bind. destruct (deployment_step now rand can_open (SocketWritable fd) d) as [r d1].
      cbn [fst snd system_run] in *. subst r. by apply (IH d1 s), Hs; apply H2.
Qed.

(** *** A message for a client *)

Lemma down_idle P fd cuts d s :
  related P d s -> dp_clients d !! fd = None ->
  simulates now rand can_open P [ToClient fd] (deployment_step now rand can_open (FrameDown fd cuts) d) s.
Proof.
  intros Hr Ec. pose proof (related_client _ d s fd Hr) as El. rewrite Ec in El.
  assert (Hd : exists d', deployment_step now rand can_open (FrameDown fd cuts) d = (Ok tt, d') /\
    (d' = d \/ exists n, d' = bytes_down fd n d)).
  { cbn [deployment_step]. rewrite run_get. destruct (arriving _) as [f|]; [|by eauto]. rewrite run_modify.
    unfold on_deployed_client. cbn [bytes_down dp_clients]. rewrite Ec. eauto. }
  assert (Hs : exists s', system_run now rand can_open [ToClient fd] s = (Ok tt, s') /\ (s' = s \/ s' = count_down fd s)).
  { rewrite run_one. cbn [system_step]. rewrite run_get. destruct (next_down fd s) as [m|]; [|by eauto]. rewrite run_modify.
    unfold at_client. cbn [count_down sys_clients]. rewrite El. eauto. }
  destruct Hd as (d' & -> & Hd), Hs as (s' & Hs & Hs'). eapply simulates_nothing; [done|].
  apply (idle_related P d s _ _ fd); try done;
    [by destruct Hd as [->|(n & ->)] | by destruct Hs' as [->| ->] | by destruct Hd as [->|(n & ->)]
    | by destruct Hs' as [->| ->] | by destruct Hd as [->|(n & ->)] | by destruct Hs' as [->| ->] | |].
  - intros g Hg. destruct Hd as [->|(n & ->)]; [done|]. cbn. by rewrite lookup_insert_ne.
  - intros g Hg. destruct Hs' as [->| ->]; [done|]. cbn. by rewrite lookup_insert_ne.
Qed.

Lemma down_one fd cuts d s :
  related one_by_one d s -> (forall l, sys_clients s !! fd = Some l -> is_open l) ->
  simulates now rand can_open one_by_one [ToClient fd] (deployment_step now rand can_open (FrameDown fd cuts) d) s.
Proof.
  intros Hr Hop. pose proof (related_client _ d s fd Hr) as Hl. destruct (dp_clients d !! fd) as [c|] eqn:Ec; [|by apply down_idle].
  destruct Hl as (l & El & Hl). pose proof (Hop l El) as Ho. pose proof Hl as (_ & conn & _ & _ & _ & Hdn).
  destruct (Hdn Ho) as (before & after & queued & [Ha ->] & Hms & Hk & Hp & Hw & _ & Hz).
  pose proof (downstream_batches d before after fd Hw Hp) as Hd. cbn [deployment_step]. rewrite run_get.
  destruct after as [|b after].
  - rewrite Hd. apply simulates_nothing with s; [|done]. rewrite run_one. cbn [system_step]. rewrite run_get. unfold next_down.
    rewrite Hms, Hk. cbn [concat app]. rewrite app_nil_r, lookup_ge_None_2 by lia. done.
  - assert (Ef : arriving (downstream fd d) = Some (frame (frames b))).
    { rewrite Hd. apply (arriving_frame (frames b) (batches after)). by inversion Hz. }
    rewrite Ef, run_modify.
    destruct (open_simulates now rand can_open one_by_one fd cuts d s c l (frame (frames b))) as (b' & a & q & [Hb _] & Hx);
      [done..| |done|].
    { intros b0 a q [H1 H2]. split; [by inversion H1 | done]. }
    inversion_clear Hb as [|? ? Hb1 _]. by rewrite Hb1 in Hx.
Qed.

(** *** What a system keeps *)

Lemma log_grows e (v : MessagingServer sent_log) : exists more,
  sc_transport (server_context (server_step now e v).2) = sc_transport (server_context v) ++ more.
Proof.
  destruct (server_step now e (recorded v)) as [r u] eqn:E.
  assert (Hv : server_step now e v = (r, lower_server (sc_transport (server_context v)) u)).
  { rewrite <- (lower_recorded v) at 1. by apply (natural_run _ _ _ _ _ _ (natural_step _ now e)). }
  rewrite Hv. eexists. apply replay_log.
Qed.

(** The clients stay, send more, and stay closed; the server sends more. *)
Record grows (s s' : System) : Prop := {
  gr_clients fd : option_Forall2 (fun l l' => sends_more (cc_client (client_context l)) (cc_client (client_context l')))
    (sys_clients s !! fd) (sys_clients s' !! fd);
  gr_log : exists more, sc_transport (server_context (sys_server s')) = sc_transport (server_context (sys_server s)) ++ more;
}.

#[local] Instance grows_preorder : PreOrder grows.
Proof.
  split.
  - intros s. split; [|exists []; by rewrite app_nil_r]. intros fd. destruct (sys_clients s !! fd); by constructor.
  - intros a b c [H1 (m1 & H2)] [H3 (m2 & H4)]. split; [|exists (m1 ++ m2); by rewrite H4, H2, app_assoc].
    intros fd. specialize (H1 fd). specialize (H3 fd).
    destruct (sys_clients a !! fd), (sys_clients b !! fd), (sys_clients c !! fd);
      inversion_clear H1; inversion_clear H3; constructor. by etrans.
Qed.

Lemma client_grows fd f s :
  (forall l : MessagingClient client_log, sends_more (cc_client (client_context l)) (cc_client (client_context (f l).2))) ->
  grows s (at_client fd f s).2.
Proof.
  intros Hf. unfold at_client. destruct (sys_clients s !! fd) as [l|] eqn:El; [|done]. specialize (Hf l).
  destruct (f l) as [r l']. split; [|exists []; by rewrite app_nil_r]. intros g. cbn. destruct (decide (g = fd)) as [->|Hg].
  - rewrite El, lookup_insert_eq. by constructor.
  - rewrite lookup_insert_ne by done. destruct (sys_clients s !! g); by constructor.
Qed.

Lemma step_grows e s : grows s (system_step now rand can_open e s).2.
Proof.
  destruct e as [fd line|fd|fd]; cbn [system_step].
  - apply client_grows. intros l. apply typed_sends.
  - rewrite run_get. destruct (next_up fd s) as [m|]; [|done]. rewrite run_modify. unfold at_server. cbn [count_up sys_server].
    destruct (log_grows (DataReceived fd m) (sys_server s)) as (more & Hm).
    destruct (server_step now (DataReceived fd m) (sys_server s)) as [r v]. split; [|by exists more].
    intros g. cbn. destruct (sys_clients s !! g); by constructor.
  - rewrite run_get. destruct (next_down fd s) as [m|]; [|done]. rewrite run_modify.
    etrans; [|apply client_grows]; [by split; [intros g; cbn; destruct (sys_clients s !! g); constructor|exists []; rewrite app_nil_r]|].
    intros l. pose proof (receive_all_sends now (rand fd) can_open [m] l) as H. cbn [receive_all] in H.
    unfold mbind, M_bind in H. by destruct (client_on_tcp_data_received now (rand fd) can_open m l) as [[[]| |] l'].
Qed.

Lemma run_grows es : forall s, grows s (system_run now rand can_open es s).2.
Proof.
  induction es as [|e es IH]; intros s; cbn [system_run]; [done|]. unfold mbind, M_bind. pose proof (step_grows e s) as H.
  destruct (system_step now rand can_open e s) as [[[]| |] s1]; [|done..]. etrans; [apply H | apply IH].
Qed.

Lemma fits_before s s' : grows s s' -> fits_wires s' = true -> fits_wires s = true.
Proof.
  intros [Hc (more & Hm)] Hs. apply bool_decide_eq_true. intros fd l Hl. specialize (Hc fd). rewrite Hl in Hc.
  destruct (sys_clients s' !! fd) as [l'|] eqn:El; inversion_clear Hc as [? ? [(ms & H1 & _) H2]|].
  destruct (fits_open s' fd l' Hs El) as (H3 & H4 & H5). rewrite H1, packets_app in H4. rewrite Hm, sent_to_app, frames_app in H5.
  pose proof (zsize_nonneg (packets ms)). pose proof (zsize_nonneg (frames (sent_to fd more))).
  rewrite zsize_app in *. split_and!; [by apply H2 | lia..].
Qed.

(** *** Each event, and a run *)

Lemma deployed_one e d : deployment_run now rand can_open [e] d = deployment_step now rand can_open e d.
Proof.
  cbn [deployment_run]. unfold mbind, M_bind, mret, M_ret. by destruct (deployment_step now rand can_open e d) as [[[]| |] d'].
Qed.

Lemma simulates_ok P e m s s' :
  simulates now rand can_open P [e] m s -> system_step now rand can_open e s = (Ok tt, s') ->
  exists d', m = (Ok tt, d') /\ related P d' s'.
Proof.
  unfold simulates. rewrite run_one. intros [H1 H2] E. rewrite E in *. destruct m as [r d']. cbn in *. subst r.
  exists d'. split; [done|]. by apply H2.
Qed.

Lemma schedule_step cuts fds e d s s' :
  related one_by_one d s -> (forall fd, is_Some (sys_clients s !! fd) -> fd ∈ fds) ->
  system_step now rand can_open e s = (Ok tt, s') -> fits_wires s' = true ->
  exists d', deployment_run now rand can_open (schedule cuts fds e) d = (Ok tt, d') /\ related one_by_one d' s'.
Proof.
  intros Hr Hfds E Hs'. pose proof (step_grows e s) as Hg. rewrite E in Hg. pose proof (fits_before _ _ Hg Hs') as Hs.
  destruct e as [fd line|fd|fd]; cbn [schedule]; rewrite ?deployed_one.
  - by apply (simulates_ok _ _ _ _ _ (typed_simulates now rand can_open one_by_one fd line d s Hr) E).
  - set (P := fun (_ : Z) a (q : list bytes) => single a /\ (length q <= 1)%nat).
    assert (Hup : simulates now rand can_open P [ToServer fd] (deployment_step now rand can_open (FrameUp fd cuts) d) s).
    { apply (up_simulates now rand can_open one_by_one); [done| |].
      - intros g a q new Hn [Ha ->]. by split.
      - intros c Ec. pose proof (related_client _ d s fd Hr) as Hl. rewrite Ec in Hl. destruct Hl as (l & El & Hu & _).
        destruct (upstream_packets d s fd c l Ec Hu) as [_ ->]. by apply (fits_open s fd l). }
    destruct (simulates_ok P _ _ s s' Hup E) as (d1 & Hd1 & Hr1).
    cbn [deployment_run]. rewrite (run_bind _ _ _ _ _ Hd1). apply flush_each; [|done].
    eapply related_mono, Hr1. intros g a q Hg1 [Ha Hq]. split_and!; [done..|]. intros []. apply Hfds.
    pose proof (rel_clients _ _ _ Hr1 g) as H1. pose proof (gr_clients _ _ Hg g) as H2. destruct Hg1 as [c Hc].
    rewrite Hc in H1. inversion H1 as [? l ? E1 E2|]. cbn [snd] in H2. rewrite <- E2 in H2. inversion H2; eauto.
  - eapply (simulates_ok one_by_one); [|exact E]. apply down_one; [done|]. intros l Hl. by apply (fits_open s fd l).
Qed.

Lemma deployed_app es1 es2 d d1 :
  deployment_run now rand can_open es1 d = (Ok tt, d1) ->
  deployment_run now rand can_open (es1 ++ es2) d = deployment_run now rand can_open es2 d1.
Proof.
  revert d. induction es1 as [|e es1 IH]; intros d; cbn [app deployment_run]; [by intros [= <-]|].
  unfold mbind, M_bind. destruct (deployment_step now rand can_open e d) as [[[]| |] d2]; [apply IH | done..].
Qed.

Lemma schedule_run cuts fds es : forall d s s',
  related one_by_one d s -> (forall fd, is_Some (sys_clients s !! fd) -> fd ∈ fds) ->
  system_run now rand can_open es s = (Ok tt, s') -> fits_wires s' = true ->
  exists d', deployment_run now rand can_open (concat (map (schedule cuts fds) es)) d = (Ok tt, d') /\ related one_by_one d' s'.
Proof.
  induction es as [|e es IH]; intros d s s' Hr Hfds E Hs'; cbn [map concat]; [injection E as <-; by exists d|].
  cbn [system_run] in E. unfold mbind, M_bind in E. pose proof (step_grows e s) as Hg.
  destruct (system_step now rand can_open e s) as [[[]| |] s1] eqn:E1; [|done..]. pose proof (run_grows es s1) as Hg1.
  rewrite E in Hg1. destruct (schedule_step cuts fds e d s s1) as (d1 & Hd1 & Hr1); [done..|by apply (fits_before s1 s')|].
  rewrite (deployed_app _ _ _ _ Hd1). apply (IH d1 s1); [done| |done..].
  intros fd [l Hl]. apply Hfds. pose proof (gr_clients _ _ Hg fd) as H. cbn [snd] in H. rewrite Hl in H. inversion H; eauto.
Qed.

Lemma screen_of P d s fd l : related P d s -> sys_clients s !! fd = Some l ->
  exists c, dp_clients d !! fd = Some c /\ cc_ui (client_context c) = cc_ui (client_context l).
Proof.
  intros Hr E. pose proof (related_client _ d s fd Hr) as Hl. destruct (dp_clients d !! fd) as [c|] eqn:Ec; [|congruence].
  destruct (same_screen P d s fd c Hr Ec) as (l' & El & Hu). exists c. split; [done|]. congruence.
Qed.

Lemma scheduled_run cfg fd0 conns cuts es s :
  fresh_connections conns ->
  system_run now rand can_open es (system_start cfg fd0 (snd <$> conns)) = (Ok tt, s) -> fits_wires s = true ->
  exists d, deployment_run now rand can_open (concat (map (schedule cuts (elements (dom conns))) es))
      (deployment_start now cfg fd0 conns) = (Ok tt, d) /\ related one_by_one d s.
Proof.
  intros Hc E Hs. apply (schedule_run cuts (elements (dom conns)) es _ (system_start cfg fd0 (snd <$> conns))); [|..|done|done].
  - apply start_related; [done|]. intros fd. by split; [constructor|].
  - intros fd [l Hl]. cbn in Hl. rewrite lookup_fmap in Hl. apply elem_of_elements, elem_of_dom.
    destruct (conns !! fd); [eauto | done].
Qed.

(** ** Properties *)

(** C4: the deployed system refines the chat system, on a network that does what the
    transports rely on. Assumed are: every write is taken whole by the socket; an event
    finds one whole frame of the transport, read by any number of [recv] calls, and no
    byte of the next (partial writes, frames that span events and coalesced frames are
    not covered, they corrupt the stream); the calls of the clients through [framer], a
    null pointer, run as if there were a framer (part of [fresh_connections], the
    standard leaves them undefined); the handshakes are done; each client writes less
    than 2^32 bytes, and less than that waits for it. Under these the server on its
    sockets has accepted the connections of clients on theirs; then lines are typed,
    frames that were written arrive on the other side, and sockets become writable, in
    any order. Every such run has the outcome of a run of [System.v], in which each
    message arrives as it was sent, once and in order. When it ends well, that run ends
    in a state where the users, chats, sessions and handlers of the server are the same,
    every client is the same but for its transport and shows the same texts, and, for a
    client that has not closed its connection, the bytes in the buffers and on the wires
    are the frames of the messages that have not arrived. The time stamps of a run are
    all the same. *)
Theorem deployment_refines_system (cfg : AppConfig) (fd0 : Z) (conns : gmap Z (TcpClient * MessagingClient client_log))
    (es : list DeploymentEvent) :
  fresh_connections conns -> stays_small now rand can_open es (deployment_start now cfg fd0 conns) = true ->
  let '(r, d) := deployment_run now rand can_open es (deployment_start now cfg fd0 conns) in
  exists es' s, system_run now rand can_open es' (system_start cfg fd0 (snd <$> conns)) = (r, s) /\
    (r = Ok tt -> related any_batches d s /\
       forall fd c, dp_clients d !! fd = Some c ->
         exists l, sys_clients s !! fd = Some l /\ cc_ui (client_context c) = cc_ui (client_context l)).
Proof.
  intros Hc Hs. destruct (run_simulates es _ _ (start_related any_batches cfg fd0 conns Hc (fun _ => I)) Hs) as (es' & H1 & H2).
  destruct (deployment_run now rand can_open es _) as [r d]. cbn [fst snd] in *. exists es'.
  destruct (system_run now rand can_open es' _) as [r' s]. cbn [fst snd] in *. subst r'. exists s. split; [done|].
  intros ->. split; [by apply H2|]. intros fd c E. pose proof (H2 eq_refl) as Hrel. by apply (same_screen any_batches d).
Qed.

(** C5: and on such a network the deployed system does all the chat system does. The
    assumptions are those of the refinement: writes are taken whole, an event finds one
    whole frame and no byte of the next, the calls through the null [framer] of the
    clients run, the handshakes are done; and no client closes its connection, and what
    each writes or is sent stays below 2^32 bytes ([fits_wires]). To every run of
    [System.v] that succeeds there is then one of the deployed system that does the
    same: typed lines are typed, a message for the server arrives as its frame, by any
    number of [recv] calls, after which each socket of the server becomes writable once,
    and a message for a client arrives as its frame. No step of it fails, no message is
    lost, and at its end the two systems are in related states, in which no message
    waits in a buffer of the server and every frame on the wires is one message. The
    time stamps of a run are all the same. *)
Theorem system_deployable (cfg : AppConfig) (fd0 : Z) (conns : gmap Z (TcpClient * MessagingClient client_log))
    (cuts : list nat) (es : list SystemEvent) (s : System) :
  fresh_connections conns ->
  system_run now rand can_open es (system_start cfg fd0 (snd <$> conns)) = (Ok tt, s) -> fits_wires s = true ->
  exists d, deployment_run now rand can_open (concat (map (schedule cuts (elements (dom conns))) es))
      (deployment_start now cfg fd0 conns) = (Ok tt, d) /\ related one_by_one d s /\
    forall fd c, dp_clients d !! fd = Some c ->
      exists l, sys_clients s !! fd = Some l /\ cc_ui (client_context c) = cc_ui (client_context l).
Proof.
  intros Hc E Hs. destruct (scheduled_run cfg fd0 conns cuts es s Hc E Hs) as (d & Hd & Hr). exists d.
  split_and!; [done..|]. intros fd c. by apply (same_screen one_by_one d).
Qed.

End Runs.

(** ** The whole program *)

Section EndToEnd.
  Context {ssl : OpenSSL} {laws : OpenSSLLaws} {key_laws : OpenSSLKeyLaws} {nc : NullCalls} {ord : IterOrder}.
  Variable now : Z.
  Variable rand : Z -> nat -> option bytes.
  Variable can_open : string -> bool.

(** C3: the messenger over its sockets. Two clients have connected to a server that has
    just started and log in under different names, and one sends the other any number
    of private messages. The events come in the order of [schedule]: after a message has
    arrived at the server each of its sockets becomes writable once. All of it goes
    through the parsers, the handlers, the encryption, the framing, the send buffers and
    the sockets of both sides; every step succeeds, the author sees the greeting of the
    server and nothing else, and the recipient sees the greeting and then each text,
    once and in order. Assumed are, of the network and the compiler: writes are taken
    whole, an event finds one whole frame of the transport and no byte of the next, and
    the calls through the null [framer] of the clients run ([fresh_connections]); of
    OpenSSL: the laws of [OpenSSLLaws] and [OpenSSLKeyLaws] (key agreement for pairs
    with both private keys, decryption of what was encrypted below 2^31 bytes, signing),
    and that it does not fail to encrypt or to give random bytes ([encryption_works]);
    of the clients: both are fresh, with key pairs of their own; of the sizes: names and
    texts of words below 2^16 bytes, fewer than 2^64 messages, and less than 2^32 bytes
    on each wire. The time stamps of the run are all the same. *)
Theorem deployed_end_to_end cfg fd0 conns cuts fd na cA A dA iA sA fd' nb cB B dB iB sB msgs :
  fresh_connections conns -> conns !! fd = Some (cA, A) -> conns !! fd' = Some (cB, B) -> fd <> fd' -> na <> nb ->
  fresh A dA iA sA -> fresh B dB iB sB ->
  token_ok na = true -> token_ok nb = true -> zsize (sbytes na) < 2 ^ 16 -> zsize (sbytes nb) < 2 ^ 16 ->
  encryption_works rand fd (with_username (sbytes na) (client_context A)) (sbytes nb) dB iB ->
  forallb words_ok msgs = true -> zsize msgs < 2 ^ 64 ->
  let es := login_events fd na ++ login_events fd' nb ++ concat (map (events_of fd fd' nb) msgs) in
  fits_wires (system_run now rand can_open es (system_start cfg fd0 (snd <$> conns))).2 = true ->
  exists d A' B',
    deployment_run now rand can_open (concat (map (schedule cuts (elements (dom conns))) es))
      (deployment_start now cfg fd0 conns) = (Ok tt, d) /\
    dp_clients d !! fd = Some A' /\ dp_clients d !! fd' = Some B' /\
    cc_ui (client_context A') = ["Hello, " +:+ na +:+ "!"] /\
    cc_ui (client_context B') = ("Hello, " +:+ nb +:+ "!") ::
      map (fun l => private_text (sbytes na) (sbytes (unwords l))) msgs.
Proof.
  intros Hc HA HB Hne Hn FA FB Ha Hb Hsa Hsb Henc Hm Hl es Hf.
  destruct (messenger_end_to_end now rand can_open cfg fd0 (snd <$> conns) fd na A dA iA sA fd' nb B dB iB sB msgs)
    as (s & A1 & B1 & Hrun & HA1 & HB1 & HuA & HuB); try done; [by rewrite lookup_fmap, HA | by rewrite lookup_fmap, HB|].
  fold es in Hrun. rewrite Hrun in Hf.
  destruct (scheduled_run now rand can_open cfg fd0 conns cuts es s Hc Hrun Hf) as (d & Hd & Hr).
  destruct (screen_of one_by_one d s fd A1 Hr HA1) as (A' & HA' & HuA').
  destruct (screen_of one_by_one d s fd' B1 Hr HB1) as (B' & HB' & HuB').
  exists d, A', B'. by rewrite HuA', HuB'.
Qed.

End EndToEnd.

(** ** The properties on concrete clients *)

#[local] Existing Instances plain_ssl demo_nulls.

Lemma demo_unused : unused demo_tcp 7.
Proof. split; [exact demo_ready | reflexivity|]. apply (bool_decide_unpack _). vm_compute. reflexivity. Qed.

Definition demo_connections : gmap Z (TcpClient * MessagingClient client_log) :=
  <[5 := (demo_tcp, demo_fresh "a" "ia")]> {[6 := (demo_tcp, demo_fresh "b" "ib")]}.

Lemma demo_fresh_connections : fresh_connections demo_connections.
Proof.
  intros fd c l Hl. exists 7. unfold demo_connections in Hl.
  apply lookup_insert_Some in Hl as [[_ Hl]|[_ Hl]]; [|apply lookup_singleton_Some in Hl as [_ Hl]];
    injection Hl as <- <-; (split; [exact demo_unused | reflexivity]).
Qed.

(** Two users log in, and one writes to the other. *)
Definition demo_deployed : list DeploymentEvent :=
  [LineTyped 5 "/login ann"; FrameUp 5 [3; 9]; SocketWritable 5; FrameDown 5 [2];
   LineTyped 6 "/login bob"; FrameUp 6 []; SocketWritable 6; FrameDown 6 [1; 1; 1];
   LineTyped 5 "/pmess bob hello"; FrameUp 5 [6]; SocketWritable 5; FrameDown 5 []; FrameUp 5 [5; 5];
   SocketWritable 6; FrameDown 6 [4]]%string%nat.

Definition demo_final : outcome unit * Deployment :=
  deployment_run 0 (fun _ => demo_rand) (fun _ => true) demo_deployed (deployment_start 0 demo_config 0 demo_connections).

Definition demo_screen (fd : Z) : option (list string) :=
  (fun c => cc_ui (client_context c)) <$> dp_clients demo_final.2 !! fd.

Lemma deployment_refines_system_witness :
  exists es' s l, system_run 0 (fun _ => demo_rand) (fun _ => true) es' (system_start demo_config 0 (snd <$> demo_connections)) = (Ok tt, s) /\
    sys_clients s !! 6 = Some l /\
    cc_ui (client_context l) = ["Hello, bob!"; private_text (sbytes "ann") (sbytes "hello")].
Proof.
  assert (Hok : demo_final.1 = Ok tt) by (vm_compute; reflexivity).
  assert (Hui : demo_screen 6 = Some ["Hello, bob!"; private_text (sbytes "ann") (sbytes "hello")]%string)
    by (vm_compute; reflexivity).
  pose proof (deployment_refines_system 0 (fun _ => demo_rand) (fun _ => true) demo_config 0 demo_connections demo_deployed) as H.
  fold demo_final in H. unfold demo_screen in Hui. destruct demo_final as [r d]. cbn [fst snd] in Hok, Hui. subst r.
  destruct H as (es' & s & Hrun & Hd).
  - exact demo_fresh_connections.
  - vm_compute. reflexivity.
  - destruct (Hd eq_refl) as [_ Hcl]. destruct (dp_clients d !! 6) as [c|] eqn:Ec; [|discriminate].
    destruct (Hcl 6 c Ec) as (l & Hl & Hu). exists es', s, l. split; [exact Hrun|]. split; [exact Hl|].
    cbn in Hui. injection Hui as Hui. rewrite <- Hu. exact Hui.
Defined.

Definition demo_chat : list SystemEvent :=
  login_events 5 "ann" ++ login_events 6 "bob" ++ concat (map (events_of 5 6 "bob") [["hello"; "bob"]; ["bye"]])%string.

Definition demo_chat_end : outcome unit * System :=
  system_run 0 (fun _ => demo_rand) (fun _ => true) demo_chat (system_start demo_config 0 (snd <$> demo_connections)).

Lemma system_deployable_witness :
  exists d c, deployment_run 0 (fun _ => demo_rand) (fun _ => true)
      (concat (map (schedule [3; 2]%nat (elements (dom demo_connections))) demo_chat))
      (deployment_start 0 demo_config 0 demo_connections) = (Ok tt, d) /\
    related one_by_one d demo_chat_end.2 /\ dp_clients d !! 6 = Some c.
Proof.
  destruct (system_deployable 0 (fun _ => demo_rand) (fun _ => true) demo_config 0 demo_connections [3; 2]%nat demo_chat
    demo_chat_end.2 demo_fresh_connections) as (d & Hrun & Hr & _);
    [apply run_ok; vm_compute; reflexivity | vm_compute; reflexivity|].
  pose proof (rel_clients _ _ _ Hr 6) as Hc.
  assert (Hs : bool_decide (is_Some (sys_clients demo_chat_end.2 !! 6)) = true) by (vm_compute; reflexivity).
  destruct (sys_clients demo_chat_end.2 !! 6); [|discriminate]. inversion Hc as [c ? ? E|].
  exists d, c. split; [exact Hrun|]. split; [exact Hr | symmetry; exact E].
Defined.

Lemma deployed_end_to_end_witness :
  exists d B', deployment_run 0 (fun _ => demo_rand) (fun _ => true)
      (concat (map (schedule [3; 2]%nat (elements (dom demo_connections))) demo_chat))
      (deployment_start 0 demo_config 0 demo_connections) = (Ok tt, d) /\
    dp_clients d !! 6 = Some B' /\
    cc_ui (client_context B') = ["Hello, bob!"; private_text (sbytes "ann") (sbytes "hello bob"); private_text (sbytes "ann") (sbytes "bye")].
Proof.
  destruct (deployed_end_to_end 0 (fun _ => demo_rand) (fun _ => true) demo_config 0 demo_connections [3; 2]%nat
    5 "ann" demo_tcp (demo_fresh "a" "ia") (sbytes "a") (sbytes "ia") (sbytes "a")
    6 "bob" demo_tcp (demo_fresh "b" "ib") (sbytes "b") (sbytes "ib") (sbytes "b") [["hello"; "bob"]; ["bye"]]%string)
    as (d & A' & B' & Hrun & _ & HB & _ & HuB); [exact demo_fresh_connections | reflexivity | reflexivity | lia | discriminate
      | by apply demo_fresh_ok | by apply demo_fresh_ok | reflexivity | reflexivity | reflexivity | reflexivity
      | by apply demo_encryption_works | reflexivity | reflexivity | vm_compute; reflexivity|].
  exists d, B'. split; [exact Hrun|]. split; [exact HB | exact HuB].
Defined.
