(* ===== verification/PeerConnection.v ===== *)
(** [PeerConnection] of [src/transport/connection.cpp], which nothing uses: the code of
    [ClientConnection], but its constructor sets the transport and not the framer. *)
From S2P Require Import Prelude Message Framing Transport TransportSpec Stack ClientStack.

(** [pcn_framer] is whether [framer] points to a framer. *)
Record PeerConnection := {
  pcn_framer : bool;
  pcn_transport : StreamTransport;
  pcn_recv_buffer : bytes;
  pcn_send_buffer : bytes;
}.

Definition PeerConnection_make : PeerConnection :=
  {| pcn_framer := false; pcn_transport := {| accumulation_buffer := [] |}; pcn_recv_buffer := []; pcn_send_buffer := [] |}.

Section PeerConnection.
  Context {nc : NullCalls}.

(** Calling a function of [FramerMessage] through [framer]. *)
Definition with_framer {A} (c : PeerConnection) (r : outcome A) : outcome A :=
  if pcn_framer c || null_call_runs then r else Undef.

Definition PeerConnection_has_complete_message (c : PeerConnection) : outcome bool :=
  with_framer c (has_message_in_buffer (pcn_recv_buffer c)).

Definition PeerConnection_flush (c : PeerConnection) (s : Socket) : outcome (bool * PeerConnection * Socket) :=
  if is_empty (pcn_send_buffer c) then Ok (true, c, s)
  else
    let '(sent, again, s) := transport_send_data (pcn_send_buffer c) s in
    if 0 <? sent then
      rest ← range (pcn_send_buffer c) sent (zsize (pcn_send_buffer c));
      Ok (is_empty rest, {| pcn_framer := pcn_framer c; pcn_transport := pcn_transport c;
                            pcn_recv_buffer := pcn_recv_buffer c; pcn_send_buffer := rest |}, s)
    else Ok ((sent =? -1) && again, c, s).

Definition PeerConnection_init_transport (t : StreamTransport) (c : PeerConnection) : PeerConnection :=
  {| pcn_framer := pcn_framer c; pcn_transport := t; pcn_recv_buffer := pcn_recv_buffer c;
     pcn_send_buffer := pcn_send_buffer c |}.

Definition PeerConnection_try_receive (c : PeerConnection) (s : Socket) : outcome (bool * PeerConnection * Socket) :=
  '(result, t, s) ← transport_receive (pcn_transport c) s;
  data ← NetBuffer_contents (rr_data result);
  Ok (bool_decide (rr_status result = ROk \/ rr_status result = RWouldBlock),
      {| pcn_framer := pcn_framer c; pcn_transport := t; pcn_recv_buffer := pcn_recv_buffer c ++ data;
         pcn_send_buffer := pcn_send_buffer c |}, s).

Definition PeerConnection_extract_message (c : PeerConnection) : outcome (bytes * PeerConnection) :=
  '(m, rest) ← with_framer c (extract_message (pcn_recv_buffer c));
  Ok (m, {| pcn_framer := pcn_framer c; pcn_transport := pcn_transport c; pcn_recv_buffer := rest;
            pcn_send_buffer := pcn_send_buffer c |}).

Definition PeerConnection_queue_send (data : bytes) (c : PeerConnection) : outcome PeerConnection :=
  with_framer c
    (Ok {| pcn_framer := pcn_framer c; pcn_transport := pcn_transport c; pcn_recv_buffer := pcn_recv_buffer c;
           pcn_send_buffer := form_message data (pcn_send_buffer c) |}).

(** ** What it does *)

(** What happens to a connection over its life. *)
Inductive pconn_call : PeerConnection -> PeerConnection -> Prop :=
| pconn_flush c s r c' s' : PeerConnection_flush c s = Ok (r, c', s') -> pconn_call c c'
| pconn_init t c : pconn_call c (PeerConnection_init_transport t c)
| pconn_receive c s r c' s' : PeerConnection_try_receive c s = Ok (r, c', s') -> pconn_call c c'
| pconn_extract c m c' : PeerConnection_extract_message c = Ok (m, c') -> pconn_call c c'
| pconn_queue data c c' : PeerConnection_queue_send data c = Ok c' -> pconn_call c c'.

Lemma pconn_framer c : rtc pconn_call PeerConnection_make c -> pcn_framer c = false.
Proof.
  assert (H0 : pcn_framer PeerConnection_make = false) by done. revert H0. generalize PeerConnection_make.
  intros c0 H0 Hr. induction Hr as [|c0 c1 c2 Hs _ IH]; [done|]. apply IH. clear IH. revert H0.
  destruct Hs as [c s r c' s' E|t c|c s r c' s' E|c m c' E|data c c' E]; intros H0; [..|].
  - revert E. unfold PeerConnection_flush. destruct (is_empty _); [by intros [= <- <- <-]|].
    destruct (transport_send_data _ _) as [[sent again] s1]. destruct (0 <? sent); [|by intros [= <- <- <-]].
    destruct (range _ _ _); cbn; [by intros [= <- <- <-] | done..].
  - done.
  - revert E. unfold PeerConnection_try_receive. destruct (transport_receive _ _) as [[[res t] s1]| |]; cbn; [|done..].
    destruct (NetBuffer_contents _); cbn; [by intros [= <- <- <-] | done..].
  - revert E. unfold PeerConnection_extract_message, with_framer.
    destruct (_ || _); [|done]. destruct (extract_message _) as [[x rest]| |]; cbn; [by intros [= <- <-] | done..].
  - revert E. unfold PeerConnection_queue_send, with_framer. destruct (_ || _); [by intros [= <-] | done].
Qed.

(** The connection as one of [ClientConnection]. *)
Definition as_connection (c : PeerConnection) : Connection :=
  {| cn_transport := pcn_transport c; recv_buffer := pcn_recv_buffer c; send_buffer := pcn_send_buffer c |}.

Definition fmap_outcome {A B} (f : A -> B) (r : outcome A) : outcome B :=
  match r with Ok a => Ok (f a) | Throw e => Throw e | Undef => Undef end.

(** A [PeerConnection] reads and flushes like a [ClientConnection], in every state it
    can reach; whatever involves the framer is a call through a null pointer: where
    such a call runs it does what [ClientConnection] does, and it is undefined
    otherwise. *)
Theorem peer_connection_agrees (c : PeerConnection) (s : Socket) (data : bytes) :
  rtc pconn_call PeerConnection_make c ->
  Connection_flush (as_connection c) s
    = fmap_outcome (fun '(r, c', s') => (r, as_connection c', s')) (PeerConnection_flush c s) /\
  Connection_try_receive (as_connection c) s
    = fmap_outcome (fun '(r, c', s') => (r, as_connection c', s')) (PeerConnection_try_receive c s) /\
  if null_call_runs then
    PeerConnection_has_complete_message c = Connection_has_complete_message (as_connection c) /\
    Connection_extract_message (as_connection c)
      = fmap_outcome (fun '(m, c') => (m, as_connection c')) (PeerConnection_extract_message c) /\
    fmap_outcome as_connection (PeerConnection_queue_send data c) = Ok (Connection_queue_send data (as_connection c))
  else
    PeerConnection_has_complete_message c = Undef /\ PeerConnection_extract_message c = Undef /\
    PeerConnection_queue_send data c = Undef.
Proof.
  intros Hf%pconn_framer. split_and!.
  - unfold Connection_flush, PeerConnection_flush. cbn [as_connection send_buffer]. destruct (is_empty _); [done|].
    destruct (transport_send_data _ _) as [[sent again] s1]. destruct (0 <? sent); [|done].
    by destruct (range _ _ _).
  - unfold Connection_try_receive, PeerConnection_try_receive. cbn [as_connection cn_transport].
    destruct (transport_receive _ _) as [[[res t] s1]| |]; cbn; [|done..]. by destruct (NetBuffer_contents _).
  - unfold PeerConnection_has_complete_message, PeerConnection_extract_message, PeerConnection_queue_send,
      Connection_has_complete_message, Connection_extract_message, with_framer. rewrite Hf. cbn [orb].
    destruct null_call_runs; [|done]. split_and!; [done| |done]. cbn [as_connection recv_buffer].
    by destruct (extract_message _) as [[m rest]| |].
Qed.

End PeerConnection.
