(* ===== verification/Logger.v ===== *)
(** Logging: [src/infrastructure/logging/logger.cpp], in both of its versions. The
    library log4cplus is a parameter: a logger hands an event to each of its appenders
    when its level admits the event. *)
From S2P Require Import Prelude.

(** ** The library *)

Inductive LogLevel :=
| DEBUG_LOG_LEVEL
| INFO_LOG_LEVEL
| WARN_LOG_LEVEL
| ERROR_LOG_LEVEL.

Definition log_rank (l : LogLevel) : nat :=
  match l with DEBUG_LOG_LEVEL => 0 | INFO_LOG_LEVEL => 1 | WARN_LOG_LEVEL => 2 | ERROR_LOG_LEVEL => 3 end.

(** The logger the program asks for by its name, with what is seen of it: how many
    appenders it has, from which level on it logs, and what its appenders were given. *)
Class Log4cplus := {
  Log4 : Type;
  getInstance : Log4;
  addAppender : Log4 -> Log4;
  setLogLevel : LogLevel -> Log4 -> Log4;
  forcedLog : LogLevel -> string -> Log4 -> Log4;
  appenders : Log4 -> nat;
  log_level : Log4 -> LogLevel;
  written_lines : Log4 -> list (LogLevel * string);
}.

Class Log4cplusLaws {lib : Log4cplus} := {
  fresh_appenders : appenders getInstance = 0%nat;
  fresh_lines : written_lines getInstance = [];
  add_appenders l : appenders (addAppender l) = S (appenders l);
  add_lines l : written_lines (addAppender l) = written_lines l;
  set_appenders v l : appenders (setLogLevel v l) = appenders l;
  set_level v l : log_level (setLogLevel v l) = v;
  set_lines v l : written_lines (setLogLevel v l) = written_lines l;
  log_appenders v m l : appenders (forcedLog v m l) = appenders l;
  log_keeps_level v m l : log_level (forcedLog v m l) = log_level l;
  log_lines v m l : written_lines (forcedLog v m l)
    = written_lines l ++ (if (log_rank (log_level l) <=? log_rank v)%nat then replicate (appenders l) (v, m) else []);
}.

(** ** The program's functions *)

Section Logger.
  Context {lib : Log4cplus}.
  (** [MESSENGER_WITH_LOG4CPLUS]. *)
  Variable with_log4cplus : bool.

(** The static variables. *)
Record LogState := {
  initialized : bool;
  logger : Log4;
}.

Definition LogState_make : LogState := {| initialized := false; logger := getInstance |}.

Definition init (s : LogState) : LogState :=
  if negb with_log4cplus then s
  else if initialized s then s
  else {| initialized := true; logger := setLogLevel DEBUG_LOG_LEVEL (addAppender (logger s)) |}.

Definition log_at (v : LogLevel) (message : string) (s : LogState) : LogState :=
  if with_log4cplus then {| initialized := initialized s; logger := forcedLog v message (logger s) |} else s.

Definition log_info : string -> LogState -> LogState := log_at INFO_LOG_LEVEL.

Definition log_warn : string -> LogState -> LogState := log_at WARN_LOG_LEVEL.

Definition log_error : string -> LogState -> LogState := log_at ERROR_LOG_LEVEL.

Definition log_debug : string -> LogState -> LogState := log_at DEBUG_LOG_LEVEL.

(** What the program does with its log. *)
Inductive LogCall :=
| CallInit
| CallLog (v : LogLevel) (message : string).

Definition log_call (s : LogState) (c : LogCall) : LogState :=
  match c with
  | CallInit => init s
  | CallLog INFO_LOG_LEVEL m => log_info m s
  | CallLog WARN_LOG_LEVEL m => log_warn m s
  | CallLog ERROR_LOG_LEVEL m => log_error m s
  | CallLog DEBUG_LOG_LEVEL m => log_debug m s
  end.

Definition log_run (cs : list LogCall) : LogState := foldl log_call LogState_make cs.

(** The lines one expects: those logged after the first [init]. *)
Fixpoint expected_lines (started : bool) (cs : list LogCall) : list (LogLevel * string) :=
  match cs with
  | [] => []
  | CallInit :: cs => expected_lines true cs
  | CallLog v m :: cs => if started then (v, m) :: expected_lines started cs else expected_lines started cs
  end.

(** The logger is as [init] has or has not left it. *)
Definition log_ok (s : LogState) : Prop :=
  if initialized s then appenders (logger s) = 1%nat /\ log_level (logger s) = DEBUG_LOG_LEVEL
  else appenders (logger s) = 0%nat.

Lemma log_call_eq s v m : log_call s (CallLog v m) = log_at v m s.
Proof. by destruct v. Qed.

Context {laws : Log4cplusLaws}.

Lemma log_call_ok s c : with_log4cplus = true -> log_ok s ->
  log_ok (log_call s c) /\
  initialized (log_call s c) = (match c with CallInit => true | _ => initialized s end) /\
  written_lines (logger (log_call s c)) = written_lines (logger s) ++ expected_lines (initialized s) [c].
Proof.
  unfold log_ok. intros Hw Hs. destruct c as [|v m]; [cbn [log_call]|rewrite log_call_eq]; unfold init, log_at; rewrite Hw; cbn [negb].
  - destruct (initialized s) eqn:E; rewrite ?E; [by rewrite app_nil_r|]. cbn.
    by rewrite set_appenders, set_level, set_lines, add_appenders, add_lines, Hs, app_nil_r.
  - cbn. rewrite log_appenders, log_keeps_level, log_lines. destruct (initialized s).
    + destruct Hs as [-> ->]. done.
    + rewrite Hs. by destruct (_ <=? _)%nat.
Qed.

(** Logging: however often [init] is called, each message that is logged after its
    first call appears once and in order, and nothing else; without the library
    nothing is logged. *)
Theorem log_writes_once (cs : list LogCall) :
  written_lines (logger (log_run cs)) = if with_log4cplus then expected_lines false cs else [].
Proof.
  unfold log_run. destruct with_log4cplus eqn:Hw.
  - enough (forall s, log_ok s -> written_lines (logger (foldl log_call s cs))
      = written_lines (logger s) ++ expected_lines (initialized s) cs) as H.
    { rewrite H by apply fresh_appenders. cbn. by rewrite fresh_lines. }
    induction cs as [|c cs IH]; intros s Hs; cbn [foldl]; [by rewrite app_nil_r|].
    destruct (log_call_ok s c Hw Hs) as (H1 & H2 & H3). rewrite IH, H2, H3 by done.
    destruct c as [|v m]; cbn; [by rewrite app_nil_r|]. destruct (initialized s); cbn; by rewrite <- ?app_assoc, ?app_nil_r.
  - enough (foldl log_call LogState_make cs = LogState_make) as -> by apply fresh_lines.
    induction cs as [|c cs IH]; [done|]. cbn [foldl]. replace (log_call LogState_make c) with LogState_make; [done|].
    destruct c as [|v m]; [cbn [log_call]|rewrite log_call_eq]; unfold init, log_at; by rewrite Hw.
Qed.

End Logger.

(** ** A library that obeys the laws *)

Record list_log := { ll_appenders : nat; ll_level : LogLevel; ll_lines : list (LogLevel * string) }.

#[local] Instance list_log4cplus : Log4cplus := {|
  Log4 := list_log;
  getInstance := {| ll_appenders := 0; ll_level := ERROR_LOG_LEVEL; ll_lines := [] |};
  addAppender l := {| ll_appenders := S (ll_appenders l); ll_level := ll_level l; ll_lines := ll_lines l |};
  setLogLevel v l := {| ll_appenders := ll_appenders l; ll_level := v; ll_lines := ll_lines l |};
  forcedLog v m l := {| ll_appenders := ll_appenders l; ll_level := ll_level l;
    ll_lines := ll_lines l ++ (if (log_rank (ll_level l) <=? log_rank v)%nat then replicate (ll_appenders l) (v, m) else []) |};
  appenders := ll_appenders;
  log_level := ll_level;
  written_lines := ll_lines;
|}.

#[local] Instance list_log4cplus_laws : Log4cplusLaws.
Proof. by constructor. Qed.

Lemma log_writes_once_example :
  written_lines (logger (log_run true [CallLog ERROR_LOG_LEVEL "early"; CallInit; CallLog INFO_LOG_LEVEL "up"; CallInit;
    CallLog DEBUG_LOG_LEVEL "in"])) = [(INFO_LOG_LEVEL, "up"); (DEBUG_LOG_LEVEL, "in")]%string.
Proof. apply (log_writes_once true). Qed.
